(* ===== verification/_CoqProject ===== *)
-Q . S2P
Prelude.v
CMem.v
Phys.v
Pmm.v
Vmm.v
Heap.v
Guard.v
CString.v
Term.v
Fb.v
Vfs.v
Tarfs.v
Bootfs.v
Fd.v
Files.v
Streams.v
Bstree.v
Vma.v
Words.v
Chain.v
Sched.v
Cpuid.v
Clock.v
Elf.v
Stack.v
Proc.v
Desc.v
Entry.v
Debug.v
Pic.v
Apic.v
Dispatch.v
Uacpi.v
Syscall.v
Panic.v
Fpu.v
Kernel.v
Boot.v
Init.v
