(* ===== verification/Prelude.v ===== *)
(** * ReddyOS: a verification development of the kernel

    ReddyOS is a hobby x86-64 kernel in C. This library models the kernel's
    memory management, its filesystem, file descriptors, virtual memory areas,
    threads, scheduler, clocks, interrupts, system calls and boot, from the C and assembly
    sources under src/src and src/headers, and proves what they do. File names below are relative to src/.

    ** How the code is modelled

    A kernel function is a function of the monad [M St] of this file: it takes
    the part [St] of the kernel's state it works on and completes ([Done]),
    calls panic ([Panic]), reaches undefined behaviour ([Undef]: a NULL function
    pointer, an access outside an array, a pointer read from data of another
    type, an object used after it was freed), or runs out of the fuel a loop was
    given ([OutOfFuel]). Integers of a machine width are [Z] with the wrap-around
    written out ([u64], [i32], ...). Memory is a finite map from addresses to
    bytes (CMem.v) where the code lives on addresses: page tables, free lists,
    heap headers, C strings, file data. Where the code keeps typed heap objects
    (files, descriptors, areas) the state has a map per type of object, from
    address to contents, and the heap that hands the addresses out.

    ** Files

    - Prelude.v: the monad, loops, machine integers, the alignment macros of
      headers/kernel_common, tactics and general lemmas.
    - CMem.v: kernel_common/c_generic/gcc_mem.c (memcpy, memset, memmove, memcmp)
      on byte memories, with the lemmas that say what a load sees after a store.
    - Phys.v: the direct map ([Hhdm], phys_to_virt, virt_to_phys) and the
      interface [PageAllocator] with its laws [PageAllocatorLaws].
    - Pmm.v: memory/pmm.c. [pmm_rep] relates the list threaded through the free
      pages to a list of page numbers; filling, allocating and freeing refine
      the operations on that list, and the pages are conserved over every run.
      Pmm.v implements [PageAllocator].
    - Vmm.v: memory/vmm.c against [PageAllocator]: four-level tables in memory.
      [pt_wf] says a set of pages forms a table tree, [spec_translate] the map it
      stands for; mapping and unmapping change that map at one page. [mmu] is the
      processor's walk with its permissions. Creating and destroying address
      spaces, and which pages destroying returns.
    - Heap.v: memory/heap.c on top of Vmm.v. [heap_inv] relates the block headers
      in memory to a list of blocks; kmalloc and kfree refine first fit on it.
      The interface [ObjectHeap] states what the heap promises to code that keeps
      objects in it; the kernel heap implements it ([kernel_object_heap_laws]).
    - Guard.v: heap.c built with KMALLOC_CANARY, as run.sh builds it: every allocation in
      pages of its own between unmapped pages. It implements [ObjectHeap] too, so what is
      proved of the clients of the heap holds in both builds.
    - CString.v: c_generic/string.c and itoa.c on strings in memory.
    - Term.v: kernel_common/terminal.c: port writes as a log, the UART's line
      status as an input stream that becomes ready within a bound ([Uart]).
    - Fb.v: framebuffer/fb.c (read, write, ioctl).
    - Vfs.v: filesystem/vfs/vfs.c, vfs/mount.c and fs/devfs/devfs.c. The static
      vnode arrays of the two filesystems are the state; a vnode pointer names an
      array slot. [resolve] is the specification of path lookup. The errno, S_IF
      and SEEK constants come from the C library's headers, a submodule: they are
      the class [Abi], with the inequalities the code relies on.
    - Tarfs.v: fs/tarfs/tarfs.c; [archive] says what bytes an archive of a list of
      files is, with "./" before the names as the build makes it or without, and
      reading it gives those files back.
    - Fd.v: filesystem/fd/fd.c and syscalls/fs/fs.c against [ObjectHeap].
      [open_file] is the file behind each descriptor of each process; [fd_inv] the
      invariant of the tables.
    - Files.v: the file system calls as an abstract machine on a map from descriptors to
      open files ([spec_step]); Fd.v refines it over every sequence of calls, and every
      state [reachable] from boot has tables of the right types.
    - Bstree.v: the interface of the search trees of external/ftrees (a submodule)
      and an instance.
    - Vma.v: memory/vma.c, syscalls/memory/memory.c and fb_vma_fault, against
      [ObjectHeap], [Bstree] and the page tables ([UserMap]). [vma_inv] says that
      the areas in tree order are non-empty, disjoint and above VMA_BASE;
      [covered] the addresses a process has.
    - Words.v and Chain.v: words pushed on stacks that grow down, and linked lists
      of heap objects, shared by the files below.
    - Sched.v: scheduler/scheduler.c, thread.c and thread.asm against [ObjectHeap]
      and [KernelMem] (memory and CR3). The state has the CPU's registers, and the
      context switch runs instruction by instruction. [sched_inv] is the state of
      the run queue; [turns] are the runs of threads and switches in alternation.
    - Clock.v: time/clocks.c with its four sources, helpers_time.h, acpi/fadt.c and
      syscalls/time. The machine's counters are functions of a time that every
      read advances ([ClockHw]); [clocks_inv] is the list of sources.
    - Elf.v: kernel_common/elf.c against [ObjectHeap], [UserMap] and [AddrSpaces].
      [spec_info] is what the ELF-64 format says of the bytes of a file, [mapped] that an address
      space maps a range to frames that do not overlap.
    - Cpuid.v: headers/kernel_common/c_generic/cpuid.h, what the processor says of itself.
    - Stack.v: headers/scheduler/process_stack.h and the initial stack of
      scheduler/process.c, written through the page tables of the process. [shows]
      relates it to a flat memory; [abi_auxv] and the others read it as a program does.
    - Proc.v: scheduler/process.c and the page-fault handler and init task of main.c,
      over the scheduler's state, with what it contains, and the pid counter. It
      is where the components meet; [UserPages] states what stack growth needs of the
      page tables, that ring 3 may use the new page, which the kernel's provide ([kernel_user_pages]).
    - Desc.v: interrupts/idt.c, gdt.c and irq_install, on the bytes of the tables;
      [gate_at], [segment_at] and [io_allowed] are the processor's reading of them.
    - Entry.v: interrupts/isr.asm, irq.asm and syscalls/syscall_entry.asm instruction by
      instruction. [deliver], [iretq], [syscall] and [sysret] are the processor's; the
      frame the handler gets, and that returning restores what was interrupted.
    - Debug.v: the printers of isr.c, core_dump.c and clocks.c that the kernel has for debugging.
    - Pic.v: the PIC part of interrupts/irq.c. A PIC is a device with its initialisation
      sequence ([pic_outb]); [unmasked] says which lines reach the processor.
    - Apic.v: acpi/madt.c, interrupts/apic/lapic.c and ioapic.c. The MADT is bytes ([madt_mem],
      laid out as [MadtLayout] says); the local APIC's count is a function of time.
    - Dispatch.v: interrupts/isr.c and the dispatch of irq.c, over the interfaces [Handlers],
      [Controllers] and [Console].
    - Uacpi.v: acpi/uacpi_kernel.c, what uACPI asks of the kernel: memory, ports, locks, events,
      interrupt handlers, deferred work. [lock_step] interleaves threads on a lock; [runs] is the
      order in which deferred work runs.
    - Syscall.v: syscalls/syscalls.c, headers/syscalls/def.h and the wrappers, on the state of
      the whole kernel ([kernel_state]). [system_calls] is the interface, number by number.
    - Panic.v: interrupts/panic.c, asserts.c and the table printer of memory/vmm.c.
    - Fpu.v: init/fpu.c: the FPU's registers, their image in memory, and the reset.
    - Kernel.v: main.c, acpi/acpi.c, fb_init and tarsf_limine_init, with the
      instances of the interfaces of Dispatch.v: the interrupt handlers on the whole kernel.
    - Bootfs.v and Boot.v: the composition of the components at boot. [booted] is what
      init_filesystem and register_devices of main.c leave: the files, the devices, the
      framebuffer, and the tables of open files Fd.v starts from. Streams.v is what a new
      process gets on such tables; the last theorem of Boot.v goes from the archive in memory
      to the bytes a program reads.
    - Init.v: system/init/src/main.c, the user program, over the libraries it calls ([InitLib]).

    ** Fuel

    A loop takes as many steps as fuel allows and is [OutOfFuel] otherwise; every
    property that states a result shows that the fuel suffices. The fuel is the
    number of blocks the heap region can hold (find_block), the number of map
    entries (pmm_fill), the length of the path (vfs_find_vnode), the number of
    nodes (vma_overlaps), the bound of the UART (terminal_wait); for C strings,
    archives and page lists it is an argument, and the theorems ask that it
    exceeds the length of what is read.

    ** Not modelled

    Code outside the repository: the C library headers, uACPI, the tree library,
    the boot loader. tar_stat, which is never called; the part of core_dump.c, also never
    called, that jumps back into a stack frame that is gone; limine_requests.c, which is data
    for the boot loader.

    The contents of user pages are the memory of files and devices ([io_mem]), apart from the
    memory that holds page tables and heap: that frames of one are not frames of the other is what
    Pmm.v shows of the allocator. Handlers run to their end one after the other; that the kernel
    can be interrupted while it runs is modelled where a theorem speaks of it (Entry.v,
    Uacpi.v), not for every function.
*)
From stdpp Require Export base numbers list gmap strings.
From Stdlib Require Export ZArith Lia.

#[global] Open Scope Z_scope.

(** ** Outcomes of kernel code *)

(** What running a piece of kernel code does: it completes; it calls [panic]
    (which halts the machine for ever); it reaches a point to which C gives no
    meaning (a call through a NULL function pointer, an access outside an
    array, a pointer read from data of another type); or the fuel given to a
    loop was not enough to see it end. *)
Inductive outcome (A : Type) : Type :=
  | Done (a : A)
  | Panic (msg : string)
  | Undef (msg : string)
  | OutOfFuel.
Arguments Done {A} a.
Arguments Panic {A} msg.
Arguments Undef {A} msg.
Arguments OutOfFuel {A}.

#[global] Instance outcome_ret : MRet outcome := λ A a, Done a.
#[global] Instance outcome_bind : MBind outcome := λ A B f m,
  match m with
  | Done a => f a
  | Panic msg => Panic msg
  | Undef msg => Undef msg
  | OutOfFuel => OutOfFuel
  end.

(** The two parts of a completed run, for evaluating programs on examples. *)
Definition result_of {A St} (o : outcome (A * St)) : option A :=
  match o with Done (a, _) => Some a | _ => None end.
Definition state_of {A St} (s : St) (o : outcome (A * St)) : St :=
  match o with Done (_, s') => s' | _ => s end.

(** Stateful kernel code over a state [St]. *)
Definition M (St A : Type) : Type := St → outcome (A * St).

#[global] Instance M_ret St : MRet (M St) := λ A a s, Done (a, s).
#[global] Instance M_bind St : MBind (M St) := λ A B f m s,
  match m s with
  | Done (a, s') => f a s'
  | Panic msg => Panic msg
  | Undef msg => Undef msg
  | OutOfFuel => OutOfFuel
  end.

Definition gets {St A} (f : St → A) : M St A := λ s, Done (f s, s).
Definition modify {St} (f : St → St) : M St unit := λ s, Done (tt, f s).
Definition mpanic {St A} (msg : string) : M St A := λ _, Panic msg.
Definition mundef {St A} (msg : string) : M St A := λ _, Undef msg.
Definition lift_o {St A} (o : outcome A) : M St A := λ s,
  match o with
  | Done a => Done (a, s)
  | Panic msg => Panic msg
  | Undef msg => Undef msg
  | OutOfFuel => OutOfFuel
  end.

(** Code over a part [T] of a state [St], run on the whole. *)
Definition zoom {St T A} (get : St → T) (put : T → St → St) (m : M T A) : M St A := λ s,
  match m (get s) with
  | Done (a, t) => Done (a, put t s)
  | Panic msg => Panic msg
  | Undef msg => Undef msg
  | OutOfFuel => OutOfFuel
  end.

(** for (x in l) f(x); *)
Fixpoint for_each {St A} (l : list A) (f : A → M St unit) : M St unit :=
  match l with
  | [] => mret tt
  | x :: l' => _ ← f x; for_each l' f
  end.

(** [while (cond) step] with the loop's variables as the state [X]. *)
Fixpoint loop {X} (cond : X → bool) (step : X → outcome X) (fuel : nat) (x : X) : outcome X :=
  if cond x then
    match fuel with
    | O => OutOfFuel
    | S k => x' ← step x; loop cond step k x'
    end
  else Done x.

(** ** Machine integers: a value of a [w]-bit type as its representative in [Z] *)

Definition u64 (z : Z) : Z := z mod 2 ^ 64.
Definition u32 (z : Z) : Z := z mod 2 ^ 32.
Definition u16 (z : Z) : Z := z mod 2 ^ 16.
Definition u8 (z : Z) : Z := z mod 2 ^ 8.
Definition i64 (z : Z) : Z := (z + 2 ^ 63) mod 2 ^ 64 - 2 ^ 63.
Definition i32 (z : Z) : Z := (z + 2 ^ 31) mod 2 ^ 32 - 2 ^ 31.

Definition PAGE_SIZE : Z := 4096.

(** The alignment macros of headers/kernel_common/helpers_extra.h. *)
Definition ALIGN_UP (x align : Z) : Z :=
  Z.land (u64 (u64 x + (align - 1))) (u64 (Z.lnot (u64 (align - 1)))).
Definition ALIGN_DOWN (x align : Z) : Z :=
  Z.land (u64 x) (u64 (Z.lnot (u64 (align - 1)))).
Definition IS_ALIGNED (x align : Z) : bool :=
  Z.land (u64 x) (align - 1) =? 0.

(** ** Lemmas on outcomes *)

Section outcome_lemmas.
Context {St A B : Type}.

Lemma bind_Done (m : M St A) (f : A → M St B) s a s' :
  m s = Done (a, s') → (m ≫= f) s = f a s'.
Proof. intros H. unfold mbind, M_bind. by rewrite H. Qed.

Lemma modify_bind (f : St → St) (g : () → M St B) s : (modify f ≫= g) s = g tt (f s).
Proof. reflexivity. Qed.
Lemma gets_bind (f : St → A) (g : A → M St B) s : (gets f ≫= g) s = g (f s) s.
Proof. reflexivity. Qed.

Lemma bind_inv (m : M St A) (f : A → M St B) s r :
  (m ≫= f) s = Done r → ∃ a s', m s = Done (a, s') ∧ f a s' = Done r.
Proof.
  unfold mbind, M_bind. destruct (m s) as [[a s']| | |]; try discriminate. eauto.
Qed.

Lemma result_of_Done (o : outcome (A * St)) a s :
  result_of o = Some a → o = Done (a, state_of s o).
Proof. destruct o as [[a' s']| | |]; try discriminate. by intros [= ->]. Qed.

Lemma Done_fun (m : M St A) s a b s1 s2 :
  m s = Done (a, s1) → m s = Done (b, s2) → a = b ∧ s1 = s2.
Proof. intros -> H. by injection H. Qed.

Lemma zoom_Done {T} (get : St → T) (put : T → St → St) (m : M T A) s a t :
  m (get s) = Done (a, t) → zoom get put m s = Done (a, put t s).
Proof. intros H. unfold zoom. by rewrite H. Qed.

Lemma zoom_inv {T} (get : St → T) (put : T → St → St) (m : M T A) s a s' :
  zoom get put m s = Done (a, s') → ∃ t, m (get s) = Done (a, t) ∧ s' = put t s.
Proof.
  unfold zoom. destruct (m (get s)) as [[a' t]| | |]; try discriminate.
  intros [= <- <-]. eauto.
Qed.
End outcome_lemmas.

Section loop_lemmas.
Context {X : Type} (cond : X → bool) (step : X → outcome X).

(** Total correctness of a loop: an invariant, and a measure that each
    iteration decreases and that the fuel bounds. *)
Lemma loop_total (I : X → Prop) (μ : X → nat) fuel x :
  (∀ y, I y → cond y = true → ∃ y', step y = Done y' ∧ I y' ∧ (μ y' < μ y)%nat) →
  I x → (μ x ≤ fuel)%nat →
  ∃ x', loop cond step fuel x = Done x' ∧ I x' ∧ cond x' = false.
Proof.
  intros Hstep. revert x. induction fuel as [|k IH]; intros x HI Hμ; simpl.
  - destruct (cond x) eqn:E; [|eauto].
    destruct (Hstep x HI E) as (y & _ & _ & ?). lia.
  - destruct (cond x) eqn:E; [|eauto].
    destruct (Hstep x HI E) as (y & -> & HIy & ?). simpl. apply IH; [done|lia].
Qed.

(** Partial correctness: what holds of every completed run. *)
Lemma loop_partial (I : X → Prop) fuel x x' :
  (∀ y y', I y → cond y = true → step y = Done y' → I y') →
  I x → loop cond step fuel x = Done x' → I x' ∧ cond x' = false.
Proof.
  intros Hstep. revert x. induction fuel as [|k IH]; intros x HI; simpl;
    destruct (cond x) eqn:E; try discriminate.
  - by intros [= <-].
  - destruct (step x) as [y| | |] eqn:Ey; try discriminate. simpl. eauto.
  - by intros [= <-].
Qed.

(** A loop whose steps keep a property under which the condition holds never
    completes, whatever the fuel. *)
Lemma loop_diverges (I : X → Prop) fuel x :
  (∀ y, I y → cond y = true ∧ ∃ y', step y = Done y' ∧ I y') →
  I x → loop cond step fuel x = OutOfFuel.
Proof.
  intros Hstep. revert x. induction fuel as [|k IH]; intros x HI; simpl;
    destruct (Hstep x HI) as [-> (y & Hy & HIy)]; [done|].
  rewrite Hy. simpl. by apply IH.
Qed.

Lemma loop_fuel_mono fuel fuel' x x' :
  (fuel ≤ fuel')%nat → loop cond step fuel x = Done x' → loop cond step fuel' x = Done x'.
Proof.
  revert fuel' x. induction fuel as [|k IH]; intros fuel' x Hle; destruct fuel' as [|k'];
    simpl; destruct (cond x); try done; try lia.
  destruct (step x); try discriminate. simpl. intros H. apply IH; [lia|done].
Qed.
End loop_lemmas.

(** ** Automation *)

Ltac pow2 :=
  change (2 ^ 64) with 18446744073709551616 in *;
  change (2 ^ 63) with 9223372036854775808 in *;
  change (2 ^ 32) with 4294967296 in *;
  change (2 ^ 31) with 2147483648 in *;
  change (2 ^ 16) with 65536 in *;
  change (2 ^ 8) with 256 in *.

(** Run the next call of a monadic program whose result is known, or whose
    reads and writes of the state compute. *)
Ltac mstep :=
  lazymatch goal with
  | |- context [mbind ?f ?m ?s] =>
      (erewrite (bind_Done m f s); [|by eauto]) || (unfold mbind at 1; unfold M_bind at 1; simpl)
  end.

(** Case analysis on the boolean comparisons of [Z] in the goal. *)
Ltac zcases :=
  repeat match goal with
  | |- context [?x <? ?y] => destruct (Z.ltb_spec x y)
  | |- context [?x <=? ?y] => destruct (Z.leb_spec x y)
  | |- context [?x =? ?y] => destruct (Z.eqb_spec x y)
  end.

(** Linear arithmetic with division and remainder by constants. *)
Ltac zdiv := Z.div_mod_to_equations; lia.

(** ** Lemmas on lists *)

(** A concatenation has no duplicates when its parts have none and are disjoint. *)
Lemma NoDup_join_lookup {A} (ls : list (list A)) :
  (∀ i l, ls !! i = Some l → NoDup l) →
  (∀ i j l l', (i < j)%nat → ls !! i = Some l → ls !! j = Some l' → ∀ x, x ∈ l → x ∉ l') →
  NoDup (mjoin ls).
Proof.
  induction ls as [|l ls IH]; intros Hnd Hdis; simpl; [constructor|].
  apply NoDup_app. split_and!.
  - by apply (Hnd 0%nat).
  - intros x Hx (l' & Hl' & Hin)%list_elem_of_join.
    apply list_elem_of_lookup in Hin as [j Hj].
    eapply (Hdis 0%nat (S j)); eauto with lia.
  - apply IH.
    + intros i. apply (Hnd (S i)).
    + intros i j l1 l2 Hij. apply (Hdis (S i) (S j)). lia.
Qed.

(** ** Lemmas on machine integers *)

Lemma u64_small z : 0 ≤ z < 2 ^ 64 → u64 z = z.
Proof. apply Z.mod_small. Qed.
Lemma u64_range z : 0 ≤ u64 z < 2 ^ 64.
Proof. apply Z.mod_pos_bound. lia. Qed.
Lemma u64_u64 z : u64 (u64 z) = u64 z.
Proof. apply u64_small, u64_range. Qed.
Lemma u64_add_l a b : u64 (u64 a + b) = u64 (a + b).
Proof. apply Zplus_mod_idemp_l. Qed.
Lemma u64_sub_l a b : u64 (u64 a - b) = u64 (a - b).
Proof. apply Zminus_mod_idemp_l. Qed.
Lemma i64_small z : - 2 ^ 63 ≤ z < 2 ^ 63 → i64 z = z.
Proof. unfold i64. intros. rewrite Z.mod_small; lia. Qed.
Lemma i64_range z : - 2 ^ 63 ≤ i64 z < 2 ^ 63.
Proof. unfold i64. pose proof (Z.mod_pos_bound (z + 2 ^ 63) (2 ^ 64)). lia. Qed.
Lemma i32_small z : - 2 ^ 31 ≤ z < 2 ^ 31 → i32 z = z.
Proof. unfold i32. intros. rewrite Z.mod_small; lia. Qed.

Create Rewrite HintDb word_simpl.
#[export] Hint Rewrite u64_u64 u64_add_l u64_sub_l : word_simpl.
Create HintDb word.
#[export] Hint Resolve u64_range i64_range : word.

Lemma lor_range n a b : 0 ≤ n → 0 ≤ a < 2 ^ n → 0 ≤ b < 2 ^ n → 0 ≤ Z.lor a b < 2 ^ n.
Proof.
  intros Hn Ha Hb.
  rewrite <- (Z.mod_small a (2 ^ n)), <- (Z.mod_small b (2 ^ n)), <- !Z.land_ones,
    <- Z.land_lor_distr_l, Z.land_ones by lia.
  apply Z.mod_pos_bound. lia.
Qed.

Lemma land_range n a b : 0 ≤ n → 0 ≤ a → 0 ≤ b < 2 ^ n → 0 ≤ Z.land a b < 2 ^ n.
Proof.
  intros Hn Ha Hb. split; [apply Z.land_nonneg; lia|].
  rewrite <- (Z.mod_small b (2 ^ n)), <- Z.land_ones, Z.land_assoc, Z.land_ones by lia.
  apply Z.mod_pos_bound. lia.
Qed.

(** Numbers put together from a low and a high part. *)
Lemma lor_shiftl_add a b k : 0 ≤ a < 2 ^ k → 0 ≤ k → Z.lor a (Z.shiftl b k) = a + b * 2 ^ k.
Proof.
  intros Ha Hk. rewrite Z.shiftl_mul_pow2 by lia. symmetry. apply Z.add_nocarry_lor. apply Z.bits_inj'. intros n Hn.
  rewrite Z.land_spec, Z.bits_0. destruct (Z.lt_ge_cases n k).
  - rewrite Z.mul_pow2_bits_low by lia. apply andb_false_r.
  - destruct (decide (a = 0)) as [->|]; [by rewrite Z.bits_0|].
    rewrite Z.bits_above_log2; [done|lia|]. apply (Z.lt_le_trans _ k); [apply Z.log2_lt_pow2; lia|lia].
Qed.

Lemma testbit_join q a k n : 0 ≤ a < 2 ^ k → 0 ≤ k → 0 ≤ n →
  Z.testbit (a + q * 2 ^ k) n = if n <? k then Z.testbit a n else Z.testbit q (n - k).
Proof.
  intros Ha Hk Hn. rewrite <- lor_shiftl_add, Z.lor_spec by done. destruct (Z.ltb_spec n k).
  - rewrite (Z.shiftl_spec_low q k n) by lia. apply orb_false_r.
  - rewrite Z.shiftl_spec by lia. destruct (decide (a = 0)) as [->|]; [by rewrite Z.bits_0|].
    rewrite Z.bits_above_log2; [done|lia|]. apply (Z.lt_le_trans _ k); [apply Z.log2_lt_pow2; lia|lia].
Qed.

(** Clearing the low [k] bits. *)
Lemma land_clear_low x k : 0 ≤ x < 2 ^ 64 → 0 ≤ k ≤ 64 →
  Z.land x (u64 (Z.lnot (2 ^ k - 1))) = x - x mod 2 ^ k.
Proof.
  intros Hx Hk.
  assert (x - x mod 2 ^ k = Z.ldiff x (Z.ones k)) as ->.
  { rewrite Z.ldiff_ones_r by lia. rewrite Z.shiftl_mul_pow2, Z.shiftr_div_pow2 by lia.
    pose proof (Z.div_mod x (2 ^ k)). lia. }
  unfold u64. rewrite <- (Z.land_ones (Z.lnot _) 64) by lia.
  replace (2 ^ k - 1) with (Z.ones k) by (rewrite Z.ones_equiv; lia).
  apply Z.bits_inj'. intros i Hi.
  rewrite Z.ldiff_spec, !Z.land_spec, Z.lnot_spec by lia.
  destruct (decide (i < 64)).
  - rewrite (Z.ones_spec_low 64) by lia. by rewrite andb_true_r.
  - replace (Z.testbit x i) with false; [done|].
    rewrite <- (Z.mod_small x (2 ^ 64)) by lia. by rewrite Z.mod_pow2_bits_high by lia.
Qed.

Lemma ALIGN_DOWN_page x : 0 ≤ x < 2 ^ 64 → ALIGN_DOWN x PAGE_SIZE = x - x mod PAGE_SIZE.
Proof.
  intros. unfold ALIGN_DOWN, PAGE_SIZE. rewrite (u64_small x), (u64_small (4096 - 1)) by lia.
  apply (land_clear_low x 12); lia.
Qed.

Lemma ALIGN_UP_page x : 0 ≤ x → x + 4095 < 2 ^ 64 →
  ALIGN_UP x PAGE_SIZE = (x + 4095) - (x + 4095) mod PAGE_SIZE.
Proof.
  intros. unfold ALIGN_UP, PAGE_SIZE. rewrite (u64_small x), (u64_small (4096 - 1)) by lia.
  rewrite u64_small by lia. apply (land_clear_low (x + 4095) 12); lia.
Qed.

(** The two macros as rounding: the bounds their callers use. *)
Lemma ALIGN_DOWN_spec x : 0 ≤ x < 2 ^ 64 →
  ALIGN_DOWN x PAGE_SIZE ≤ x < ALIGN_DOWN x PAGE_SIZE + PAGE_SIZE
  ∧ ALIGN_DOWN x PAGE_SIZE mod PAGE_SIZE = 0 ∧ 0 ≤ ALIGN_DOWN x PAGE_SIZE.
Proof.
  intros Hx. rewrite ALIGN_DOWN_page by done. unfold PAGE_SIZE.
  pose proof (Z.mod_pos_bound x 4096). pose proof (Z.div_mod x 4096).
  repeat split; try lia.
  replace (x - x mod 4096) with (x / 4096 * 4096) by lia. apply Z_mod_mult.
Qed.

Lemma ALIGN_UP_spec x : 0 ≤ x → x + 4095 < 2 ^ 64 →
  x ≤ ALIGN_UP x PAGE_SIZE < x + PAGE_SIZE ∧ ALIGN_UP x PAGE_SIZE mod PAGE_SIZE = 0.
Proof.
  intros Hx Hb. rewrite ALIGN_UP_page by done. unfold PAGE_SIZE.
  pose proof (Z.mod_pos_bound (x + 4095) 4096). pose proof (Z.div_mod (x + 4095) 4096).
  repeat split; try lia.
  replace (x + 4095 - (x + 4095) mod 4096) with ((x + 4095) / 4096 * 4096) by lia.
  apply Z_mod_mult.
Qed.
