(* ===== verification/CMem.v ===== *)
(** * Byte-addressed memory and the routines of src/kernel_common/c_generic/gcc_mem.c

    Memory is a finite map from addresses to bytes (an address that was never
    written reads as 0); multi-byte loads and stores are little-endian, as on
    x86-64. [memcpy], [memset], [memmove] and [memcmp] are the loops of
    gcc_mem.c, in the order the code runs them. *)
From S2P Require Import Prelude.

Abbreviation mem := (gmap Z Z).

Definition ldb (m : mem) (a : Z) : Z := u8 (default 0 (m !! a)).
Definition stb (a v : Z) (m : mem) : mem := <[a := u8 v]> m.

(** [n]-byte little-endian load and store. *)
Fixpoint ldn (n : nat) (m : mem) (a : Z) : Z :=
  match n with
  | O => 0
  | S k => ldb m a + 256 * ldn k m (a + 1)
  end.

Fixpoint stn (n : nat) (a v : Z) (m : mem) : mem :=
  match n with
  | O => m
  | S k => stn k (a + 1) (v / 256) (stb a v m)
  end.

Abbreviation ld64 := (ldn 8).
Abbreviation st64 := (stn 8).
Abbreviation ld32 := (ldn 4).
Abbreviation st32 := (stn 4).

(** for (size_t i = 0; i < n; i++) pdest[i] = psrc[i]; *)
Fixpoint copy_up (k : nat) (i dest src : Z) (m : mem) : mem :=
  match k with
  | O => m
  | S k' => copy_up k' (i + 1) dest src (stb (dest + i) (ldb m (src + i)) m)
  end.

(** for (size_t i = n; i > 0; i--) pdest[i-1] = psrc[i-1]; *)
Fixpoint copy_down (k : nat) (dest src : Z) (m : mem) : mem :=
  match k with
  | O => m
  | S k' => copy_down k' dest src
              (stb (dest + (Z.of_nat k - 1)) (ldb m (src + (Z.of_nat k - 1))) m)
  end.

(** for (size_t i = 0; i < n; i++) p[i] = (uint8_t)c; *)
Fixpoint fill_up (k : nat) (i s c : Z) (m : mem) : mem :=
  match k with
  | O => m
  | S k' => fill_up k' (i + 1) s c (stb (s + i) c m)
  end.

Definition memcpy (dest src n : Z) (m : mem) : mem := copy_up (Z.to_nat n) 0 dest src m.

Definition memset (s c n : Z) (m : mem) : outcome mem :=
  if s =? 0 then Panic "BAD MEMSET"
  else Done (fill_up (Z.to_nat n) 0 s c m).

Definition memmove (dest src n : Z) (m : mem) : mem :=
  if dest <? src then copy_up (Z.to_nat n) 0 dest src m
  else if src <? dest then copy_down (Z.to_nat n) dest src m
  else m.

Fixpoint memcmp_loop (k : nat) (i s1 s2 : Z) (m : mem) : Z :=
  match k with
  | O => 0
  | S k' =>
      if negb (ldb m (s1 + i) =? ldb m (s2 + i))
      then (if ldb m (s1 + i) <? ldb m (s2 + i) then -1 else 1)
      else memcmp_loop k' (i + 1) s1 s2 m
  end.

Definition memcmp (s1 s2 n : Z) (m : mem) : Z := memcmp_loop (Z.to_nat n) 0 s1 s2 m.

(** The [n] bytes at [a], as a list. *)
Definition bytes (m : mem) (a : Z) (n : nat) : list Z := (λ i, ldb m (a + i)) <$> seqZ 0 (Z.of_nat n).

(** Two memories agree on the bytes [a, a + n). *)
Definition agree (m m' : mem) (a n : Z) : Prop := ∀ b, a ≤ b < a + n → ldb m' b = ldb m b.

(** ** Loads and stores *)

Lemma ldb_range m a : 0 ≤ ldb m a < 256.
Proof. unfold ldb, u8. apply Z.mod_pos_bound. lia. Qed.

Lemma ldb_stb a v m b : ldb (stb a v m) b = if decide (a = b) then u8 v else ldb m b.
Proof.
  unfold ldb, stb. rewrite lookup_insert. case_decide; [|done]. simpl. apply Zmod_mod.
Qed.
Lemma ldb_stb_eq a v m : ldb (stb a v m) a = u8 v.
Proof. rewrite ldb_stb. by rewrite decide_True. Qed.
Lemma ldb_stb_ne a v m b : a ≠ b → ldb (stb a v m) b = ldb m b.
Proof. intros. rewrite ldb_stb. by rewrite decide_False. Qed.

Lemma ldn_range n m a : 0 ≤ ldn n m a < 2 ^ (8 * Z.of_nat n).
Proof.
  revert a. induction n as [|n IH]; intros a; simpl ldn; [simpl; lia|].
  specialize (IH (a + 1)). pose proof (ldb_range m a).
  replace (8 * Z.of_nat (S n)) with (8 + 8 * Z.of_nat n) by lia.
  rewrite Z.pow_add_r by lia. lia.
Qed.

Lemma ld64_range m a : 0 ≤ ld64 m a < 2 ^ 64.
Proof. apply (ldn_range 8). Qed.

Lemma ldb_stn_ne n a v m b : b < a ∨ a + Z.of_nat n ≤ b → ldb (stn n a v m) b = ldb m b.
Proof.
  revert a v m. induction n as [|n IH]; intros a v m H; simpl; [done|].
  rewrite IH by lia. apply ldb_stb_ne. lia.
Qed.

Lemma ldn_ext n m m' a :
  (∀ b, a ≤ b < a + Z.of_nat n → ldb m' b = ldb m b) → ldn n m' a = ldn n m a.
Proof.
  revert a. induction n as [|n IH]; intros a H; simpl; [done|].
  rewrite H by lia. rewrite IH; [done|]. intros b Hb. apply H. lia.
Qed.

Lemma ldn_stn_eq n a v m : ldn n (stn n a v m) a = v mod 2 ^ (8 * Z.of_nat n).
Proof.
  revert a v m. induction n as [|n IH]; intros a v m.
  { simpl. by rewrite Z.mod_1_r. }
  change (ldb (stn n (a + 1) (v / 256) (stb a v m)) a
    + 256 * ldn n (stn n (a + 1) (v / 256) (stb a v m)) (a + 1) = v mod 2 ^ (8 * Z.of_nat (S n))).
  rewrite IH, ldb_stn_ne by lia. rewrite ldb_stb_eq.
  replace (8 * Z.of_nat (S n)) with (8 + 8 * Z.of_nat n) by lia.
  rewrite Z.pow_add_r by lia. change (2 ^ 8) with 256. unfold u8. change (2 ^ 8) with 256.
  rewrite (Z.rem_mul_r v 256) by lia. lia.
Qed.

Lemma ldn_stn_ne n n' a b v m : b + Z.of_nat n' ≤ a ∨ a + Z.of_nat n ≤ b →
  ldn n' (stn n a v m) b = ldn n' m b.
Proof. intros H. apply ldn_ext. intros c Hc. apply ldb_stn_ne. lia. Qed.

Lemma ld64_st64_eq a v m : ld64 (st64 a v m) a = u64 v.
Proof. apply (ldn_stn_eq 8). Qed.
Lemma ld64_st64_ne a b v m : b + 8 ≤ a ∨ a + 8 ≤ b → ld64 (st64 a v m) b = ld64 m b.
Proof. intros. apply (ldn_stn_ne 8 8). lia. Qed.

Lemma ld64_agree m m' p a : agree m m' p 4096 → p ≤ a → a + 8 ≤ p + 4096 → ld64 m' a = ld64 m a.
Proof. intros H ??. apply ldn_ext. intros b Hb. apply H. lia. Qed.

Lemma agree_refl m a n : agree m m a n.
Proof. by intros b ?. Qed.
Lemma agree_trans m1 m2 m3 a n : agree m1 m2 a n → agree m2 m3 a n → agree m1 m3 a n.
Proof. intros H1 H2 b Hb. rewrite H2 by done. by apply H1. Qed.
Lemma agree_stn k m a n b v : a + n ≤ b ∨ b + Z.of_nat k ≤ a → agree m (stn k b v m) a n.
Proof. intros H c Hc. apply ldb_stn_ne. lia. Qed.

(** ** The gcc_mem.c routines *)

Lemma ldb_fill_up k i s c m b :
  ldb (fill_up k i s c m) b =
    if decide (s + i ≤ b < s + i + Z.of_nat k) then u8 c else ldb m b.
Proof.
  revert i m. induction k as [|k IH]; intros i m; simpl.
  - rewrite decide_False by lia. done.
  - rewrite IH, ldb_stb. repeat case_decide; try done; lia.
Qed.

(** The ascending copy is right unless [dest] lies inside the source, after its
    first byte; the descending one unless [src] lies so inside the destination. *)
Lemma ldb_copy_up k i dest src m b :
  ¬ (0 < dest - src < Z.of_nat k) →
  ldb (copy_up k i dest src m) b =
    if decide (dest + i ≤ b < dest + i + Z.of_nat k) then ldb m (src + (b - dest)) else ldb m b.
Proof.
  revert i m. induction k as [|k IH]; intros i m Hov; simpl.
  - by rewrite decide_False by lia.
  - rewrite IH by lia. rewrite !ldb_stb.
    repeat case_decide; try done; try lia.
    assert (src + (b - dest) = src + i) as -> by lia.
    unfold u8. apply Z.mod_small, ldb_range.
Qed.

Lemma ldb_copy_down k dest src m b :
  ¬ (0 < src - dest < Z.of_nat k) →
  ldb (copy_down k dest src m) b =
    if decide (dest ≤ b < dest + Z.of_nat k) then ldb m (src + (b - dest)) else ldb m b.
Proof.
  revert m. induction k as [|k IH]; intros m Hov.
  - by rewrite decide_False by lia.
  - cbn [copy_down]. rewrite IH by lia. rewrite !ldb_stb.
    repeat case_decide; try done; try lia.
    assert (src + (b - dest) = src + (Z.of_nat (S k) - 1)) as -> by lia.
    unfold u8. apply Z.mod_small, ldb_range.
Qed.

Lemma ldb_memcpy dest src n m b :
  0 ≤ n → dest + n ≤ src ∨ src + n ≤ dest →
  ldb (memcpy dest src n m) b =
    if decide (dest ≤ b < dest + n) then ldb m (src + (b - dest)) else ldb m b.
Proof.
  intros. unfold memcpy. rewrite ldb_copy_up by lia. repeat case_decide; try done; lia.
Qed.

Lemma memset_Done s c n m :
  s ≠ 0 → memset s c n m = Done (fill_up (Z.to_nat n) 0 s c m).
Proof. intros. unfold memset. by destruct (Z.eqb_spec s 0). Qed.

Lemma ldb_memset s c n m m' b : 0 ≤ n → memset s c n m = Done m' →
  ldb m' b = if decide (s ≤ b < s + n) then u8 c else ldb m b.
Proof.
  unfold memset. destruct (s =? 0); [done|]. intros ? [= <-].
  rewrite ldb_fill_up. repeat case_decide; try done; lia.
Qed.

Lemma length_bytes m a n : length (bytes m a n) = n.
Proof. unfold bytes. rewrite length_fmap, length_seqZ. lia. Qed.

Lemma lookup_bytes m a n i :
  (i < n)%nat → bytes m a n !! i = Some (ldb m (a + Z.of_nat i)).
Proof.
  intros. unfold bytes. rewrite list_lookup_fmap.
  rewrite (proj2 (lookup_seqZ _ _ _ (Z.of_nat i))) by lia. done.
Qed.

Lemma bytes_ext m m' a a' n :
  (∀ i, 0 ≤ i < Z.of_nat n → ldb m' (a' + i) = ldb m (a + i)) → bytes m' a' n = bytes m a n.
Proof.
  intros H. apply list_eq_same_length with n; rewrite ?length_bytes; try done.
  intros i x y Hi. rewrite !lookup_bytes by lia. intros [= <-] [= <-]. apply H. lia.
Qed.

Lemma ldn_zero n m a : (∀ b, a ≤ b < a + Z.of_nat n → ldb m b = 0) → ldn n m a = 0.
Proof.
  revert a. induction n as [|n IH]; intros a H; simpl; [done|].
  rewrite H by lia. rewrite IH; [done|]. intros b Hb. apply H. lia.
Qed.

(** [memcmp] compares as the lexicographic order on unsigned bytes does. *)
Lemma memcmp_loop_spec k i s1 s2 m :
  (memcmp_loop k i s1 s2 m = 0 ∧ ∀ j, i ≤ j < i + Z.of_nat k → ldb m (s1 + j) = ldb m (s2 + j))
  ∨ ∃ j, i ≤ j < i + Z.of_nat k
      ∧ (∀ j', i ≤ j' < j → ldb m (s1 + j') = ldb m (s2 + j'))
      ∧ (memcmp_loop k i s1 s2 m = -1 ∧ ldb m (s1 + j) < ldb m (s2 + j)
         ∨ memcmp_loop k i s1 s2 m = 1 ∧ ldb m (s2 + j) < ldb m (s1 + j)).
Proof.
  revert i. induction k as [|k IH]; intros i; cbn [memcmp_loop].
  { left. split; [done|lia]. }
  destruct (Z.eqb_spec (ldb m (s1 + i)) (ldb m (s2 + i))) as [E|E]; cbn [negb].
  - destruct (IH (i + 1)) as [[-> H]|(j & Hj & Hpre & Hres)].
    + left. split; [done|]. intros j Hj. destruct (decide (j = i)) as [->|]; [done|]. apply H. lia.
    + right. exists j. split; [lia|]. split; [|done].
      intros j' Hj'. destruct (decide (j' = i)) as [->|]; [done|]. apply Hpre. lia.
  - right. exists i. split; [lia|]. split; [lia|]. destruct (Z.ltb_spec (ldb m (s1 + i)) (ldb m (s2 + i))); lia.
Qed.

Lemma ldb_memmove dest src n m b :
  0 ≤ n →
  ldb (memmove dest src n m) b =
    if decide (dest ≤ b < dest + n) then ldb m (src + (b - dest)) else ldb m b.
Proof.
  intros Hn. unfold memmove.
  destruct (Z.ltb_spec dest src); [|destruct (Z.ltb_spec src dest)].
  - rewrite ldb_copy_up by lia. repeat case_decide; try done; lia.
  - rewrite ldb_copy_down by lia. repeat case_decide; try done; lia.
  - case_decide; [f_equal; lia|done].
Qed.

#[global] Arguments ldn : simpl never.
#[global] Arguments stn : simpl never.
#[global] Arguments fill_up : simpl never.
#[global] Arguments bytes : simpl never.
#[global] Opaque fill_up ldn stn.

(** ** Properties of gcc_mem.c *)

(** Memmove copies as if through a temporary buffer, however the two ranges
    overlap: the destination holds the bytes the source held before, and no
    byte outside the destination changes; where the ranges do not overlap,
    memcpy does the same. *)
Theorem memmove_correct dest src n m :
  0 ≤ n →
  bytes (memmove dest src n m) dest (Z.to_nat n) = bytes m src (Z.to_nat n)
  ∧ (∀ b, b < dest ∨ dest + n ≤ b → ldb (memmove dest src n m) b = ldb m b)
  ∧ (dest + n ≤ src ∨ src + n ≤ dest →
     ∀ b, ldb (memcpy dest src n m) b = ldb (memmove dest src n m) b).
Proof.
  intros Hn. split; [|split].
  - apply bytes_ext. intros i Hi. rewrite ldb_memmove, decide_True by lia. f_equal. lia.
  - intros b Hb. by rewrite ldb_memmove, decide_False by lia.
  - intros Hd b. by rewrite ldb_memmove, ldb_memcpy by lia.
Qed.

(** Memcmp is the lexicographic order on unsigned bytes: 0 exactly when the
    ranges are equal, otherwise the sign is decided at the first difference. *)
Theorem memcmp_correct s1 s2 n m :
  0 ≤ n →
  (memcmp s1 s2 n m = 0 ↔ bytes m s1 (Z.to_nat n) = bytes m s2 (Z.to_nat n))
  ∧ (memcmp s1 s2 n m ≠ 0 →
     ∃ j, 0 ≤ j < n ∧ (∀ i, 0 ≤ i < j → ldb m (s1 + i) = ldb m (s2 + i))
       ∧ (memcmp s1 s2 n m = -1 ∧ ldb m (s1 + j) < ldb m (s2 + j)
          ∨ memcmp s1 s2 n m = 1 ∧ ldb m (s2 + j) < ldb m (s1 + j))).
Proof.
  intros Hn. unfold memcmp.
  destruct (memcmp_loop_spec (Z.to_nat n) 0 s1 s2 m) as [[-> Heq]|(j & Hj & Hpre & Hres)].
  - split; [|done]. split; [intros _|done]. apply bytes_ext. intros i Hi. apply Heq. lia.
  - split.
    + split; [lia|]. intros Hb. assert (ldb m (s1 + j) = ldb m (s2 + j)); [|lia].
      pose proof (lookup_bytes m s1 (Z.to_nat n) (Z.to_nat j) ltac:(lia)) as H1.
      pose proof (lookup_bytes m s2 (Z.to_nat n) (Z.to_nat j) ltac:(lia)) as H2.
      rewrite Z2Nat.id in H1, H2 by lia. congruence.
    + intros _. exists j. split; [lia|]. split; [|done]. intros i Hi. apply Hpre. lia.
Qed.

Module CMemWitness.
Definition demo_mem : mem := stb 12 3 (stb 11 2 (stb 10 1 ∅)).

Lemma memmove_correct_witness : bytes (memmove 11 10 3 demo_mem) 11 3 = [1; 2; 3].
Proof. destruct (memmove_correct 11 10 3 demo_mem ltac:(lia)) as [H _]. exact H. Defined.

Lemma memcmp_correct_witness : memcmp 10 11 2 demo_mem = 0 ↔ bytes demo_mem 10 2 = bytes demo_mem 11 2.
Proof. exact (proj1 (memcmp_correct 10 11 2 demo_mem ltac:(lia))). Defined.
End CMemWitness.
