(* ===== verification/Phys.v ===== *)
(** * Physical pages: the direct map, and what a page allocator promises

    The kernel reaches a physical page through the bootloader's direct map
    (HHDM): the byte at physical address [p] is the one at kernel virtual address
    [phys_to_virt p] (src/memory/vmm.c, macro VIRT of headers/memory/vmm.h). The
    memory of the model is keyed by kernel virtual addresses, so a dereference
    of a kernel pointer is a lookup at that pointer.

    [PageAllocator] is the interface between the physical memory manager and
    its clients (page tables, heap, address spaces): the operations of
    src/memory/pmm.c, and laws in terms of the list of pages the allocator may
    still hand out. Pmm.v proves that the code of pmm.c is an instance. *)
From S2P Require Import Prelude CMem.

Definition HEAP_START : Z := 0xFFFFC00000000000.

(** The bootloader's response: where the direct map starts, and the end of the
    physical memory it covers. It lies below the kernel heap, and a physical
    address fits in the address field of a page-table entry. *)
Class Hhdm := {
  hhdm_offset : Z;
  hhdm_max : Z;
  hhdm_offset_nonneg : 0 ≤ hhdm_offset;
  hhdm_below_heap : hhdm_offset + hhdm_max ≤ HEAP_START;
  hhdm_max_52 : hhdm_max ≤ 2 ^ 52;
}.

Section hhdm.
Context `{Hhdm}.

Definition phys_to_virt (phys : Z) : Z := u64 (phys + hhdm_offset).
Definition virt_to_phys (virt : Z) : Z := u64 (virt - hhdm_offset).

(** A page frame the memory manager may own. *)
Definition page_ok (p : Z) : Prop :=
  p mod PAGE_SIZE = 0 ∧ 0x100000 ≤ p ∧ p + PAGE_SIZE ≤ hhdm_max.

(** Address [b] is in none of the pages [l] (seen through the direct map). *)
Definition outside (l : list Z) (b : Z) : Prop :=
  ∀ p, p ∈ l → b < phys_to_virt p ∨ phys_to_virt p + PAGE_SIZE ≤ b.

(** The memory changed at most inside the pages [l]. *)
Definition only_pages (l : list Z) (m m' : mem) : Prop :=
  ∀ b, outside l b → ldb m' b = ldb m b.

Definition page_zero (m : mem) (p : Z) : Prop :=
  ∀ b, phys_to_virt p ≤ b < phys_to_virt p + PAGE_SIZE → ldb m b = 0.
End hhdm.

Class PageAllocator `{Hhdm} (St : Type) := {
  pa_mem : St → mem;
  pa_set_mem : mem → St → St;
  pmm_alloc_page : M St Z;
  pmm_free_page : Z → M St unit;
  (** The pages that allocations to come may return. *)
  pa_owns : St → list Z → Prop;
}.

Class PageAllocatorLaws `{PA : PageAllocator St} := {
  pa_mem_set : ∀ m s, pa_mem (pa_set_mem m s) = m;
  pa_set_set : ∀ m m' s, pa_set_mem m (pa_set_mem m' s) = pa_set_mem m s;
  pa_owns_ok : ∀ s l, pa_owns s l → NoDup l ∧ Forall page_ok l;
  pa_owns_set : ∀ s l m, pa_owns s l →
    (∀ p, p ∈ l → agree (pa_mem s) m (phys_to_virt p) PAGE_SIZE) →
    pa_owns (pa_set_mem m s) l;
  pa_alloc : ∀ s l, pa_owns s l → l ≠ [] →
    ∃ p l' s', pmm_alloc_page s = Done (p, s') ∧ l ≡ₚ p :: l' ∧ pa_owns s' l'
      ∧ only_pages l (pa_mem s) (pa_mem s') ∧ page_zero (pa_mem s') p;
  pa_alloc_none : ∀ s, pa_owns s [] → ∃ msg, pmm_alloc_page s = Panic msg;
  pa_free : ∀ s l p, pa_owns s l → page_ok p → p ∉ l →
    ∃ s', pmm_free_page p s = Done (tt, s') ∧ pa_owns s' (p :: l)
      ∧ only_pages [p] (pa_mem s) (pa_mem s');
}.

(** ** Lemmas *)

Section hhdm_lemmas.
Context `{Hhdm}.

Lemma page_ok_range p : page_ok p → 0 < p ∧ p + PAGE_SIZE ≤ 2 ^ 52 ∧
  0 < p + hhdm_offset ∧ p + hhdm_offset + PAGE_SIZE ≤ HEAP_START.
Proof.
  intros (?&?&?). pose proof hhdm_offset_nonneg. pose proof hhdm_below_heap.
  pose proof hhdm_max_52. unfold PAGE_SIZE in *. lia.
Qed.

Lemma phys_to_virt_ok p : page_ok p → phys_to_virt p = p + hhdm_offset.
Proof.
  intros Hp%page_ok_range. unfold phys_to_virt. apply u64_small.
  unfold HEAP_START, PAGE_SIZE in *. lia.
Qed.

Lemma phys_to_virt_range p : page_ok p →
  0 < phys_to_virt p ∧ phys_to_virt p + PAGE_SIZE ≤ HEAP_START.
Proof. intros Hp. rewrite phys_to_virt_ok by done. apply page_ok_range in Hp. lia. Qed.

Lemma virt_to_phys_to_virt p : 0 ≤ p < 2 ^ 64 → virt_to_phys (phys_to_virt p) = p.
Proof.
  intros. unfold virt_to_phys, phys_to_virt. rewrite u64_sub_l.
  replace (p + hhdm_offset - hhdm_offset) with p by lia. by apply u64_small.
Qed.

Lemma phys_to_virt_to_phys v : 0 ≤ v < 2 ^ 64 → phys_to_virt (virt_to_phys v) = v.
Proof.
  intros. unfold virt_to_phys, phys_to_virt. rewrite u64_add_l.
  replace (v - hhdm_offset + hhdm_offset) with v by lia. by apply u64_small.
Qed.

Lemma page_ok_apart p q : page_ok p → page_ok q → p ≠ q →
  phys_to_virt q + PAGE_SIZE ≤ phys_to_virt p ∨ phys_to_virt p + PAGE_SIZE ≤ phys_to_virt q.
Proof.
  intros Hp Hq Hne. rewrite !phys_to_virt_ok by done.
  destruct Hp as (Hp&_), Hq as (Hq&_). unfold PAGE_SIZE in *.
  pose proof (Z.div_mod p 4096). pose proof (Z.div_mod q 4096). lia.
Qed.

Lemma outside_page l p b : Forall page_ok l → page_ok p → p ∉ l →
  phys_to_virt p ≤ b < phys_to_virt p + PAGE_SIZE → outside l b.
Proof.
  intros Hl Hp Hin Hb q Hq. rewrite Forall_forall in Hl.
  destruct (page_ok_apart p q); auto; [congruence|lia|lia].
Qed.

Lemma outside_heap l b : Forall page_ok l → HEAP_START ≤ b → outside l b.
Proof.
  intros Hl Hb q Hq. rewrite Forall_forall in Hl.
  pose proof (phys_to_virt_range q (Hl q Hq)). lia.
Qed.

Lemma outside_perm l l' b : l ≡ₚ l' → outside l b → outside l' b.
Proof. intros Hp Ho q Hq. apply Ho. by rewrite Hp. Qed.

Lemma only_pages_refl l m : only_pages l m m.
Proof. by intros b ?. Qed.
Lemma only_pages_trans l m1 m2 m3 :
  only_pages l m1 m2 → only_pages l m2 m3 → only_pages l m1 m3.
Proof. intros H1 H2 b Hb. rewrite H2 by done. by apply H1. Qed.
Lemma only_pages_mono l l' m m' : l ⊆ l' → only_pages l m m' → only_pages l' m m'.
Proof. intros Hs Ho b Hb. apply Ho. intros q Hq. by apply Hb, Hs. Qed.

Lemma only_pages_agree l m m' p : Forall page_ok l → page_ok p → p ∉ l →
  only_pages l m m' → agree m m' (phys_to_virt p) PAGE_SIZE.
Proof. intros Hl Hp Hn Ho b Hb. apply Ho. by eapply outside_page. Qed.

Lemma only_pages_st64 p a v m : page_ok p →
  phys_to_virt p ≤ a → a + 8 ≤ phys_to_virt p + PAGE_SIZE →
  only_pages [p] m (st64 a v m).
Proof. intros Hp H1 H2 b Hb. apply ldb_stn_ne. destruct (Hb p); [left|lia|lia]. Qed.

Lemma only_pages_fill p c m : page_ok p →
  only_pages [p] m (fill_up (Z.to_nat PAGE_SIZE) 0 (phys_to_virt p) c m).
Proof.
  intros Hp b Hb. rewrite ldb_fill_up. rewrite decide_False; [done|].
  destruct (Hb p); [left| |]; unfold PAGE_SIZE in *; lia.
Qed.

Lemma page_zero_ld64 m p i : page_zero m p → 0 ≤ i < 512 → ld64 m (phys_to_virt p + 8 * i) = 0.
Proof. intros Hz Hi. apply ldn_zero. intros b Hb. apply Hz. unfold PAGE_SIZE. lia. Qed.
End hhdm_lemmas.

Create HintDb phys.
#[export] Hint Resolve only_pages_refl only_pages_trans phys_to_virt_ok : phys.

(** A concrete direct map, for examples: the usual Limine offset, 64 TiB. *)
Module DemoHhdm.
#[export, program] Instance demo_hhdm : Hhdm := {|
  hhdm_offset := 0xffff800000000000;
  hhdm_max := 2 ^ 46;
|}.
Solve All Obligations with done.
End DemoHhdm.
