(* ===== verification/Pmm.v ===== *)
(** * The physical memory manager: src/memory/pmm.c

    Free pages are threaded into a list through their own first eight bytes;
    the list is filled on demand, 512 pages at a time, from the usable entries
    of the bootloader's memory map. [remaining] is the specification of what is
    still to be taken from the map; the file proves that [pmm_fill] moves a
    prefix of it to the free list, and that the module is a [PageAllocator]. *)
From S2P Require Import Prelude CMem Phys.

Definition LIMINE_MEMMAP_USABLE : Z := 0.

(** struct limine_memmap_entry of headers/kernel_common/limine.h *)
Record limine_memmap_entry := mk_entry { base : Z; length_ : Z; type_ : Z }.

(** memmap_request.response: what the Limine protocol promises of the entries
    (usable ones lie within the direct map and do not overlap, in order). *)
Class Memmap `{Hhdm} := {
  memmap_entries : list limine_memmap_entry;
  memmap_bounds : Forall (λ e, type_ e = LIMINE_MEMMAP_USABLE →
    0 ≤ base e ∧ 0 ≤ length_ e ∧ base e + length_ e ≤ hhdm_max) memmap_entries;
  memmap_sorted : ∀ i j e f, (i < j)%nat → memmap_entries !! i = Some e →
    memmap_entries !! j = Some f → type_ e = LIMINE_MEMMAP_USABLE →
    type_ f = LIMINE_MEMMAP_USABLE → base e + length_ e ≤ base f;
  memmap_count : Z.of_nat (length memmap_entries) < 2 ^ 64;
}.

Record pmm_state := mk_pmm {
  pmm_mem : mem;
  freelist_pmm_head : Z;
  freelist_pmm_fill_entry : Z;
  freelist_pmm_fill_offset : Z;
}.

Section pmm.
Context `{Memmap}.

(** node->next = freelist_pmm_head; freelist_pmm_head = node; *)
Definition push_node (node : Z) (s : pmm_state) : pmm_state :=
  mk_pmm (st64 node (freelist_pmm_head s) (pmm_mem s)) node
    (freelist_pmm_fill_entry s) (freelist_pmm_fill_offset s).

Definition set_fill (entry offset : Z) (s : pmm_state) : pmm_state :=
  mk_pmm (pmm_mem s) (freelist_pmm_head s) entry offset.

(** The inner loop of pmm_fill: its state is the module's and pages_added. *)
Definition fill_page_cond (e : limine_memmap_entry) (aligned_end pages : Z)
    (x : pmm_state * Z) : bool :=
  (u64 (u64 (base e + freelist_pmm_fill_offset x.1) + PAGE_SIZE) <=? aligned_end)
  && (x.2 <? pages).

Definition fill_page_step (e : limine_memmap_entry) (x : pmm_state * Z)
    : outcome (pmm_state * Z) :=
  let '(s, pages_added) := x in
  let page_addr := u64 (base e + freelist_pmm_fill_offset s) in
  let s := push_node (phys_to_virt page_addr) s in
  Done (set_fill (freelist_pmm_fill_entry s)
          (u64 (freelist_pmm_fill_offset s + PAGE_SIZE)) s, pages_added + 1).

(** One iteration of the outer loop. *)
Definition fill_entry_step (pages : Z) (x : pmm_state * Z) : outcome (pmm_state * Z) :=
  let '(s, pages_added) := x in
  match memmap_entries !! Z.to_nat (freelist_pmm_fill_entry s) with
  | None => Undef "memmap entry out of range"
  | Some e =>
      let next_entry s := set_fill (u64 (freelist_pmm_fill_entry s + 1)) 0 s in
      if negb (type_ e =? LIMINE_MEMMAP_USABLE) then Done (next_entry s, pages_added)
      else
        let aligned_start := ALIGN_UP (base e) PAGE_SIZE in
        let aligned_end := ALIGN_DOWN (u64 (base e + length_ e)) PAGE_SIZE in
        let aligned_start := if aligned_start <? 0x100000 then 0x100000 else aligned_start in
        if aligned_end <=? aligned_start then Done (next_entry s, pages_added)
        else
          let s := if freelist_pmm_fill_offset s =? 0
                   then set_fill (freelist_pmm_fill_entry s) (u64 (aligned_start - base e)) s
                   else s in
          '(s, pages_added) ← loop (fill_page_cond e aligned_end pages) (fill_page_step e)
                                (Z.to_nat pages) (s, pages_added);
          if aligned_end <? u64 (u64 (base e + freelist_pmm_fill_offset s) + PAGE_SIZE)
          then Done (next_entry s, pages_added)
          else Done (s, pages_added)
  end.

Definition fill_entry_cond (pages : Z) (x : pmm_state * Z) : bool :=
  (freelist_pmm_fill_entry x.1 <? Z.of_nat (length memmap_entries)) && (x.2 <? pages).

Definition pmm_fill (pages : Z) : M pmm_state unit := λ s,
  '(s, _) ← loop (fill_entry_cond pages) (fill_entry_step pages)
              (S (length memmap_entries)) (s, 0);
  Done (tt, s).

Definition pmm_alloc_page : M pmm_state Z := λ s,
  '(_, s) ← (if freelist_pmm_head s =? 0 then pmm_fill 512 s else Done (tt, s));
  if freelist_pmm_head s =? 0 then Panic "PMM: out of memory"
  else
    let node := freelist_pmm_head s in
    let s := mk_pmm (pmm_mem s) (ld64 (pmm_mem s) node)
               (freelist_pmm_fill_entry s) (freelist_pmm_fill_offset s) in
    let phys := virt_to_phys node in
    m ← memset node 0 PAGE_SIZE (pmm_mem s);
    Done (phys, mk_pmm m (freelist_pmm_head s)
                  (freelist_pmm_fill_entry s) (freelist_pmm_fill_offset s)).

Definition pmm_free_page (page : Z) : M pmm_state unit := λ s,
  Done (tt, push_node (phys_to_virt page) s).

Definition pmm_init : M pmm_state unit := pmm_fill 512.

(** ** Specification: the pages of the memory map *)

(** The whole pages of [a, b), [a] being a page boundary. *)
Definition page_run (a b : Z) : list Z := (λ i, a + PAGE_SIZE * i) <$> seqZ 0 ((b - a) / PAGE_SIZE).

Definition usable (e : limine_memmap_entry) : bool := type_ e =? LIMINE_MEMMAP_USABLE.
Definition entry_start (e : limine_memmap_entry) : Z :=
  Z.max (ALIGN_UP (base e) PAGE_SIZE) 0x100000.
Definition entry_end (e : limine_memmap_entry) : Z :=
  ALIGN_DOWN (base e + length_ e) PAGE_SIZE.

(** The pages of an entry from a fill offset on (0: none taken yet). *)
Definition entry_rest (e : limine_memmap_entry) (offset : Z) : list Z :=
  if usable e
  then page_run (if offset =? 0 then entry_start e else base e + offset) (entry_end e)
  else [].

Definition entry_pages (e : limine_memmap_entry) : list Z := entry_rest e 0.

Definition all_pages : list Z := mjoin (entry_pages <$> memmap_entries).

(** The pages not yet handed to the free list. *)
Definition remaining (entry offset : Z) : list Z :=
  match drop (Z.to_nat entry) memmap_entries with
  | [] => []
  | e :: es => entry_rest e offset ++ mjoin (entry_pages <$> es)
  end.

(** [head] points to a list of the pages [l], threaded through memory. *)
Fixpoint freelist (m : mem) (head : Z) (l : list Z) : Prop :=
  match l with
  | [] => head = 0
  | p :: l' => head = phys_to_virt p ∧ freelist m (ld64 m head) l'
  end.

(** The fill position is a page boundary of a usable entry, or fresh. *)
Definition fill_ok (s : pmm_state) : Prop :=
  0 ≤ freelist_pmm_fill_entry s ≤ Z.of_nat (length memmap_entries) ∧
  (freelist_pmm_fill_offset s = 0 ∨
   ∃ e, memmap_entries !! Z.to_nat (freelist_pmm_fill_entry s) = Some e ∧ usable e = true ∧
     0 < freelist_pmm_fill_offset s ∧ entry_start e ≤ base e + freelist_pmm_fill_offset s
     ∧ base e + freelist_pmm_fill_offset s ≤ entry_end e
     ∧ (base e + freelist_pmm_fill_offset s) mod PAGE_SIZE = 0).

Definition pmm_remaining (s : pmm_state) : list Z :=
  remaining (freelist_pmm_fill_entry s) (freelist_pmm_fill_offset s).

(** Refinement: the concrete state stands for a stack of free pages and the
    stream of pages still to be taken from the memory map. *)
Definition pmm_rep (s : pmm_state) (free rest : list Z) : Prop :=
  freelist (pmm_mem s) (freelist_pmm_head s) free ∧ pmm_remaining s = rest ∧ fill_ok s
  ∧ NoDup (free ++ rest) ∧ Forall page_ok (free ++ rest).

(** Abstract specification: a refill moves a prefix of the stream, reversed, to
    the stack; an allocation refills an empty stack and pops. *)
Definition spec_fill (n : nat) (free rest : list Z) : list Z * list Z :=
  (reverse (take n rest) ++ free, drop n rest).

Definition spec_alloc (free rest : list Z) : option (Z * (list Z * list Z)) :=
  let '(free, rest) := match free with [] => spec_fill 512 free rest | _ => (free, rest) end in
  match free with
  | [] => None
  | p :: free => Some (p, (free, rest))
  end.

Definition pmm_boot (m : mem) : pmm_state := mk_pmm m 0 0 0.

Definition pmm_owns (s : pmm_state) (l : list Z) : Prop :=
  ∃ free rest, pmm_rep s free rest ∧ l ≡ₚ free ++ rest.
End pmm.

(** ** Runs of pages *)

Lemma page_run_nil a b : b < a + PAGE_SIZE → page_run a b = [].
Proof.
  intros. unfold page_run. assert ((b - a) / PAGE_SIZE ≤ 0) as Hd.
  { unfold PAGE_SIZE in *. zdiv. }
  by rewrite seqZ_nil.
Qed.

Lemma page_run_cons a b : a + PAGE_SIZE ≤ b → page_run a b = a :: page_run (a + PAGE_SIZE) b.
Proof.
  intros. unfold page_run. unfold PAGE_SIZE in *.
  assert ((b - a) / 4096 = Z.succ ((b - (a + 4096)) / 4096)) as ->.
  { replace (b - a) with (b - (a + 4096) + 1 * 4096) by lia. rewrite Z.div_add by lia. lia. }
  assert (0 ≤ (b - (a + 4096)) / 4096) by (apply Z.div_pos; lia).
  rewrite seqZ_cons by lia. rewrite Z.pred_succ. simpl. f_equal; [lia|].
  change (Z.succ 0) with 1. rewrite <- (Z.add_0_r 1), <- fmap_add_seqZ.
  rewrite <- list_fmap_compose. apply list_fmap_ext. intros ? x _. simpl. lia.
Qed.

Lemma page_run_drop a b k : (k ≤ length (page_run a b))%nat →
  drop k (page_run a b) = page_run (a + PAGE_SIZE * Z.of_nat k) b.
Proof.
  revert a. induction k as [|k IH]; intros a Hk.
  { rewrite drop_0. f_equal. lia. }
  destruct (Z_le_gt_dec (a + PAGE_SIZE) b).
  - rewrite page_run_cons in * by done. simpl in *. rewrite IH by lia. f_equal. lia.
  - rewrite page_run_nil in Hk by lia. simpl in Hk. lia.
Qed.

Lemma elem_of_page_run p a b : p ∈ page_run a b → a mod PAGE_SIZE = 0 →
  p mod PAGE_SIZE = 0 ∧ a ≤ p ∧ p + PAGE_SIZE ≤ b.
Proof.
  unfold page_run. intros (i & -> & Hi%elem_of_seqZ)%list_elem_of_fmap Ha.
  unfold PAGE_SIZE in *. repeat split; [|lia|zdiv].
  rewrite <- Zplus_mod_idemp_l, Ha, Z.mul_comm. apply Z_mod_mult.
Qed.

Lemma NoDup_page_run a b : NoDup (page_run a b).
Proof.
  unfold page_run. apply NoDup_fmap_2; [|apply NoDup_seqZ].
  intros x y. unfold PAGE_SIZE. lia.
Qed.

(** ** The free list *)

Section pmm_lemmas.
Context `{Memmap}.

Lemma freelist_ext m m' head l : Forall page_ok l →
  (∀ p, p ∈ l → ld64 m' (phys_to_virt p) = ld64 m (phys_to_virt p)) →
  freelist m head l → freelist m' head l.
Proof.
  revert head. induction l as [|p l IH]; intros head Hok Heq; simpl; [done|].
  intros [-> Hl]. apply Forall_cons in Hok as [_ Hok]. split; [done|].
  rewrite Heq by apply list_elem_of_here. apply IH; [done| |done].
  intros q Hq. apply Heq. by apply list_elem_of_further.
Qed.

Lemma freelist_push m head l p : Forall page_ok (p :: l) → p ∉ l →
  freelist m head l →
  freelist (st64 (phys_to_virt p) head m) (phys_to_virt p) (p :: l).
Proof.
  intros [Hp Hok]%Forall_cons Hn Hl. split; [done|].
  rewrite ld64_st64_eq.
  assert (u64 head = head) as ->.
  { destruct l as [|q l]; simpl in Hl.
    - by rewrite Hl.
    - destruct Hl as [-> _]. unfold phys_to_virt. apply u64_u64. }
  eapply freelist_ext; [done| |done].
  intros q Hq. apply ld64_st64_ne. rewrite Forall_forall in Hok.
  assert (p ≠ q) by congruence.
  destruct (page_ok_apart p q); auto; unfold PAGE_SIZE in *; lia.
Qed.

Lemma freelist_head_zero m head l : Forall page_ok l → freelist m head l →
  (head =? 0) = true ↔ l = [].
Proof.
  intros Hok Hl. rewrite Z.eqb_eq. destruct l as [|p l]; simpl in Hl; [done|].
  destruct Hl as [-> _]. apply Forall_cons in Hok as [Hp _].
  pose proof (phys_to_virt_range p Hp). split; [lia|done].
Qed.

(** ** Entries of the memory map *)

Lemma entry_bounds i e : memmap_entries !! i = Some e → usable e = true →
  0 ≤ base e ∧ 0 ≤ length_ e ∧ base e + length_ e ≤ hhdm_max.
Proof.
  intros Hi He. pose proof memmap_bounds as Hb. rewrite Forall_lookup in Hb.
  apply (Hb i e Hi). by apply Z.eqb_eq.
Qed.

Lemma entry_arith i e : memmap_entries !! i = Some e → usable e = true →
  0 ≤ base e ∧ base e ≤ ALIGN_UP (base e) PAGE_SIZE < 2 ^ 52 + PAGE_SIZE
  ∧ 0x100000 ≤ entry_start e ∧ entry_start e mod PAGE_SIZE = 0
  ∧ base e ≤ entry_start e
  ∧ entry_end e ≤ hhdm_max ∧ 0 ≤ entry_end e ≤ base e + length_ e ∧ hhdm_max ≤ 2 ^ 52
  ∧ entry_end e mod PAGE_SIZE = 0 ∧ u64 (base e + length_ e) = base e + length_ e.
Proof.
  intros Hi He. destruct (entry_bounds i e Hi He) as (Hb & Hl & Hm).
  pose proof hhdm_max_52 as H52. change (2 ^ 52) with 4503599627370496 in *.
  destruct (ALIGN_UP_spec (base e)) as [? Hma]; [lia|pow2; lia|].
  destruct (ALIGN_DOWN_spec (base e + length_ e)) as (?&?&?); [pow2; lia|].
  unfold entry_start, entry_end. rewrite u64_small by (pow2; lia).
  unfold PAGE_SIZE in *.
  destruct (Z.max_spec (ALIGN_UP (base e) 4096) 0x100000) as [[? ->]|[? ->]];
    repeat split; try lia; done.
Qed.

Lemma entry_pages_ok i e : memmap_entries !! i = Some e → Forall page_ok (entry_pages e).
Proof.
  intros Hi. unfold entry_pages, entry_rest. destruct (usable e) eqn:He; [|constructor].
  simpl. apply Forall_forall. intros p Hp.
  pose proof (entry_arith i e Hi He).
  apply elem_of_page_run in Hp as (?&?&?); [|tauto]. unfold page_ok. lia.
Qed.

Lemma elem_of_entry_pages i e p : memmap_entries !! i = Some e → p ∈ entry_pages e →
  usable e = true ∧ base e ≤ p ∧ p + PAGE_SIZE ≤ base e + length_ e.
Proof.
  intros Hi. unfold entry_pages, entry_rest. destruct (usable e) eqn:He.
  - simpl. intros Hp. pose proof (entry_arith i e Hi He).
    apply elem_of_page_run in Hp as (?&?&?); [|tauto]. split; [done|lia].
  - intros Hp. by apply not_elem_of_nil in Hp.
Qed.

Lemma all_pages_ok : Forall page_ok all_pages.
Proof.
  unfold all_pages. apply Forall_join, Forall_fmap, Forall_lookup. intros i e Hi.
  simpl. by eapply entry_pages_ok.
Qed.

(** No page occurs twice in the memory map. *)
Lemma NoDup_all_pages : NoDup all_pages.
Proof.
  unfold all_pages. apply NoDup_join_lookup.
  - intros i l (e & -> & Hi)%list_lookup_fmap_Some_1.
    unfold entry_pages, entry_rest. destruct (usable e); [apply NoDup_page_run|constructor].
  - intros i j l l' Hij (e & -> & Hi)%list_lookup_fmap_Some_1
      (f & -> & Hj)%list_lookup_fmap_Some_1 p Hp Hq.
    destruct (elem_of_entry_pages _ _ _ Hi Hp) as (He & ? & ?).
    destruct (elem_of_entry_pages _ _ _ Hj Hq) as (Hf & ? & ?).
    apply Z.eqb_eq in He, Hf. pose proof (memmap_sorted i j e f Hij Hi Hj He Hf).
    unfold PAGE_SIZE in *. lia.
Qed.
End pmm_lemmas.

(** ** Filling *)

Section pmm_fill_proofs.
Context `{Memmap}.

Lemma run_ok i e a : memmap_entries !! i = Some e → usable e = true →
  entry_start e ≤ a → a mod PAGE_SIZE = 0 → Forall page_ok (page_run a (entry_end e)).
Proof.
  intros Hi He Ha Hm. pose proof (entry_arith i e Hi He).
  apply Forall_forall. intros p (?&?&?)%elem_of_page_run; [|done]. unfold page_ok. lia.
Qed.

Lemma run_next a b k : (S k ≤ length (page_run a b))%nat →
  a + PAGE_SIZE * Z.of_nat k + PAGE_SIZE ≤ b
  ∧ page_run a b !! k = Some (a + PAGE_SIZE * Z.of_nat k).
Proof.
  intros Hk. assert (drop k (page_run a b) !! 0%nat = page_run a b !! k) as Hl
    by (rewrite lookup_drop; f_equal; lia).
  rewrite page_run_drop in Hl by lia.
  destruct (Z_le_gt_dec (a + PAGE_SIZE * Z.of_nat k + PAGE_SIZE) b) as [Hb|Hb].
  - split; [done|]. by rewrite <- Hl, page_run_cons.
  - rewrite page_run_nil in Hl by lia. symmetry in Hl. apply lookup_ge_None in Hl. lia.
Qed.

Lemma run_end a b : a mod PAGE_SIZE = 0 → b mod PAGE_SIZE = 0 → a ≤ b →
  a + PAGE_SIZE * Z.of_nat (length (page_run a b)) = b.
Proof.
  intros Ha Hb Hab. unfold page_run. rewrite length_fmap, length_seqZ.
  unfold PAGE_SIZE in *. zdiv.
Qed.

Lemma run_short a b k : (k ≤ length (page_run a b))%nat →
  b < a + PAGE_SIZE * Z.of_nat k + PAGE_SIZE → k = length (page_run a b).
Proof.
  intros Hk Hb. destruct (decide (S k ≤ length (page_run a b))%nat) as [Hs|]; [|lia].
  pose proof (proj1 (run_next a b k Hs)). lia.
Qed.

Lemma reverse_take_S {A} (l : list A) k x :
  l !! k = Some x → reverse (take (S k) l) = x :: reverse (take k l).
Proof. intros Hx. by rewrite (take_S_r _ _ _ Hx), reverse_snoc. Qed.

(** The inner loop, for one usable entry [e] from page boundary [a] on. *)
Section fill_pages.
Variables (i : nat) (e : limine_memmap_entry) (s : pmm_state) (free : list Z) (added pages : Z).
Abbreviation a := (base e + freelist_pmm_fill_offset s).
Abbreviation run := (page_run a (entry_end e)).
Hypothesis Hi : memmap_entries !! i = Some e.
Hypothesis He : usable e = true.
Hypothesis Hsa : entry_start e ≤ a.
Hypothesis Hma : a mod PAGE_SIZE = 0.
Hypothesis Hae : a ≤ entry_end e.
Hypothesis Hfree : Forall page_ok free.
Hypothesis Hnd : NoDup (free ++ run).
Hypothesis Hadd : 0 ≤ added ≤ pages.

(** After [k] pages. *)
Definition fill_at (k : nat) (x : pmm_state * Z) : Prop :=
  x.2 = added + Z.of_nat k ∧ (k ≤ length run)%nat ∧ x.2 ≤ pages
  ∧ freelist (pmm_mem x.1) (freelist_pmm_head x.1) (reverse (take k run) ++ free)
  ∧ only_pages run (pmm_mem s) (pmm_mem x.1)
  ∧ freelist_pmm_fill_entry x.1 = freelist_pmm_fill_entry s
  ∧ freelist_pmm_fill_offset x.1 = freelist_pmm_fill_offset s + PAGE_SIZE * Z.of_nat k.

Lemma fill_at_addr k x : fill_at k x →
  base e + freelist_pmm_fill_offset x.1 = a + PAGE_SIZE * Z.of_nat k
  ∧ u64 (base e + freelist_pmm_fill_offset x.1) = a + PAGE_SIZE * Z.of_nat k
  ∧ u64 (u64 (base e + freelist_pmm_fill_offset x.1) + PAGE_SIZE)
      = a + PAGE_SIZE * Z.of_nat k + PAGE_SIZE
  ∧ 0 ≤ a + PAGE_SIZE * Z.of_nat k ≤ 2 ^ 52.
Proof.
  intros (_ & Hk & _ & _ & _ & _ & ->). pose proof (entry_arith i e Hi He) as Har.
  assert (0 ≤ a + PAGE_SIZE * Z.of_nat k ≤ 2 ^ 52) as Hrange.
  { split; [unfold PAGE_SIZE; lia|]. destruct k as [|k']; [lia|].
    destruct (run_next a (entry_end e) k' Hk) as [? _]. unfold PAGE_SIZE in *. lia. }
  rewrite Z.add_assoc. change (2 ^ 52) with 4503599627370496 in *.
  rewrite (u64_small (a + _)) by (pow2; lia).
  split_and!; try done; try lia. apply u64_small. unfold PAGE_SIZE in *. pow2. lia.
Qed.

Lemma fill_at_more k x : fill_at k x →
  a + PAGE_SIZE * Z.of_nat k + PAGE_SIZE ≤ entry_end e → (S k ≤ length run)%nat.
Proof.
  intros (_ & Hk & _) Hb. destruct (decide (S k ≤ length run)%nat); [done|].
  pose proof (entry_arith i e Hi He) as Har.
  pose proof (run_end a (entry_end e) Hma ltac:(tauto) Hae).
  assert (k = length run) as -> by lia. unfold PAGE_SIZE in *. lia.
Qed.

Lemma fill_at_step k x : fill_at k x → fill_page_cond e (entry_end e) pages x = true →
  ∃ x', fill_page_step e x = Done x' ∧ fill_at (S k) x'.
Proof.
  intros Hx Hc. destruct (fill_at_addr k x Hx) as (Hax & Hu & Hu' & Hrange).
  unfold fill_page_cond in Hc. rewrite Hu' in Hc.
  apply andb_true_iff in Hc as [Hc1%Z.leb_le Hc2%Z.ltb_lt].
  pose proof (fill_at_more k x Hx Hc1) as HSk.
  destruct (run_next a (entry_end e) k HSk) as [_ Hlk].
  pose proof (run_ok i e a Hi He Hsa Hma) as Hrun.
  assert (page_ok (a + PAGE_SIZE * Z.of_nat k)) as Hpk by (by eapply Forall_lookup_1 in Hlk).
  destruct x as [y n]. destruct Hx as (Hn & Hk & Hnp & Hyl & Hym & Hye & Hyo). cbn [fst snd] in *.
  eexists. split; [reflexivity|]. unfold fill_at.
  cbn [fst snd set_fill push_node pmm_mem freelist_pmm_head freelist_pmm_fill_entry
       freelist_pmm_fill_offset].
  rewrite Hu. split_and!; try lia; [| |].
  - rewrite (reverse_take_S _ _ _ Hlk). apply freelist_push; [| |done].
    + constructor; [done|]. apply Forall_app. split; [|done]. by apply Forall_reverse, Forall_take.
    + apply NoDup_app in Hnd as (Hnf & Hdis & Hnr). rewrite elem_of_app, elem_of_reverse.
      intros [[j [Hj Hjk]%lookup_take_Some]%list_elem_of_lookup|Hin].
      * pose proof (NoDup_lookup _ _ _ _ Hnr Hj Hlk). lia.
      * apply (Hdis _ Hin). by eapply list_elem_of_lookup_2.
  - eapply only_pages_trans; [exact Hym|]. eapply only_pages_mono;
      [|apply (only_pages_st64 (a + PAGE_SIZE * Z.of_nat k)); [done|lia|unfold PAGE_SIZE; lia]].
    intros q ->%list_elem_of_singleton. by eapply list_elem_of_lookup_2.
  - rewrite Hyo, u64_small; [lia|]. unfold PAGE_SIZE in *. pow2.
    pose proof (entry_arith i e Hi He). change (2 ^ 52) with 4503599627370496 in *. lia.
Qed.

Lemma fill_pages_loop :
  freelist (pmm_mem s) (freelist_pmm_head s) free →
  ∃ x k, loop (fill_page_cond e (entry_end e) pages) (fill_page_step e) (Z.to_nat pages) (s, added)
      = Done x ∧ fill_at k x ∧ (k = length run ∨ x.2 = pages).
Proof.
  intros Hfl.
  destruct (loop_total (fill_page_cond e (entry_end e) pages) (fill_page_step e)
    (λ x, ∃ k, fill_at k x) (λ x, Z.to_nat (pages - x.2)) (Z.to_nat pages) (s, added))
    as (x & Hloop & (k & Hk) & Hcond).
  - intros x (k & Hx) Hc. destruct (fill_at_step k x Hx Hc) as (x' & -> & Hx').
    exists x'. split_and!; eauto. destruct Hx as [-> _], Hx' as (-> & _ & ? & _). lia.
  - exists 0%nat. unfold fill_at. simpl. split_and!; try lia; try done.
  - simpl. lia.
  - exists x, k. split_and!; try done.
    destruct (fill_at_addr k x Hk) as (_ & _ & Hu & _).
    unfold fill_page_cond in Hcond. rewrite Hu in Hcond.
    apply andb_false_iff in Hcond as [Hc%Z.leb_gt|Hc%Z.ltb_ge].
    + left. apply run_short; [apply Hk|done].
    + right. destruct Hk as (? & ? & ? & _). lia.
Qed.
End fill_pages.
Lemma take_shift_perm (k : nat) (free rest : list Z) :
  (reverse (take k rest) ++ free) ++ drop k rest ≡ₚ free ++ rest.
Proof.
  rewrite reverse_Permutation, (Permutation_app_comm _ free), <- app_assoc.
  by rewrite take_drop.
Qed.

(** A state reached by moving [k] pages from the stream to the free list. *)
Lemma pmm_rep_shift s s' free rest k :
  pmm_rep s free rest →
  freelist (pmm_mem s') (freelist_pmm_head s') (reverse (take k rest) ++ free) →
  pmm_remaining s' = drop k rest → fill_ok s' →
  pmm_rep s' (reverse (take k rest) ++ free) (drop k rest).
Proof.
  intros (_ & _ & _ & Hnd & Hok) ???. unfold pmm_rep. rewrite !take_shift_perm. done.
Qed.

Lemma remaining_drop s e : memmap_entries !! Z.to_nat (freelist_pmm_fill_entry s) = Some e →
  pmm_remaining s = entry_rest e (freelist_pmm_fill_offset s)
    ++ mjoin (entry_pages <$> drop (S (Z.to_nat (freelist_pmm_fill_entry s))) memmap_entries).
Proof. intros He. unfold pmm_remaining, remaining. by rewrite (drop_S _ _ _ He). Qed.

Lemma remaining_next entry : 0 ≤ entry →
  remaining (entry + 1) 0 = mjoin (entry_pages <$> drop (S (Z.to_nat entry)) memmap_entries).
Proof.
  intros. unfold remaining. replace (Z.to_nat (entry + 1)) with (S (Z.to_nat entry)) by lia.
  by destruct (drop _ _).
Qed.

(** Moving past an entry with nothing left in it. *)
Lemma next_entry_rep s e free rest k :
  memmap_entries !! Z.to_nat (freelist_pmm_fill_entry s) = Some e →
  0 ≤ freelist_pmm_fill_entry s →
  freelist (pmm_mem s) (freelist_pmm_head s) (reverse (take k rest) ++ free) →
  drop k rest = mjoin (entry_pages <$> drop (S (Z.to_nat (freelist_pmm_fill_entry s))) memmap_entries) →
  ∀ s0, pmm_rep s0 free rest →
  let s' := set_fill (u64 (freelist_pmm_fill_entry s + 1)) 0 s in
  pmm_rep s' (reverse (take k rest) ++ free) (drop k rest)
  ∧ freelist_pmm_fill_entry s' = freelist_pmm_fill_entry s + 1.
Proof.
  intros He Hpos Hfl Hrest s0 Hs0 s'. apply lookup_lt_Some in He.
  pose proof memmap_count. assert (u64 (freelist_pmm_fill_entry s + 1)
    = freelist_pmm_fill_entry s + 1) as Hu by (apply u64_small; lia).
  split; [|done]. eapply pmm_rep_shift; [exact Hs0|done| |].
  - unfold pmm_remaining. simpl. rewrite Hu, remaining_next by done. done.
  - unfold fill_ok. simpl. rewrite Hu. split; [lia|by left].
Qed.
(** What one iteration of the outer loop does to a state with stream [rest]. *)
Definition entry_step_ok (pages : Z) (s : pmm_state) (free rest : list Z) (added : Z)
    (x : pmm_state * Z) (k : nat) : Prop :=
  x.2 = added + Z.of_nat k ∧ (k ≤ length rest)%nat ∧ x.2 ≤ pages
  ∧ pmm_rep x.1 (reverse (take k rest) ++ free) (drop k rest)
  ∧ only_pages rest (pmm_mem s) (pmm_mem x.1)
  ∧ (freelist_pmm_fill_entry x.1 = freelist_pmm_fill_entry s + 1
     ∨ x.2 = pages ∧ freelist_pmm_fill_entry x.1 = freelist_pmm_fill_entry s).

(** An entry that yields no page is skipped. *)
Lemma skip_entry_ok pages s free rest added e :
  memmap_entries !! Z.to_nat (freelist_pmm_fill_entry s) = Some e →
  pmm_rep s free rest → added ≤ pages →
  entry_rest e (freelist_pmm_fill_offset s) = [] →
  entry_step_ok pages s free rest added
    (set_fill (u64 (freelist_pmm_fill_entry s + 1)) 0 s, added) 0.
Proof.
  intros He Hrep Hadd Hnil. pose proof Hrep as (Hfl & Hrem & Hfo & _).
  rewrite (remaining_drop s e He), Hnil in Hrem. simpl in Hrem.
  destruct (next_entry_rep s e free rest 0 He ltac:(apply Hfo) Hfl (eq_sym Hrem) s Hrep)
    as [Hrep' ?].
  unfold entry_step_ok. cbn [fst snd]. split_and!; try lia; done.
Qed.

(** The start of the pages still to be taken from a usable entry. *)
Lemma start_of_fill s e free rest :
  memmap_entries !! Z.to_nat (freelist_pmm_fill_entry s) = Some e → usable e = true →
  pmm_rep s free rest → entry_start e < entry_end e →
  let s1 := if freelist_pmm_fill_offset s =? 0
            then set_fill (freelist_pmm_fill_entry s) (u64 (entry_start e - base e)) s else s in
  let a := base e + freelist_pmm_fill_offset s1 in
  entry_start e ≤ a ∧ a mod PAGE_SIZE = 0 ∧ a ≤ entry_end e
  ∧ entry_rest e (freelist_pmm_fill_offset s) = page_run a (entry_end e)
  ∧ freelist_pmm_fill_entry s1 = freelist_pmm_fill_entry s
  ∧ pmm_mem s1 = pmm_mem s ∧ freelist_pmm_head s1 = freelist_pmm_head s
  ∧ 0 ≤ freelist_pmm_fill_offset s1.
Proof.
  intros He Hu (_ & _ & (_ & Hoff) & _) Hse. pose proof (entry_arith _ e He Hu).
  unfold entry_rest. rewrite Hu. destruct (Z.eqb_spec (freelist_pmm_fill_offset s) 0) as [Hz|Hz].
  - simpl. rewrite u64_small by (change (2 ^ 52) with 4503599627370496 in *; pow2; lia).
    replace (base e + (entry_start e - base e)) with (entry_start e) by lia.
    split_and!; try done; try tauto; lia.
  - simpl. destruct Hoff as [|(e' & He' & _ & ? & ? & ? & ?)]; [done|].
    rewrite He in He'. injection He' as <-. split_and!; try done; lia.
Qed.

Lemma take_entry_ok pages s s1 free rest added e x k :
  let a := base e + freelist_pmm_fill_offset s1 in
  let run := page_run a (entry_end e) in
  memmap_entries !! Z.to_nat (freelist_pmm_fill_entry s) = Some e → usable e = true →
  pmm_rep s free rest → added < pages →
  entry_start e ≤ a → a mod PAGE_SIZE = 0 → a ≤ entry_end e →
  entry_rest e (freelist_pmm_fill_offset s) = run →
  freelist_pmm_fill_entry s1 = freelist_pmm_fill_entry s → pmm_mem s1 = pmm_mem s →
  0 ≤ freelist_pmm_fill_offset s1 →
  fill_at e s1 free added pages k x → k = length run ∨ x.2 = pages →
  entry_step_ok pages s free rest added
    (if entry_end e <? u64 (u64 (base e + freelist_pmm_fill_offset x.1) + PAGE_SIZE)
     then (set_fill (u64 (freelist_pmm_fill_entry x.1 + 1)) 0 x.1, x.2) else x) k.
Proof.
  intros a run He Hu Hrep Hadd Hsa Hma Hae Hrun Hes Hms Hos Hx Hk.
  destruct (fill_at_addr _ e s1 free added pages He Hu Hsa Hae k x Hx) as (Hax & _ & Hend & _).
  destruct Hx as (Hx2 & Hkl & Hxp & Hfl & Hmem & Hent & Hoff). rewrite Hms in Hmem.
  pose proof Hrep as (_ & Hrem & Hfo & _). rewrite (remaining_drop s e He), Hrun in Hrem.
  rewrite <- Hes, <- Hent in He, Hrem. rewrite Hes in Hent.
  assert (take k run = take k rest) as Htk by (rewrite <- Hrem, take_app_le by done; done).
  fold a run in Hfl, Hkl, Hmem. rewrite Htk in Hfl.
  assert (k ≤ length rest)%nat by (rewrite <- Hrem, length_app; lia).
  assert (only_pages rest (pmm_mem s) (pmm_mem x.1)) as Hmem'.
  { eapply only_pages_mono; [|exact Hmem]. rewrite <- Hrem. intros p. rewrite elem_of_app. by left. }
  assert (drop k rest = drop k run ++ mjoin (entry_pages <$>
    drop (S (Z.to_nat (freelist_pmm_fill_entry x.1))) memmap_entries)) as Hdrop
    by (rewrite <- Hrem; by apply drop_app_le).
  fold a in Hax, Hend. rewrite Hend. unfold entry_step_ok.
  destruct (Z.ltb_spec (entry_end e) (a + PAGE_SIZE * Z.of_nat k + PAGE_SIZE)); cbn [fst snd].
  - assert (k = length run) as Hkr by (by apply run_short).
    rewrite Hkr, drop_all, <- Hkr in Hdrop.
    destruct (next_entry_rep x.1 e free rest k He ltac:(rewrite Hent; apply Hfo) Hfl Hdrop s Hrep)
      as [Hrep' Hne].
    split_and!; try done. left. by rewrite Hne, Hent.
  - destruct Hk as [->|Hk].
    { pose proof (entry_arith _ e He Hu).
      pose proof (run_end a (entry_end e) Hma ltac:(tauto) Hae). unfold run, PAGE_SIZE in *. lia. }
    split_and!; try done; [|right; done].
    eapply pmm_rep_shift; [exact Hrep|done| |].
    + rewrite (remaining_drop x.1 e He), Hdrop. f_equal. unfold run. rewrite page_run_drop by done.
      unfold entry_rest. rewrite Hu, Hax. destruct (Z.eqb_spec (freelist_pmm_fill_offset x.1) 0); [|done].
      f_equal. pose proof (entry_arith _ e He Hu). unfold PAGE_SIZE in *. lia.
    + split; [rewrite Hent; apply Hfo|].
      destruct (Z.eq_dec (freelist_pmm_fill_offset x.1) 0); [by left|right].
      exists e. rewrite Hax. split_and!; try done; unfold PAGE_SIZE in *; try lia.
      rewrite Z.mul_comm, Z_mod_plus_full. done.
Qed.

Lemma fill_entry_step_ok pages s free rest added :
  pmm_rep s free rest → 0 ≤ added → fill_entry_cond pages (s, added) = true →
  ∃ x k, fill_entry_step pages (s, added) = Done x ∧ entry_step_ok pages s free rest added x k.
Proof.
  intros Hrep Hadd Hc. unfold fill_entry_cond in Hc. simpl in Hc.
  apply andb_true_iff in Hc as [Hc1%Z.ltb_lt Hc2%Z.ltb_lt].
  pose proof Hrep as (Hfl & _ & Hfo & Hnd & Hok). destruct (proj1 Hfo) as [He0 _].
  unfold fill_entry_step.
  destruct (lookup_lt_is_Some_2 memmap_entries (Z.to_nat (freelist_pmm_fill_entry s))) as [e He]; [lia|].
  rewrite He. change (type_ e =? LIMINE_MEMMAP_USABLE) with (usable e).
  destruct (usable e) eqn:Hu; simpl negb; cbv iota.
  2:{ eexists _, 0%nat. split; [done|]. apply (skip_entry_ok _ _ _ _ _ e); try done; [lia|].
      unfold entry_rest. by rewrite Hu. }
  pose proof (entry_arith _ e He Hu) as Har.
  assert (u64 (base e + length_ e) = base e + length_ e) as -> by tauto.
  change (ALIGN_DOWN (base e + length_ e) PAGE_SIZE) with (entry_end e).
  assert ((if ALIGN_UP (base e) PAGE_SIZE <? 0x100000 then 0x100000 else ALIGN_UP (base e) PAGE_SIZE)
    = entry_start e) as ->.
  { unfold entry_start. destruct (Z.ltb_spec (ALIGN_UP (base e) PAGE_SIZE) 0x100000); lia. }
  destruct (Z.leb_spec (entry_end e) (entry_start e)) as [Hes|Hes].
  { eexists _, 0%nat. split; [done|]. apply (skip_entry_ok _ _ _ _ _ e); try done; [lia|].
    unfold entry_rest. rewrite Hu. apply page_run_nil.
    destruct (Z.eqb_spec (freelist_pmm_fill_offset s) 0); [unfold PAGE_SIZE; lia|].
    destruct Hfo as [_ [|(e' & He' & _ & ? & ? & ? & ?)]]; [done|].
    rewrite He in He'. injection He' as <-. unfold PAGE_SIZE; lia. }
  destruct (start_of_fill s e free rest He Hu Hrep Hes) as (Hsa & Hma & Hae & Hrun & Hent & Hm & Hh & Ho).
  set (s1 := if freelist_pmm_fill_offset s =? 0 then _ else s) in *.
  apply Forall_app in Hok as [Hfree _].
  assert (NoDup (free ++ page_run (base e + freelist_pmm_fill_offset s1) (entry_end e))) as Hndr.
  { rewrite <- Hrun. destruct Hrep as (_ & Hrem & _). rewrite (remaining_drop s e He) in Hrem.
    rewrite <- Hrem, app_assoc in Hnd. by apply NoDup_app in Hnd as (? & _). }
  destruct (fill_pages_loop _ e s1 free added pages He Hu Hsa Hma Hae Hfree Hndr ltac:(lia)
    ltac:(by rewrite Hm, Hh)) as (x & k & Hloop & Hx & Hk).
  pose proof (take_entry_ok pages s s1 free rest added e x k He Hu Hrep Hc2 Hsa Hma Hae Hrun Hent Hm Ho Hx Hk)
    as Hres.
  eexists _, k. split; [|exact Hres]. rewrite Hloop. destruct x as [y n]. simpl.
  by destruct (_ <? _).
Qed.
End pmm_fill_proofs.

(** ** The operations refine their specification *)

Section pmm_refinement.
Context `{Memmap}.

(** What [pmm_fill] has done when [n] pages have been added. *)
Definition filled_at (pages : Z) (s : pmm_state) (free rest : list Z) (n : nat)
    (x : pmm_state * Z) : Prop :=
  x.2 = Z.of_nat n ∧ x.2 ≤ pages ∧ (n ≤ length rest)%nat
  ∧ pmm_rep x.1 (reverse (take n rest) ++ free) (drop n rest)
  ∧ only_pages rest (pmm_mem s) (pmm_mem x.1).

Lemma filled_at_step pages s free rest n x x' k :
  filled_at pages s free rest n x →
  entry_step_ok pages x.1 (reverse (take n rest) ++ free) (drop n rest) (Z.of_nat n) x' k →
  filled_at pages s free rest (n + k) x'.
Proof.
  intros (Hn & _ & Hl & _ & Hm) (Hk & Hkl & Hkp & Hrep & Hm' & _).
  rewrite length_drop in Hkl.
  assert (reverse (take k (drop n rest)) ++ reverse (take n rest) = reverse (take (n + k) rest)) as Ht
    by (rewrite <- reverse_app; f_equal; apply take_take_drop).
  rewrite app_assoc, Ht, drop_drop in Hrep.
  split_and!; try lia; [done|].
  eapply only_pages_trans; [exact Hm|]. eapply only_pages_mono; [|exact Hm'].
  intros p [i Hi]%list_elem_of_lookup. rewrite lookup_drop in Hi. by eapply list_elem_of_lookup_2.
Qed.

Lemma filled_at_exit pages s free rest n x :
  filled_at pages s free rest n x → fill_entry_cond pages x = false →
  pmm_rep x.1 (reverse (take (Z.to_nat pages) rest) ++ free) (drop (Z.to_nat pages) rest).
Proof.
  intros (Hn & Hp & Hl & Hrep & _) Hc. unfold fill_entry_cond in Hc.
  apply andb_false_iff in Hc as [Hc%Z.ltb_ge|Hc%Z.ltb_ge].
  - assert (drop n rest = []) as Hd.
    { destruct Hrep as (_ & <- & [? _] & _). unfold pmm_remaining, remaining.
      by rewrite drop_ge by lia. }
    assert (length rest ≤ n)%nat as Hle.
    { apply (f_equal length) in Hd. rewrite length_drop in Hd. simpl in Hd. lia. }
    rewrite (take_ge rest n Hle), (drop_ge rest n Hle) in Hrep.
    by rewrite (take_ge rest), (drop_ge rest) by lia.
  - by replace (Z.to_nat pages) with n by lia.
Qed.

Lemma pmm_fill_rep pages s free rest : 0 ≤ pages → pmm_rep s free rest →
  ∃ s', pmm_fill pages s = Done (tt, s')
    ∧ pmm_rep s' (spec_fill (Z.to_nat pages) free rest).1 (spec_fill (Z.to_nat pages) free rest).2
    ∧ only_pages rest (pmm_mem s) (pmm_mem s').
Proof.
  intros Hp Hrep.
  destruct (loop_total (fill_entry_cond pages) (fill_entry_step pages)
    (λ x, ∃ n, filled_at pages s free rest n x)
    (λ x, (Z.to_nat (Z.of_nat (length memmap_entries) - freelist_pmm_fill_entry x.1)
      + if (x.2 <? pages)%Z then 1 else 0)%nat) (S (length memmap_entries)) (s, 0))
    as ([s' added] & Hloop & (n & Hn) & Hc).
  - intros [y m] (n & Hy) Hc. pose proof Hy as (Hm & _ & _ & Hyr & _). cbn [fst snd] in *. subst m.
    destruct (fill_entry_step_ok pages y _ _ (Z.of_nat n) Hyr ltac:(lia) Hc) as (x & k & Hx & Hok).
    exists x. split_and!; [done|eexists; by eapply filled_at_step|].
    destruct Hok as (Hk & _ & Hkp & _ & _ & Hent).
    unfold fill_entry_cond in Hc. cbn [fst snd] in *.
    apply andb_true_iff in Hc as [Hc1%Z.ltb_lt Hc2]. rewrite Hc2. apply Z.ltb_lt in Hc2.
    destruct Hyr as (_ & _ & [? _] & _).
    destruct Hent as [->|[Heq ->]]; destruct (Z.ltb_spec x.2 pages); lia.
  - exists 0%nat. unfold filled_at. simpl. rewrite drop_0. split_and!; try lia; try done.
  - cbn [fst snd]. destruct Hrep as (_ & _ & [? _] & _). destruct (0 <? pages); lia.
  - exists s'. unfold pmm_fill. rewrite Hloop. split; [done|]. split.
    + exact (filled_at_exit pages s free rest n (s', added) Hn Hc).
    + apply Hn.
Qed.

(** Popping the head of the free list, and clearing its page. *)
Lemma pmm_pop s p free rest : pmm_rep s (p :: free) rest →
  let s' := mk_pmm (fill_up (Z.to_nat PAGE_SIZE) 0 (phys_to_virt p) 0 (pmm_mem s))
              (ld64 (pmm_mem s) (freelist_pmm_head s))
              (freelist_pmm_fill_entry s) (freelist_pmm_fill_offset s) in
  pmm_rep s' free rest ∧ only_pages [p] (pmm_mem s) (pmm_mem s') ∧ page_zero (pmm_mem s') p.
Proof.
  intros ([Hh Hfl] & Hrem & Hfo & Hnd & Hok) s'. rewrite Hh in Hfl. subst s'. rewrite Hh.
  rewrite <- app_comm_cons in Hnd, Hok.
  set (s' := mk_pmm _ _ _ _).
  apply NoDup_cons in Hnd as [Hn Hnd]. apply Forall_cons in Hok as [Hp Hok].
  assert (only_pages [p] (pmm_mem s) (pmm_mem s')) as Hm by (by apply only_pages_fill).
  split; [|split; [exact Hm|]].
  - split; [|by split_and!].
    eapply freelist_ext; [| |exact Hfl]; [by apply Forall_app in Hok as [? _]|].
    intros q Hq. apply ld64_agree with (phys_to_virt q); [|lia|lia].
    rewrite Forall_forall in Hok. apply (only_pages_agree [p]); [by apply Forall_singleton| | |exact Hm].
    + apply Hok, elem_of_app. by left.
    + intros ->%list_elem_of_singleton. apply Hn, elem_of_app. by left.
  - intros b Hb. unfold s'. simpl. rewrite ldb_fill_up, decide_True; [done|].
    unfold PAGE_SIZE in *. lia.
Qed.

(** The list up to [p], when [p] has become the last. *)
Lemma freelist_cut m m' head l1 p l2 : freelist m head (l1 ++ p :: l2) →
  (∀ q, q ∈ l1 → ld64 m' (phys_to_virt q) = ld64 m (phys_to_virt q)) → ld64 m' (phys_to_virt p) = 0 →
  freelist m' head (l1 ++ [p]).
Proof.
  revert head. induction l1 as [|q l1 IH]; intros head Hl Hm Hp.
  - destruct Hl as [-> _]. by split.
  - destruct Hl as [-> Hl]. split; [done|]. rewrite Hm by apply list_elem_of_here. apply IH; [done| |done].
    intros r Hr. apply Hm. by apply list_elem_of_further.
Qed.

(** Freeing a page that is on the list, and allocating: the page is handed out and
    stays on the list, whose end is lost. *)
Lemma pmm_free_twice s l1 p l2 rest : pmm_rep s (l1 ++ p :: l2) rest →
  ∃ s1 s2, pmm_free_page p s = Done (tt, s1) ∧ pmm_alloc_page s1 = Done (p, s2) ∧ pmm_rep s2 (l1 ++ [p]) rest.
Proof.
  intros (Hfl & Hrem & Hfo & Hnd & Hok).
  assert (page_ok p) as Hp by (rewrite Forall_forall in Hok; apply Hok; set_solver).
  pose proof (phys_to_virt_range p Hp). set (head := freelist_pmm_head s) in *.
  assert (u64 head = head) as Hu.
  { destruct l1 as [|q l1]; simpl in Hfl; destruct Hfl as [-> _]; unfold phys_to_virt; apply u64_u64. }
  set (m1 := st64 (phys_to_virt p) head (pmm_mem s)). set (s1 := push_node (phys_to_virt p) s).
  set (m2 := fill_up (Z.to_nat PAGE_SIZE) 0 (phys_to_virt p) 0 m1).
  exists s1, (mk_pmm m2 head (freelist_pmm_fill_entry s) (freelist_pmm_fill_offset s)).
  split; [done|]. split; [|split; [|split; [exact Hrem|split; [exact Hfo|]]]].
  - unfold pmm_alloc_page. simpl. destruct (Z.eqb_spec (phys_to_virt p) 0); [lia|].
    simpl. destruct (Z.eqb_spec (phys_to_virt p) 0); [lia|].
    rewrite memset_Done by lia. simpl. rewrite ld64_st64_eq. fold head. rewrite Hu. fold m1 m2.
    rewrite virt_to_phys_to_virt; [done|]. pose proof (page_ok_range p Hp). unfold PAGE_SIZE in *. pow2.
    change (2 ^ 52) with 4503599627370496 in *. lia.
  - apply (freelist_cut (pmm_mem s) _ _ l1 p l2 Hfl).
    + intros q Hq. assert (page_ok q ∧ q ≠ p) as [Hqok Hqp].
      { split; [rewrite Forall_forall in Hok; apply Hok; set_solver|]. intros ->.
        rewrite <- app_assoc in Hnd. apply NoDup_app in Hnd as (_ & Hnd & _). by apply (Hnd p Hq), list_elem_of_here. }
      apply ldn_ext. intros b Hb. simpl. unfold m2, m1.
      destruct (page_ok_apart p q); auto; unfold PAGE_SIZE in *;
        rewrite ldb_fill_up, decide_False, ldb_stn_ne by lia; done.
    + apply ldn_zero. intros b Hb. simpl. unfold m2. rewrite ldb_fill_up, decide_True; [done|].
      unfold PAGE_SIZE. lia.
  - split.
    + rewrite <- !app_assoc in *. apply NoDup_app in Hnd as (Hn1 & Hn2 & Hn3). simpl in *.
      apply NoDup_app. split; [done|]. split; [set_solver|]. apply NoDup_cons in Hn3 as [Hn3 Hn4].
      apply NoDup_cons. split; [set_solver|]. by apply NoDup_app in Hn4 as (_ & _ & ?).
    + rewrite !Forall_app, !Forall_cons in *. naive_solver.
Qed.

(** An allocation with an empty free list is an allocation after a refill. *)
Lemma pmm_alloc_from s p free rest : pmm_rep s (p :: free) rest →
  ∃ s', pmm_alloc_page s = Done (p, s') ∧ pmm_rep s' free rest
    ∧ only_pages [p] (pmm_mem s) (pmm_mem s') ∧ page_zero (pmm_mem s') p.
Proof.
  intros Hrep. destruct (pmm_pop s p free rest Hrep) as (Hrep' & Hm & Hz).
  destruct Hrep as ([Hh Hfl] & _ & _ & _ & Hok). apply Forall_cons in Hok as [Hp _].
  pose proof (phys_to_virt_range p Hp). eexists. split; [|split; [exact Hrep'|split; [exact Hm|exact Hz]]].
  unfold pmm_alloc_page. rewrite !Hh. destruct (Z.eqb_spec (phys_to_virt p) 0); [lia|].
  simpl. rewrite Hh. destruct (Z.eqb_spec (phys_to_virt p) 0); [lia|].
  rewrite memset_Done by lia. simpl. rewrite virt_to_phys_to_virt; [done|].
  pose proof (page_ok_range p Hp). unfold PAGE_SIZE in *. pow2.
  change (2 ^ 52) with 4503599627370496 in *. lia.
Qed.

Lemma pmm_alloc_refill s rest : pmm_rep s [] rest →
  ∃ s', pmm_rep s' (reverse (take 512 rest)) (drop 512 rest)
    ∧ only_pages rest (pmm_mem s) (pmm_mem s')
    ∧ (rest ≠ [] → pmm_alloc_page s = pmm_alloc_page s')
    ∧ (rest = [] → pmm_alloc_page s = Panic "PMM: out of memory").
Proof.
  intros Hrep. destruct (pmm_fill_rep 512 s [] rest ltac:(lia) Hrep) as (s' & Hf & Hrep' & Hm).
  change (Z.to_nat 512) with 512%nat in Hrep'. cbn [spec_fill fst snd] in Hrep'.
  rewrite app_nil_r in Hrep'. exists s'. pose proof Hrep as (Hfl & _ & _ & _ & _).
  pose proof Hrep' as (Hfl' & _ & _ & _ & Hok'). apply Forall_app in Hok' as [Hok' _].
  assert ((freelist_pmm_head s =? 0) = true) as Hh by (simpl in Hfl; by rewrite Hfl).
  pose proof (freelist_head_zero _ _ _ Hok' Hfl') as Hh'.
  split; [done|]. split; [done|]. split; intros Hr.
  - unfold pmm_alloc_page at 1. rewrite Hh, Hf. simpl. unfold pmm_alloc_page.
    destruct (freelist_pmm_head s' =? 0) eqn:E; [|simpl; by rewrite E].
    pose proof (proj1 Hh' eq_refl) as E'. destruct rest; [done|].
    simpl in E'. rewrite reverse_cons in E'. by destruct (reverse (take 511 rest)).
  - subst. unfold pmm_alloc_page. rewrite Hh, Hf. simpl. by rewrite (proj2 Hh').
Qed.
End pmm_refinement.

(** ** The module is a page allocator *)

Section pmm_instance.
Context `{Memmap}.

#[export] Instance pmm_allocator : PageAllocator pmm_state := {|
  pa_mem := pmm_mem;
  pa_set_mem m s := mk_pmm m (freelist_pmm_head s) (freelist_pmm_fill_entry s)
                      (freelist_pmm_fill_offset s);
  Phys.pmm_alloc_page := pmm_alloc_page;
  Phys.pmm_free_page := pmm_free_page;
  pa_owns := pmm_owns;
|}.

(** Freeing a page pushes it. *)
Lemma pmm_free_rep s p free rest : pmm_rep s free rest → page_ok p → p ∉ free ++ rest →
  ∃ s', pmm_free_page p s = Done (tt, s') ∧ pmm_rep s' (p :: free) rest
    ∧ only_pages [p] (pmm_mem s) (pmm_mem s').
Proof.
  intros (Hfl & Hrem & Hfo & Hnd & Hok) Hp Hn. eexists. split; [reflexivity|]. split.
  - split; [|split; [done|split; [done|]]].
    + apply freelist_push; [constructor; [done|]| |done].
      * by apply Forall_app in Hok as [? _].
      * intros Hin. apply Hn, elem_of_app. by left.
    + rewrite <- app_comm_cons. by split; constructor.
  - apply only_pages_st64; [done|lia|unfold PAGE_SIZE; lia].
Qed.

Lemma pmm_owns_set s l m : pmm_owns s l →
  (∀ p, p ∈ l → agree (pmm_mem s) m (phys_to_virt p) PAGE_SIZE) →
  pmm_owns (pa_set_mem m s) l.
Proof.
  intros (free & rest & (Hfl & Hrem & Hfo & Hnd & Hok) & Hl) Hag.
  exists free, rest. split; [|done]. split; [|exact (conj Hrem (conj Hfo (conj Hnd Hok)))].
  eapply freelist_ext; [| |exact Hfl]; [by apply Forall_app in Hok as [? _]|].
  intros q Hq. apply ld64_agree with (phys_to_virt q); [|lia|lia].
  apply Hag. rewrite Hl, elem_of_app. by left.
Qed.

#[export] Instance pmm_allocator_laws : PageAllocatorLaws.
Proof.
  split.
  - done.
  - done.
  - intros s l (free & rest & (_ & _ & _ & ? & ?) & Hl). by rewrite Hl.
  - exact pmm_owns_set.
  - intros s l (free & rest & Hrep & Hl) Hne. destruct free as [|p free].
    + destruct (pmm_alloc_refill s rest Hrep) as (s1 & Hrep1 & Hm1 & Heq & _).
      assert (rest ≠ []) as Hr by (intros ->; by apply Permutation_nil_r in Hl).
      destruct (reverse (take 512 rest)) as [|p free] eqn:E.
      { destruct rest; [done|]. simpl in E. rewrite reverse_cons in E.
        by destruct (reverse (take 511 rest)). }
      assert (l ≡ₚ p :: free ++ drop 512 rest) as Hl'.
      { rewrite Hl, app_comm_cons, <- E, reverse_Permutation. by rewrite take_drop. }
      destruct (pmm_alloc_from s1 p free _ Hrep1) as (s' & Ha & Hrep' & Hm' & Hz).
      exists p, (free ++ drop 512 rest), s'. split_and!; [|done| | |done].
      * simpl. by rewrite Heq.
      * by exists free, (drop 512 rest).
      * eapply only_pages_trans; eapply only_pages_mono; [|exact Hm1| |exact Hm'].
        -- intros q. by rewrite Hl.
        -- intros q ->%list_elem_of_singleton. rewrite Hl'. apply list_elem_of_here.
    + destruct (pmm_alloc_from s p free _ Hrep) as (s' & Ha & Hrep' & Hm' & Hz).
      exists p, (free ++ rest), s'. split_and!; [done|done| | |done].
      * by exists free, rest.
      * eapply only_pages_mono; [|exact Hm'].
        intros q ->%list_elem_of_singleton. rewrite Hl. apply list_elem_of_here.
  - intros s (free & rest & Hrep & Hl). apply Permutation_nil_l in Hl. symmetry in Hl.
    apply app_eq_nil in Hl as [-> ->].
    destruct (pmm_alloc_refill s [] Hrep) as (_ & _ & _ & _ & Hp). simpl. eauto.
  - intros s l p (free & rest & Hrep & Hl) Hp Hn. rewrite Hl in Hn.
    destruct (pmm_free_rep s p free rest Hrep Hp Hn) as (s' & Hf & Hrep' & Hm).
    exists s'. split_and!; [done| |done]. exists (p :: free), rest. by rewrite Hl.
Qed.

Lemma pmm_boot_rep m : pmm_rep (pmm_boot m) [] all_pages.
Proof.
  split; [done|]. split; [|split].
  - unfold pmm_remaining, remaining, all_pages. simpl. rewrite drop_0.
    by destruct memmap_entries.
  - split; [simpl; lia|by left].
  - simpl. split; [apply NoDup_all_pages|apply all_pages_ok].
Qed.
End pmm_instance.

(** ** Runs of the allocator *)

Section pmm_runs.
Context `{Memmap}.

(** The pages the kernel holds, and the calls it makes: it frees only pages it
    holds. *)
Inductive pmm_step : pmm_state * list Z → pmm_state * list Z → Prop :=
  | step_alloc s s' live p :
      pmm_alloc_page s = Done (p, s') → pmm_step (s, live) (s', p :: live)
  | step_free s s' live live' p :
      live ≡ₚ p :: live' → pmm_free_page p s = Done (tt, s') → pmm_step (s, live) (s', live')
  | step_fill s s' live n :
      0 ≤ n → pmm_fill n s = Done (tt, s') → pmm_step (s, live) (s', live).

(** Every page of the memory map is held, free, or not yet taken: once. *)
Definition pmm_conserves (x : pmm_state * list Z) : Prop :=
  ∃ free rest, pmm_rep x.1 free rest ∧ x.2 ++ free ++ rest ≡ₚ all_pages.

Lemma pmm_step_alloc s free rest p s' : pmm_rep s free rest → pmm_alloc_page s = Done (p, s') →
  ∃ free' rest', pmm_rep s' free' rest' ∧ free ++ rest ≡ₚ p :: free' ++ rest'.
Proof.
  intros Hrep Ha.
  assert (pa_owns s (free ++ rest)) as Hown by (by exists free, rest).
  destruct (decide (free ++ rest = [])) as [E|Hne].
  { rewrite E in Hown. apply pa_alloc_none in Hown as [msg Hm]. simpl in Hm. congruence. }
  destruct (pa_alloc s _ Hown Hne) as (q & l' & s1 & Hq & Hl & (free' & rest' & Hrep' & Hl') & _).
  simpl in Hq. rewrite Ha in Hq. injection Hq as <- <-.
  exists free', rest'. split; [done|]. by rewrite Hl, Hl'.
Qed.

Lemma pmm_step_conserves x y : pmm_step x y → pmm_conserves x → pmm_conserves y.
Proof.
  intros Hstep (free & rest & Hrep & Hall).
  destruct Hstep as [s s' live p Ha|s s' live live' p Hlive Hf|s s' live n Hn Hf]; cbn [fst snd] in *.
  - destruct (pmm_step_alloc _ _ _ _ _ Hrep Ha) as (free' & rest' & Hrep' & Hl).
    exists free', rest'. split; [done|]. cbn [fst snd].
    rewrite <- Hall, Hl. simpl. apply Permutation_middle.
  - rewrite Hlive in Hall.
    assert (NoDup (p :: live' ++ free ++ rest)) as Hnd.
    { rewrite app_comm_cons, Hall. apply NoDup_all_pages. }
    apply NoDup_cons in Hnd as [Hn _]. rewrite elem_of_app in Hn.
    assert (page_ok p) as Hp.
    { pose proof all_pages_ok as Hok. rewrite Forall_forall in Hok. apply Hok.
      rewrite <- Hall. apply list_elem_of_here. }
    destruct (pmm_free_rep s p free rest Hrep Hp) as (s1 & Hf' & Hrep' & _); [tauto|].
    rewrite Hf in Hf'. injection Hf' as <-.
    exists (p :: free), rest. split; [done|]. cbn [fst snd]. rewrite <- Hall.
    simpl. symmetry. apply Permutation_middle.
  - destruct (pmm_fill_rep n s free rest Hn Hrep) as (s1 & Hf' & Hrep' & _).
    rewrite Hf in Hf'. injection Hf' as <-. eexists _, _. split; [exact Hrep'|]. cbn [fst snd spec_fill].
    rewrite take_shift_perm. done.
Qed.

Lemma pmm_reach_conserves x y : rtc pmm_step x y → pmm_conserves x → pmm_conserves y.
Proof. induction 1; eauto using pmm_step_conserves. Qed.
End pmm_runs.

(** A small memory map for examples: one usable entry below 1 MiB, one reserved,
    one that starts and ends inside a page, one of two whole pages. *)
Module DemoMemmap.
Import DemoHhdm.
#[export, program] Instance demo_memmap : Memmap := {|
  memmap_entries := [ mk_entry 0 0x9fc00 0; mk_entry 0x9fc00 0x400 1;
                      mk_entry 0x100800 0x4000 0; mk_entry 0x200000 0x2000 0 ];
|}.
Next Obligation. repeat constructor; simpl; intros; pow2; try done; lia. Qed.
Next Obligation.
  intros i j e f Hij Hi Hj.
  destruct i as [|[|[|[|i]]]], j as [|[|[|[|j]]]]; simpl in *; simplify_eq; simpl; try lia; done.
Qed.
Next Obligation. done. Qed.
End DemoMemmap.

(** ** Properties *)

Section pmm_properties.
Context `{Memmap}.

(** C7: filling moves the next [pages] pages of the memory map (or all that are
    left) from the stream to the front of the free list, and touches no memory
    outside the pages it takes: [pmm_fill] refines [spec_fill], and terminates. *)
Theorem pmm_fill_refines pages s free rest :
  0 ≤ pages → pmm_rep s free rest →
  ∃ s', pmm_fill pages s = Done (tt, s')
    ∧ pmm_rep s' (reverse (take (Z.to_nat pages) rest) ++ free) (drop (Z.to_nat pages) rest)
    ∧ only_pages rest (pmm_mem s) (pmm_mem s').
Proof. apply pmm_fill_rep. Qed.

(** Allocation refines [spec_alloc]: it pops the free list, refilling it
    with 512 pages first when it is empty, clears the page it returns and
    changes no other page in use; it panics exactly when nothing is left. *)
Theorem pmm_alloc_refines s free rest :
  pmm_rep s free rest →
  match spec_alloc free rest with
  | Some (p, (free', rest')) =>
      ∃ s', pmm_alloc_page s = Done (p, s') ∧ pmm_rep s' free' rest'
        ∧ page_zero (pmm_mem s') p ∧ only_pages (free ++ rest) (pmm_mem s) (pmm_mem s')
  | None => pmm_alloc_page s = Panic "PMM: out of memory"
  end.
Proof.
  intros Hrep. destruct free as [|p free].
  - destruct (pmm_alloc_refill s rest Hrep) as (s1 & Hrep1 & Hm1 & Heq & Hpanic).
    unfold spec_alloc, spec_fill. rewrite app_nil_r.
    destruct (reverse (take 512 rest)) as [|p free] eqn:E.
    + apply Hpanic. apply (f_equal reverse) in E. rewrite reverse_involutive in E.
      by destruct rest.
    + destruct (pmm_alloc_from s1 p free _ Hrep1) as (s' & Ha & Hrep' & Hm' & Hz).
      assert (p ∈ rest) as Hp.
      { apply (subseteq_take 512). rewrite <- elem_of_reverse, E. apply list_elem_of_here. }
      exists s'. rewrite Heq by (by intros ->). split; [done|]. split; [done|]. split; [done|].
      eapply only_pages_trans; [exact Hm1|]. eapply only_pages_mono; [|exact Hm'].
      by intros q ->%list_elem_of_singleton.
  - destruct (pmm_alloc_from s p free rest Hrep) as (s' & Ha & Hrep' & Hm' & Hz).
    exists s'. split; [done|]. split; [done|]. split; [done|]. eapply only_pages_mono; [|exact Hm'].
    intros q ->%list_elem_of_singleton. apply list_elem_of_here.
Qed.

(** C8: whatever sequence of allocations, frees of held pages and fills the
    kernel makes from boot, the pages it holds, the free list and the rest of
    the memory map partition the map's pages: no page is handed out while it is
    held, and none is lost. *)
Theorem pmm_conservation m s live :
  rtc pmm_step (pmm_boot m, []) (s, live) →
  ∃ free rest, pmm_rep s free rest ∧ live ++ free ++ rest ≡ₚ all_pages
    ∧ NoDup (live ++ free ++ rest).
Proof.
  intros Hr. destruct (pmm_reach_conserves _ _ Hr) as (free & rest & Hrep & Hall).
  - exists [], all_pages. split; [apply pmm_boot_rep|done].
  - exists free, rest. split; [done|]. split; [done|]. cbn [fst snd] in *. rewrite Hall.
    apply NoDup_all_pages.
Qed.

(** Pmm_free_page does not notice a page that is free already: the next allocation
    returns the page, which stays on the free list to be returned again, and the pages
    that were below it on the list are never seen again. *)
Theorem pmm_double_free s l1 p l2 rest : pmm_rep s (l1 ++ p :: l2) rest →
  ∃ s1 s2, pmm_free_page p s = Done (tt, s1) ∧ pmm_alloc_page s1 = Done (p, s2) ∧ pmm_rep s2 (l1 ++ [p]) rest.
Proof. apply pmm_free_twice. Qed.
End pmm_properties.

Module PmmWitness.
Import DemoHhdm DemoMemmap.

Lemma demo_pages : all_pages = [0x101000; 0x102000; 0x103000; 0x200000; 0x201000].
Proof. vm_compute. reflexivity. Qed.

Lemma pmm_fill_refines_witness :
  ∃ s', pmm_fill 3 (pmm_boot ∅) = Done (tt, s')
    ∧ pmm_rep s' [0x103000; 0x102000; 0x101000] [0x200000; 0x201000]
    ∧ only_pages all_pages ∅ (pmm_mem s').
Proof.
  destruct (pmm_fill_refines 3 (pmm_boot ∅) [] all_pages ltac:(lia) (pmm_boot_rep ∅))
    as (s' & Hf & Hrep & Hm).
  exists s'. rewrite demo_pages in Hrep. done.
Defined.

Lemma pmm_alloc_refines_witness :
  ∃ s', pmm_alloc_page (pmm_boot ∅) = Done (0x201000, s')
    ∧ pmm_rep s' [0x200000; 0x103000; 0x102000; 0x101000] []
    ∧ page_zero (pmm_mem s') 0x201000 ∧ only_pages all_pages ∅ (pmm_mem s').
Proof.
  pose proof (pmm_alloc_refines (pmm_boot ∅) [] all_pages (pmm_boot_rep ∅)) as Ha.
  rewrite demo_pages in *. exact Ha.
Defined.

Lemma pmm_double_free_witness :
  ∃ s s1 s2, pmm_rep s [0x103000; 0x102000; 0x101000] [0x200000; 0x201000]
    ∧ pmm_free_page 0x102000 s = Done (tt, s1) ∧ pmm_alloc_page s1 = Done (0x102000, s2)
    ∧ pmm_rep s2 [0x103000; 0x102000] [0x200000; 0x201000].
Proof.
  destruct (pmm_fill_rep 3 (pmm_boot ∅) [] all_pages ltac:(lia) (pmm_boot_rep ∅)) as (s & Hf & Hrep & Hm).
  rewrite demo_pages in Hrep.
  destruct (pmm_double_free s [0x103000] 0x102000 [0x101000] [0x200000; 0x201000] Hrep) as (s1 & s2 & H1 & H2 & H3).
  exists s, s1, s2. split; [exact Hrep|]. split; [exact H1|]. split; [exact H2|exact H3].
Defined.

Definition demo_s1 : pmm_state := state_of (pmm_boot ∅) (pmm_alloc_page (pmm_boot ∅)).
Definition demo_s2 : pmm_state := state_of demo_s1 (pmm_alloc_page demo_s1).
Definition demo_s3 : pmm_state := state_of demo_s2 (pmm_free_page 0x201000 demo_s2).

(** Two allocations, then the first page given back. *)
Lemma demo_run : rtc pmm_step (pmm_boot ∅, []) (demo_s3, [0x200000]).
Proof.
  eapply rtc_l; [apply (step_alloc _ demo_s1 _ 0x201000)|].
  { apply result_of_Done. vm_compute. reflexivity. }
  eapply rtc_l; [apply (step_alloc _ demo_s2 _ 0x200000)|].
  { apply result_of_Done. vm_compute. reflexivity. }
  eapply rtc_l; [|apply rtc_refl].
  apply (step_free _ demo_s3 _ _ 0x201000); [apply Permutation_swap|].
  apply result_of_Done. reflexivity.
Qed.

Lemma pmm_conservation_witness :
  ∃ free rest, pmm_rep demo_s3 free rest ∧ [0x200000] ++ free ++ rest ≡ₚ all_pages
    ∧ NoDup ([0x200000] ++ free ++ rest).
Proof. apply (pmm_conservation ∅), demo_run. Defined.
End PmmWitness.
