(* ===== verification/Vmm.v ===== *)
(** * Paging: src/memory/vmm.c

    Four-level page tables in physical pages taken from a [PageAllocator].
    [Context `{PageAllocator St}] makes the code and its proofs independent of
    pmm.c; Pmm.v provides the instance. *)
From S2P Require Import Prelude CMem Phys.
From S2P Require Pmm.

Definition PAGE_PRESENT : Z := Z.shiftl 1 0.
Definition PAGE_WRITABLE : Z := Z.shiftl 1 1.
Definition PAGE_USER : Z := Z.shiftl 1 2.
Definition PAGE_WTHRU : Z := Z.shiftl 1 3.
Definition PAGE_NOCACHE : Z := Z.shiftl 1 4.
Definition PAGE_NX : Z := Z.shiftl 1 63.
Definition PAGE_NOEXEC : Z := Z.shiftl 1 63.
Definition PAGE_MASK : Z := 0x000FFFFFFFFFF000.

Definition PML4_INDEX (x : Z) : Z := Z.land (Z.shiftr x 39) 0x1FF.
Definition PDPT_INDEX (x : Z) : Z := Z.land (Z.shiftr x 30) 0x1FF.
Definition PD_INDEX (x : Z) : Z := Z.land (Z.shiftr x 21) 0x1FF.
Definition PT_INDEX (x : Z) : Z := Z.land (Z.shiftr x 12) 0x1FF.

Record address_space := mk_as { pml4 : Z; cr3 : Z }.

(** cpu_max_phys_mask of headers/kernel_common/c_generic/cpuid.h; [eax] is what
    CPUID leaf 0x80000008 returns. *)
Definition cpu_max_phys_bits (eax : Z) : Z := u8 (Z.land eax 0xFF).
Definition cpu_max_phys_mask (eax : Z) : Z :=
  let bits := cpu_max_phys_bits eax in
  if 64 <=? bits then 2 ^ 64 - 1 else u64 (Z.shiftl 1 bits - 1).

(** What the invalidation instructions did: [invlpg], or a reload of CR3. *)
Inductive tlb_op := Invlpg (virt : Z) | FlushAll.

Record vmm_state {St : Type} := mk_vmm {
  vm_pages : St;                        (* the page allocator, and memory *)
  kernel_address_space : address_space;
  cpu_page_mask : Z;
  reg_cr3 : Z;                          (* the CPU's CR3 *)
  tlb_log : list tlb_op;
}.
Arguments vmm_state : clear implicits.

Section vmm.
Context `{PageAllocator St}.

Definition on_pages {A} : M St A → M (vmm_state St) A :=
  zoom vm_pages (λ p s, mk_vmm St p (kernel_address_space s) (cpu_page_mask s) (reg_cr3 s) (tlb_log s)).
Definition log_tlb (o : tlb_op) : M (vmm_state St) unit :=
  modify (λ s, mk_vmm St (vm_pages s) (kernel_address_space s) (cpu_page_mask s) (reg_cr3 s)
                 (tlb_log s ++ [o])).

(** A 64-bit read and a write through a kernel pointer. *)
Definition read64 (a : Z) : M St Z := gets (λ s, ld64 (pa_mem s) a).
Definition write64 (a v : Z) : M St unit := modify (λ s, pa_set_mem (st64 a v (pa_mem s)) s).
Definition memset_ (a c n : Z) : M St unit := λ s,
  m ← memset a c n (pa_mem s); Done (tt, pa_set_mem m s).

Definition get_cr3 : M (vmm_state St) Z := gets (λ s, Z.land (reg_cr3 s) (u64 (Z.lnot 0xFFF))).
Definition set_cr3 (c : Z) : M (vmm_state St) unit :=
  modify (λ s, mk_vmm St (vm_pages s) (kernel_address_space s) (cpu_page_mask s) c (tlb_log s)).
Definition invl_all : M (vmm_state St) unit := log_tlb FlushAll.
Definition invlpg (addr : Z) : M (vmm_state St) unit := log_tlb (Invlpg addr).

Definition vmm_init (eax : Z) : M (vmm_state St) unit :=
  c ← get_cr3;
  modify (λ s, mk_vmm St (vm_pages s)
                 (mk_as (phys_to_virt (Z.land c (u64 (Z.lnot 0xFFF)))) c)
                 (cpu_max_phys_mask eax) (reg_cr3 s) (tlb_log s)).

Definition paging_current_cr3 : M (vmm_state St) Z := get_cr3.
Definition paging_kernel_cr3 : M (vmm_state St) Z := gets (λ s, cr3 (kernel_address_space s)).
Definition paging_load_cr3 (c : Z) : M (vmm_state St) unit :=
  _ ← set_cr3 c; invl_all.

Definition paging_copy_kernel_half (a : address_space) : M (vmm_state St) unit :=
  for_each (seqZ 256 256) (λ i,
    k ← gets kernel_address_space;
    e ← on_pages (read64 (pml4 k + 8 * i));
    on_pages (write64 (pml4 a + 8 * i) e)).

Definition alloc_table : M St Z :=
  phys ← pmm_alloc_page;
  let table := phys_to_virt phys in
  _ ← memset_ table 0 PAGE_SIZE;
  mret table.

Definition get_next (table index flags : Z) : M St Z :=
  e ← read64 (table + 8 * index);
  _ ← (if Z.land e PAGE_PRESENT =? 0 then
         new_table ← alloc_table;
         let table_flags := Z.land flags (Z.lor (Z.lor PAGE_USER PAGE_WTHRU) PAGE_NOCACHE) in
         write64 (table + 8 * index)
           (Z.lor (Z.lor (Z.lor (virt_to_phys new_table) PAGE_PRESENT) PAGE_WRITABLE) table_flags)
       else mret tt);
  e ← read64 (table + 8 * index);
  mret (phys_to_virt (Z.land e PAGE_MASK)).

Definition sanitize_flags (flags level : Z) : Z :=
  match level with
  | 0 => Z.land flags PAGE_PRESENT
  | 1 => Z.land flags (Z.lor PAGE_PRESENT PAGE_USER)
  | 2 => Z.land flags (Z.lor (Z.lor PAGE_PRESENT PAGE_USER) PAGE_WRITABLE)
  | _ => flags
  end.

Definition vmm_map (a : address_space) (virt phys flags : Z) : M (vmm_state St) unit :=
  mask ← gets cpu_page_mask;
  if mask <? phys then mpanic "Attempting to map physical address beyond CPU limit."
  else
    let pml4_i := PML4_INDEX virt in
    let pdpt_i := PDPT_INDEX virt in
    let pd_i := PD_INDEX virt in
    let pt_i := PT_INDEX virt in
    pdpt ← on_pages (get_next (pml4 a) pml4_i (sanitize_flags flags 1));
    pd ← on_pages (get_next pdpt pdpt_i (sanitize_flags flags 2));
    pt ← on_pages (get_next pd pd_i (sanitize_flags flags 3));
    _ ← on_pages (write64 (pt + 8 * pt_i) (Z.lor (Z.lor (Z.land phys mask) PAGE_PRESENT) flags));
    invlpg virt.

Definition vmm_unmap (a : address_space) (virt : Z) : M (vmm_state St) unit :=
  let pml4_i := PML4_INDEX virt in
  let pdpt_i := PDPT_INDEX virt in
  let pd_i := PD_INDEX virt in
  let pt_i := PT_INDEX virt in
  e ← on_pages (read64 (pml4 a + 8 * pml4_i));
  let pdpt := phys_to_virt (Z.land e PAGE_MASK) in
  e ← on_pages (read64 (pdpt + 8 * pdpt_i));
  let pd := phys_to_virt (Z.land e PAGE_MASK) in
  e ← on_pages (read64 (pd + 8 * pd_i));
  let pt := phys_to_virt (Z.land e PAGE_MASK) in
  _ ← on_pages (write64 (pt + 8 * pt_i) 0);
  invlpg virt.

Definition map_page (virt phys flags : Z) : M (vmm_state St) unit :=
  k ← gets kernel_address_space; vmm_map k virt phys flags.
Definition unmap_page (virt : Z) : M (vmm_state St) unit :=
  k ← gets kernel_address_space; vmm_unmap k virt.

(** "placeholder for future per-process allocator" *)
Definition vmm_map_page (phys flags : Z) : Z := phys.

Definition paging_create_address_space : M (vmm_state St) address_space :=
  phys ← on_pages pmm_alloc_page;
  let p := phys_to_virt phys in
  _ ← on_pages (memset_ p 0 PAGE_SIZE);
  _ ← paging_copy_kernel_half (mk_as p 0);
  mret (mk_as p (virt_to_phys p)).

(** The four nested loops of paging_destroy_address_space. *)
Definition destroy_entries (table n : Z) (f : Z → M St unit) : M St unit :=
  for_each (seqZ 0 n) (λ i,
    e ← read64 (table + 8 * i);
    if Z.land e PAGE_PRESENT =? 0 then mret tt else f e).

Definition paging_destroy_address_space (a : address_space) : M St unit :=
  _ ← destroy_entries (pml4 a) 256 (λ e4,
    let pdpt := phys_to_virt (Z.land e4 PAGE_MASK) in
    _ ← destroy_entries pdpt 512 (λ e3,
      let pd := phys_to_virt (Z.land e3 PAGE_MASK) in
      _ ← destroy_entries pd 512 (λ e2,
        let pt := phys_to_virt (Z.land e2 PAGE_MASK) in
        _ ← destroy_entries pt 512 (λ e1, pmm_free_page (Z.land e1 PAGE_MASK));
        pmm_free_page (virt_to_phys pt));
      pmm_free_page (virt_to_phys pd));
    pmm_free_page (virt_to_phys pdpt));
  pmm_free_page (virt_to_phys (pml4 a)).

(** Translation, as the walk reads memory; negative results are the errors. *)
Definition vmm_virt_to_phys_as (a : address_space) (virt : Z) (m : mem) : Z :=
  let e4 := ld64 m (pml4 a + 8 * PML4_INDEX virt) in
  let pdpt := phys_to_virt (Z.land e4 PAGE_MASK) in
  if Z.land e4 PAGE_PRESENT =? 0 then -1
  else
    let e3 := ld64 m (pdpt + 8 * PDPT_INDEX virt) in
    let pd := phys_to_virt (Z.land e3 PAGE_MASK) in
    if Z.land e3 PAGE_PRESENT =? 0 then -2
    else
      let e2 := ld64 m (pd + 8 * PD_INDEX virt) in
      let pt := phys_to_virt (Z.land e2 PAGE_MASK) in
      if Z.land e2 PAGE_PRESENT =? 0 then -3
      else
        let e1 := ld64 m (pt + 8 * PT_INDEX virt) in
        if Z.land e1 PAGE_PRESENT =? 0 then -4
        else i64 (Z.lor (Z.land e1 PAGE_MASK) (Z.land virt 0xFFF)).

Definition vmm_lookup (virt : Z) : M (vmm_state St) Z := gets (λ s,
  let phys := vmm_virt_to_phys_as (kernel_address_space s) virt (pa_mem (vm_pages s)) in
  if phys <=? 0 then 0 else phys).

Definition vmm_lookup_ap (a : address_space) (virt : Z) (m : mem) : Z :=
  let phys := vmm_virt_to_phys_as a virt m in
  if phys <=? 0 then 0 else phys_to_virt phys.

(** ** Specification: the table tree and the mapping it stands for *)

Definition present (e : Z) : bool := negb (Z.land e PAGE_PRESENT =? 0).
Definition entry_at (m : mem) (p i : Z) : Z := ld64 m (phys_to_virt p + 8 * i).

(** [T] gives the page of the table at each path of indices from the root
    (lengths 0 to 3: PML4, PDPT, PD, PT). The invariant speaks of the PML4 slots
    in [own]: entries of other slots (the kernel half of a process) are not
    described. *)
Record pt_wf (own : Z → Prop) (m : mem) (root : Z) (T : gmap (list Z) Z) : Prop := {
  wf_root : T !! [] = Some root;
  wf_page : ∀ π p, T !! π = Some p → page_ok p ∧ (length π ≤ 3)%nat;
  wf_closed : ∀ π i, T !! π = None → T !! (π ++ [i]) = None;
  wf_inj : ∀ π π' p, T !! π = Some p → T !! π' = Some p → π = π';
  wf_entry : ∀ π p i, T !! π = Some p → (length π < 3)%nat → 0 ≤ i < 512 →
    (π = [] → own i) →
    T !! (π ++ [i]) = if present (entry_at m p i)
                      then Some (Z.land (entry_at m p i) PAGE_MASK) else None;
}.

Definition table_disjoint (T : gmap (list Z) Z) (l : list Z) : Prop :=
  ∀ π p, T !! π = Some p → p ∉ l.

(** The last-level entry for a path of four indices, 0 when a table is missing. *)
Definition leaf (m : mem) (T : gmap (list Z) Z) (i4 i3 i2 i1 : Z) : Z :=
  match T !! [i4; i3; i2] with
  | Some p => entry_at m p i1
  | None => 0
  end.

Definition leaf_of (m : mem) (T : gmap (list Z) Z) (virt : Z) : Z :=
  leaf m T (PML4_INDEX virt) (PDPT_INDEX virt) (PD_INDEX virt) (PT_INDEX virt).

(** Addresses the tables and the allocator's pages do not cover. *)
Definition outside_tables (T : gmap (list Z) Z) (l : list Z) (b : Z) : Prop :=
  outside l b ∧ ∀ π p, T !! π = Some p → b < phys_to_virt p ∨ phys_to_virt p + PAGE_SIZE ≤ b.

(** What the walk answers for a virtual address, from the tables alone. *)
Definition spec_translate (m : mem) (T : gmap (list Z) Z) (virt : Z) : Z :=
  if decide (T !! [PML4_INDEX virt] = None) then -1
  else if decide (T !! [PML4_INDEX virt; PDPT_INDEX virt] = None) then -2
  else if decide (T !! [PML4_INDEX virt; PDPT_INDEX virt; PD_INDEX virt] = None) then -3
  else if present (leaf_of m T virt)
       then Z.lor (Z.land (leaf_of m T virt) PAGE_MASK) (Z.land virt 0xFFF)
       else -4.
End vmm.

(** *** The processor's walk, which looks at the permissions too

    [walk m p path] follows the indices [path] from the table at [p]: the entries it uses and the
    table it ends at, if every entry is present. *)
Section mmu.
Context `{Hhdm}.
Fixpoint walk (m : mem) (p : Z) (path : list Z) : list Z * option Z :=
  match path with
  | [] => ([], Some p)
  | i :: path =>
      let e := entry_at m p i in
      if present e then let r := walk m (Z.land e PAGE_MASK) path in (e :: r.1, r.2) else ([], None)
  end.
Definition dir_indices (virt : Z) : list Z := [PML4_INDEX virt; PDPT_INDEX virt; PD_INDEX virt].

(** Ring 3 may use an address if every entry has the U bit (2), a write needs the W bit (1) in
    every entry, and an instruction fetch needs the NX bit (63) in none. *)
Record access := mk_access { ac_phys : Z; ac_user : bool; ac_write : bool; ac_exec : bool }.
Definition all_user (es : list Z) : bool := forallb (λ e, Z.testbit e 2) es.
Definition all_write (es : list Z) : bool := forallb (λ e, Z.testbit e 1) es.
Definition all_exec (es : list Z) : bool := forallb (λ e, negb (Z.testbit e 63)) es.

Definition mmu (m : mem) (root virt : Z) : option access :=
  match walk m root (dir_indices virt) with
  | (_, None) => None
  | (es, Some pt) =>
      let e := entry_at m pt (PT_INDEX virt) in
      if present e then
        Some (mk_access (Z.lor (Z.land e PAGE_MASK) (virt mod PAGE_SIZE))
          (all_user es && Z.testbit e 2) (all_write es && Z.testbit e 1) (all_exec es && negb (Z.testbit e 63)))
      else None
  end.

(** An entry that vmm_map made for a table: writable, executable, and for ring 3 if [u]. *)
Definition table_bits (u : bool) (e : Z) : Prop :=
  Z.testbit e 2 = u ∧ Z.testbit e 1 = true ∧ Z.testbit e 63 = false.

(** From [T] to [T'] the entries that lead to tables stay, and the new ones have these bits. *)
Record dirs_grow (u : bool) (m : mem) (T : gmap (list Z) Z) (m' : mem) (T' : gmap (list Z) Z) : Prop := {
  dir_old : ∀ π p i, T !! π = Some p → (length π < 3)%nat → 0 ≤ i < 512 → is_Some (T !! (π ++ [i])) →
    entry_at m' p i = entry_at m p i;
  dir_new : ∀ π p i, T' !! π = Some p → (length π < 3)%nat → 0 ≤ i < 512 → T !! (π ++ [i]) = None →
    is_Some (T' !! (π ++ [i])) → table_bits u (entry_at m' p i);
}.
End mmu.

#[global] Arguments sanitize_flags : simpl never.

(** ** Indices, flags and entries *)

Definition vpn (virt : Z) : Z := (virt / 4096) mod 2 ^ 36.

Lemma index_mod x k : 0 ≤ k → Z.land (Z.shiftr x k) 0x1FF = (x / 2 ^ k) mod 512.
Proof.
  intros. change 0x1FF with (Z.ones 9). rewrite Z.land_ones by lia.
  by rewrite Z.shiftr_div_pow2.
Qed.

Lemma index_range x k : 0 ≤ k → 0 ≤ Z.land (Z.shiftr x k) 0x1FF < 512.
Proof. intros. rewrite index_mod by done. apply Z.mod_pos_bound. lia. Qed.

(** The four indices are the base-512 digits of the page number. *)
Lemma indices_vpn v :
  PT_INDEX v = vpn v mod 512 ∧ PD_INDEX v = (vpn v / 512) mod 512
  ∧ PDPT_INDEX v = (vpn v / 512 ^ 2) mod 512 ∧ PML4_INDEX v = vpn v / 512 ^ 3.
Proof.
  unfold PT_INDEX, PD_INDEX, PDPT_INDEX, PML4_INDEX, vpn. rewrite !index_mod by lia.
  change (2 ^ 36) with 68719476736. change (2 ^ 12) with 4096. change (2 ^ 21) with 2097152.
  change (2 ^ 30) with 1073741824. change (2 ^ 39) with 549755813888.
  change (512 ^ 2) with 262144. change (512 ^ 3) with 134217728. repeat split; zdiv.
Qed.

Lemma indices_inj v w :
  PML4_INDEX v = PML4_INDEX w → PDPT_INDEX v = PDPT_INDEX w → PD_INDEX v = PD_INDEX w →
  PT_INDEX v = PT_INDEX w → vpn v = vpn w.
Proof.
  destruct (indices_vpn v) as (-> & -> & -> & ->), (indices_vpn w) as (-> & -> & -> & ->).
  change (512 ^ 2) with 262144. change (512 ^ 3) with 134217728. zdiv.
Qed.

Lemma page_mask_land p : p mod PAGE_SIZE = 0 → 0 ≤ p < 2 ^ 52 → Z.land p PAGE_MASK = p.
Proof.
  intros Hm Hp. change PAGE_MASK with (Z.ldiff (Z.ones 52) (Z.ones 12)).
  replace (Z.land p (Z.ldiff (Z.ones 52) (Z.ones 12)))
    with (Z.ldiff (Z.land p (Z.ones 52)) (Z.ones 12)).
  - rewrite Z.land_ones, Z.mod_small by lia. rewrite Z.ldiff_ones_r by lia.
    rewrite Z.shiftl_mul_pow2, Z.shiftr_div_pow2 by lia. unfold PAGE_SIZE in *.
    change (2 ^ 12) with 4096. zdiv.
  - apply Z.bits_inj'. intros i Hi. rewrite !Z.ldiff_spec, !Z.land_spec, !Z.ldiff_spec.
    by rewrite andb_assoc.
Qed.

Lemma page_mask_range e : 0 ≤ e → 0 ≤ Z.land e PAGE_MASK < 2 ^ 52.
Proof. intros. apply land_range; [lia|done|unfold PAGE_MASK; lia]. Qed.

Lemma present_testbit e : present e = Z.testbit e 0.
Proof.
  unfold present. change PAGE_PRESENT with (Z.ones 1). rewrite Z.land_ones by lia.
  rewrite Z.bit0_odd. pose proof (Zmod_odd e) as Ho. change (2 ^ 1) with 2. rewrite Ho.
  by destruct (Z.odd e).
Qed.

Lemma present_lor_l a b : present a = true → present (Z.lor a b) = true.
Proof. rewrite !present_testbit, Z.lor_spec. by intros ->. Qed.
Lemma present_lor_r a b : present b = true → present (Z.lor a b) = true.
Proof. rewrite !present_testbit, Z.lor_spec. intros ->. apply orb_true_r. Qed.

(** An entry for page [p] with bits outside the address field. *)
Lemma entry_page p f : p mod PAGE_SIZE = 0 → 0 ≤ p < 2 ^ 52 → Z.land f PAGE_MASK = 0 →
  Z.land (Z.lor p f) PAGE_MASK = p.
Proof.
  intros Hm Hp Hf. rewrite Z.land_lor_distr_l, Hf, Z.lor_0_r. by apply page_mask_land.
Qed.

Lemma land_mask_0 a b : Z.land b PAGE_MASK = 0 → Z.land (Z.land a b) PAGE_MASK = 0.
Proof. intros Hb. by rewrite <- Z.land_assoc, Hb, Z.land_0_r. Qed.

Section table_entries.
Context `{Hhdm}.

Definition table_entry (q flags : Z) : Z :=
  Z.lor (Z.lor (Z.lor q PAGE_PRESENT) PAGE_WRITABLE)
    (Z.land flags (Z.lor (Z.lor PAGE_USER PAGE_WTHRU) PAGE_NOCACHE)).

Lemma page_ok_52 p : page_ok p → p mod PAGE_SIZE = 0 ∧ 0 ≤ p < 2 ^ 52.
Proof.
  intros Hp. pose proof (page_ok_range p Hp). destruct Hp as [? _]. unfold PAGE_SIZE in *.
  split; [done|lia].
Qed.

Lemma table_entry_ok q flags : page_ok q → 0 ≤ flags →
  0 ≤ table_entry q flags < 2 ^ 64 ∧ present (table_entry q flags) = true
  ∧ Z.land (table_entry q flags) PAGE_MASK = q.
Proof.
  intros [Hm Hq]%page_ok_52 Hf. unfold table_entry. split; [|split].
  - repeat (apply lor_range; [lia| |]).
    + change (2 ^ 52) with 4503599627370496 in *. pow2. lia.
    + by vm_compute.
    + by vm_compute.
    + apply land_range; [lia|done|]. by vm_compute.
  - by apply present_lor_l, present_lor_l, present_lor_r.
  - rewrite <- !Z.lor_assoc. apply entry_page; [done|done|].
    rewrite !Z.land_lor_distr_l, land_mask_0 by done. done.
Qed.

(** No low bit, nor bit 63, of a page address. *)
Lemma page_bits q i : q mod PAGE_SIZE = 0 → 0 ≤ q < 2 ^ 52 → 0 ≤ i < 12 ∨ i = 63 → Z.testbit q i = false.
Proof.
  intros Hm Hq [Hi| ->].
  - rewrite <- (Z.mod_pow2_bits_low q 12) by lia. unfold PAGE_SIZE in Hm. change (2 ^ 12) with 4096. by rewrite Hm, Z.bits_0.
  - apply Z.bits_above_log2; [lia|]. destruct (decide (q = 0)) as [->|]; [by vm_compute|].
    apply Z.log2_lt_pow2; [lia|]. change (2 ^ 52) with 4503599627370496 in *. pow2. lia.
Qed.
Lemma table_entry_bits q flags : page_ok q → table_bits (Z.testbit flags 2) (table_entry q flags).
Proof.
  intros [Hm Hq]%page_ok_52. unfold table_entry, table_bits. rewrite !Z.lor_spec, !Z.land_spec, !(page_bits q) by (done || lia || (left; lia) || by right).
  change (Z.lor (Z.lor PAGE_USER PAGE_WTHRU) PAGE_NOCACHE) with 28. change PAGE_PRESENT with 1. change PAGE_WRITABLE with 2.
  split; [|split]; simpl; by rewrite ?andb_true_r, ?andb_false_r.
Qed.
End table_entries.

(** ** The tree invariant *)

Section tree.
Context `{Hhdm}.
Variables (own : Z → Prop) (root : Z).

Lemma entry_at_agree m m' p i : agree m m' (phys_to_virt p) PAGE_SIZE → 0 ≤ i < 512 →
  entry_at m' p i = entry_at m p i.
Proof. intros Ha Hi. unfold entry_at, PAGE_SIZE in *. eapply ld64_agree; [exact Ha|lia|lia]. Qed.

(** Two entries of known tables do not overlap unless they are the same. *)
Lemma entry_apart p q i j : page_ok p → page_ok q → 0 ≤ i < 512 → 0 ≤ j < 512 →
  p ≠ q ∨ i ≠ j →
  phys_to_virt p + 8 * i + 8 ≤ phys_to_virt q + 8 * j
  ∨ phys_to_virt q + 8 * j + 8 ≤ phys_to_virt p + 8 * i.
Proof.
  intros Hp Hq Hi Hj Hne. destruct (decide (p = q)) as [->|Hpq]; [lia|].
  destruct (page_ok_apart p q Hp Hq Hpq); unfold PAGE_SIZE in *; lia.
Qed.

Lemma entry_at_st64 m p i v : 0 ≤ v < 2 ^ 64 →
  entry_at (st64 (phys_to_virt p + 8 * i) v m) p i = v.
Proof. intros. unfold entry_at. rewrite ld64_st64_eq. by apply u64_small. Qed.

Lemma entry_at_st64_ne m p i q j v : page_ok p → page_ok q → 0 ≤ i < 512 → 0 ≤ j < 512 →
  p ≠ q ∨ i ≠ j → entry_at (st64 (phys_to_virt p + 8 * i) v m) q j = entry_at m q j.
Proof.
  intros Hp Hq Hi Hj Hne. unfold entry_at. apply ld64_st64_ne.
  destruct (entry_apart p q i j Hp Hq Hi Hj Hne); lia.
Qed.

(** The invariant depends only on the entries of the upper three levels. *)
Lemma pt_wf_ext m m' T : pt_wf own m root T →
  (∀ π p i, T !! π = Some p → (length π < 3)%nat → 0 ≤ i < 512 → entry_at m' p i = entry_at m p i) →
  pt_wf own m' root T.
Proof.
  intros Hwf Heq. destruct Hwf. split; try done.
  intros π p i Hp Hl Hi Hown. rewrite (Heq π p i) by done. by apply wf_entry0.
Qed.

Lemma pt_wf_agree m m' T : pt_wf own m root T →
  (∀ π p, T !! π = Some p → agree m m' (phys_to_virt p) PAGE_SIZE) → pt_wf own m' root T.
Proof. intros Hwf Ha. eapply pt_wf_ext; [done|]. intros. apply entry_at_agree; eauto. Qed.

(** Linking a fresh, empty table [q] at index [i] of the table at [π]. *)
Lemma pt_wf_link m T π p i q e :
  pt_wf own m root T → T !! π = Some p → (length π < 3)%nat → 0 ≤ i < 512 →
  T !! (π ++ [i]) = None → page_ok q → (∀ π' , T !! π' ≠ Some q) → page_zero m q →
  0 ≤ e < 2 ^ 64 → present e = true → Z.land e PAGE_MASK = q →
  pt_wf own (st64 (phys_to_virt p + 8 * i) e m) root (<[π ++ [i] := q]> T).
Proof.
  intros Hwf Hp Hl Hi Hnone Hq Hfresh Hz He Hpres Hmask. destruct Hwf as [Hr Hpg Hcl Hinj Hent].
  assert (page_ok p) as Hpok by (by eapply Hpg).
  assert (p ≠ q) as Hpq by (intros ->; by apply (Hfresh π)). split.
  - rewrite lookup_insert_ne; [done|]. by destruct π.
  - intros π' p' [[<- <-]|[_ Hp']]%lookup_insert_Some; [|by eapply Hpg].
    split; [done|]. rewrite length_app. simpl. lia.
  - intros π' j [Hne Hn]%lookup_insert_None. apply lookup_insert_None.
    split; [by apply Hcl|]. intros [-> _]%app_inj_2; [congruence|done].
  - intros π1 π2 r [[<- <-]|[_ H1]]%lookup_insert_Some [[<- Heq]|[_ H2]]%lookup_insert_Some; try done.
    + by destruct (Hfresh π2).
    + subst. by destruct (Hfresh π1).
    + by eapply Hinj.
  - intros π' p' j [[<- <-]|[Hne Hp']]%lookup_insert_Some Hl' Hj Hown'.
    + rewrite entry_at_st64_ne by (auto || by left).
      unfold entry_at. rewrite (page_zero_ld64 m) by done. simpl.
      rewrite lookup_insert_ne by (intros E; apply (f_equal length) in E;
        rewrite !length_app in E; simpl in E; lia).
      by apply Hcl.
    + destruct (decide (π' = π ∧ j = i)) as [[-> ->]|Hd].
      * rewrite lookup_insert_eq. rewrite Hp in Hp'. injection Hp' as <-.
        rewrite entry_at_st64 by done. by rewrite Hpres, Hmask.
      * rewrite lookup_insert_ne by (intros [-> [= ->]]%app_inj_2; [by apply Hd|done]).
        rewrite entry_at_st64_ne; [by apply Hent|done|by eapply Hpg|done|done|].
        destruct (decide (π' = π)) as [->|Hd']; [right|left; intros ->; apply Hd'; by eapply Hinj].
        intros ->. by apply Hd.
Qed.
End tree.

(** ** Walking and extending the tree *)

Section walking.
Context `{PAL : PageAllocatorLaws St}.
Variables (own : Z → Prop) (root : Z).

Record vm_inv (s : St) (T : gmap (list Z) Z) (l : list Z) : Prop := {
  inv_owns : pa_owns s l;
  inv_wf : pt_wf own (pa_mem s) root T;
  inv_disj : table_disjoint T l;
}.

(** What extending the tree keeps: the tables, every last-level entry, and the
    memory outside the tables and the allocator's pages. *)
Record grows (u : bool) (s : St) T l (s' : St) T' l' : Prop := {
  grows_tables : T ⊆ T';
  grows_dirs : dirs_grow u (pa_mem s) T (pa_mem s') T';
  grows_leaf : ∀ i4 i3 i2 i1, 0 ≤ i1 < 512 →
    leaf (pa_mem s') T' i4 i3 i2 i1 = leaf (pa_mem s) T i4 i3 i2 i1;
  grows_outside : ∀ b, outside_tables T l b → outside_tables T' l' b;
  grows_mem : ∀ b, outside_tables T l b → ldb (pa_mem s') b = ldb (pa_mem s) b;
}.

Lemma grows_refl u s T l : grows u s T l s T l.
Proof. split; try done. split; [done|]. intros π p i _ _ _ -> [? [=]]. Qed.

(** Composing, through a tree that is closed. *)
Lemma dirs_trans u m1 T1 m2 T2 m3 T3 : pt_wf own m2 root T2 → T1 ⊆ T2 → T2 ⊆ T3 →
  dirs_grow u m1 T1 m2 T2 → dirs_grow u m2 T2 m3 T3 → dirs_grow u m1 T1 m3 T3.
Proof.
  intros Hwf H12 H23 [Ho1 Hn1] [Ho2 Hn2]. split.
  - intros π p i Hp Hl Hi [q Hq]. rewrite (Ho2 π p i).
    + apply (Ho1 π p i); eauto.
    + by eapply lookup_weaken.
    + done.
    + done.
    + exists q. by eapply lookup_weaken.
  - intros π p i Hp Hl Hi H1 [q Hq]. destruct (T2 !! (π ++ [i])) as [q'|] eqn:E.
    + destruct (T2 !! π) as [p'|] eqn:Ep; [|by rewrite (wf_closed _ _ _ _ Hwf π i Ep) in E].
      pose proof (lookup_weaken _ _ _ _ Ep H23) as Ep'. rewrite Hp in Ep'. injection Ep' as <-.
      rewrite (Ho2 π p i) by eauto. apply (Hn1 π p i); eauto.
    + apply (Hn2 π p i); eauto.
Qed.

Lemma grows_trans u s1 T1 l1 s2 T2 l2 s3 T3 l3 : pt_wf own (pa_mem s2) root T2 →
  grows u s1 T1 l1 s2 T2 l2 → grows u s2 T2 l2 s3 T3 l3 → grows u s1 T1 l1 s3 T3 l3.
Proof.
  intros Hwf [Ht Hd Hl Ho Hm] [Ht' Hd' Hl' Ho' Hm']. split; intros.
  - by etrans.
  - by eapply dirs_trans.
  - rewrite Hl' by done. by apply Hl.
  - auto.
  - rewrite Hm' by auto. auto.
Qed.

Lemma inv_pages s T l : vm_inv s T l → NoDup l ∧ Forall page_ok l.
Proof. intros [Ho _ _]. by apply pa_owns_ok in Ho. Qed.

Lemma memset_page s q : page_ok q →
  memset_ (phys_to_virt q) 0 PAGE_SIZE s
    = Done (tt, pa_set_mem (fill_up (Z.to_nat PAGE_SIZE) 0 (phys_to_virt q) 0 (pa_mem s)) s).
Proof.
  intros Hq. pose proof (phys_to_virt_range q Hq).
  unfold memset_. by rewrite memset_Done by lia.
Qed.

Lemma fill_page_zero q m : page_zero (fill_up (Z.to_nat PAGE_SIZE) 0 (phys_to_virt q) 0 m) q.
Proof.
  intros b Hb. rewrite ldb_fill_up, decide_True; [done|]. unfold PAGE_SIZE in *. lia.
Qed.

(** The allocator keeps its pages when memory changes only outside them. *)
Lemma pa_owns_only s l m L : pa_owns s l → Forall page_ok L → (∀ p, p ∈ L → p ∉ l) →
  only_pages L (pa_mem s) m → pa_owns (pa_set_mem m s) l.
Proof.
  intros Ho HL Hd Hm. apply pa_owns_set; [done|]. intros p Hp.
  destruct (pa_owns_ok _ _ Ho) as [_ Hok]. rewrite Forall_forall in Hok.
  apply (only_pages_agree L); auto. intros Hin. by eapply Hd.
Qed.

Lemma alloc_table_ok s l : pa_owns s l → l ≠ [] →
  ∃ q l' s', alloc_table s = Done (phys_to_virt q, s') ∧ l ≡ₚ q :: l' ∧ pa_owns s' l'
    ∧ only_pages l (pa_mem s) (pa_mem s') ∧ page_zero (pa_mem s') q.
Proof.
  intros Ho Hne. destruct (pa_owns_ok _ _ Ho) as [Hnd Hok].
  destruct (pa_alloc s l Ho Hne) as (q & l' & s1 & Ha & Hl & Ho1 & Hm1 & _).
  rewrite Hl in Hnd, Hok. apply NoDup_cons in Hnd as [Hn _]. apply Forall_cons in Hok as [Hq _].
  exists q, l'. eexists. split_and!.
  - unfold alloc_table. rewrite (bind_Done _ _ _ _ _ Ha).
    by rewrite (bind_Done _ _ _ _ _ (memset_page s1 q Hq)).
  - done.
  - eapply (pa_owns_only _ _ _ [q]); [done|by apply Forall_singleton| |by apply only_pages_fill].
    by intros ? ->%list_elem_of_singleton.
  - rewrite pa_mem_set. eapply only_pages_trans; [exact Hm1|].
    eapply only_pages_mono; [|by apply only_pages_fill].
    intros ? ->%list_elem_of_singleton. rewrite Hl. apply list_elem_of_here.
  - rewrite pa_mem_set. apply fill_page_zero.
Qed.

Lemma get_next_present s T l π p i flags :
  vm_inv s T l → T !! π = Some p → (length π < 3)%nat → 0 ≤ i < 512 → (π = [] → own i) →
  present (entry_at (pa_mem s) p i) = true →
  ∃ q, get_next (phys_to_virt p) i flags s = Done (phys_to_virt q, s) ∧ T !! (π ++ [i]) = Some q.
Proof.
  intros Hinv Hp Hl Hi Hown Hpres. eexists. split.
  - unfold get_next, read64, gets, mbind, M_bind. simpl. fold (entry_at (pa_mem s) p i).
    unfold present in Hpres. destruct (_ =? 0); [done|reflexivity].
  - rewrite (wf_entry _ _ _ _ (inv_wf _ _ _ Hinv) π p i) by done. by rewrite Hpres.
Qed.

Lemma outside_tables_link T l l' π q b : l ≡ₚ q :: l' →
  outside_tables T l b → outside_tables (<[π := q]> T) l' b.
Proof.
  intros Hl [Ho Ht]. split.
  - intros r Hr. apply Ho. rewrite Hl. by apply list_elem_of_further.
  - intros π' r [[_ <-]|[_ Hr]]%lookup_insert_Some; [|by eapply Ht].
    apply Ho. rewrite Hl. apply list_elem_of_here.
Qed.

Lemma get_next_absent s T l π p i flags :
  vm_inv s T l → T !! π = Some p → (length π < 3)%nat → 0 ≤ i < 512 → (π = [] → own i) →
  0 ≤ flags → l ≠ [] → present (entry_at (pa_mem s) p i) = false →
  ∃ q s' l', get_next (phys_to_virt p) i flags s = Done (phys_to_virt q, s')
    ∧ l ≡ₚ q :: l' ∧ vm_inv s' (<[π ++ [i] := q]> T) l'
    ∧ grows (Z.testbit flags 2) s T l s' (<[π ++ [i] := q]> T) l'.
Proof.
  intros Hinv Hp Hlen Hi Hown Hf Hne Hpres.
  destruct (inv_pages _ _ _ Hinv) as [Hnd Hok]. destruct Hinv as [Ho Hwf Hd].
  assert (page_ok p) as Hpok by (by eapply (wf_page _ _ _ _ Hwf)).
  assert (T !! (π ++ [i]) = None) as Hnone.
  { rewrite (wf_entry _ _ _ _ Hwf π p i) by done. by rewrite Hpres. }
  destruct (alloc_table_ok s l Ho Hne) as (q & l' & s1 & Ha & Hl & Ho1 & Hm1 & Hz).
  assert (q ∈ l) as Hql by (rewrite Hl; apply list_elem_of_here).
  assert (page_ok q) as Hq by (by rewrite Forall_forall in Hok; apply Hok).
  assert (∀ π' r, T !! π' = Some r → agree (pa_mem s) (pa_mem s1) (phys_to_virt r) PAGE_SIZE) as Hag.
  { intros π' r Hr. apply (only_pages_agree l); [done|by eapply (wf_page _ _ _ _ Hwf)| |done].
    by eapply Hd. }
  destruct (table_entry_ok q flags Hq Hf) as (Her & Hep & Hem).
  exists q. eexists _, l'. split; [|split; [done|split]].
  - unfold get_next, read64, gets, mbind, M_bind. simpl. fold (entry_at (pa_mem s) p i).
    unfold present in Hpres. destruct (_ =? 0); [|done]. rewrite Ha. unfold write64, modify, mret, M_ret.
    rewrite pa_mem_set, virt_to_phys_to_virt by (pose proof (page_ok_52 q Hq); pow2;
      change (2 ^ 52) with 4503599627370496 in *; lia).
    fold (table_entry q flags). rewrite ld64_st64_eq, u64_small, Hem by done. reflexivity.
  - split.
    + eapply (pa_owns_only _ _ _ [p]); [done|by apply Forall_singleton| |].
      * intros ? ->%list_elem_of_singleton Hin. eapply Hd; [exact Hp|]. rewrite Hl.
        by apply list_elem_of_further.
      * apply only_pages_st64; [done|lia|unfold PAGE_SIZE; lia].
    + rewrite pa_mem_set. apply pt_wf_link; try done; [|by intros π' Hq'; eapply Hd].
      by eapply pt_wf_agree.
    + intros π' r [[_ <-]|[_ Hr]]%lookup_insert_Some.
      * rewrite Hl in Hnd. by apply NoDup_cons in Hnd as [? _].
      * intros Hin. eapply Hd; [exact Hr|]. rewrite Hl. by apply list_elem_of_further.
  - split.
    + by apply insert_subseteq.
    + rewrite pa_mem_set. split.
      * intros π' r j Hr Hl' Hj [x Hx]. rewrite entry_at_st64_ne; try done.
        -- apply entry_at_agree; [by eapply Hag|done].
        -- by eapply (wf_page _ _ _ _ Hwf).
        -- destruct (decide (p = r)) as [->|]; [right|by left]. intros ->.
           pose proof (wf_inj _ _ _ _ Hwf _ _ _ Hp Hr). subst. congruence.
      * intros π' r j Hr Hl' Hj Hx [y [[E _]|[_ Hy]]%lookup_insert_Some]; [|congruence].
        apply app_inj_2 in E as [<- [= <-]]; [|done]. rewrite lookup_insert_ne in Hr by (intros E; apply (f_equal length) in E; rewrite length_app in E; simpl in E; lia).
        rewrite Hp in Hr. injection Hr as <-. rewrite entry_at_st64 by done. by apply table_entry_bits.
    + intros i4 i3 i2 i1 Hi1. unfold leaf. rewrite pa_mem_set.
      destruct (decide (π ++ [i] = [i4; i3; i2])) as [E|E].
      * rewrite E in *. rewrite lookup_insert_eq, Hnone.
        rewrite entry_at_st64_ne; try done; [by apply (page_zero_ld64 (pa_mem s1))|].
        left. intros ->. by eapply Hd.
      * rewrite lookup_insert_ne by done. destruct (T !! [i4; i3; i2]) as [r|] eqn:Hr; [|done].
        rewrite entry_at_st64_ne; try done.
        -- apply entry_at_agree; [by eapply Hag|done].
        -- by eapply (wf_page _ _ _ _ Hwf).
        -- left. intros ->. pose proof (wf_inj _ _ _ _ Hwf _ _ _ Hp Hr). subst. simpl in Hlen. lia.
    + intros b. by apply outside_tables_link.
    + intros b [Hb Ht]. rewrite pa_mem_set. rewrite ldb_stn_ne; [by apply Hm1|].
      destruct (Ht π p Hp); [left; lia|right; unfold PAGE_SIZE in *; lia].
Qed.

Lemma get_next_ok s T l π p i flags :
  vm_inv s T l → T !! π = Some p → (length π < 3)%nat → 0 ≤ i < 512 → (π = [] → own i) →
  0 ≤ flags → l ≠ [] →
  ∃ q s' T' l', get_next (phys_to_virt p) i flags s = Done (phys_to_virt q, s')
    ∧ T' !! (π ++ [i]) = Some q ∧ vm_inv s' T' l' ∧ grows (Z.testbit flags 2) s T l s' T' l'
    ∧ (length l ≤ S (length l'))%nat.
Proof.
  intros Hinv Hp Hl Hi Hown Hf Hne. destruct (present (entry_at (pa_mem s) p i)) eqn:E.
  - destruct (get_next_present s T l π p i flags) as (q & Hg & Hq); try done.
    exists q, s, T, l. split_and!; try done; [apply grows_refl|lia].
  - destruct (get_next_absent s T l π p i flags) as (q & s' & l' & Hg & Hl' & Hinv' & Hgr); try done.
    exists q, s', (<[π ++ [i] := q]> T), l'. split_and!; try done.
    + apply lookup_insert_eq.
    + by rewrite Hl'.
Qed.

(** Writing a last-level entry. *)
Lemma write_leaf_ok s T l i4 i3 i2 pt i1 e :
  vm_inv s T l → T !! [i4; i3; i2] = Some pt → 0 ≤ i1 < 512 → 0 ≤ e < 2 ^ 64 →
  let s' := pa_set_mem (st64 (phys_to_virt pt + 8 * i1) e (pa_mem s)) s in
  vm_inv s' T l
  ∧ (∀ j4 j3 j2 j1, 0 ≤ j1 < 512 → leaf (pa_mem s') T j4 j3 j2 j1 =
      if decide ([j4; j3; j2; j1] = [i4; i3; i2; i1]) then e else leaf (pa_mem s) T j4 j3 j2 j1)
  ∧ (∀ b, outside_tables T l b → ldb (pa_mem s') b = ldb (pa_mem s) b)
  ∧ (∀ u, dirs_grow u (pa_mem s) T (pa_mem s') T).
Proof.
  intros [Ho Hwf Hd] Hpt Hi1 He s'. unfold s'. rewrite pa_mem_set.
  assert (page_ok pt) as Hpok by (by eapply (wf_page _ _ _ _ Hwf)).
  assert (∀ π p i, T !! π = Some p → (length π < 3)%nat → 0 ≤ i < 512 →
    entry_at (st64 (phys_to_virt pt + 8 * i1) e (pa_mem s)) p i = entry_at (pa_mem s) p i) as Hdir.
  { intros π p i Hp Hl Hi. apply entry_at_st64_ne; try done; [by eapply (wf_page _ _ _ _ Hwf)|]. left. intros ->.
    pose proof (wf_inj _ _ _ _ Hwf _ _ _ Hp Hpt). subst. simpl in Hl. lia. }
  split; [split|split; [|split]].
  - eapply (pa_owns_only _ _ _ [pt]); [done|by apply Forall_singleton| |].
    + intros ? ->%list_elem_of_singleton. by eapply Hd.
    + apply only_pages_st64; [done|lia|unfold PAGE_SIZE; lia].
  - rewrite pa_mem_set. by eapply pt_wf_ext.
  - done.
  - intros j4 j3 j2 j1 Hj. unfold leaf. case_decide as E.
    + injection E as -> -> -> ->. rewrite Hpt. by apply entry_at_st64.
    + destruct (T !! [j4; j3; j2]) as [r|] eqn:Hr; [|done].
      apply entry_at_st64_ne; try done; [by eapply (wf_page _ _ _ _ Hwf)|].
      destruct (decide (pt = r)) as [->|]; [right|by left]. intros ->. apply E.
      by injection (wf_inj _ _ _ _ Hwf _ _ _ Hpt Hr) as -> -> ->.
  - intros b [Hb Ht]. apply ldb_stn_ne.
    destruct (Ht _ _ Hpt); [left; lia|right; unfold PAGE_SIZE in *; lia].
  - intros u. split; [by eauto|]. intros π p i _ _ _ -> [? [=]].
Qed.

(** Taking a page from the allocator leaves the tree and its entries alone. *)
Lemma vm_inv_alloc s T l : vm_inv s T l → l ≠ [] →
  ∃ p l' s', pmm_alloc_page s = Done (p, s') ∧ l ≡ₚ p :: l' ∧ page_ok p ∧ vm_inv s' T l'
    ∧ only_pages l (pa_mem s) (pa_mem s') ∧ page_zero (pa_mem s') p
    ∧ (∀ π q, T !! π = Some q → agree (pa_mem s) (pa_mem s') (phys_to_virt q) PAGE_SIZE).
Proof.
  intros Hinv Hne. pose proof (inv_pages _ _ _ Hinv) as [_ Hok]. destruct Hinv as [Ho Hwf Hd].
  destruct (pa_alloc s l Ho Hne) as (p & l' & s' & Ha & Hl & Ho' & Hm & Hz).
  exists p, l', s'. assert (p ∈ l) as Hp by (rewrite Hl; apply list_elem_of_here).
  assert (∀ π q, T !! π = Some q → agree (pa_mem s) (pa_mem s') (phys_to_virt q) PAGE_SIZE) as Hag.
  { intros π q Hq. apply (only_pages_agree l); [done|by eapply (wf_page _ _ _ _ Hwf)| |done].
    by eapply Hd. }
  split; [done|]. split; [done|]. split; [by rewrite Forall_forall in Hok; apply Hok|].
  split; [|done]. split; [done|by eapply pt_wf_agree|].
  intros π q Hq Hin. eapply Hd; [exact Hq|]. rewrite Hl. by apply list_elem_of_further.
Qed.

(** Addresses from the heap on are outside the direct map. *)
Lemma outside_tables_heap s T l b : vm_inv s T l → HEAP_START ≤ b → outside_tables T l b.
Proof.
  intros Hinv Hb. pose proof (inv_pages _ _ _ Hinv) as [_ Hok]. split; [by apply outside_heap|].
  intros π p Hp. right. destruct (wf_page _ _ _ _ (inv_wf _ _ _ Hinv) π p Hp) as [Hpok _].
  pose proof (phys_to_virt_range p Hpok). lia.
Qed.

(** A write at the heap or above keeps the tree. *)
Lemma vm_inv_heap_write s T l m : vm_inv s T l →
  (∀ b, b < HEAP_START → ldb m b = ldb (pa_mem s) b) → vm_inv (pa_set_mem m s) T l.
Proof.
  intros Hinv Hm. pose proof (inv_pages _ _ _ Hinv) as [_ Hok]. destruct Hinv as [Ho Hwf Hd].
  assert (∀ p, page_ok p → agree (pa_mem s) m (phys_to_virt p) PAGE_SIZE) as Hag.
  { intros p Hp b Hb. apply Hm. pose proof (phys_to_virt_range p Hp). lia. }
  split; [|rewrite pa_mem_set|done].
  - apply pa_owns_set; [done|]. intros p Hp. rewrite Forall_forall in Hok. by apply Hag, Hok.
  - eapply pt_wf_agree; [done|]. intros π p Hp. apply Hag. by eapply (wf_page _ _ _ _ Hwf).
Qed.

Lemma indices_range v :
  0 ≤ PML4_INDEX v < 512 ∧ 0 ≤ PDPT_INDEX v < 512 ∧ 0 ≤ PD_INDEX v < 512 ∧ 0 ≤ PT_INDEX v < 512.
Proof. split_and!; apply index_range; lia. Qed.

Lemma sanitize_nonneg flags level : 0 ≤ flags → 0 ≤ sanitize_flags flags level.
Proof.
  intros. unfold sanitize_flags. destruct level as [|[| |]|]; try done;
    try (apply Z.land_nonneg; by left). destruct p; try done; apply Z.land_nonneg; by left.
Qed.

Lemma sanitize_user flags level : 1 ≤ level → Z.testbit (sanitize_flags flags level) 2 = Z.testbit flags 2.
Proof.
  intros. assert (∀ mask, Z.testbit mask 2 = true → Z.testbit (Z.land flags mask) 2 = Z.testbit flags 2) as Hm
    by (intros mask E; by rewrite Z.land_spec, E, andb_true_r).
  unfold sanitize_flags. destruct level as [|[[]|[]|]|]; try lia; by try apply Hm.
Qed.

(** The three calls of get_next in vmm_map. *)
Lemma walk_create_ok s T l virt flags :
  vm_inv s T l → own (PML4_INDEX virt) → 0 ≤ flags → (3 ≤ length l)%nat →
  ∃ pdpt s1 pd s2 pt s3 T' l',
    get_next (phys_to_virt root) (PML4_INDEX virt) (sanitize_flags flags 1) s = Done (pdpt, s1)
    ∧ get_next pdpt (PDPT_INDEX virt) (sanitize_flags flags 2) s1 = Done (pd, s2)
    ∧ get_next pd (PD_INDEX virt) (sanitize_flags flags 3) s2 = Done (phys_to_virt pt, s3)
    ∧ T' !! [PML4_INDEX virt; PDPT_INDEX virt; PD_INDEX virt] = Some pt
    ∧ vm_inv s3 T' l' ∧ grows (Z.testbit flags 2) s T l s3 T' l' ∧ (length l ≤ 3 + length l')%nat.
Proof.
  intros Hinv Hown Hf Hlen. destruct (indices_range virt) as (H4 & H3 & H2 & _).
  destruct (get_next_ok s T l [] root (PML4_INDEX virt) (sanitize_flags flags 1))
    as (q1 & s1 & T1 & l1 & Hg1 & Hq1 & Hinv1 & Hgr1 & Hl1); try done.
  { apply (wf_root _ _ _ _ (inv_wf _ _ _ Hinv)). }
  { simpl. lia. }
  { by apply sanitize_nonneg. }
  { intros ->. simpl in Hlen. lia. }
  destruct (get_next_ok s1 T1 l1 [PML4_INDEX virt] q1 (PDPT_INDEX virt) (sanitize_flags flags 2))
    as (q2 & s2 & T2 & l2 & Hg2 & Hq2 & Hinv2 & Hgr2 & Hl2); try done.
  { simpl. lia. }
  { by apply sanitize_nonneg. }
  { intros ->. simpl in Hl1. lia. }
  destruct (get_next_ok s2 T2 l2 [PML4_INDEX virt; PDPT_INDEX virt] q2 (PD_INDEX virt)
    (sanitize_flags flags 3)) as (q3 & s3 & T3 & l3 & Hg3 & Hq3 & Hinv3 & Hgr3 & Hl3); try done.
  { simpl. lia. }
  { intros ->. simpl in Hl2. lia. }
  exists (phys_to_virt q1), s1, (phys_to_virt q2), s2, q3, s3, T3, l3.
  rewrite sanitize_user in Hgr1, Hgr2, Hgr3 by lia.
  split_and!; try done; [|lia]. eapply grows_trans; [exact (inv_wf _ _ _ Hinv1)|exact Hgr1|].
  eapply grows_trans; [exact (inv_wf _ _ _ Hinv2)|done..].
Qed.

(** The walk of vmm_virt_to_phys_as reads off the tables. *)
Lemma translate_spec m T a virt :
  pt_wf own m root T → pml4 a = phys_to_virt root → own (PML4_INDEX virt) →
  vmm_virt_to_phys_as a virt m = spec_translate m T virt.
Proof.
  intros Hwf Ha Hown. destruct (indices_range virt) as (H4 & H3 & H2 & H1).
  pose proof (wf_root _ _ _ _ Hwf) as Hroot.
  unfold vmm_virt_to_phys_as, spec_translate. rewrite Ha. fold (entry_at m root (PML4_INDEX virt)).
  pose proof (wf_entry _ _ _ _ Hwf [] root (PML4_INDEX virt) Hroot ltac:(simpl; lia) H4
    ltac:(done)) as E4.
  unfold present in E4. simpl in E4. rewrite E4. destruct (_ =? 0) in *; simpl; [done|].
  fold (entry_at m (Z.land (entry_at m root (PML4_INDEX virt)) PAGE_MASK) (PDPT_INDEX virt)).
  pose proof (wf_entry _ _ _ _ Hwf _ _ (PDPT_INDEX virt) E4 ltac:(simpl; lia) H3 ltac:(done)) as E3.
  set (p3 := Z.land (entry_at m root _) PAGE_MASK) in *.
  unfold present in E3. simpl in E3. rewrite E3. destruct (_ =? 0) in *; simpl; [done|].
  fold (entry_at m (Z.land (entry_at m p3 (PDPT_INDEX virt)) PAGE_MASK) (PD_INDEX virt)).
  pose proof (wf_entry _ _ _ _ Hwf _ _ (PD_INDEX virt) E3 ltac:(simpl; lia) H2 ltac:(done)) as E2.
  set (p2 := Z.land (entry_at m p3 _) PAGE_MASK) in *.
  unfold present in E2. simpl in E2. rewrite E2. destruct (_ =? 0) in *; simpl; [done|].
  fold (entry_at m (Z.land (entry_at m p2 (PD_INDEX virt)) PAGE_MASK) (PT_INDEX virt)).
  set (p1 := Z.land (entry_at m p2 _) PAGE_MASK) in *.
  unfold leaf_of, leaf. rewrite E2. unfold present. destruct (_ =? 0); simpl; [done|].
  apply i64_small. pose proof (ld64_range m (phys_to_virt p1 + 8 * PT_INDEX virt)).
  assert (0 ≤ Z.lor (Z.land (entry_at m p1 (PT_INDEX virt)) PAGE_MASK) (Z.land virt 0xFFF) < 2 ^ 52).
  { apply lor_range; [lia|apply page_mask_range; unfold entry_at; lia|].
    change 0xFFF with (Z.ones 12). rewrite Z.land_ones by lia.
    pose proof (Z.mod_pos_bound virt (2 ^ 12)). change (2 ^ 12) with 4096 in *.
    change (2 ^ 52) with 4503599627370496. lia. }
  change (2 ^ 52) with 4503599627370496 in *. pow2. lia.
Qed.
End walking.

Section mapping.
Context `{PAL : PageAllocatorLaws St}.
Variables (own : Z → Prop) (root : Z).

Definition vm_mem (v : vmm_state St) : mem := pa_mem (vm_pages v).
Definition with_pages (v : vmm_state St) (s : St) (log : list tlb_op) : vmm_state St :=
  mk_vmm St s (kernel_address_space v) (cpu_page_mask v) (reg_cr3 v) (tlb_log v ++ log).

Lemma leaf_of_eq m m' T T' w :
  (∀ i4 i3 i2 i1, 0 ≤ i1 < 512 → leaf m' T' i4 i3 i2 i1 = leaf m T i4 i3 i2 i1) →
  leaf_of m' T' w = leaf_of m T w.
Proof. intros Heq. apply Heq. by destruct (indices_range w) as (_ & _ & _ & ?). Qed.

Definition pte (mask phys flags : Z) : Z := Z.lor (Z.lor (Z.land phys mask) PAGE_PRESENT) flags.

Lemma pte_range mask phys flags : 0 ≤ phys → 0 ≤ mask < 2 ^ 64 → 0 ≤ flags < 2 ^ 64 →
  0 ≤ pte mask phys flags < 2 ^ 64.
Proof.
  intros. apply lor_range; [lia|apply lor_range; [lia| |by vm_compute]|done].
  apply land_range; [lia|lia|done].
Qed.

Lemma vmm_map_ok v T l a virt phys flags :
  vm_inv own root (vm_pages v) T l → pml4 a = phys_to_virt root → own (PML4_INDEX virt) →
  0 ≤ phys ≤ cpu_page_mask v → cpu_page_mask v < 2 ^ 64 → 0 ≤ flags < 2 ^ 64 → (3 ≤ length l)%nat →
  ∃ s' T' l',
    vmm_map a virt phys flags v = Done (tt, with_pages v s' [Invlpg virt])
    ∧ vm_inv own root s' T' l' ∧ T ⊆ T' ∧ (length l ≤ 3 + length l')%nat
    ∧ is_Some (T' !! [PML4_INDEX virt; PDPT_INDEX virt; PD_INDEX virt])
    ∧ (∀ w, leaf_of (pa_mem s') T' w =
         if decide (vpn w = vpn virt) then pte (cpu_page_mask v) phys flags
         else leaf_of (vm_mem v) T w)
    ∧ (∀ b, outside_tables T l b → ldb (pa_mem s') b = ldb (vm_mem v) b ∧ outside_tables T' l' b)
    ∧ dirs_grow (Z.testbit flags 2) (vm_mem v) T (pa_mem s') T'.
Proof.
  intros Hinv Ha Hown Hph Hmask Hf Hlen.
  destruct (walk_create_ok own root (vm_pages v) T l virt flags Hinv Hown ltac:(lia) Hlen)
    as (pdpt & s1 & pd & s2 & pt & s3 & T' & l' & Hg1 & Hg2 & Hg3 & Hpt & Hinv3 & Hgr & Hl).
  destruct (indices_range virt) as (_ & _ & _ & Hi1).
  pose proof (pte_range (cpu_page_mask v) phys flags ltac:(lia) ltac:(lia) Hf) as Hpte.
  destruct (write_leaf_ok own root s3 T' l' _ _ _ pt (PT_INDEX virt) _ Hinv3 Hpt Hi1 Hpte)
    as (Hinv4 & Hleaf & Hm & Hdirs).
  set (s4 := pa_set_mem _ s3) in *. exists s4, T', l'. split_and!; try done.
  - unfold vmm_map, gets, mpanic, on_pages, zoom, mbind, M_bind. simpl.
    destruct (Z.ltb_spec (cpu_page_mask v) phys); [lia|]. rewrite Ha, Hg1. simpl.
    rewrite Hg2. simpl. rewrite Hg3. simpl. reflexivity.
  - by destruct Hgr.
  - intros w. unfold leaf_of at 1. rewrite Hleaf by (by destruct (indices_range w) as (_&_&_&?)).
    destruct (decide (vpn w = vpn virt)) as [E|E].
    + rewrite decide_True; [done|]. destruct (indices_vpn w) as (-> & -> & -> & ->).
      destruct (indices_vpn virt) as (-> & -> & -> & ->). by rewrite E.
    + rewrite decide_False.
      * by apply leaf_of_eq, (grows_leaf _ _ _ _ _ _ _ Hgr).
      * intros [= E4 E3 E2 E1]. apply E. by apply indices_inj.
  - intros b Hb. pose proof (grows_outside _ _ _ _ _ _ _ Hgr b Hb) as Hb'.
    split; [|done]. rewrite Hm by done. by apply (grows_mem _ _ _ _ _ _ _ Hgr).
  - eapply dirs_trans; [exact (inv_wf _ _ _ _ _ Hinv3)| | |exact (grows_dirs _ _ _ _ _ _ _ Hgr)|apply Hdirs]; [by destruct Hgr|done].
Qed.

(** The physical address behind a last-level entry that vmm_map wrote. *)
Lemma lor_low p v : 0 ≤ p → p mod PAGE_SIZE = 0 →
  Z.lor p (v mod PAGE_SIZE) = p + v mod PAGE_SIZE.
Proof.
  intros Hp Hm. change PAGE_SIZE with (2 ^ 12) in *.
  assert (Z.land p (v mod 2 ^ 12) = 0) as E.
  { rewrite <- (Z.land_ones v 12), (Z.land_comm v), Z.land_assoc, Z.land_ones, Hm by lia. done. }
  rewrite <- (Z.lxor_lor _ _ E). symmetry. by apply Z.add_nocarry_lxor.
Qed.

Lemma pte_translate bits phys flags virt : 0 ≤ bits ≤ 64 →
  phys mod PAGE_SIZE = 0 → 0 ≤ phys ≤ 2 ^ bits - 1 → phys < 2 ^ 52 → Z.land flags PAGE_MASK = 0 →
  present (pte (2 ^ bits - 1) phys flags) = true
  ∧ Z.lor (Z.land (pte (2 ^ bits - 1) phys flags) PAGE_MASK) (Z.land virt 0xFFF)
    = phys + virt mod PAGE_SIZE.
Proof.
  intros Hb Hm Hp H52 Hf. unfold pte.
  replace (Z.land phys (2 ^ bits - 1)) with phys.
  2:{ replace (2 ^ bits - 1) with (Z.ones bits) by (rewrite Z.ones_equiv; lia).
      rewrite Z.land_ones, Z.mod_small by lia. done. }
  split; [by apply present_lor_l, present_lor_r|].
  rewrite <- Z.lor_assoc, entry_page; [|done|lia|by rewrite Z.land_lor_distr_l, Hf].
  change 0xFFF with (Z.ones 12). rewrite Z.land_ones by lia. change (2 ^ 12) with PAGE_SIZE.
  apply lor_low; [lia|done].
Qed.

(** Whether a page is mapped, and where, is decided by its last-level entry. *)
Lemma spec_translate_leaf m T w : pt_wf own m root T →
  if present (leaf_of m T w)
  then spec_translate m T w = Z.lor (Z.land (leaf_of m T w) PAGE_MASK) (w mod PAGE_SIZE)
  else spec_translate m T w < 0.
Proof.
  intros Hwf. unfold spec_translate.
  assert (T !! [PML4_INDEX w; PDPT_INDEX w; PD_INDEX w] = None → leaf_of m T w = 0) as H2.
  { intros E. unfold leaf_of, leaf. by rewrite E. }
  pose proof (wf_closed _ _ _ _ Hwf [PML4_INDEX w; PDPT_INDEX w] (PD_INDEX w)) as H3.
  pose proof (wf_closed _ _ _ _ Hwf [PML4_INDEX w] (PDPT_INDEX w)) as H4. simpl in H3, H4.
  replace (Z.land w 0xFFF) with (w mod PAGE_SIZE)
    by (change 0xFFF with (Z.ones 12); by rewrite Z.land_ones by lia).
  repeat case_decide; try (rewrite H2 by auto; simpl; lia).
  destruct (present (leaf_of m T w)); [done|lia].
Qed.

(** *** The processor's walk on a well-formed tree *)

Lemma closed_path m T : pt_wf own m root T → ∀ path π, T !! π = None → T !! (π ++ path) = None.
Proof.
  intros Hwf path. induction path as [|i path IH]; intros π Hn; [by rewrite app_nil_r|].
  rewrite cons_middle, app_assoc. apply IH. by apply (wf_closed _ _ _ _ Hwf).
Qed.
Definition in_own (π path : list Z) : Prop := π = [] → ∀ i, hd_error path = Some i → own i.
Lemma walk_table m T : pt_wf own m root T → ∀ path π p, T !! π = Some p → (length π + length path ≤ 3)%nat →
  Forall (λ i, 0 ≤ i < 512) path → in_own π path → (walk m p path).2 = T !! (π ++ path).
Proof.
  intros Hwf path. induction path as [|i path IH]; intros π p Hp Hl Hr Ho; [by rewrite app_nil_r|].
  apply Forall_cons in Hr as [Hi Hr]. simpl in Hl.
  pose proof (wf_entry _ _ _ _ Hwf π p i Hp ltac:(lia) Hi ltac:(intros E; by apply Ho)) as He.
  rewrite cons_middle, app_assoc. simpl. destruct (present (entry_at m p i)).
  - simpl. apply IH; [done|rewrite length_app; simpl; lia|done|by intros []%app_nil].
  - simpl. by rewrite (closed_path m T Hwf path (π ++ [i]) He).
Qed.

Section growing.
Context (u : bool) (m : mem) (T : gmap (list Z) Z) (m' : mem) (T' : gmap (list Z) Z).
Hypothesis Hwf : pt_wf own m root T.
Hypothesis Hwf' : pt_wf own m' root T'.
Hypothesis Hsub : T ⊆ T'.
Hypothesis Hdirs : dirs_grow u m T m' T'.
Lemma walk_new path : ∀ π p, T' !! π = Some p → (length π + length path ≤ 3)%nat → Forall (λ i, 0 ≤ i < 512) path → in_own π path →
  (∀ i, hd_error path = Some i → T !! (π ++ [i]) = None) → Forall (table_bits u) (walk m' p path).1.
Proof.
  induction path as [|i path IH]; intros π p Hp Hl Hr Ho Hn; [constructor|]. apply Forall_cons in Hr as [Hi Hr]. simpl in Hl.
  pose proof (wf_entry _ _ _ _ Hwf' π p i Hp ltac:(lia) Hi ltac:(intros E; by apply Ho)) as He.
  simpl. destruct (present (entry_at m' p i)); [|constructor]. specialize (Hn i eq_refl). constructor.
  - apply (dir_new _ _ _ _ _ Hdirs π p i); [done|lia|done|done|by rewrite He].
  - apply (IH (π ++ [i])); [done|rewrite length_app; simpl; lia|done|by intros []%app_nil|].
    intros j _. by apply (wf_closed _ _ _ _ Hwf).
Qed.
Lemma walk_grow path : ∀ π p, T !! π = Some p → (length π + length path ≤ 3)%nat → Forall (λ i, 0 ≤ i < 512) path → in_own π path →
  ∃ new, (walk m' p path).1 = (walk m p path).1 ++ new ∧ Forall (table_bits u) new ∧ (is_Some (walk m p path).2 → new = []).
Proof.
  induction path as [|i path IH]; intros π p Hp Hl Hr Ho; [by exists []|].
  pose proof Hr as [Hi Hr']%Forall_cons. simpl in Hl.
  pose proof (wf_entry _ _ _ _ Hwf π p i Hp ltac:(lia) Hi ltac:(intros E; by apply Ho)) as He.
  simpl. destruct (present (entry_at m p i)) eqn:Hpres.
  - rewrite (dir_old _ _ _ _ _ Hdirs π p i) by (done || lia || by rewrite He). rewrite Hpres. simpl.
    destruct (IH (π ++ [i]) _ He) as (new & E & Hb & Hs); [rewrite length_app; simpl; lia|done|by intros []%app_nil|].
    exists new. by rewrite E.
  - exists (walk m' p (i :: path)).1. simpl. split; [done|]. split; [|by intros []].
    apply (walk_new (i :: path) π p); [by eapply lookup_weaken|simpl; lia|done|done|by intros j [= <-]].
Qed.
End growing.

Lemma dir_range w : Forall (λ i, 0 ≤ i < 512) (dir_indices w).
Proof. destruct (indices_range w) as (? & ? & ? & _). repeat (apply Forall_cons; split; [done|]). constructor. Qed.
Lemma in_own_dir w : own (PML4_INDEX w) → in_own [] (dir_indices w).
Proof. by intros Hw _ i [= <-]. Qed.

(** The walk ends at the last-level entry, if its tables exist. *)
Lemma mmu_leaf m T w : pt_wf own m root T → own (PML4_INDEX w) →
  mmu m root w = if present (leaf_of m T w) then
    let es := (walk m root (dir_indices w)).1 in let e := leaf_of m T w in
    Some (mk_access (Z.lor (Z.land e PAGE_MASK) (w mod PAGE_SIZE))
      (all_user es && Z.testbit e 2) (all_write es && Z.testbit e 1) (all_exec es && negb (Z.testbit e 63)))
  else None.
Proof.
  intros Hwf Hown. pose proof (walk_table m T Hwf (dir_indices w) [] root (wf_root _ _ _ _ Hwf) ltac:(simpl; lia) (dir_range w)
    (in_own_dir w Hown)) as Hend. cbn [app] in Hend. unfold mmu, leaf_of, leaf. fold (dir_indices w).
  destruct (walk m root (dir_indices w)) as [es o]. cbn [snd] in Hend. subst o. by destruct (T !! dir_indices w).
Qed.

Lemma present_leaf_table m T w : present (leaf_of m T w) = true →
  is_Some (T !! [PML4_INDEX w; PDPT_INDEX w; PD_INDEX w]).
Proof. unfold leaf_of, leaf. destruct (T !! _); [eauto|done]. Qed.

(** Translations through one address space before and after. *)
Lemma translate_leaf s T l a w :
  vm_inv own root s T l → pml4 a = phys_to_virt root → own (PML4_INDEX w) →
  if present (leaf_of (pa_mem s) T w)
  then vmm_virt_to_phys_as a w (pa_mem s)
         = Z.lor (Z.land (leaf_of (pa_mem s) T w) PAGE_MASK) (w mod PAGE_SIZE)
  else vmm_virt_to_phys_as a w (pa_mem s) < 0.
Proof.
  intros [_ Hwf _] Ha Hown. rewrite (translate_spec own root _ T) by done.
  by apply spec_translate_leaf.
Qed.

(** The page tables of one state answer as those of another, but for the page of [virt]. *)
Definition same_but (a : address_space) (virt : Z) (m m' : mem) : Prop :=
  ∀ w, own (PML4_INDEX w) → vpn w ≠ vpn virt →
    let r := vmm_virt_to_phys_as a w m in
    let r' := vmm_virt_to_phys_as a w m' in
    (0 ≤ r → r' = r) ∧ (r < 0 → r' < 0).

Lemma same_but_leaf a virt s T l s' T' l' :
  vm_inv own root s T l → vm_inv own root s' T' l' → pml4 a = phys_to_virt root →
  (∀ w, vpn w ≠ vpn virt → leaf_of (pa_mem s') T' w = leaf_of (pa_mem s) T w) →
  same_but a virt (pa_mem s) (pa_mem s').
Proof.
  intros Hi Hi' Ha Heq w Hown Hne. pose proof (translate_leaf s T l a w Hi Ha Hown) as H1.
  pose proof (translate_leaf s' T' l' a w Hi' Ha Hown) as H2. rewrite Heq in H2 by done.
  destruct (present _).
  - cbv zeta. rewrite H1, H2. split; [done|]. intros Hn.
    assert (0 ≤ Z.lor (Z.land (leaf_of (pa_mem s) T w) PAGE_MASK) (w mod PAGE_SIZE)); [|lia].
    apply Z.lor_nonneg. split; [|pose proof (Z.mod_pos_bound w PAGE_SIZE); unfold PAGE_SIZE in *; lia].
    apply Z.land_nonneg. by right.
  - cbv zeta. lia.
Qed.

(** *** Permissions *)

Lemma pte_bits bits phys flags i : phys mod PAGE_SIZE = 0 → 0 ≤ phys < 2 ^ 52 → i = 1 ∨ i = 2 ∨ i = 63 →
  Z.testbit (pte (2 ^ bits - 1) phys flags) i = Z.testbit flags i.
Proof.
  intros Hm Hp Hi. unfold pte. rewrite !Z.lor_spec, Z.land_spec, (page_bits phys) by (done || lia).
  by destruct Hi as [->|[->| ->]].
Qed.

(** What ring 3, a write and a fetch may do at an address that was mapped with [flags] below
    the tables [es]. *)
Definition mapped_access (es : list Z) (phys flags : Z) : access :=
  mk_access phys (all_user es && Z.testbit flags 2) (all_write es && Z.testbit flags 1) (all_exec es && negb (Z.testbit flags 63)).

Lemma new_tables u new : Forall (table_bits u) new →
  all_user new && u = u ∧ all_write new = true ∧ all_exec new = true.
Proof.
  induction 1 as [|e new (E2 & E1 & E63) _ (IHu & IHw & IHx)]; [done|].
  unfold all_user, all_write, all_exec in *. cbn [forallb]. rewrite E2, E1, E63, IHw, IHx.
  split; [|done]. by rewrite <- andb_assoc, IHu, andb_diag.
Qed.

(** vmm_map changes what the processor's walk finds for one page. *)
Lemma vmm_map_mmu v T s' T' virt phys flags bits :
  pt_wf own (vm_mem v) root T → pt_wf own (pa_mem s') root T' → own (PML4_INDEX virt) →
  0 ≤ bits ≤ 52 → 0 ≤ phys ≤ 2 ^ bits - 1 → phys mod PAGE_SIZE = 0 → Z.land flags PAGE_MASK = 0 → T ⊆ T' →
  (∀ w, leaf_of (pa_mem s') T' w = if decide (vpn w = vpn virt) then pte (2 ^ bits - 1) phys flags else leaf_of (vm_mem v) T w) →
  dirs_grow (Z.testbit flags 2) (vm_mem v) T (pa_mem s') T' →
  (∀ w, vpn w = vpn virt → mmu (pa_mem s') root w
     = Some (mapped_access (walk (vm_mem v) root (dir_indices virt)).1 (phys + w mod PAGE_SIZE) flags))
  ∧ (∀ w, own (PML4_INDEX w) → vpn w ≠ vpn virt → mmu (pa_mem s') root w = mmu (vm_mem v) root w).
Proof.
  intros Hwf Hwf' Hown Hbits Hph Hal Hfm Hsub Hleaf Hdirs.
  assert (2 ^ bits ≤ 2 ^ 52) as Hpow by (apply Z.pow_le_mono_r; lia).
  assert (∀ w, own (PML4_INDEX w) → ∃ new,
    (walk (pa_mem s') root (dir_indices w)).1 = (walk (vm_mem v) root (dir_indices w)).1 ++ new
    ∧ Forall (table_bits (Z.testbit flags 2)) new ∧ (is_Some (walk (vm_mem v) root (dir_indices w)).2 → new = [])) as Hgrow.
  { intros w Hw. apply (walk_grow _ _ T _ T' Hwf Hwf' Hsub Hdirs (dir_indices w) []);
      [exact (wf_root _ _ _ _ Hwf)|simpl; lia|apply dir_range|by apply in_own_dir]. }
  split.
  - intros w Hw. assert (dir_indices w = dir_indices virt ∧ PML4_INDEX w = PML4_INDEX virt) as [Edir E4].
    { unfold dir_indices. destruct (indices_vpn w) as (_ & -> & -> & ->), (indices_vpn virt) as (_ & -> & -> & ->). by rewrite Hw. }
    assert (own (PML4_INDEX w)) as Howw by (by rewrite E4).
    destruct (Hgrow w Howw) as (new & Ees & Hnew & _). destruct (new_tables _ _ Hnew) as (Hu & Hwr & Hx).
    rewrite (mmu_leaf _ T' w Hwf' Howw), Hleaf, decide_True by done.
    destruct (pte_translate bits phys flags w) as [Hp He]; [lia|done|lia|lia|done|].
    rewrite Hp. cbv zeta. rewrite !pte_bits by (done || lia || auto).
    rewrite <- Edir, Ees. unfold mapped_access, all_user, all_write, all_exec. rewrite !forallb_app.
    fold (all_user new) (all_write new) (all_exec new). rewrite Hwr, Hx, !andb_true_r, <- andb_assoc, Hu.
    f_equal. f_equal. rewrite <- He. f_equal. change 0xFFF with (Z.ones 12). by rewrite Z.land_ones by lia.
  - intros w Howw Hne. rewrite (mmu_leaf _ T' w Hwf' Howw), (mmu_leaf _ T w Hwf Howw), Hleaf, decide_False by done.
    destruct (present (leaf_of (vm_mem v) T w)) eqn:Hpres; [|done].
    destruct (Hgrow w Howw) as (new & -> & _ & Hnil).
    rewrite Hnil, app_nil_r; [done|].
    rewrite (walk_table _ T Hwf (dir_indices w) [] root (wf_root _ _ _ _ Hwf) ltac:(simpl; lia) (dir_range w) (in_own_dir w Howw)).
    unfold leaf_of, leaf in Hpres. unfold dir_indices. cbn [app]. by destruct (T !! _).
Qed.

(** The specification of vmm_map, as a lemma for its clients. *)
Lemma vmm_map_full v T l a virt phys flags bits :
  vm_inv own root (vm_pages v) T l → pml4 a = phys_to_virt root → own (PML4_INDEX virt) →
  0 ≤ bits ≤ 52 → cpu_page_mask v = 2 ^ bits - 1 →
  0 ≤ phys ≤ 2 ^ bits - 1 → phys mod PAGE_SIZE = 0 →
  0 ≤ flags < 2 ^ 64 → Z.land flags PAGE_MASK = 0 → (3 ≤ length l)%nat →
  ∃ s' T' l',
    vmm_map a virt phys flags v = Done (tt, with_pages v s' [Invlpg virt])
    ∧ vm_inv own root s' T' l' ∧ T ⊆ T' ∧ (length l ≤ 3 + length l')%nat
    ∧ (∀ w, vpn w = vpn virt →
         vmm_virt_to_phys_as a w (pa_mem s') = phys + w mod PAGE_SIZE)
    ∧ same_but a virt (vm_mem v) (pa_mem s')
    ∧ (∀ b, outside_tables T l b → ldb (pa_mem s') b = ldb (vm_mem v) b)
    ∧ (∀ w, vpn w = vpn virt → mmu (pa_mem s') root w
         = Some (mapped_access (walk (vm_mem v) root (dir_indices virt)).1 (phys + w mod PAGE_SIZE) flags))
    ∧ (∀ w, own (PML4_INDEX w) → vpn w ≠ vpn virt → mmu (pa_mem s') root w = mmu (vm_mem v) root w)
    ∧ dirs_grow (Z.testbit flags 2) (vm_mem v) T (pa_mem s') T'.
Proof.
  intros Hinv Ha Hown Hbits Hmask Hph Hal Hf Hfm Hlen.
  assert (2 ^ bits ≤ 2 ^ 52) as Hpow by (apply Z.pow_le_mono_r; lia).
  assert (2 ^ 52 < 2 ^ 64) as H52 by done.
  destruct (vmm_map_ok v T l a virt phys flags) as (s' & T' & l' & Hm & Hinv' & Ht & Hl & _ & Hleaf & Hmem & Hdirs);
    try done; [lia|lia|].
  exists s', T', l'. split; [done|]. split; [done|]. split; [done|]. split; [done|].
  destruct (vmm_map_mmu v T s' T' virt phys flags bits) as [Hin Hout];
    [by destruct Hinv|by destruct Hinv'|done..|by rewrite <- Hmask|done|].
  split; [|split; [|split; [|by split; [|split]]]].
  - intros w Hw. assert (own (PML4_INDEX w)) as Howw.
    { destruct (indices_vpn w) as (_ & _ & _ & ->), (indices_vpn virt) as (_ & _ & _ & Ev).
      by rewrite Hw, <- Ev. }
    pose proof (translate_leaf s' T' l' a w Hinv' Ha Howw) as Htr.
    rewrite Hleaf, decide_True, Hmask in Htr by done.
    destruct (pte_translate bits phys flags w) as [Hp He]; try done; [lia|lia|].
    rewrite Hp in Htr. rewrite Htr, <- He. f_equal. change 0xFFF with (Z.ones 12).
    by rewrite Z.land_ones by lia.
  - eapply same_but_leaf; [done|done|done|]. intros w Hne. by rewrite Hleaf, decide_False.
  - intros b Hb. by apply Hmem.
Qed.

Lemma vmm_map_translate v T l a virt phys flags bits :
  vm_inv own root (vm_pages v) T l → pml4 a = phys_to_virt root → own (PML4_INDEX virt) →
  0 ≤ bits ≤ 52 → cpu_page_mask v = 2 ^ bits - 1 →
  0 ≤ phys ≤ 2 ^ bits - 1 → phys mod PAGE_SIZE = 0 →
  0 ≤ flags < 2 ^ 64 → Z.land flags PAGE_MASK = 0 → (3 ≤ length l)%nat →
  ∃ s' T' l',
    vmm_map a virt phys flags v = Done (tt, with_pages v s' [Invlpg virt])
    ∧ vm_inv own root s' T' l' ∧ T ⊆ T' ∧ (length l ≤ 3 + length l')%nat
    ∧ (∀ w, vpn w = vpn virt →
         vmm_virt_to_phys_as a w (pa_mem s') = phys + w mod PAGE_SIZE)
    ∧ same_but a virt (vm_mem v) (pa_mem s')
    ∧ (∀ b, outside_tables T l b → ldb (pa_mem s') b = ldb (vm_mem v) b).
Proof.
  intros Hinv Ha Hown Hbits Hmask Hph Hal Hf Hfm Hlen.
  destruct (vmm_map_full v T l a virt phys flags bits Hinv Ha Hown Hbits Hmask Hph Hal Hf Hfm Hlen)
    as (s' & T' & l' & ? & ? & ? & ? & ? & ? & ? & _). by exists s', T', l'.
Qed.

(** C1: vmm_map refines "set one page of the mapping". On a well-formed tree with
    at least three free pages, for a page-aligned physical address the CPU can
    address and flags outside the address field, it completes; the result is
    again a well-formed tree that has lost at most three pages to tables;
    every address of the mapped page translates to the physical page plus its
    offset, and the processor may use it as the flags say: from ring 3, for writes and for
    fetches exactly if the flags allow it and the tables that were there before on its path
    do, since the tables made here restrict nothing more than the flags. Every other page
    translates as before with the permissions it had, unmapped pages staying
    unmapped; memory outside tables and free pages is untouched; and the page
    is invalidated in the TLB. *)
Theorem vmm_map_refines v T l a virt phys flags bits :
  vm_inv own root (vm_pages v) T l → pml4 a = phys_to_virt root → own (PML4_INDEX virt) →
  0 ≤ bits ≤ 52 → cpu_page_mask v = 2 ^ bits - 1 →
  0 ≤ phys ≤ 2 ^ bits - 1 → phys mod PAGE_SIZE = 0 →
  0 ≤ flags < 2 ^ 64 → Z.land flags PAGE_MASK = 0 → (3 ≤ length l)%nat →
  ∃ s' T' l',
    vmm_map a virt phys flags v = Done (tt, with_pages v s' [Invlpg virt])
    ∧ vm_inv own root s' T' l' ∧ T ⊆ T' ∧ (length l ≤ 3 + length l')%nat
    ∧ (∀ w, vpn w = vpn virt →
         vmm_virt_to_phys_as a w (pa_mem s') = phys + w mod PAGE_SIZE)
    ∧ same_but a virt (vm_mem v) (pa_mem s')
    ∧ (∀ b, outside_tables T l b → ldb (pa_mem s') b = ldb (vm_mem v) b)
    ∧ (∀ w, vpn w = vpn virt → mmu (pa_mem s') root w
         = Some (mapped_access (walk (vm_mem v) root (dir_indices virt)).1 (phys + w mod PAGE_SIZE) flags))
    ∧ (∀ w, own (PML4_INDEX w) → vpn w ≠ vpn virt → mmu (pa_mem s') root w = mmu (vm_mem v) root w).
Proof.
  intros Hinv Ha Hown Hbits Hmask Hph Hal Hf Hfm Hlen.
  destruct (vmm_map_full v T l a virt phys flags bits Hinv Ha Hown Hbits Hmask Hph Hal Hf Hfm Hlen)
    as (s' & T' & l' & ? & ? & ? & ? & ? & ? & ? & ? & ? & _). by exists s', T', l'.
Qed.

(** *** Trees whose tables ring 3 may go through *)

Lemma walk_agree m m' T : pt_wf own m root T → (∀ π q, T !! π = Some q → agree m m' (phys_to_virt q) PAGE_SIZE) →
  ∀ path π p, T !! π = Some p → (length π + length path ≤ 3)%nat → Forall (λ i, 0 ≤ i < 512) path → in_own π path →
  walk m' p path = walk m p path.
Proof.
  intros Hwf Hag path. induction path as [|i path IH]; intros π p Hp Hl Hr Ho; [done|].
  apply Forall_cons in Hr as [Hi Hr]. simpl in Hl.
  pose proof (wf_entry _ _ _ _ Hwf π p i Hp ltac:(lia) Hi ltac:(intros E; by apply Ho)) as He.
  simpl. rewrite (entry_at_agree m m' p i (Hag _ _ Hp) Hi). destruct (present (entry_at m p i)); [|done].
  rewrite (IH (π ++ [i])); [done|done|rewrite length_app; simpl; lia|done|by intros []%app_nil].
Qed.

Lemma mmu_agree m m' T w : pt_wf own m root T → (∀ π q, T !! π = Some q → agree m m' (phys_to_virt q) PAGE_SIZE) →
  own (PML4_INDEX w) → mmu m' root w = mmu m root w.
Proof.
  intros Hwf Hag Hown. unfold mmu.
  rewrite (walk_agree m m' T Hwf Hag (dir_indices w) [] root (wf_root _ _ _ _ Hwf) ltac:(simpl; lia) (dir_range w) (in_own_dir w Hown)).
  pose proof (walk_table m T Hwf (dir_indices w) [] root (wf_root _ _ _ _ Hwf) ltac:(simpl; lia) (dir_range w)
    (in_own_dir w Hown)) as Hend. cbn [app] in Hend.
  destruct (walk m root (dir_indices w)) as [es [pt|]]; [|done]. cbn [snd] in Hend.
  rewrite (entry_at_agree m m' pt (PT_INDEX w)); [done|by eapply Hag|]. by destruct (indices_range w) as (_ & _ & _ & ?).
Qed.

(** Every entry that leads to a table lets ring 3 and writes through. *)
Definition user_tree (m : mem) (T : gmap (list Z) Z) : Prop := ∀ π p i,
  T !! π = Some p → (length π < 3)%nat → 0 ≤ i < 512 → is_Some (T !! (π ++ [i])) → table_bits true (entry_at m p i).

Lemma user_tree_grow m T m' T' : pt_wf own m root T → T ⊆ T' → dirs_grow true m T m' T' →
  user_tree m T → user_tree m' T'.
Proof.
  intros Hwf Hsub [Hold Hnew] Hu π p i Hp Hl Hi Hs. destruct (T !! (π ++ [i])) as [q|] eqn:E; [|by apply (Hnew π)].
  destruct (T !! π) as [p'|] eqn:Ep; [|by rewrite (wf_closed _ _ _ _ Hwf π i Ep) in E].
  pose proof (lookup_weaken _ _ _ _ Ep Hsub) as Ep'. rewrite Hp in Ep'. injection Ep' as <-.
  rewrite (Hold π p i) by eauto. apply (Hu π p i); eauto.
Qed.

Lemma user_tree_agree m m' T : (∀ π q, T !! π = Some q → agree m m' (phys_to_virt q) PAGE_SIZE) →
  user_tree m T → user_tree m' T.
Proof. intros Hag Hu π p i Hp Hl Hi Hs. rewrite (entry_at_agree m m' p i (Hag _ _ Hp) Hi). by apply (Hu π). Qed.

Lemma user_walk m T : pt_wf own m root T → user_tree m T → ∀ path π p, T !! π = Some p →
  (length π + length path ≤ 3)%nat → Forall (λ i, 0 ≤ i < 512) path → in_own π path → Forall (table_bits true) (walk m p path).1.
Proof.
  intros Hwf Hu path. induction path as [|i path IH]; intros π p Hp Hl Hr Ho; [constructor|].
  apply Forall_cons in Hr as [Hi Hr]. simpl in Hl.
  pose proof (wf_entry _ _ _ _ Hwf π p i Hp ltac:(lia) Hi ltac:(intros E; by apply Ho)) as He.
  simpl. destruct (present (entry_at m p i)); [|constructor]. constructor.
  - apply (Hu π); [done|lia|done|by rewrite He].
  - apply (IH (π ++ [i])); [done|rewrite length_app; simpl; lia|done|by intros []%app_nil].
Qed.

(** There the flags of a mapping alone decide. *)
Lemma user_access m T w phys flags : pt_wf own m root T → user_tree m T → own (PML4_INDEX w) →
  mapped_access (walk m root (dir_indices w)).1 phys flags
  = mk_access phys (Z.testbit flags 2) (Z.testbit flags 1) (negb (Z.testbit flags 63)).
Proof.
  intros Hwf Hu Hown. pose proof (user_walk m T Hwf Hu (dir_indices w) [] root (wf_root _ _ _ _ Hwf) ltac:(simpl; lia)
    (dir_range w) (in_own_dir w Hown)) as Hall.
  unfold mapped_access. induction Hall as [|e es (E2 & E1 & E63) _ IH]; [done|].
  unfold all_user, all_write, all_exec in *. cbn [forallb]. by rewrite E2, E1, E63.
Qed.

(** The tables along a path, from the entries that lead to them. *)
Lemma walk_entries m T virt pt : pt_wf own m root T → own (PML4_INDEX virt) →
  T !! [PML4_INDEX virt; PDPT_INDEX virt; PD_INDEX virt] = Some pt →
  let pdpt := Z.land (entry_at m root (PML4_INDEX virt)) PAGE_MASK in
  let pd := Z.land (entry_at m pdpt (PDPT_INDEX virt)) PAGE_MASK in
  Z.land (entry_at m pd (PD_INDEX virt)) PAGE_MASK = pt.
Proof.
  intros Hwf Hown Hpt. destruct (indices_range virt) as (H4 & H3 & H2 & _). cbv zeta.
  pose proof (wf_root _ _ _ _ Hwf) as Hroot.
  pose proof (wf_entry _ _ _ _ Hwf [] root (PML4_INDEX virt) Hroot ltac:(simpl; lia) H4
    ltac:(done)) as E4. simpl in E4.
  pose proof (wf_closed _ _ _ _ Hwf [PML4_INDEX virt] (PDPT_INDEX virt)) as C3.
  pose proof (wf_closed _ _ _ _ Hwf [PML4_INDEX virt; PDPT_INDEX virt] (PD_INDEX virt)) as C2.
  simpl in C3, C2.
  destruct (present (entry_at m root _)); [|rewrite C2 in Hpt by auto; done].
  pose proof (wf_entry _ _ _ _ Hwf _ _ (PDPT_INDEX virt) E4 ltac:(simpl; lia) H3 ltac:(done)) as E3.
  simpl in E3. destruct (present (entry_at m _ (PDPT_INDEX virt))); [|rewrite C2 in Hpt by auto; done].
  pose proof (wf_entry _ _ _ _ Hwf _ _ (PD_INDEX virt) E3 ltac:(simpl; lia) H2 ltac:(done)) as E2.
  simpl in E2. rewrite Hpt in E2. destruct (present _); [|done]. by injection E2 as <-.
Qed.

(** Vmm_unmap refines "remove one page of the mapping", where the page's
    three tables exist: it completes, keeps the tree well formed with the same
    tables and the same free pages, the page's addresses no longer translate
    (result -4, no last-level entry), every other page translates as before,
    and the page is invalidated in the TLB. *)
Theorem vmm_unmap_refines v T l a virt pt :
  vm_inv own root (vm_pages v) T l → pml4 a = phys_to_virt root → own (PML4_INDEX virt) →
  T !! [PML4_INDEX virt; PDPT_INDEX virt; PD_INDEX virt] = Some pt →
  ∃ s', vmm_unmap a virt v = Done (tt, with_pages v s' [Invlpg virt])
    ∧ vm_inv own root s' T l
    ∧ (∀ w, vpn w = vpn virt → vmm_virt_to_phys_as a w (pa_mem s') = -4)
    ∧ same_but a virt (vm_mem v) (pa_mem s')
    ∧ (∀ b, outside_tables T l b → ldb (pa_mem s') b = ldb (vm_mem v) b).
Proof.
  intros Hinv Ha Hown Hpt. destruct (indices_range virt) as (_ & _ & _ & Hi1).
  pose proof (walk_entries _ _ _ _ (inv_wf _ _ _ _ _ Hinv) Hown Hpt) as Hw. cbv zeta in Hw.
  destruct (write_leaf_ok own root (vm_pages v) T l _ _ _ pt (PT_INDEX virt) 0 Hinv Hpt Hi1
    ltac:(lia)) as (Hinv' & Hleaf & Hmem & _).
  set (s' := pa_set_mem _ _) in *. exists s'.
  assert (∀ w, leaf_of (pa_mem s') T w = if decide (vpn w = vpn virt) then 0 else leaf_of (vm_mem v) T w) as Hl.
  { intros w. unfold leaf_of at 1. rewrite Hleaf by (by destruct (indices_range w) as (_&_&_&?)).
    destruct (indices_vpn w) as (E1 & E2 & E3 & E4), (indices_vpn virt) as (F1 & F2 & F3 & F4).
    destruct (decide (vpn w = vpn virt)) as [E|E].
    - rewrite decide_True; [done|]. by rewrite E1, E2, E3, E4, F1, F2, F3, F4, E.
    - rewrite decide_False; [done|]. intros [= G4 G3 G2 G1]. apply E. by apply indices_inj. }
  split; [|split; [done|split; [|split; [|done]]]].
  - unfold vmm_unmap, on_pages, zoom, mbind, M_bind, read64, gets. simpl. rewrite Ha.
    fold (entry_at (pa_mem (vm_pages v)) root (PML4_INDEX virt)).
    repeat match goal with |- context [ld64 ?m (phys_to_virt ?p + 8 * ?i)] =>
      fold (entry_at m p i) end.
    rewrite Hw. reflexivity.
  - intros w E. assert (own (PML4_INDEX w)) as Howw.
    { destruct (indices_vpn w) as (_ & _ & _ & ->), (indices_vpn virt) as (_ & _ & _ & Ev).
      by rewrite E, <- Ev. }
    rewrite (translate_spec own root _ T) by (done || by apply inv_wf in Hinv').
    unfold spec_translate. assert (leaf_of (pa_mem s') T w = 0) as -> by (by rewrite Hl, decide_True).
    destruct (indices_vpn w) as (E1 & E2 & E3 & E4), (indices_vpn virt) as (F1 & F2 & F3 & F4).
    rewrite E2, E3, E4, E, <- F2, <- F3, <- F4. destruct (inv_wf _ _ _ _ _ Hinv') as [_ _ Hcl _ _].
    pose proof (Hcl [PML4_INDEX virt; PDPT_INDEX virt] (PD_INDEX virt)) as C2.
    pose proof (Hcl [PML4_INDEX virt] (PDPT_INDEX virt)) as C3. simpl in C2, C3.
    repeat case_decide; first [done|congruence|rewrite C2 in Hpt by auto; done].
  - eapply same_but_leaf; [done|done|done|]. intros w Hne. by rewrite Hl, decide_False.
Qed.
End mapping.

(** ** Address spaces *)

Section address_spaces.
Context `{PAL : PageAllocatorLaws St}.

(** The pages a subtree consists of, in the order paging_destroy_address_space
    frees them: with [k] levels of tables below, the [n] entries of the table
    at page [p], then the page itself. [k = 0]: a mapped frame. *)
Fixpoint tree_pages (m : mem) (k : nat) (n : Z) (p : Z) : list Z :=
  match k with
  | O => [p]
  | S k' =>
      mjoin ((λ i, let e := entry_at m p i in
                if present e then tree_pages m k' 512 (Z.land e PAGE_MASK) else [])
             <$> seqZ 0 n) ++ [p]
  end.

Lemma tree_pages_self m k n p : p ∈ tree_pages m k n p.
Proof.
  destruct k; simpl; [by apply list_elem_of_singleton|].
  apply elem_of_app. right. by apply list_elem_of_singleton.
Qed.

Lemma tree_pages_zero m k n p : n ≤ 512 → page_zero m p → tree_pages m (S k) n p = [p].
Proof.
  intros Hn Hz. simpl. replace (mjoin _) with (@nil Z); [done|]. symmetry.
  apply join_nil. apply Forall_fmap, Forall_forall. intros i Hi%elem_of_seqZ.
  unfold compose, entry_at. by rewrite (page_zero_ld64 _ p) by (done || lia).
Qed.

(** A table keeps its entries when memory changes in other pages. *)
Lemma tree_entry_agree D m m' p i : Forall page_ok D → page_ok p → p ∉ D → 0 ≤ i < 512 →
  only_pages D m m' → entry_at m' p i = entry_at m p i.
Proof. intros. apply entry_at_agree; [|done]. by eapply only_pages_agree. Qed.

(** The pages of the subtrees at indices [ix] of the table at [p]. *)
Definition subtrees (m : mem) (k : nat) (p : Z) (ix : list Z) : list Z :=
  mjoin ((λ i, let e := entry_at m p i in
            if present e then tree_pages m k 512 (Z.land e PAGE_MASK) else []) <$> ix).

Lemma tree_pages_agree D k : ∀ n m m' p, n ≤ 512 → Forall page_ok D →
  Forall page_ok (tree_pages m k n p) → (∀ q, q ∈ tree_pages m k n p → q ∉ D) →
  only_pages D m m' → tree_pages m' k n p = tree_pages m k n p.
Proof.
  induction k as [|k IH]; intros n m m' p Hn HD Hok Hd Hm; [done|]. simpl. f_equal. f_equal.
  pose proof (tree_pages_self m (S k) n p) as Hself. rewrite Forall_forall in Hok.
  apply list_fmap_ext. intros j i Hj. apply lookup_seqZ in Hj as [-> Hj].
  rewrite (tree_entry_agree D m) by (auto || lia || by rewrite Forall_forall).
  destruct (present _) eqn:Hp; [|done].
  assert (∀ q, q ∈ tree_pages m k 512 (Z.land (entry_at m p (0 + Z.of_nat j)) PAGE_MASK) →
    q ∈ tree_pages m (S k) n p) as Hsub.
  { intros q Hq. simpl. apply elem_of_app. left. apply list_elem_of_join. eexists. split; [exact Hq|].
    apply list_elem_of_fmap. exists (0 + Z.of_nat j). split; [by rewrite Hp|].
    apply elem_of_seqZ. lia. }
  apply IH; [lia|done|by rewrite Forall_forall; auto|by auto|done].
Qed.

Lemma subtrees_cons m k p i ix : subtrees m k p (i :: ix) =
  (let e := entry_at m p i in
   if present e then tree_pages m k 512 (Z.land e PAGE_MASK) else []) ++ subtrees m k p ix.
Proof. done. Qed.

Lemma subtrees_agree D m m' k p ix : Forall page_ok D → page_ok p → p ∉ D →
  Forall (λ i, 0 ≤ i < 512) ix → Forall page_ok (subtrees m k p ix) →
  (∀ q, q ∈ subtrees m k p ix → q ∉ D) → only_pages D m m' →
  subtrees m' k p ix = subtrees m k p ix.
Proof.
  intros HD Hp HpD. induction ix as [|i ix IH]; intros His Hok Hd Hm; [done|].
  apply Forall_cons in His as [Hi His]. unfold subtrees in *. simpl in *.
  apply Forall_app in Hok as [Hok1 Hok2]. rewrite (tree_entry_agree D m) by done. f_equal.
  - destruct (present _); [|done]. apply (tree_pages_agree D); [lia|done|done| |done].
    intros q Hq. apply Hd. apply elem_of_app. by left.
  - apply IH; try done. intros q Hq. apply Hd. apply elem_of_app. by right.
Qed.

(** What freeing code does to the allocator: the pages [L] become free. *)
Definition frees (f : M St unit) (s : St) (L l : list Z) : Prop :=
  ∃ s' l', f s = Done (tt, s') ∧ pa_owns s' l' ∧ l' ≡ₚ L ++ l
    ∧ only_pages L (pa_mem s) (pa_mem s').

Lemma frees_page s l p : pa_owns s l → page_ok p → p ∉ l → frees (pmm_free_page p) s [p] l.
Proof.
  intros Ho Hp Hn. destruct (pa_free s l p Ho Hp Hn) as (s' & Hf & Ho' & Hm).
  by exists s', (p :: l).
Qed.

Lemma frees_seq f g s L L' l : Forall page_ok L → frees f s L l →
  (∀ s' l', pa_owns s' l' → l' ≡ₚ L ++ l → only_pages L (pa_mem s) (pa_mem s') →
    frees g s' L' l') →
  frees (_ ← f; g) s (L ++ L') l.
Proof.
  intros HL (s1 & l1 & Hf & Ho1 & Hl1 & Hm1) Hg.
  destruct (Hg s1 l1 Ho1 Hl1 Hm1) as (s2 & l2 & Hg2 & Ho2 & Hl2 & Hm2). exists s2, l2.
  split; [by rewrite (bind_Done _ _ _ _ _ Hf)|]. split; [done|]. split.
  - rewrite Hl2, Hl1. rewrite !(assoc app). f_equiv. apply Permutation_app_comm.
  - eapply only_pages_trans; (eapply only_pages_mono; [|done]); intros q Hq;
      apply elem_of_app; auto.
Qed.

Lemma frees_entries k f p ix : page_ok p →
  (∀ s l e, let L := tree_pages (pa_mem s) k 512 (Z.land e PAGE_MASK) in
     pa_owns s l → NoDup (L ++ l) → Forall page_ok L → frees (f e) s L l) →
  ∀ s l, let L := subtrees (pa_mem s) k p ix in
    pa_owns s l → Forall (λ i, 0 ≤ i < 512) ix → NoDup (L ++ l) → Forall page_ok L → p ∉ L →
    frees (for_each ix (λ i, e ← read64 (phys_to_virt p + 8 * i);
             if Z.land e PAGE_PRESENT =? 0 then mret tt else f e)) s L l.
Proof.
  intros Hp Hf. induction ix as [|i ix IH]; intros s l L Ho His Hnd Hok Hn.
  { exists s, l. done. }
  apply Forall_cons in His as [Hi His]. unfold L in *. clear L. rewrite subtrees_cons in *. simpl in *.
  set (L1 := if present _ then _ else _) in *.
  apply Forall_app in Hok as [Hok1 Hok2]. rewrite <- (assoc app) in Hnd.
  apply NoDup_app in Hnd as (Hnd1 & Hd & Hnd2). rewrite not_elem_of_app in Hn.
  apply frees_seq; [done| |].
  - assert (NoDup (L1 ++ l)) as Hnd1l.
    { apply NoDup_app. split; [done|]. split; [|by apply NoDup_app in Hnd2 as (_ & _ & ?)].
      intros q Hq Hl. apply (Hd q Hq), elem_of_app. by right. }
    unfold frees, mbind, M_bind, read64, gets. simpl. fold (entry_at (pa_mem s) p i).
    unfold L1, present in *. destruct (_ =? 0); [by exists s, l|]. by apply Hf.
  - intros s' l' Ho' Hl' Hm.
    assert (∀ q, q ∈ subtrees (pa_mem s) k p ix → q ∉ L1) as Hd'.
    { intros q Hq Hq1. apply (Hd q Hq1), elem_of_app. by left. }
    pose proof (subtrees_agree L1 (pa_mem s) (pa_mem s') k p ix Hok1 Hp ltac:(tauto) His Hok2 Hd' Hm)
      as Heq. rewrite <- Heq in *.
    apply IH; [done|done| |done|tauto]. rewrite Hl'.
    rewrite (assoc app), (Permutation_app_comm _ L1), <- (assoc app).
    by apply NoDup_app.
Qed.

(** One level of paging_destroy_address_space: a table's entries, then the table. *)
Definition free_table (p n : Z) (f : Z → M St unit) : M St unit :=
  _ ← destroy_entries (phys_to_virt p) n f; pmm_free_page (virt_to_phys (phys_to_virt p)).

Lemma frees_table k f p n s l : 0 ≤ n ≤ 512 →
  (∀ s l e, let L := tree_pages (pa_mem s) k 512 (Z.land e PAGE_MASK) in
     pa_owns s l → NoDup (L ++ l) → Forall page_ok L → frees (f e) s L l) →
  let L := tree_pages (pa_mem s) (S k) n p in
  pa_owns s l → NoDup (L ++ l) → Forall page_ok L → frees (free_table p n f) s L l.
Proof.
  intros Hn Hf L Ho Hnd Hok. unfold L in *. simpl in *.
  fold (subtrees (pa_mem s) k p (seqZ 0 n)) in *. set (S' := subtrees _ _ _ _) in *.
  apply Forall_app in Hok as [Hok Hp]. rewrite Forall_singleton in Hp.
  rewrite <- (assoc app) in Hnd. apply NoDup_app in Hnd as (HndS & HdS & Hndp).
  apply NoDup_cons in Hndp as [Hpl Hndl].
  apply frees_seq; [done| |].
  - apply frees_entries; try done.
    + apply Forall_forall. intros i Hi%elem_of_seqZ. lia.
    + apply NoDup_app. split; [done|]. split; [|done]. intros q Hq Hql.
      apply (HdS q Hq), elem_of_app. by right.
    + intros Hin. apply (HdS p Hin), elem_of_app. left. by apply list_elem_of_singleton.
  - intros s' l' Ho' Hl' _. rewrite virt_to_phys_to_virt
      by (pose proof (page_ok_range p Hp); unfold PAGE_SIZE in *; lia).
    apply frees_page; [done|done|]. rewrite Hl', elem_of_app. intros [Hin|Hin]; [|done].
    apply (HdS p Hin), elem_of_app. left. by apply list_elem_of_singleton.
Qed.

(** What the four loops do for an entry with [k] levels of tables below it. *)
Fixpoint free_subtree (k : nat) (e : Z) : M St unit :=
  match k with
  | O => pmm_free_page (Z.land e PAGE_MASK)
  | S k' => free_table (Z.land e PAGE_MASK) 512 (free_subtree k')
  end.

Lemma paging_destroy_free_subtree a root : pml4 a = phys_to_virt root →
  paging_destroy_address_space a = free_table root 256 (free_subtree 3).
Proof.
  intros Ha. unfold paging_destroy_address_space. rewrite Ha. cbn [free_subtree].
  unfold free_table. cbv zeta. reflexivity.
Qed.

Lemma frees_subtree k s l e : let L := tree_pages (pa_mem s) k 512 (Z.land e PAGE_MASK) in
  pa_owns s l → NoDup (L ++ l) → Forall page_ok L → frees (free_subtree k e) s L l.
Proof.
  revert s l e. induction k as [|k IH]; intros s l e L Ho Hnd Hok; unfold L in *.
  - simpl in *. rewrite Forall_singleton in Hok. apply NoDup_cons in Hnd as [? _]. by apply frees_page.
  - apply (frees_table k (free_subtree k)); [lia|exact IH|done|done|done].
Qed.

(** C15: paging_destroy_address_space gives back exactly the pages of the address
    space's user half: when its tables and the frames they map are distinct
    page frames that are not already free, it completes and the pages free
    afterwards are, up to order, the old free pages and each table and each
    mapped frame once; no memory outside those pages is written. *)
Theorem paging_destroy_frees s l a root :
  pml4 a = phys_to_virt root → pa_owns s l →
  NoDup (tree_pages (pa_mem s) 4 256 root ++ l) →
  Forall page_ok (tree_pages (pa_mem s) 4 256 root) →
  ∃ s' l', paging_destroy_address_space a s = Done (tt, s') ∧ pa_owns s' l'
    ∧ l' ≡ₚ tree_pages (pa_mem s) 4 256 root ++ l
    ∧ only_pages (tree_pages (pa_mem s) 4 256 root) (pa_mem s) (pa_mem s').
Proof.
  intros Ha Ho Hnd Hok. rewrite (paging_destroy_free_subtree a root Ha).
  apply (frees_table 3 (free_subtree 3)); [lia|apply frees_subtree|done|done|done].
Qed.

Definition set_pages (v : vmm_state St) (s : St) : vmm_state St :=
  mk_vmm St s (kernel_address_space v) (cpu_page_mask v) (reg_cr3 v) (tlb_log v).

Lemma on_pages_Done {A} (m : M St A) v x s :
  m (vm_pages v) = Done (x, s) → on_pages m v = Done (x, set_pages v s).
Proof. intros E. unfold on_pages, zoom. by rewrite E. Qed.

(** Copying entries from the kernel's root table [kr] to the table at [p]. *)
Lemma copy_entries_ok kr p c ix : page_ok kr → page_ok p → p ≠ kr → ∀ v l,
  pml4 (kernel_address_space v) = phys_to_virt kr → pa_owns (vm_pages v) l → p ∉ l →
  Forall (λ i, 0 ≤ i < 512) ix →
  ∃ s', for_each ix (λ i,
          k ← gets kernel_address_space;
          e ← on_pages (read64 (pml4 k + 8 * i));
          on_pages (write64 (pml4 (mk_as (phys_to_virt p) c) + 8 * i) e)) v
        = Done (tt, set_pages v s')
    ∧ pa_owns s' l ∧ only_pages [p] (pa_mem (vm_pages v)) (pa_mem s')
    ∧ ∀ j, 0 ≤ j < 512 → entry_at (pa_mem s') p j =
        if decide (j ∈ ix) then entry_at (pa_mem (vm_pages v)) kr j
        else entry_at (pa_mem (vm_pages v)) p j.
Proof.
  intros Hkr Hp Hne. induction ix as [|i ix IH]; intros v l Hk Ho Hl Hix.
  { exists (vm_pages v). split; [by destruct v|]. split; [done|]. split; [apply only_pages_refl|].
    intros j Hj. by rewrite decide_False by (by intros ?%elem_of_nil). }
  apply Forall_cons in Hix as [Hi Hix].
  set (e := entry_at (pa_mem (vm_pages v)) kr i).
  set (s1 := pa_set_mem (st64 (phys_to_virt p + 8 * i) e (pa_mem (vm_pages v))) (vm_pages v)).
  assert (0 ≤ e < 2 ^ 64) as He by apply ld64_range.
  assert (only_pages [p] (pa_mem (vm_pages v)) (pa_mem s1)) as Hm1.
  { unfold s1. rewrite pa_mem_set. apply only_pages_st64; [done|lia|unfold PAGE_SIZE; lia]. }
  destruct (IH (set_pages v s1) l) as (s' & Hrun & Ho' & Hm & Hent); try done.
  { simpl. apply (pa_owns_only _ _ _ [p]); [done|by apply Forall_singleton| |].
    - by intros ? ->%list_elem_of_singleton.
    - unfold s1 in Hm1. by rewrite pa_mem_set in Hm1. }
  exists s'. split; [|split; [done|split]].
  - simpl. unfold mbind, M_bind. unfold gets at 1. unfold on_pages at 1, read64, zoom, gets at 1. simpl.
    rewrite Hk. fold (entry_at (pa_mem (vm_pages v)) kr i). fold e. fold s1. exact Hrun.
  - by eapply only_pages_trans.
  - intros j Hj. rewrite Hent by done. simpl in *. unfold s1 at 1 2. rewrite pa_mem_set.
    rewrite (entry_at_st64_ne _ p i kr) by (auto || by left).
    destruct (decide (j = i)) as [->|Hji].
    + rewrite (decide_True (P := i ∈ i :: ix)) by apply list_elem_of_here.
      destruct (decide (i ∈ ix)); [done|]. by rewrite entry_at_st64.
    + rewrite entry_at_st64_ne by (auto || by right).
      rewrite (decide_ext (j ∈ i :: ix) (j ∈ ix)); [done|]. rewrite elem_of_cons. intuition.
Qed.

(** A table all of whose owned entries are absent is a well-formed tree. *)
Lemma pt_wf_empty own m p : page_ok p → (∀ i, own i → 0 ≤ i < 512 → entry_at m p i = 0) →
  pt_wf own m p {[ [] := p ]}.
Proof.
  intros Hp Hz. split.
  - apply lookup_singleton_eq.
  - intros π q [<- <-]%lookup_singleton_Some. split; [done|simpl; lia].
  - intros π i _. apply lookup_singleton_ne. by destruct π.
  - by intros π π' q [<- _]%lookup_singleton_Some [<- _]%lookup_singleton_Some.
  - intros π q i [<- <-]%lookup_singleton_Some _ Hi Hown. rewrite Hz by auto. simpl.
    by apply lookup_singleton_ne.
Qed.

(** Two walks that start from equal root entries agree. *)
Lemma walk_root_eq m a a' w :
  ld64 m (pml4 a' + 8 * PML4_INDEX w) = ld64 m (pml4 a + 8 * PML4_INDEX w) →
  vmm_virt_to_phys_as a' w m = vmm_virt_to_phys_as a w m.
Proof. intros E. unfold vmm_virt_to_phys_as. by rewrite E. Qed.

Lemma leaf_of_agree m m' T w : (∀ π q, T !! π = Some q → agree m m' (phys_to_virt q) PAGE_SIZE) →
  leaf_of m' T w = leaf_of m T w.
Proof.
  intros Hag. unfold leaf_of, leaf. destruct (T !! _) eqn:E; [|done].
  apply entry_at_agree; [by eapply Hag|]. by destruct (indices_range w) as (_ & _ & _ & ?).
Qed.

(** A page for the root table, cleared. *)
Lemma new_root_ok s l : pa_owns s l → l ≠ [] →
  ∃ p l' s1 s2, pmm_alloc_page s = Done (p, s1) ∧ memset_ (phys_to_virt p) 0 PAGE_SIZE s1 = Done (tt, s2)
    ∧ l ≡ₚ p :: l' ∧ page_ok p ∧ p ∉ l' ∧ pa_owns s2 l' ∧ only_pages l (pa_mem s) (pa_mem s2) ∧ page_zero (pa_mem s2) p.
Proof.
  intros Ho Hne. destruct (pa_owns_ok _ _ Ho) as [Hnd Hok].
  destruct (pa_alloc _ l Ho Hne) as (p & l' & s1 & Ha & Hl & Ho1 & Hm1 & _).
  assert (p ∈ l) as Hpl by (rewrite Hl; apply list_elem_of_here).
  assert (page_ok p) as Hp by (by rewrite Forall_forall in Hok; apply Hok).
  assert (p ∉ l') as Hpl' by (rewrite Hl in Hnd; by apply NoDup_cons in Hnd as [? _]).
  exists p, l', s1. eexists. split; [exact Ha|]. split; [exact (memset_page s1 p Hp)|]. do 3 (split; [done|]). split; [|split].
  - apply (pa_owns_only _ _ _ [p]); [done|by apply Forall_singleton| |by apply only_pages_fill].
    by intros ? ->%list_elem_of_singleton.
  - rewrite pa_mem_set. eapply only_pages_trans; [exact Hm1|].
    eapply only_pages_mono; [|by apply only_pages_fill]. by intros ? ->%list_elem_of_singleton.
  - rewrite pa_mem_set. apply fill_page_zero.
Qed.

(** The new root's entries: the kernel half of the master table, zero below. *)
Lemma paging_create_run v T l kr :
  vm_inv (λ i, 256 ≤ i) kr (vm_pages v) T l → pml4 (kernel_address_space v) = phys_to_virt kr → l ≠ [] →
  ∃ p s' l', paging_create_address_space v = Done (mk_as (phys_to_virt p) p, set_pages v s')
    ∧ l ≡ₚ p :: l' ∧ page_ok p ∧ p ∉ l' ∧ pa_owns s' l' ∧ only_pages l (vm_mem v) (pa_mem s')
    ∧ (∀ j, 0 ≤ j < 512 → entry_at (pa_mem s') p j = if decide (256 ≤ j) then entry_at (vm_mem v) kr j else 0).
Proof.
  intros [Ho Hwf Hd] Hk Hne. destruct (pa_owns_ok _ _ Ho) as [_ Hok].
  destruct (new_root_ok _ l Ho Hne) as (p & l' & s1 & s2 & Ha & Hms & Hl & Hp & Hpl' & Ho2 & Hm2 & Hz).
  pose proof (wf_root _ _ _ _ Hwf) as Hroot. assert (page_ok kr) as Hkr by (by eapply (wf_page _ _ _ _ Hwf)).
  assert (p ≠ kr) as Hpk by (intros ->; eapply Hd; [exact Hroot|]; rewrite Hl; apply list_elem_of_here).
  assert (Forall (λ i, 0 ≤ i < 512) (seqZ 256 256)) as Hseq by (apply Forall_forall; intros i Hi%elem_of_seqZ; lia).
  destruct (copy_entries_ok kr p 0 (seqZ 256 256) Hkr Hp Hpk (set_pages v s2) l' Hk Ho2 Hpl' Hseq)
    as (s' & Hrun & Ho' & Hm' & Hent). cbn [vm_pages set_pages] in Hm', Hent.
  exists p, s', l'. split; [|split; [done|split; [done|split; [done|split; [done|split]]]]].
  - unfold paging_create_address_space.
    rewrite (bind_Done _ _ _ _ _ (on_pages_Done _ _ _ _ Ha)).
    rewrite (bind_Done _ _ _ tt (set_pages v s2) (on_pages_Done _ (set_pages v s1) _ _ Hms)).
    rewrite (bind_Done _ _ _ _ _ Hrun). rewrite virt_to_phys_to_virt; [reflexivity|].
    clear Hrun. pose proof (page_ok_range p Hp). unfold PAGE_SIZE in *. lia.
  - eapply only_pages_trans; [exact Hm2|]. eapply only_pages_mono; [|exact Hm'].
    intros ? ->%list_elem_of_singleton. rewrite Hl. apply list_elem_of_here.
  - clear Hrun Ha Hms. intros j Hj. rewrite Hent by exact Hj. repeat case_decide; rewrite ?elem_of_seqZ in *; try lia.
    + apply (tree_entry_agree l); [done|done|by eapply Hd|done|done].
    + by apply (page_zero_ld64 _ p).
Qed.

(** C14: a new address space has an empty user half and the kernel's upper half:
    paging_create_address_space takes one page from the allocator, no user
    address translates in it, and a kernel-half address translates exactly as
    in the kernel's own address space, whose translations are unchanged. Its
    tables satisfy the invariant for the user half. *)
Theorem paging_create_spec v T l kr :
  vm_inv (λ i, 256 ≤ i) kr (vm_pages v) T l →
  pml4 (kernel_address_space v) = phys_to_virt kr → l ≠ [] →
  ∃ a p s' l', paging_create_address_space v = Done (a, set_pages v s')
    ∧ a = mk_as (phys_to_virt p) p ∧ l ≡ₚ p :: l'
    ∧ vm_inv (λ i, i < 256) p s' {[ [] := p ]} l'
    ∧ vm_inv (λ i, 256 ≤ i) kr s' T l'
    ∧ (∀ w, PML4_INDEX w < 256 → vmm_virt_to_phys_as a w (pa_mem s') = -1)
    ∧ (∀ w, 256 ≤ PML4_INDEX w →
        let k := kernel_address_space v in
        vmm_virt_to_phys_as a w (pa_mem s') = vmm_virt_to_phys_as k w (vm_mem v)
        ∧ vmm_virt_to_phys_as k w (pa_mem s') = vmm_virt_to_phys_as k w (vm_mem v)).
Proof.
  intros Hinv Hk Hne. destruct (paging_create_run v T l kr Hinv Hk Hne) as (p & s' & l' & Hrun & Hl & Hp & Hpl' & Ho' & Hm & Hroots).
  destruct (inv_pages _ _ _ _ _ Hinv) as [_ Hok]. destruct Hinv as [_ Hwf Hd].
  assert (∀ π q, T !! π = Some q → agree (vm_mem v) (pa_mem s') (phys_to_virt q) PAGE_SIZE) as Hag.
  { intros π q Hq. apply (only_pages_agree l); [done|by eapply (wf_page _ _ _ _ Hwf)|by eapply Hd|done]. }
  assert (vm_inv (λ i, 256 ≤ i) kr s' T l') as Hkinv.
  { split; [done|by eapply pt_wf_agree|]. intros π q Hq Hin. eapply Hd; [exact Hq|].
    rewrite Hl. by apply list_elem_of_further. }
  assert (vm_inv (λ i, i < 256) p s' {[ [] := p ]} l') as Hpinv.
  { split; [done| |by intros π q [_ <-]%lookup_singleton_Some].
    apply pt_wf_empty; [done|]. intros i Hi Hi'. rewrite Hroots, decide_False by lia. done. }
  exists (mk_as (phys_to_virt p) p), p, s', l'.
  split; [exact Hrun|]. split; [done|]. split; [done|]. split; [exact Hpinv|]. split; [exact Hkinv|]. split.
  - intros w Hw. rewrite (translate_spec (λ i, i < 256) p _ {[ [] := p ]}); [|by apply inv_wf in Hpinv|done|done].
    unfold spec_translate. rewrite decide_True; [done|]. by apply lookup_singleton_ne.
  - intros w Hw k. unfold k.
    assert (vmm_virt_to_phys_as (kernel_address_space v) w (pa_mem s')
      = vmm_virt_to_phys_as (kernel_address_space v) w (vm_mem v)) as E.
    { rewrite !(translate_spec (λ i, 256 ≤ i) kr _ T); try done; [|by apply inv_wf in Hkinv].
      unfold spec_translate. by rewrite (leaf_of_agree (vm_mem v) _ T). }
    split; [|exact E]. rewrite <- E. apply walk_root_eq. rewrite Hk. cbn [pml4].
    fold (entry_at (pa_mem s') p (PML4_INDEX w)) (entry_at (pa_mem s') kr (PML4_INDEX w)).
    assert (0 ≤ PML4_INDEX w < 512) by (by destruct (indices_range w)).
    rewrite Hroots, decide_True by auto. symmetry. apply entry_at_agree; [by eapply Hag, (wf_root _ _ _ _ Hwf)|done].
Qed.
End address_spaces.

(** ** A concrete machine: one page taken for the root table, four left *)

Module VmmWitness.
Import Pmm. Import DemoMemmap PmmWitness DemoHhdm.

Definition demo_root : Z := 0x201000.
Definition demo_free : list Z := [0x200000; 0x103000; 0x102000; 0x101000].
Definition demo_as : address_space := mk_as (phys_to_virt demo_root) demo_root.
Definition demo_vmm : vmm_state pmm_state := mk_vmm _ demo_s1 demo_as (2 ^ 46 - 1) demo_root [].

Lemma demo_alloc : Pmm.pmm_alloc_page (pmm_boot ∅) = Done (demo_root, demo_s1).
Proof. apply result_of_Done. vm_compute. reflexivity. Qed.

Lemma demo_owns : pa_owns demo_s1 demo_free ∧ page_zero (pmm_mem demo_s1) demo_root.
Proof.
  assert (pa_owns (pmm_boot ∅) all_pages) as Ho.
  { exists [], all_pages. split; [apply pmm_boot_rep|done]. }
  destruct (pa_alloc _ _ Ho) as (p & l' & s' & Ha & Hl & (free & rest & Hrep & Hl') & _ & Hz).
  { by rewrite demo_pages. }
  pose proof demo_alloc as Hd. revert Hd. generalize demo_s1. intros s1 Hd.
  destruct (Done_fun _ _ _ _ _ _ Ha Hd) as [-> ->].
  split; [|exact Hz]. exists free, rest. split; [done|]. rewrite <- Hl'.
  rewrite demo_pages in Hl. apply (Permutation_cons_inv (a := demo_root)). rewrite <- Hl.
  by apply (bool_decide_unpack _); vm_compute.
Qed.

Lemma demo_inv own : vm_inv own demo_root demo_s1 {[ [] := demo_root ]} demo_free.
Proof.
  destruct demo_owns as [Ho Hz]. split; [exact Ho| |].
  - apply pt_wf_empty; [by vm_compute|]. intros i _ Hi. by apply (page_zero_ld64 _ demo_root).
  - intros π q [_ <-]%lookup_singleton_Some. by apply (bool_decide_unpack _); vm_compute.
Qed.

(** The page 0x8000000000 onto the frame 0x7654000, user-writable. *)
Lemma vmm_map_refines_witness :
  ∃ s' T' l',
    vmm_map demo_as 0x8000000000 0x7654000 (Z.lor PAGE_WRITABLE PAGE_USER) demo_vmm
      = Done (tt, with_pages demo_vmm s' [Invlpg 0x8000000000])
    ∧ vm_inv (λ _, True) demo_root s' T' l'
    ∧ vmm_virt_to_phys_as demo_as 0x8000000123 (pa_mem s') = 0x7654123
    ∧ mmu (pa_mem s') demo_root 0x8000000123 = Some (mk_access 0x7654123 true true true).
Proof.
  destruct (vmm_map_refines (λ _, True) demo_root demo_vmm {[ [] := demo_root ]} demo_free demo_as
    0x8000000000 0x7654000 (Z.lor PAGE_WRITABLE PAGE_USER) 46
    (demo_inv _) eq_refl I ltac:(lia) eq_refl ltac:(lia) eq_refl ltac:(done) eq_refl
    ltac:(simpl; lia))
    as (s' & T' & l' & Hm & Hinv & _ & _ & Hlk & _ & _ & Hmmu & _).
  exists s', T', l'. split; [exact Hm|]. split; [exact Hinv|]. split; [apply (Hlk 0x8000000123); reflexivity|].
  rewrite (Hmmu 0x8000000123 eq_refl). vm_compute. reflexivity.
Defined.

Lemma demo_inv' : vm_inv (λ i, 256 ≤ i) demo_root (vm_pages demo_vmm) {[ [] := demo_root ]} demo_free.
Proof. apply demo_inv. Qed.

(** A chain of empty tables below the root, for unmapping. *)
Lemma vmm_unmap_refines_witness :
  ∃ v T l pt s', vmm_unmap demo_as 0x8000000000 v = Done (tt, with_pages v s' [Invlpg 0x8000000000])
    ∧ vm_inv (λ _, True) demo_root (vm_pages v) T l
    ∧ T !! [1; 0; 0] = Some pt
    ∧ vmm_virt_to_phys_as demo_as 0x8000000123 (pa_mem s') = -4.
Proof.
  destruct (vmm_map_ok (λ _, True) demo_root demo_vmm {[ [] := demo_root ]} demo_free demo_as
    0x8000000000 0x7654000 7 (demo_inv _) eq_refl I ltac:(simpl; lia) ltac:(simpl; lia)
    ltac:(lia) ltac:(simpl; lia)) as (s1 & T & l & _ & Hinv & _ & _ & [pt Hpt] & _).
  destruct (vmm_unmap_refines (λ _, True) demo_root (with_pages demo_vmm s1 []) T l demo_as
    0x8000000000 pt Hinv eq_refl I Hpt) as (s' & Hu & _ & Hlk & _).
  exists (with_pages demo_vmm s1 []), T, l, pt, s'. split; [exact Hu|]. split; [exact Hinv|].
  split; [exact Hpt|]. apply (Hlk 0x8000000123). reflexivity.
Defined.

Lemma paging_create_spec_witness :
  ∃ a p s', paging_create_address_space demo_vmm = Done (a, set_pages demo_vmm s')
    ∧ a = mk_as (phys_to_virt p) p ∧ vmm_virt_to_phys_as a 0x400000 (pa_mem s') = -1.
Proof.
  destruct (paging_create_spec demo_vmm {[ [] := demo_root ]} demo_free demo_root demo_inv'
    eq_refl ltac:(discriminate)) as (a & p & s' & l' & Hc & Ha & _ & _ & _ & Hu & _).
  exists a, p, s'. split; [exact Hc|]. split; [exact Ha|]. apply (Hu 0x400000). reflexivity.
Defined.

(** Destroying an address space without user pages frees its root only. *)
Lemma demo_tree : tree_pages (pa_mem demo_s1) 4 256 demo_root = [demo_root].
Proof.
  apply tree_pages_zero; [lia|]. by destruct demo_owns as [_ Hz].
Qed.

Lemma paging_destroy_frees_witness :
  ∃ s' l', paging_destroy_address_space demo_as demo_s1 = Done (tt, s') ∧ pa_owns s' l'
    ∧ l' ≡ₚ demo_root :: demo_free.
Proof.
  destruct demo_owns as [Ho _].
  destruct (paging_destroy_frees demo_s1 demo_free demo_as demo_root eq_refl Ho)
    as (s' & l' & Hd & Ho' & Hl & _).
  - rewrite demo_tree. by apply (bool_decide_unpack _); vm_compute.
  - rewrite demo_tree. apply Forall_singleton. by vm_compute.
  - exists s', l'. split; [exact Hd|]. split; [exact Ho'|]. rewrite demo_tree in Hl. exact Hl.
Defined.
End VmmWitness.
