(* ===== verification/Heap.v ===== *)
(** * The kernel heap: src/memory/heap.c (built without KMALLOC_CANARY)

    Blocks of whole pages at growing virtual addresses from HEAP_START, each
    followed by an unmapped guard page and headed by a [block_t] of 32 bytes
    (magic, size, free, next) that links it, newest first, from [head]. The
    headers live in the byte memory; [heap_inv] relates them to a list of blocks,
    and the operations refine first-fit on that list. The last part states what
    the heap promises to the code that stores objects in it ([ObjectHeap]). *)
From S2P Require Import Prelude CMem Phys Vmm.
From S2P Require Pmm.

Definition BLOCK_MAGIC : Z := 0x52454444594F5348.
Definition sizeof_block : Z := 32.
Definition SIZE_MAX : Z := 2 ^ 64 - 1.

(** block_t: the fields of the header at [b] *)
Definition blk_magic (m : mem) (b : Z) : Z := ld64 m b.
Definition blk_size (m : mem) (b : Z) : Z := ld64 m (b + 8).
Definition blk_free (m : mem) (b : Z) : Z := ld32 m (b + 16).
Definition blk_next (m : mem) (b : Z) : Z := ld64 m (b + 24).

Definition block_is_valid (m : mem) (block : Z) : bool :=
  if block =? 0 then false
  else if negb (Z.land block (PAGE_SIZE - 1) =? 0) then false
  else blk_magic m block =? BLOCK_MAGIC.

(** The first loop of kmalloc: the free block it takes, if it finds one. *)
Fixpoint find_block (fuel : nat) (m : mem) (size cur : Z) : outcome (option Z) :=
  if cur =? 0 then Done None
  else match fuel with
  | O => OutOfFuel
  | S k =>
      if negb (block_is_valid m cur) then Done None
      else if negb (blk_free m cur =? 0) && (size <=? blk_size m cur) then Done (Some cur)
      else
        let next := blk_next m cur in
        if negb (block_is_valid m next) && negb (next =? 0) then Done None
        else find_block k m size next
  end.

Record heap_state {St : Type} := mk_heap {
  heap_vm : vmm_state St;
  head : Z;
  heap_cursor : Z;
}.
Arguments heap_state : clear implicits.

(** The rounding of kmalloc's argument to 16 bytes. *)
Definition round16 (size : Z) : Z := Z.land (u64 (size + 15)) (u64 (Z.lnot 15)).

Section heap.
Context `{PageAllocator St}.

Definition on_vm {A} : M (vmm_state St) A → M (heap_state St) A :=
  zoom heap_vm (λ v h, mk_heap St v (head h) (heap_cursor h)).
Definition heap_mem (h : heap_state St) : mem := pa_mem (vm_pages (heap_vm h)).
Definition set_heap_mem (m : mem) (h : heap_state St) : heap_state St :=
  mk_heap St (set_pages (heap_vm h) (pa_set_mem m (vm_pages (heap_vm h)))) (head h) (heap_cursor h).
Definition store64 (a v : Z) : M (heap_state St) unit :=
  modify (λ h, set_heap_mem (st64 a v (heap_mem h)) h).
Definition store32 (a v : Z) : M (heap_state St) unit :=
  modify (λ h, set_heap_mem (st32 a v (heap_mem h)) h).
Definition advance_cursor : M (heap_state St) unit :=
  modify (λ h, mk_heap St (heap_vm h) (head h) (u64 (heap_cursor h + PAGE_SIZE))).
Definition set_head (b : Z) : M (heap_state St) unit :=
  modify (λ h, mk_heap St (heap_vm h) b (heap_cursor h)).

(** The loop of request_pages; false is its early return of NULL. *)
Fixpoint request_loop (n : nat) : M (heap_state St) bool :=
  match n with
  | O => mret true
  | S k =>
      phys ← on_vm (on_pages pmm_alloc_page);
      if phys =? 0 then mret false
      else
        c ← gets heap_cursor;
        _ ← on_vm (map_page c phys (Z.lor PAGE_WRITABLE PAGE_NX));
        _ ← advance_cursor;
        request_loop k
  end.

Definition request_pages (pages : Z) : M (heap_state St) Z :=
  base ← gets heap_cursor;
  ok ← request_loop (Z.to_nat pages);
  if negb ok then mret 0
  else
    _ ← advance_cursor;
    mret base.

(** As many steps as the heap has pages: a block has at least one. *)
Definition walk_fuel (h : heap_state St) : nat :=
  Z.to_nat ((heap_cursor h - HEAP_START) / PAGE_SIZE).

Definition walk_heap (size : Z) : M (heap_state St) (option Z) := λ h,
  found ← find_block (walk_fuel h) (heap_mem h) size (head h); Done (found, h).

Definition kmalloc (size : Z) : M (heap_state St) Z :=
  let size := round16 size in
  found ← walk_heap size;
  match found with
  | Some cur =>
      _ ← store32 (cur + 16) 0;
      mret (u64 (cur + sizeof_block))
  | None =>
      let total := u64 (sizeof_block + size) in
      let pages := u64 (total + PAGE_SIZE - 1) / PAGE_SIZE in
      block ← request_pages pages;
      if block =? 0 then mret 0
      else
        _ ← store64 block BLOCK_MAGIC;
        _ ← store64 (block + 8) (u64 (pages * PAGE_SIZE - sizeof_block));
        _ ← store32 (block + 16) 0;
        h ← gets head;
        _ ← store64 (block + 24) h;
        _ ← set_head block;
        mret (u64 (block + sizeof_block))
  end.

Definition kfree (ptr : Z) : M (heap_state St) unit :=
  if ptr =? 0 then mret tt
  else
    let block := u64 (ptr - sizeof_block) in
    valid ← gets (λ h, block_is_valid (heap_mem h) block);
    if negb valid then mret tt
    else store32 (block + 16) 1.

Definition heap_memset (s c n : Z) : M (heap_state St) unit := λ h,
  m ← CMem.memset s c n (heap_mem h); Done (tt, set_heap_mem m h).

Definition kcalloc (count size : Z) : M (heap_state St) Z :=
  if negb (size =? 0) && (SIZE_MAX / size <? count) then mret 0
  else
    let total := u64 (count * size) in
    ptr ← kmalloc total;
    if ptr =? 0 then mret 0
    else
      _ ← heap_memset ptr 0 total;
      mret ptr.
End heap.

(** ** Specification: first fit on a list of blocks, newest first *)

Record blk := mk_blk { b_addr : Z; b_size : Z; b_free : bool }.

Definition b_ptr (b : blk) : Z := b_addr b + sizeof_block.
Definition b_end (b : blk) : Z := b_addr b + sizeof_block + b_size b.

Fixpoint first_fit (n : Z) (bs : list blk) : option Z :=
  match bs with
  | [] => None
  | b :: bs' => if b_free b && (n <=? b_size b) then Some (b_addr b) else first_fit n bs'
  end.

Definition set_free (a : Z) (free : bool) (bs : list blk) : list blk :=
  (λ b, if b_addr b =? a then mk_blk (b_addr b) (b_size b) free else b) <$> bs.

Definition pages_for (n : Z) : Z := (sizeof_block + n + PAGE_SIZE - 1) / PAGE_SIZE.

(** The pointer returned, the new list and the new cursor. *)
Definition spec_kmalloc (n cursor : Z) (bs : list blk) : Z * (list blk * Z) :=
  let n := (n + 15) / 16 * 16 in
  match first_fit n bs with
  | Some a => (a + sizeof_block, (set_free a false bs, cursor))
  | None =>
      let b := mk_blk cursor (pages_for n * PAGE_SIZE - sizeof_block) false in
      (b_ptr b, (b :: bs, b_end b + PAGE_SIZE))
  end.

(** Blocks lie in whole pages below [top], newest highest, guard pages between. *)
Fixpoint layout (top : Z) (bs : list blk) : Prop :=
  match bs with
  | [] => HEAP_START ≤ top
  | b :: bs' =>
      b_addr b mod PAGE_SIZE = 0 ∧ b_end b mod PAGE_SIZE = 0 ∧ 0 ≤ b_size b
      ∧ b_end b + PAGE_SIZE ≤ top ∧ layout (b_addr b) bs'
  end.

(** [p] points to the headers of [bs], linked in order. *)
Fixpoint blist (m : mem) (p : Z) (bs : list blk) : Prop :=
  match bs with
  | [] => p = 0
  | b :: bs' =>
      p = b_addr b ∧ blk_magic m p = BLOCK_MAGIC ∧ blk_size m p = b_size b
      ∧ blk_free m p = (if b_free b then 1 else 0) ∧ blist m (blk_next m p) bs'
  end.

(** The kernel image starts here: the heap must stay below. *)
Definition HEAP_LIMIT : Z := 0xFFFFFFFF80000000.

Section heap_spec.
Context `{PageAllocator St}.

Definition kernel_half (i : Z) : Prop := 256 ≤ i.

Definition mapped (h : heap_state St) (v : Z) : Prop :=
  0 ≤ vmm_virt_to_phys_as (kernel_address_space (heap_vm h)) v (heap_mem h).

Record heap_inv (root : Z) (h : heap_state St) T l (bs : list blk) : Prop := {
  hi_vm : vm_inv kernel_half root (vm_pages (heap_vm h)) T l;
  hi_root : pml4 (kernel_address_space (heap_vm h)) = phys_to_virt root;
  hi_mask : ∃ bits, 0 ≤ bits ≤ 52 ∧ cpu_page_mask (heap_vm h) = 2 ^ bits - 1 ∧ hhdm_max ≤ 2 ^ bits;
  hi_list : blist (heap_mem h) (head h) bs;
  hi_layout : layout (heap_cursor h) bs;
  hi_cursor : heap_cursor h mod PAGE_SIZE = 0 ∧ heap_cursor h ≤ HEAP_LIMIT;
  hi_mapped : ∀ b v, b ∈ bs → b_addr b ≤ v < b_end b → mapped h v;
}.
End heap_spec.

(** ** Lemmas on lists of blocks *)

Lemma layout_top top bs : layout top bs → HEAP_START ≤ top.
Proof.
  revert top. induction bs as [|b bs IH]; intros top; simpl; [done|].
  intros (_ & _ & Hs & Ht & Hl%IH). unfold b_end, sizeof_block, PAGE_SIZE in *. lia.
Qed.

Lemma layout_block top bs b : layout top bs → b ∈ bs →
  HEAP_START ≤ b_addr b ∧ b_end b + PAGE_SIZE ≤ top ∧ b_addr b mod PAGE_SIZE = 0
  ∧ b_end b mod PAGE_SIZE = 0 ∧ 0 ≤ b_size b.
Proof.
  revert top. induction bs as [|c bs IH]; intros top; simpl; [by intros _ ?%elem_of_nil|].
  intros (Ha & He & Hs & Ht & Hl) [->|Hb]%elem_of_cons.
  - apply layout_top in Hl. done.
  - destruct (IH _ Hl Hb) as (?&?&?&?&?). unfold b_end, sizeof_block, PAGE_SIZE in *. lia.
Qed.

(** Two blocks are the same or a guard page apart. *)
Lemma layout_apart top bs b c : layout top bs → b ∈ bs → c ∈ bs →
  b = c ∨ b_end b + PAGE_SIZE ≤ b_addr c ∨ b_end c + PAGE_SIZE ≤ b_addr b.
Proof.
  revert top. induction bs as [|d bs IH]; intros top; simpl; [by intros _ ?%elem_of_nil|].
  intros (_ & _ & _ & _ & Hl) [->|Hb]%elem_of_cons [->|Hc]%elem_of_cons; [by left| | |by eapply IH].
  - right; right. by destruct (layout_block _ _ _ Hl Hc) as (_ & ? & _).
  - right; left. by destruct (layout_block _ _ _ Hl Hb) as (_ & ? & _).
Qed.

Lemma layout_addr top bs b c : layout top bs → b ∈ bs → c ∈ bs → b_addr b = b_addr c → b = c.
Proof.
  intros Hl Hb Hc E. destruct (layout_apart _ _ _ _ Hl Hb Hc) as [?|[?|?]]; [done| |];
    pose proof (layout_block _ _ _ Hl Hb); pose proof (layout_block _ _ _ Hl Hc);
    unfold b_end, sizeof_block, PAGE_SIZE in *; lia.
Qed.

Lemma layout_length top bs : layout top bs → Z.of_nat (length bs) * PAGE_SIZE ≤ top - HEAP_START.
Proof.
  revert top. induction bs as [|b bs IH]; intros top; simpl length; [simpl; lia|].
  intros (_ & _ & Hs & Ht & Hl%IH). unfold b_end, sizeof_block, PAGE_SIZE in *. lia.
Qed.

Lemma page_aligned_land p : p mod PAGE_SIZE = 0 → Z.land p (PAGE_SIZE - 1) = 0.
Proof. intros. change (PAGE_SIZE - 1) with (Z.ones 12). by rewrite Z.land_ones by lia. Qed.

Lemma heap_start_pos : 0 < HEAP_START.
Proof. done. Qed.

Lemma block_valid m p b bs top : blist m p (b :: bs) → layout top (b :: bs) → block_is_valid m p = true.
Proof.
  intros (-> & Hm & _) Hl. destruct (layout_block _ _ b Hl) as (Ha & _ & Hal & _);
    [apply list_elem_of_here|]. pose proof heap_start_pos.
  unfold block_is_valid. destruct (Z.eqb_spec (b_addr b) 0); [lia|].
  rewrite page_aligned_land by done. simpl. by apply Z.eqb_eq.
Qed.

Lemma blist_valid m p top bs b : blist m p bs → layout top bs → b ∈ bs →
  block_is_valid m (b_addr b) = true.
Proof.
  revert p top. induction bs as [|c bs IH]; intros p top Hb Hl; [by intros ?%elem_of_nil|].
  pose proof (block_valid _ _ _ _ _ Hb Hl) as Hv. destruct Hb as (-> & _ & _ & _ & Hb).
  destruct Hl as (_ & _ & _ & _ & Hl). intros [->|Hin]%elem_of_cons; [done|by eapply IH].
Qed.

(** The walk is first fit, and as much fuel as blocks is enough. *)
Lemma find_block_first_fit fuel m n p top bs :
  blist m p bs → layout top bs → (length bs ≤ fuel)%nat →
  find_block fuel m n p = Done (first_fit n bs).
Proof.
  revert p top bs. induction fuel as [|k IH]; intros p top bs Hb Hl Hlen.
  - destruct bs; [|simpl in Hlen; lia]. simpl in Hb. by subst.
  - destruct bs as [|b bs]; [simpl in Hb; by subst|].
    pose proof (block_valid _ _ _ _ _ Hb Hl) as Hv. destruct Hb as (-> & Hm & Hs & Hf & Hn).
    simpl. rewrite Hv. simpl.
    destruct (Z.eqb_spec (b_addr b) 0) as [E|_]; [by unfold block_is_valid in Hv; rewrite E in Hv|].
    rewrite Hf, Hs. destruct Hl as (_ & _ & _ & _ & Hl).
    replace (negb (_ =? 0)) with (b_free b) by (by destruct (b_free b)).
    destruct (b_free b && (n <=? b_size b)); [done|].
    destruct bs as [|c bs].
    + simpl in Hn. rewrite Hn. simpl. apply (IH 0 (b_addr b) []); [done|done|simpl; lia].
    + rewrite (block_valid _ _ _ _ _ Hn Hl). simpl. apply (IH _ (b_addr b) (c :: bs)); [done|done|].
      simpl in Hlen |- *. lia.
Qed.

Lemma first_fit_Some n bs a : first_fit n bs = Some a →
  ∃ b, b ∈ bs ∧ b_addr b = a ∧ b_free b = true ∧ n ≤ b_size b.
Proof.
  induction bs as [|b bs IH]; simpl; [done|].
  destruct (b_free b) eqn:Hf; simpl; [destruct (Z.leb_spec n (b_size b))|];
    [|intros (c & Hc & ?)%IH; exists c; split; [by apply list_elem_of_further|done]..].
  intros [= <-]. exists b. split; [apply list_elem_of_here|done].
Qed.

(** Headers that no write touched stay linked. *)
Lemma blist_ext m m' p bs :
  (∀ b, b ∈ bs → agree m m' (b_addr b) sizeof_block) → blist m p bs → blist m' p bs.
Proof.
  revert p. induction bs as [|b bs IH]; intros p Hag; simpl; [done|].
  intros (-> & Hm & Hs & Hf & Hn).
  assert (agree m m' (b_addr b) sizeof_block) as Ha by (apply Hag, list_elem_of_here).
  unfold sizeof_block, agree, blk_magic, blk_size, blk_free, blk_next in *.
  rewrite !(ldn_ext _ m m') by (intros; apply Ha; lia).
  split; [done|]. split; [done|]. split; [done|]. split; [done|].
  apply IH; [|done]. intros c Hc. apply Hag. by apply list_elem_of_further.
Qed.

(** ** Requesting pages *)

Section request.
Context `{PAL : PageAllocatorLaws St}.
Variable root : Z.

Record vm_ok (h : heap_state St) T l : Prop := {
  vo_vm : vm_inv kernel_half root (vm_pages (heap_vm h)) T l;
  vo_root : pml4 (kernel_address_space (heap_vm h)) = phys_to_virt root;
  vo_mask : ∃ bits, 0 ≤ bits ≤ 52 ∧ cpu_page_mask (heap_vm h) = 2 ^ bits - 1 ∧ hhdm_max ≤ 2 ^ bits;
}.

Lemma heap_vm_ok h T l bs : heap_inv root h T l bs → vm_ok h T l.
Proof. by intros []. Qed.

(** What the heap's own memory and mappings keep. *)
Definition keeps_heap (h h' : heap_state St) : Prop :=
  (∀ b, HEAP_START ≤ b → ldb (heap_mem h') b = ldb (heap_mem h) b)
  ∧ (∀ v, HEAP_START ≤ v < 2 ^ 64 → mapped h v → mapped h' v)
  ∧ head h' = head h.

Lemma keeps_heap_trans h1 h2 h3 : keeps_heap h1 h2 → keeps_heap h2 h3 → keeps_heap h1 h3.
Proof.
  intros (Hm & Hp & Hh) (Hm' & Hp' & Hh'). split; [|split].
  - intros b Hb. rewrite Hm' by done. by apply Hm.
  - intros v Hv Hm1. apply Hp'; [exact Hv|]. by apply Hp.
  - by rewrite Hh'.
Qed.

Lemma heap_kernel_half v : HEAP_START ≤ v < 2 ^ 64 → kernel_half (PML4_INDEX v).
Proof.
  intros Hv. unfold kernel_half, PML4_INDEX. rewrite index_mod by lia.
  unfold HEAP_START in *. pow2. change (2 ^ 39) with 549755813888. zdiv.
Qed.

(** The heap has fewer pages than page numbers have values. *)
Lemma heap_vpn_ne v c : HEAP_START ≤ v < 2 ^ 64 → HEAP_START ≤ c < 2 ^ 64 - PAGE_SIZE → c mod PAGE_SIZE = 0 →
  v < c ∨ c + PAGE_SIZE ≤ v → vpn v ≠ vpn c.
Proof.
  intros Hv Hc Hal Hne. unfold vpn, HEAP_START, PAGE_SIZE in *. pow2. change (2 ^ 36) with 68719476736.
  assert (v / 4096 ≠ c / 4096) by zdiv.
  assert (4503582447501312 ≤ v / 4096 < 4503599627370496) by zdiv.
  assert (4503582447501312 ≤ c / 4096 < 4503599627370496) by zdiv.
  generalize dependent (v / 4096). generalize dependent (c / 4096). intros a Ha b Hab Hb. zdiv.
Qed.

Definition heap_with (h : heap_state St) (v : vmm_state St) : heap_state St :=
  mk_heap St v (head h) (heap_cursor h).

Lemma on_vm_Done {A} (m : M (vmm_state St) A) h x v :
  m (heap_vm h) = Done (x, v) → on_vm m h = Done (x, heap_with h v).
Proof. intros E. unfold on_vm, zoom. by rewrite E. Qed.

(** One page of request_pages: a frame, mapped at the cursor. *)
Lemma request_page_ok h T l : vm_ok h T l → (4 ≤ length l)%nat →
  HEAP_START ≤ heap_cursor h < 2 ^ 64 - PAGE_SIZE → heap_cursor h mod PAGE_SIZE = 0 →
  ∃ phys h1 h2 T' l',
    on_vm (on_pages pmm_alloc_page) h = Done (phys, h1) ∧ phys ≠ 0 ∧ heap_cursor h1 = heap_cursor h
    ∧ on_vm (map_page (heap_cursor h) phys (Z.lor PAGE_WRITABLE PAGE_NX)) h1 = Done (tt, h2)
    ∧ heap_cursor h2 = heap_cursor h ∧ vm_ok h2 T' l' ∧ (length l ≤ 4 + length l')%nat
    ∧ keeps_heap h h2
    ∧ (∀ v, heap_cursor h ≤ v < heap_cursor h + PAGE_SIZE → mapped h2 v)
    ∧ (∀ v, HEAP_START ≤ v < 2 ^ 64 → v < heap_cursor h ∨ heap_cursor h + PAGE_SIZE ≤ v → mapped h2 v → mapped h v).
Proof.
  intros [Hvm Hroot (bits & Hbits & Hmask & Hmax)] Hlen Hc Hal.
  destruct (vm_inv_alloc kernel_half root _ T l Hvm) as (p & l1 & s1 & Ha & Hl & Hp & Hvm1 & Hm1 & _ & Hag).
  { intros ->. simpl in Hlen. lia. }
  assert (length l = S (length l1)) as Hll by (by rewrite Hl).
  pose proof (page_ok_range p Hp) as (Hp0 & _).
  assert (p + PAGE_SIZE ≤ hhdm_max) as Hpmax by (by destruct Hp as (_ & _ & ?)).
  set (v1 := set_pages (heap_vm h) s1).
  destruct (vmm_map_translate kernel_half root v1 T l1 (kernel_address_space (heap_vm h))
    (heap_cursor h) p (Z.lor PAGE_WRITABLE PAGE_NX) bits)
    as (s2 & T' & l' & Hmap & Hvm2 & _ & Hlen' & Htr & Hsame & Hout);
    [exact Hvm1|exact Hroot|apply heap_kernel_half; unfold PAGE_SIZE in *; lia|lia|exact Hmask
    |unfold PAGE_SIZE in *; lia|by destruct Hp|by vm_compute|by vm_compute|lia|].
  exists p, (heap_with h v1), (heap_with h (with_pages v1 s2 [Invlpg (heap_cursor h)])), T', l'.
  split; [by apply on_vm_Done, on_pages_Done|]. split; [lia|]. split; [done|].
  split; [by apply (on_vm_Done _ (heap_with h v1))|]. split; [done|].
  split; [by split; eauto|]. split; [lia|].
  assert (∀ v, vpn v ≠ vpn (heap_cursor h) → kernel_half (PML4_INDEX v) →
    (mapped h v ↔ 0 ≤ vmm_virt_to_phys_as (kernel_address_space (heap_vm h)) v (pa_mem s2))) as Hkeep.
  { intros v Hne Hk. destruct (Hsame v Hk Hne) as [Hs Hs']. cbv zeta in Hs, Hs'.
    assert (vmm_virt_to_phys_as (kernel_address_space (heap_vm h)) v (pa_mem s1)
      = vmm_virt_to_phys_as (kernel_address_space (heap_vm h)) v (heap_mem h)) as E.
    { clear Ha Hmap. rewrite !(translate_spec kernel_half root _ T); try done;
        [|by destruct Hvm|by destruct Hvm1].
      unfold spec_translate. by rewrite (leaf_of_agree (heap_mem h) _ T). }
    unfold mapped. rewrite <- E. unfold vm_mem in Hs, Hs'. simpl in Hs, Hs'. split; [intros Hmv; by rewrite Hs|lia]. }
  assert (∀ v, vpn v = vpn (heap_cursor h) →
    0 ≤ vmm_virt_to_phys_as (kernel_address_space (heap_vm h)) v (pa_mem s2)) as Hnew.
  { intros v Hv. rewrite Htr by done. pose proof (Z.mod_pos_bound v PAGE_SIZE). unfold PAGE_SIZE in *. lia. }
  assert (∀ v, HEAP_START ≤ v < 2 ^ 64 → v < heap_cursor h ∨ heap_cursor h + PAGE_SIZE ≤ v → vpn v ≠ vpn (heap_cursor h)) as Hother.
  { intros v Hv Hne. by apply heap_vpn_ne. }
  split; [split; [|split; [|done]]|split].
  - intros b Hb. unfold heap_mem. simpl. rewrite Hout by (by eapply outside_tables_heap).
    unfold vm_mem. simpl. apply Hm1, outside_heap; [|done]. by eapply inv_pages.
  - intros v Hv Hmv. unfold mapped, heap_mem. simpl.
    destruct (decide (vpn v = vpn (heap_cursor h))); [by apply Hnew|].
    apply Hkeep; [done|by apply heap_kernel_half|done].
  - intros v Hv. unfold mapped, heap_mem. simpl. apply Hnew. unfold vpn, PAGE_SIZE in *. f_equal. zdiv.
  - intros v Hv Hne Hmv. unfold mapped, heap_mem in Hmv. simpl in Hmv.
    apply Hkeep; [by apply Hother|by apply heap_kernel_half|exact Hmv].
Qed.

Lemma request_loop_ok n h T l : vm_ok h T l → (4 * n ≤ length l)%nat →
  HEAP_START ≤ heap_cursor h → heap_cursor h mod PAGE_SIZE = 0 →
  heap_cursor h + Z.of_nat n * PAGE_SIZE < 2 ^ 64 →
  ∃ h' T' l', request_loop n h = Done (true, h') ∧ vm_ok h' T' l' ∧ (length l ≤ 4 * n + length l')%nat
    ∧ heap_cursor h' = heap_cursor h + Z.of_nat n * PAGE_SIZE ∧ keeps_heap h h'
    ∧ (∀ v, heap_cursor h ≤ v < heap_cursor h + Z.of_nat n * PAGE_SIZE → mapped h' v)
    ∧ (∀ v, HEAP_START ≤ v < 2 ^ 64 → v < heap_cursor h ∨ heap_cursor h + Z.of_nat n * PAGE_SIZE ≤ v → mapped h' v → mapped h v).
Proof.
  revert h T l. induction n as [|n IH]; intros h T l Hok Hlen Hc Hal Hlim.
  { exists h, T, l. split; [done|]. split; [done|]. split; [lia|]. split; [lia|].
    split; [by split|]. split; [intros v Hv; lia|done]. }
  destruct (request_page_ok h T l Hok) as (p & h1 & h2 & T1 & l1 & Ha & Hp & Hc1 & Hm & Hc2 & Hok2 & Hl1 & Hk2 & Hmap2 & Honly2);
    [lia|unfold PAGE_SIZE in *; lia|done|].
  set (h3 := mk_heap St (heap_vm h2) (head h2) (u64 (heap_cursor h2 + PAGE_SIZE))).
  assert (heap_cursor h3 = heap_cursor h + PAGE_SIZE) as Hc3.
  { simpl. rewrite Hc2. apply u64_small. unfold HEAP_START, PAGE_SIZE in *. lia. }
  assert (keeps_heap h2 h3) as Hk3 by (by split).
  destruct (IH h3 T1 l1) as (h' & T' & l' & Hr & Hok' & Hl' & Hc' & Hk' & Hmap' & Honly');
    [by destruct Hok2; split|lia|unfold PAGE_SIZE in *; lia| |unfold PAGE_SIZE in *; lia|].
  { rewrite Hc3. unfold PAGE_SIZE in *. zdiv. }
  exists h', T', l'. split; [|split; [done|split; [lia|split; [unfold PAGE_SIZE in *; lia|split; [|split]]]]].
  - simpl. rewrite (bind_Done _ _ _ _ _ Ha). destruct (Z.eqb_spec p 0); [done|].
    unfold mbind at 1, M_bind at 1, gets. rewrite Hc1. rewrite (bind_Done _ _ _ _ _ Hm).
    rewrite (bind_Done _ _ _ tt h3) by done. exact Hr.
  - eapply keeps_heap_trans; [exact Hk2|]. by eapply keeps_heap_trans.
  - intros v Hv. destruct (decide (v < heap_cursor h + PAGE_SIZE)).
    + apply Hk'; [unfold PAGE_SIZE in *; lia|]. apply Hmap2. lia.
    + apply Hmap'. unfold PAGE_SIZE in *. lia.
  - intros v Hv Hne Hmv. apply Honly2; [done|unfold PAGE_SIZE in *; lia|].
    apply Honly'; [done|unfold PAGE_SIZE in *; lia|exact Hmv].
Qed.
End request.

(** ** Writing headers *)

Lemma round16_spec n : 0 ≤ n < 2 ^ 64 - 16 → round16 n = (n + 15) / 16 * 16.
Proof.
  intros Hn. unfold round16. rewrite (u64_small (n + 15)) by lia.
  change (Z.lnot 15) with (Z.lnot (2 ^ 4 - 1)). rewrite land_clear_low by lia.
  change (2 ^ 4) with 16. zdiv.
Qed.

(** Sizes within 16 bytes of the top wrap around to an empty request. *)
Lemma round16_wrap n : 2 ^ 64 - 15 ≤ n < 2 ^ 64 → round16 n = 0.
Proof.
  intros Hn. unfold round16. replace (u64 (n + 15)) with (n + 15 - 2 ^ 64).
  - change (Z.lnot 15) with (Z.lnot (2 ^ 4 - 1)). rewrite land_clear_low by lia.
    change (2 ^ 4) with 16. pow2. zdiv.
  - unfold u64. pow2. zdiv.
Qed.

Lemma blist_set_free m p bs a (free : bool) :
  a mod PAGE_SIZE = 0 → Forall (λ b, b_addr b mod PAGE_SIZE = 0) bs →
  blist m p bs → blist (st32 (a + 16) (if free then 1 else 0) m) p (set_free a free bs).
Proof.
  intros Ha. revert p. induction bs as [|b bs IH]; intros p Hal; [done|].
  apply Forall_cons in Hal as [Hb Hal]. simpl. intros (-> & Hm & Hs & Hf & Hn).
  unfold blk_magic, blk_size, blk_free, blk_next in *.
  destruct (Z.eqb_spec (b_addr b) a) as [<-|Hne]; simpl.
  - rewrite ldn_stn_eq. rewrite !ldn_stn_ne by lia. unfold blk_magic, blk_size, blk_free, blk_next.
    split; [done|]. split; [done|]. split; [done|]. split; [by destruct free|]. by apply IH.
  - assert (b_addr b + 4096 ≤ a ∨ a + 4096 ≤ b_addr b) as Hap by (unfold PAGE_SIZE in *; zdiv).
    rewrite !ldn_stn_ne by lia.
    split; [done|]. split; [done|]. split; [done|]. split; [done|]. by apply IH.
Qed.

Lemma set_free_elem a free bs b : b ∈ set_free a free bs →
  ∃ c, c ∈ bs ∧ b_addr b = b_addr c ∧ b_size b = b_size c
    ∧ b_free b = (if b_addr c =? a then free else b_free c).
Proof.
  intros (c & -> & Hc)%list_elem_of_fmap. exists c. by destruct (b_addr c =? a).
Qed.

Lemma layout_set_free a free top bs : layout top bs → layout top (set_free a free bs).
Proof.
  revert top. induction bs as [|b bs IH]; intros top; simpl; [done|].
  intros (Ha & He & Hs & Ht & Hl). specialize (IH _ Hl). destruct (b_addr b =? a); split_and!; assumption.
Qed.

Lemma layout_aligned top bs : layout top bs → Forall (λ b, b_addr b mod PAGE_SIZE = 0) bs.
Proof.
  intros Hl. apply Forall_forall. intros b Hb. by destruct (layout_block _ _ _ Hl Hb) as (_ & _ & ? & _).
Qed.

Section heap_ops.
Context `{PAL : PageAllocatorLaws St}.
Variable root : Z.

(** Memory below the heap does not move, so tables and mappings stay. *)
Lemma vm_ok_write h T l m : vm_ok root h T l →
  (∀ b, b < HEAP_START → ldb m b = ldb (heap_mem h) b) →
  vm_ok root (set_heap_mem m h) T l
  ∧ (∀ v, HEAP_START ≤ v < 2 ^ 64 → mapped h v ↔ mapped (set_heap_mem m h) v).
Proof.
  intros [Hvm Hr Hm] Hb. pose proof (vm_inv_heap_write kernel_half root _ T l m Hvm Hb) as Hvm'.
  split; [by split|]. intros v Hv. unfold mapped, heap_mem in *. simpl.
  apply heap_kernel_half in Hv.
  rewrite (translate_spec kernel_half root (pa_mem (vm_pages (heap_vm h))) T) by (done || by destruct Hvm).
  rewrite (translate_spec kernel_half root (pa_mem (pa_set_mem m _)) T) by (done || by destruct Hvm').
  unfold spec_translate. rewrite (leaf_of_agree (pa_mem (vm_pages (heap_vm h))) (pa_mem (pa_set_mem m _)) T); [done|].
  intros π q Hq. rewrite pa_mem_set. intros c Hc. apply Hb.
  destruct (wf_page _ _ _ _ (inv_wf _ _ _ _ _ Hvm) π q Hq) as [Hpok _].
  pose proof (phys_to_virt_range q Hpok). lia.
Qed.

Lemma heap_inv_block_top h T l bs b : heap_inv root h T l bs → b ∈ bs →
  HEAP_START ≤ b_addr b ∧ b_end b < 2 ^ 64.
Proof.
  intros Hinv Hb. destruct (layout_block _ _ _ (hi_layout _ _ _ _ _ Hinv) Hb) as (? & ? & _).
  destruct (hi_cursor _ _ _ _ _ Hinv). unfold HEAP_LIMIT, PAGE_SIZE in *. lia.
Qed.

(** Marking a block used or free. *)
Lemma mark_ok h T l bs a (free : bool) : heap_inv root h T l bs → (∃ b, b ∈ bs ∧ b_addr b = a) →
  ∃ h', store32 (a + 16) (if free then 1 else 0) h = Done (tt, h')
    ∧ heap_inv root h' T l (set_free a free bs) ∧ heap_cursor h' = heap_cursor h
    ∧ (∀ v, v < a ∨ a + sizeof_block ≤ v → ldb (heap_mem h') v = ldb (heap_mem h) v).
Proof.
  intros Hinv (b & Hb & <-). eexists. split; [done|].
  set (m := st32 _ _ _).
  assert (∀ v, v < b_addr b ∨ b_addr b + sizeof_block ≤ v → ldb m v = ldb (heap_mem h) v) as Hm.
  { intros v Hv. apply ldb_stn_ne. unfold sizeof_block in *. lia. }
  destruct (layout_block _ _ _ (hi_layout _ _ _ _ _ Hinv) Hb) as (Hst & _ & Hal & _).
  destruct (vm_ok_write h T l m (heap_vm_ok _ _ _ _ _ Hinv)) as [[] Hmap].
  { intros v Hv. apply Hm. lia. }
  split; [split; try done|split; [done|]].
  - unfold heap_mem at 1. simpl. rewrite pa_mem_set. apply blist_set_free; [done| |by destruct Hinv].
    eapply layout_aligned. by destruct Hinv.
  - apply layout_set_free. by destruct Hinv.
  - by destruct Hinv.
  - intros c v (d & Hd & Ha & Hs & _)%set_free_elem Hv. unfold b_end in Hv. rewrite Ha, Hs in Hv.
    apply Hmap; [|by apply (hi_mapped _ _ _ _ _ Hinv d)].
    destruct (heap_inv_block_top _ _ _ _ d Hinv Hd). unfold b_end in *. lia.
  - intros v Hv. unfold heap_mem. simpl. rewrite pa_mem_set. by apply Hm.
Qed.

(** The header kmalloc writes for a new block. *)
Definition new_header (b size next : Z) (m : mem) : mem :=
  st64 (b + 24) next (st32 (b + 16) 0 (st64 (b + 8) size (st64 b BLOCK_MAGIC m))).

Lemma new_header_other b size next m v : v < b ∨ b + sizeof_block ≤ v →
  ldb (new_header b size next m) v = ldb m v.
Proof. intros Hv. unfold new_header, sizeof_block in *. rewrite !ldb_stn_ne by lia. done. Qed.

Lemma new_header_blist b size next m bs : 0 ≤ size < 2 ^ 64 → 0 ≤ next < 2 ^ 64 →
  (∀ c, c ∈ bs → b_addr c + sizeof_block ≤ b) → blist m next bs →
  blist (new_header b size next m) b (mk_blk b size false :: bs).
Proof.
  intros Hs Hn Hbs Hl. simpl. unfold blk_magic, blk_size, blk_free, blk_next, new_header.
  repeat first [rewrite ldn_stn_eq | rewrite ldn_stn_ne by lia].
  change (8 * Z.of_nat 8) with 64. rewrite !Z.mod_small by done.
  split; [done|]. split; [done|]. split; [done|]. split; [done|].
  eapply blist_ext; [|exact Hl]. intros c Hc v Hv. apply new_header_other. specialize (Hbs c Hc). lia.
Qed.

Lemma request_pages_ok n h T l : vm_ok root h T l → 0 < n → 4 * n ≤ Z.of_nat (length l) →
  HEAP_START ≤ heap_cursor h → heap_cursor h mod PAGE_SIZE = 0 →
  heap_cursor h + n * PAGE_SIZE + PAGE_SIZE ≤ HEAP_LIMIT →
  ∃ h' T' l', request_pages n h = Done (heap_cursor h, h') ∧ vm_ok root h' T' l'
    ∧ Z.of_nat (length l) ≤ 4 * n + Z.of_nat (length l')
    ∧ heap_cursor h' = heap_cursor h + n * PAGE_SIZE + PAGE_SIZE ∧ keeps_heap h h'
    ∧ (∀ v, heap_cursor h ≤ v < heap_cursor h + n * PAGE_SIZE → mapped h' v)
    ∧ (∀ v, HEAP_START ≤ v < 2 ^ 64 → v < heap_cursor h ∨ heap_cursor h + n * PAGE_SIZE ≤ v → mapped h' v → mapped h v).
Proof.
  intros Hok Hn Hlen Hc Hal Hlim.
  destruct (request_loop_ok root (Z.to_nat n) h T l Hok) as (h1 & T' & l' & Hr & Hok1 & Hl1 & Hc1 & Hk & Hmap & Honly);
    [lia|done|done|unfold HEAP_LIMIT, PAGE_SIZE in *; lia|].
  rewrite Z2Nat.id in Hc1, Hmap, Honly by lia.
  set (h2 := mk_heap St (heap_vm h1) (head h1) (u64 (heap_cursor h1 + PAGE_SIZE))).
  exists h2, T', l'. split; [|split; [by destruct Hok1; split|split; [lia|split; [|split; [|split]]]]].
  - unfold request_pages. unfold mbind at 1, M_bind at 1, gets.
    by rewrite (bind_Done _ _ _ _ _ Hr).
  - simpl. rewrite Hc1. apply u64_small. unfold HEAP_LIMIT, HEAP_START, PAGE_SIZE in *. lia.
  - exact Hk.
  - exact Hmap.
  - exact Honly.
Qed.

Lemma heap_walk h T l bs n : heap_inv root h T l bs →
  walk_heap n h = Done (first_fit n bs, h).
Proof.
  intros Hinv. unfold walk_heap.
  rewrite (find_block_first_fit _ _ _ _ (heap_cursor h) bs); [done|by destruct Hinv|by destruct Hinv|].
  pose proof (layout_length _ _ (hi_layout _ _ _ _ _ Hinv)). unfold walk_fuel, PAGE_SIZE in *.
  apply Nat2Z.inj_le. rewrite Z2Nat.id by (apply Z.div_pos; lia). zdiv.
Qed.

Lemma heap_head_range h T l bs : heap_inv root h T l bs → 0 ≤ head h < 2 ^ 64.
Proof.
  intros Hinv. pose proof (hi_list _ _ _ _ _ Hinv) as Hl. destruct bs as [|b bs]; simpl in Hl; [lia|].
  destruct Hl as [-> _].
  destruct (heap_inv_block_top _ _ _ _ b Hinv) as [? ?]; [apply list_elem_of_here|].
  destruct (layout_block _ _ b (hi_layout _ _ _ _ _ Hinv)) as (_ & _ & _ & _ & ?);
    [apply list_elem_of_here|]. unfold b_end, sizeof_block, HEAP_START in *. lia.
Qed.

(** The new block of kmalloc: pages, then the header. *)
Lemma new_block_ok h T l bs n : heap_inv root h T l bs → 0 < n →
  4 * n ≤ Z.of_nat (length l) → heap_cursor h + n * PAGE_SIZE + PAGE_SIZE ≤ HEAP_LIMIT →
  let b := mk_blk (heap_cursor h) (n * PAGE_SIZE - sizeof_block) false in
  ∃ h1 h' T' l', request_pages n h = Done (heap_cursor h, h1)
    ∧ (∀ k : M (heap_state St) Z,
         (_ ← store64 (heap_cursor h) BLOCK_MAGIC;
          _ ← store64 (heap_cursor h + 8) (n * PAGE_SIZE - sizeof_block);
          _ ← store32 (heap_cursor h + 16) 0;
          hd ← gets head;
          _ ← store64 (heap_cursor h + 24) hd;
          _ ← set_head (heap_cursor h);
          k) h1 = k h')
    ∧ heap_inv root h' T' l' (b :: bs) ∧ heap_cursor h' = b_end b + PAGE_SIZE
    ∧ Z.of_nat (length l) ≤ 4 * n + Z.of_nat (length l')
    ∧ (∀ v, HEAP_START ≤ v < heap_cursor h → ldb (heap_mem h') v = ldb (heap_mem h) v).
Proof.
  intros Hinv Hn Hlen Hlim b. set (c := heap_cursor h) in *.
  pose proof (layout_top _ _ (hi_layout _ _ _ _ _ Hinv)) as Hc. fold c in Hc.
  destruct (hi_cursor _ _ _ _ _ Hinv) as [Hal _]. fold c in Hal.
  destruct (request_pages_ok n h T l (heap_vm_ok _ _ _ _ _ Hinv) Hn Hlen Hc Hal Hlim)
    as (h1 & T' & l' & Hr & Hok1 & Hl' & Hc1 & (Hm & Hmap & Hhd) & Hnew & _). fold c in Hr, Hc1, Hnew.
  assert (b_end b = c + n * PAGE_SIZE) as Hend by (unfold b_end; simpl; lia).
  set (m := new_header c (n * PAGE_SIZE - sizeof_block) (head h) (heap_mem h1)).
  destruct (vm_ok_write h1 T' l' m Hok1) as [[] Hmap'].
  { intros v Hv. apply new_header_other. lia. }
  exists h1, (mk_heap St (heap_vm (set_heap_mem m h1)) c (heap_cursor h1)), T', l'.
  split; [done|]. split; [|split; [split; try done|split; [simpl; lia|split; [done|]]]].
  - intros k. unfold store64, store32, set_head, modify, gets, mbind, M_bind, set_heap_mem, heap_mem, set_pages.
    simpl. rewrite !pa_mem_set, !pa_set_set, Hhd. reflexivity.
  - unfold heap_mem. simpl. rewrite pa_mem_set. apply new_header_blist.
    + unfold HEAP_LIMIT, HEAP_START, PAGE_SIZE, sizeof_block in *. lia.
    + by eapply heap_head_range.
    + intros d Hd. destruct (layout_block _ _ _ (hi_layout _ _ _ _ _ Hinv) Hd) as (_ & He & _ & _ & Hs).
      fold c in He. unfold b_end, sizeof_block, PAGE_SIZE in *. lia.
    + rewrite <- Hhd. rewrite Hhd. apply (blist_ext (heap_mem h)); [|by destruct Hinv].
      intros d Hd v Hv. apply Hm. destruct (heap_inv_block_top _ _ _ _ d Hinv Hd). lia.
  - simpl. rewrite Hend. simpl. rewrite Hc1.
    split; [done|]. split; [unfold PAGE_SIZE in *; zdiv|].
    split; [unfold PAGE_SIZE, sizeof_block in *; lia|]. split; [lia|]. by destruct Hinv.
  - simpl. rewrite Hc1. unfold PAGE_SIZE in *. split; [zdiv|lia].
  - intros d v [->|Hd]%elem_of_cons Hv.
    + change (b_addr b) with c in Hv. rewrite Hend in Hv. apply Hmap'; [|by apply Hnew].
      unfold HEAP_LIMIT, HEAP_START, PAGE_SIZE in *. lia.
    + destruct (heap_inv_block_top _ _ _ _ d Hinv Hd).
      apply Hmap'; [lia|]. apply Hmap; [lia|]. by apply (hi_mapped _ _ _ _ _ Hinv d).
  - intros v Hv. unfold heap_mem. simpl. rewrite pa_mem_set. unfold m.
    rewrite new_header_other by lia. apply Hm. lia.
Qed.

Lemma pages_for_pos n : 0 ≤ n → 0 < pages_for n ∧ sizeof_block + n ≤ pages_for n * PAGE_SIZE
  ∧ pages_for n * PAGE_SIZE < sizeof_block + n + PAGE_SIZE.
Proof. intros. unfold pages_for, sizeof_block, PAGE_SIZE. zdiv. Qed.

(** The pages a request of [n] bytes takes at most. *)
Definition cost (n : Z) : Z := pages_for ((n + 15) / 16 * 16).

(** What a request of [n] bytes needs when no free block fits. *)
Definition room (h : heap_state St) (l : list Z) (bs : list blk) (n : Z) : Prop :=
  first_fit ((n + 15) / 16 * 16) bs = None →
  let pages := pages_for ((n + 15) / 16 * 16) in
  heap_cursor h + pages * PAGE_SIZE + PAGE_SIZE ≤ HEAP_LIMIT ∧ 4 * pages ≤ Z.of_nat (length l).

(** The payload bytes of the blocks of [bs] are as they were. *)
Definition payloads_kept (bs : list blk) (h h' : heap_state St) : Prop :=
  ∀ b v, b ∈ bs → b_ptr b ≤ v < b_end b → ldb (heap_mem h') v = ldb (heap_mem h) v.

Lemma kmalloc_ok h T l bs n : heap_inv root h T l bs → 0 ≤ n < 2 ^ 63 → room h l bs n →
  let r := spec_kmalloc n (heap_cursor h) bs in
  ∃ h' T' l', kmalloc n h = Done (r.1, h') ∧ heap_inv root h' T' l' r.2.1 ∧ heap_cursor h' = r.2.2
    ∧ payloads_kept bs h h' ∧ Z.of_nat (length l) ≤ 4 * cost n + Z.of_nat (length l').
Proof.
  intros Hinv Hn Hroom. unfold cost, spec_kmalloc, room in *. unfold kmalloc.
  rewrite round16_spec by lia. set (n' := (n + 15) / 16 * 16) in *.
  assert (0 ≤ n' < 2 ^ 63 + 16) as Hn' by (unfold n'; zdiv).
  rewrite (bind_Done _ _ _ _ _ (heap_walk _ _ _ _ n' Hinv)).
  destruct (first_fit n' bs) as [a|] eqn:Hff; simpl.
  - apply first_fit_Some in Hff as (b & Hb & <- & _ & _).
    destruct (mark_ok h T l bs (b_addr b) false Hinv) as (h' & Hs & Hinv' & Hc & Hm); [by eauto|].
    destruct (pages_for_pos n') as (Hpos & _); [lia|].
    exists h', T, l. rewrite (bind_Done _ _ _ _ _ Hs).
    destruct (heap_inv_block_top _ _ _ _ b Hinv Hb).
    destruct (layout_block _ _ _ (hi_layout _ _ _ _ _ Hinv) Hb) as (_ & _ & _ & _ & ?).
    split; [|split; [done|split; [done|split; [|lia]]]].
    + unfold mret, M_ret. rewrite u64_small; [done|].
      unfold b_end, sizeof_block, HEAP_START in *. lia.
    + intros d v Hd Hv. apply Hm.
      destruct (layout_apart _ _ _ _ (hi_layout _ _ _ _ _ Hinv) Hb Hd) as [->|[?|?]];
        unfold b_ptr, b_end, sizeof_block, PAGE_SIZE in *; lia.
  - destruct (Hroom eq_refl) as [Hlim Hlen]. destruct (pages_for_pos n') as (Hpos & Hle & Hlt); [lia|].
    assert (u64 (u64 (sizeof_block + n') + PAGE_SIZE - 1) / PAGE_SIZE = pages_for n') as ->.
    { unfold pages_for. rewrite (u64_small (sizeof_block + n')) by (unfold sizeof_block; lia).
      rewrite u64_small by (unfold sizeof_block, PAGE_SIZE; lia). done. }
    destruct (new_block_ok h T l bs (pages_for n') Hinv Hpos Hlen Hlim)
      as (h1 & h' & T' & l' & Hr & Hw & Hinv' & Hc & Hl' & Hm).
    pose proof (layout_top _ _ (hi_layout _ _ _ _ _ Hinv)) as Hc0.
    exists h', T', l'. split; [|split; [done|split; [done|split; [|exact Hl']]]].
    + rewrite (bind_Done _ _ _ _ _ Hr).
      destruct (Z.eqb_spec (heap_cursor h) 0); [unfold HEAP_START in *; lia|].
      rewrite (u64_small (_ - sizeof_block)) by (unfold sizeof_block, PAGE_SIZE in *; lia).
      rewrite Hw. unfold mret, M_ret. rewrite u64_small; [done|].
      unfold HEAP_LIMIT, HEAP_START, sizeof_block, PAGE_SIZE in *. lia.
    + intros d v Hd Hv. apply Hm.
      destruct (layout_block _ _ _ (hi_layout _ _ _ _ _ Hinv) Hd) as (? & ? & _).
      unfold b_ptr, sizeof_block, PAGE_SIZE in *. lia.
Qed.

(** C3: kmalloc refines first fit. Given a well-formed heap and, if no free block
    fits, enough address space and free pages, it completes; it returns the
    pointer, and leads to the block list and cursor, of [spec_kmalloc] (the
    newest free block that is large enough, whole, or a new block of whole
    pages followed by a guard page); the walk terminates within the heap's
    page count; and no payload byte of any block changes. *)
Theorem kmalloc_refines h T l bs n :
  heap_inv root h T l bs → 0 ≤ n < 2 ^ 63 → room h l bs n →
  let r := spec_kmalloc n (heap_cursor h) bs in
  ∃ h' T' l', kmalloc n h = Done (r.1, h') ∧ heap_inv root h' T' l' r.2.1 ∧ heap_cursor h' = r.2.2
    ∧ payloads_kept bs h h'.
Proof.
  intros Hinv Hn Hroom r.
  destruct (kmalloc_ok h T l bs n Hinv Hn Hroom) as (h' & T' & l' & Hk & Hinv' & Hc & Hp & _).
  by exists h', T', l'.
Qed.

(** The payload ranges (start, length) in use. *)
Definition live (bs : list blk) : list (Z * Z) :=
  omap (λ b, if b_free b then None else Some (b_ptr b, b_size b)) bs.

Lemma elem_of_live bs x : x ∈ live bs ↔ ∃ b, b ∈ bs ∧ b_free b = false ∧ x = (b_ptr b, b_size b).
Proof.
  unfold live. rewrite list_elem_of_omap. split.
  - intros (b & Hb & E). exists b. destruct (b_free b); [done|]. by injection E as <-.
  - intros (b & Hb & Hf & ->). exists b. by rewrite Hf.
Qed.

Lemma live_set_used a bs top : layout top bs → ∀ b, b ∈ bs → b_addr b = a → b_free b = true →
  live (set_free a false bs) ≡ₚ (b_ptr b, b_size b) :: live bs.
Proof.
  revert top. induction bs as [|c bs IH]; intros top Hl b Hb Ha Hf; [by apply elem_of_nil in Hb|].
  pose proof Hl as (_ & _ & _ & _ & Hl').
  apply elem_of_cons in Hb as [->|Hb].
  - unfold live. simpl. rewrite Ha, Z.eqb_refl. simpl. rewrite Hf. unfold b_ptr at 1. simpl.
    rewrite <- Ha. fold (b_ptr c). f_equiv. fold (live (set_free (b_addr c) false bs)) (live bs).
    assert (set_free (b_addr c) false bs = bs) as ->; [|done].
    unfold set_free. rewrite <- (list_fmap_id bs) at 2. apply list_fmap_ext. intros i d Hd.
    apply list_elem_of_lookup_2 in Hd. destruct (layout_block _ _ _ Hl' Hd) as (_ & ? & _ & _ & ?).
    destruct (Z.eqb_spec (b_addr d) (b_addr c)); [|done].
    unfold b_end, sizeof_block, PAGE_SIZE in *. lia.
  - assert (b_addr c ≠ a) as Hne.
    { intros E. destruct (layout_block _ _ _ Hl' Hb) as (_ & ? & _ & _ & ?).
      unfold b_end, sizeof_block, PAGE_SIZE in *. lia. }
    unfold live. simpl. destruct (Z.eqb_spec (b_addr c) a); [done|].
    destruct (b_free c); [by apply (IH _ Hl')|].
    fold (live (set_free a false bs)) (live bs). rewrite (IH _ Hl' b Hb Ha Hf). apply Permutation_swap.
Qed.

Lemma NoDup_live top bs : layout top bs → NoDup (live bs).
Proof.
  revert top. induction bs as [|b bs IH]; intros top; [constructor|]. intros (_ & _ & _ & _ & Hl).
  unfold live. simpl. destruct (b_free b); [by eapply IH|]. constructor; [|by eapply IH].
  intros (c & Hc & _ & [= E _])%elem_of_live.
  destruct (layout_block _ _ _ Hl Hc) as (_ & ? & _ & _ & ?).
  unfold b_ptr, b_end, sizeof_block, PAGE_SIZE in *. lia.
Qed.

Lemma spec_kmalloc_live n c bs : layout c bs → 0 ≤ n →
  ∃ b, b ∈ (spec_kmalloc n c bs).2.1 ∧ b_free b = false ∧ b_ptr b = (spec_kmalloc n c bs).1
    ∧ n ≤ b_size b ∧ live (spec_kmalloc n c bs).2.1 ≡ₚ (b_ptr b, b_size b) :: live bs.
Proof.
  intros Hl Hn. unfold spec_kmalloc. set (n' := (n + 15) / 16 * 16).
  assert (n ≤ n') as Hle by (unfold n'; zdiv).
  destruct (first_fit n' bs) as [a|] eqn:Hff; simpl.
  - apply first_fit_Some in Hff as (b & Hb & Ha & Hf & Hs).
    exists (mk_blk (b_addr b) (b_size b) false). split; [|split; [done|split; [|split; [simpl; lia|]]]].
    + apply list_elem_of_fmap. exists b. by rewrite Ha, Z.eqb_refl.
    + unfold b_ptr. simpl. by rewrite Ha.
    + by apply (live_set_used a bs c Hl b).
  - eexists. split; [apply list_elem_of_here|]. split; [done|]. split; [done|]. split; [|done].
    simpl. destruct (pages_for_pos n') as (_ & ? & _); lia.
Qed.

(** C2: an allocation is safe to use: when kmalloc of [n] bytes completes from a
    well-formed heap, the pointer is 32-byte aligned, not NULL and inside the
    kernel heap, every one of the [n] bytes is mapped, the range overlaps no
    allocation in use, and becomes one itself; and the bytes of every allocation in use
    are what they were. *)
Theorem kmalloc_safe h T l bs n :
  heap_inv root h T l bs → 0 ≤ n < 2 ^ 63 → room h l bs n →
  ∃ p sz h' T' l' bs', kmalloc n h = Done (p, h') ∧ heap_inv root h' T' l' bs'
    ∧ n ≤ sz ∧ live bs' ≡ₚ (p, sz) :: live bs
    ∧ p mod 32 = 0 ∧ HEAP_START < p ∧ p + sz < 2 ^ 64
    ∧ (∀ v, p ≤ v < p + n → mapped h' v)
    ∧ (∀ q qs, (q, qs) ∈ live bs → p + sz ≤ q ∨ q + qs ≤ p)
    ∧ (∀ q qs, (q, qs) ∈ live bs → bytes (heap_mem h') q (Z.to_nat qs) = bytes (heap_mem h) q (Z.to_nat qs)).
Proof.
  intros Hinv Hn Hroom. destruct (kmalloc_ok h T l bs n Hinv Hn Hroom) as (h' & T' & l' & Hk & Hinv' & _ & Hkept & _).
  destruct (spec_kmalloc_live n (heap_cursor h) bs) as (b & Hb & Hf & Hp & Hs & Hlive);
    [by destruct Hinv|lia|].
  destruct (heap_inv_block_top _ _ _ _ b Hinv' Hb) as [Hst Hend].
  pose proof (hi_layout _ _ _ _ _ Hinv') as Hl'.
  destruct (layout_block _ _ _ Hl' Hb) as (_ & _ & Hal & _ & _).
  exists (b_ptr b), (b_size b). do 4 eexists. rewrite Hp. split; [exact Hk|]. split; [exact Hinv'|].
  split; [done|]. rewrite <- Hp. split; [exact Hlive|].
  split; [|split; [|split; [|split; [|split]]]]; try (unfold b_ptr, b_end, sizeof_block, PAGE_SIZE in *; zdiv).
  - intros v Hv. apply (hi_mapped _ _ _ _ _ Hinv' b); [done|].
    unfold b_ptr, b_end, sizeof_block in *. lia.
  - intros q qs Hq. assert ((q, qs) ∈ live (spec_kmalloc n (heap_cursor h) bs).2.1) as Hq'.
    { rewrite Hlive. by apply list_elem_of_further. }
    apply elem_of_live in Hq' as (c & Hc & _ & [= -> ->]).
    destruct (layout_apart _ _ _ _ Hl' Hb Hc) as [->|[?|?]].
    + pose proof (NoDup_live _ _ Hl') as Hnd. rewrite Hlive in Hnd. by apply NoDup_cons in Hnd as [? _].
    + unfold b_ptr, b_end, sizeof_block, PAGE_SIZE in *. lia.
    + unfold b_ptr, b_end, sizeof_block, PAGE_SIZE in *. lia.
  - intros q qs (c & Hc & _ & [= -> ->])%elem_of_live. apply bytes_ext. intros i Hi. apply (Hkept c); [done|].
    unfold b_end, b_ptr. lia.
Qed.

Lemma kfree_ok h T l bs b : heap_inv root h T l bs → b ∈ bs →
  ∃ h', kfree (b_ptr b) h = Done (tt, h') ∧ heap_inv root h' T l (set_free (b_addr b) true bs)
    ∧ heap_cursor h' = heap_cursor h
    ∧ (∀ v, v < b_addr b ∨ b_addr b + sizeof_block ≤ v → ldb (heap_mem h') v = ldb (heap_mem h) v).
Proof.
  intros Hinv Hb. destruct (heap_inv_block_top _ _ _ _ b Hinv Hb) as [Hst Hend].
  destruct (mark_ok h T l bs (b_addr b) true Hinv) as (h' & Hs & Hinv' & Hc & Hm); [by eauto|].
  exists h'. split; [|done]. unfold kfree.
  pose proof (layout_block _ _ _ (hi_layout _ _ _ _ _ Hinv) Hb) as (_ & _ & _ & _ & Hsz).
  destruct (Z.eqb_spec (b_ptr b) 0); [unfold b_ptr, sizeof_block, HEAP_START in *; lia|].
  replace (u64 (b_ptr b - sizeof_block)) with (b_addr b).
  2:{ unfold b_ptr. rewrite Z.add_simpl_r, u64_small; [done|].
      unfold b_end, sizeof_block, HEAP_START in *. lia. }
  assert (block_is_valid (heap_mem h) (b_addr b) = true) as Hv.
  { eapply blist_valid; [by destruct Hinv|by destruct Hinv|done]. }
  unfold mbind, M_bind, gets. rewrite Hv. exact Hs.
Qed.

(** What kfree takes for a block: a page that starts with the magic number. *)
Definition good_header (m : mem) (a : Z) : Prop := a ≠ 0 ∧ a mod 4096 = 0 ∧ ld64 m a = BLOCK_MAGIC.
#[local] Instance good_header_dec m a : Decision (good_header m a) := _.
Lemma block_is_valid_header m a : block_is_valid m a = bool_decide (good_header m a).
Proof.
  unfold block_is_valid, good_header, blk_magic. change (PAGE_SIZE - 1) with (Z.ones 12). rewrite Z.land_ones by lia.
  change (2 ^ 12) with 4096. destruct (Z.eqb_spec a 0), (Z.eqb_spec (a mod 4096) 0), (Z.eqb_spec (ld64 m a) BLOCK_MAGIC); cbn [negb];
    symmetry; (apply bool_decide_eq_true || apply bool_decide_eq_false); tauto.
Qed.
Lemma kfree_by_header p h : kfree p h =
  if p =? 0 then Done (tt, h)
  else if decide (good_header (heap_mem h) (u64 (p - sizeof_block)))
       then Done (tt, set_heap_mem (st32 (u64 (p - sizeof_block) + 16) 1 (heap_mem h)) h) else Done (tt, h).
Proof.
  unfold kfree. destruct (p =? 0); [done|]. unfold mbind, M_bind, gets. rewrite block_is_valid_header.
  by destruct (decide (good_header _ _)) as [E|E]; [rewrite bool_decide_true|rewrite bool_decide_false].
Qed.

(** C13: kfree refines "mark the block free": for the pointer of a block it
    completes, leads to the list with that block free and the same cursor, and
    writes no payload. It knows a block by its header only: a pointer that is NULL, or that
    does not lie 32 bytes behind the start of a page, or behind a page that does not start with
    the magic number, changes nothing; but where a page starts with the magic number for any
    other reason, four bytes of it are overwritten, and nothing else. *)
Theorem kfree_refines h T l bs p :
  heap_inv root h T l bs →
  (∀ b, b ∈ bs → p = b_ptr b →
     ∃ h', kfree p h = Done (tt, h') ∧ heap_inv root h' T l (set_free (b_addr b) true bs)
       ∧ heap_cursor h' = heap_cursor h ∧ payloads_kept bs h h')
  ∧ (let a := u64 (p - 32) in
     (p = 0 ∨ a = 0 ∨ a mod 4096 ≠ 0 ∨ ld64 (heap_mem h) a ≠ BLOCK_MAGIC → kfree p h = Done (tt, h))
     ∧ (p ≠ 0 → a ≠ 0 → a mod 4096 = 0 → ld64 (heap_mem h) a = BLOCK_MAGIC →
        ∃ h', kfree p h = Done (tt, h') ∧ ld32 (heap_mem h') (a + 16) = 1
          ∧ ∀ v, v < a + 16 ∨ a + 20 ≤ v → ldb (heap_mem h') v = ldb (heap_mem h) v)).
Proof.
  intros Hinv. split; [|split].
  - intros b Hb ->. destruct (kfree_ok h T l bs b Hinv Hb) as (h' & Hk & Hinv' & Hc & Hm).
    exists h'. split; [done|]. split; [done|]. split; [done|]. intros c v Hcin Hv. apply Hm.
    destruct (layout_block _ _ _ (hi_layout _ _ _ _ _ Hinv) Hb) as (_ & _ & _ & _ & ?).
    destruct (layout_block _ _ _ (hi_layout _ _ _ _ _ Hinv) Hcin) as (_ & _ & _ & _ & ?).
    destruct (layout_apart _ _ _ _ (hi_layout _ _ _ _ _ Hinv) Hb Hcin) as [->|[?|?]];
      unfold b_ptr, b_end, sizeof_block, PAGE_SIZE in *; lia.
  - rewrite (kfree_by_header p h). fold sizeof_block. unfold good_header. intros [->|Hv]; [done|]. destruct (p =? 0); [done|].
    rewrite decide_False; [done|]. intros (? & ? & ?). by destruct Hv as [?|[?|?]].
  - intros Hp Ha Hm Hmagic. rewrite (kfree_by_header p h), (proj2 (Z.eqb_neq p 0) Hp), decide_True by done.
    eexists. split; [reflexivity|]. unfold heap_mem, set_heap_mem, set_pages. cbn. rewrite !pa_mem_set. split.
    + exact (ldn_stn_eq 4 _ 1 _).
    + intros v Hv. apply (ldb_stn_ne 4). change sizeof_block with 32. lia.
Qed.

(** Clearing the start of a block's payload. *)
Lemma heap_memset_ok h T l bs b n : heap_inv root h T l bs → b ∈ bs → n ≤ b_size b → 0 ≤ n →
  ∃ h', heap_memset (b_ptr b) 0 n h = Done (tt, h') ∧ heap_inv root h' T l bs
    ∧ (∀ v, b_ptr b ≤ v < b_ptr b + n → ldb (heap_mem h') v = 0)
    ∧ (∀ v, v < b_ptr b ∨ b_ptr b + n ≤ v → ldb (heap_mem h') v = ldb (heap_mem h) v)
    ∧ heap_cursor h' = heap_cursor h.
Proof.
  intros Hinv Hb Hn Hn0. destruct (heap_inv_block_top _ _ _ _ b Hinv Hb) as [Hst Hend].
  assert (HEAP_START < b_ptr b) as Hp by (unfold b_ptr, sizeof_block; lia).
  destruct (CMem.memset (b_ptr b) 0 n (heap_mem h)) as [m| | |] eqn:Hms;
    [|unfold CMem.memset in Hms; destruct (Z.eqb_spec (b_ptr b) 0); [unfold HEAP_START in *; lia|done]..].
  pose proof (λ c, ldb_memset (b_ptr b) 0 n _ m c Hn0 Hms) as Hm.
  exists (set_heap_mem m h). split; [unfold heap_memset; by rewrite Hms|].
  destruct (vm_ok_write h T l m (heap_vm_ok _ _ _ _ _ Hinv)) as [[] Hmap].
  { intros v Hv. rewrite Hm, decide_False by lia. done. }
  split; [split; try done|split; [|split; [|done]]].
  - unfold heap_mem. simpl. rewrite pa_mem_set. apply (blist_ext (heap_mem h)); [|by destruct Hinv].
    intros c Hc v Hv. rewrite Hm, decide_False; [done|].
    destruct (layout_block _ _ _ (hi_layout _ _ _ _ _ Hinv) Hc) as (_ & _ & _ & _ & ?).
    destruct (layout_block _ _ _ (hi_layout _ _ _ _ _ Hinv) Hb) as (_ & _ & _ & _ & ?).
    destruct (layout_apart _ _ _ _ (hi_layout _ _ _ _ _ Hinv) Hb Hc) as [->|[?|?]];
      unfold b_ptr, b_end, sizeof_block, PAGE_SIZE in *; lia.
  - by destruct Hinv.
  - by destruct Hinv.
  - intros c v Hc Hv. apply Hmap; [|by apply (hi_mapped _ _ _ _ _ Hinv c)].
    destruct (heap_inv_block_top _ _ _ _ c Hinv Hc). lia.
  - intros v Hv. unfold heap_mem. simpl. rewrite pa_mem_set, Hm, decide_True by lia. done.
  - intros v Hv. unfold heap_mem. simpl. rewrite pa_mem_set, Hm, decide_False by lia. done.
Qed.

Lemma kcalloc_ok h T l bs count size :
  heap_inv root h T l bs → 0 ≤ count < 2 ^ 64 → 0 ≤ size < 2 ^ 64 → count * size < 2 ^ 63 →
  room h l bs (count * size) →
  ∃ b h' T' l' bs', kcalloc count size h = Done (b_ptr b, h') ∧ heap_inv root h' T' l' bs'
    ∧ live bs' ≡ₚ (b_ptr b, b_size b) :: live bs
    ∧ bs' = (spec_kmalloc (count * size) (heap_cursor h) bs).2.1 ∧ HEAP_START < b_ptr b
    ∧ (∀ v, b_ptr b ≤ v < b_ptr b + count * size → ldb (heap_mem h') v = 0)
    ∧ (∀ q qs v, (q, qs) ∈ live bs → q ≤ v < q + qs → ldb (heap_mem h') v = ldb (heap_mem h) v)
    ∧ heap_cursor h' = (spec_kmalloc (count * size) (heap_cursor h) bs).2.2
    ∧ Z.of_nat (length l) ≤ 4 * cost (count * size) + Z.of_nat (length l').
Proof.
  intros Hinv Hc Hs Hn Hroom.
  destruct (kmalloc_ok h T l bs (count * size) Hinv) as (h1 & T' & l' & Hk & Hinv1 & Hc1 & Hpay & Hcost);
    [nia|done|].
  destruct (spec_kmalloc_live (count * size) (heap_cursor h) bs) as (b & Hb & Hf & Hp & Hsz & Hlive);
    [by destruct Hinv|nia|].
  destruct (heap_inv_block_top _ _ _ _ b Hinv1 Hb) as [Hst Hend].
  destruct (layout_block _ _ _ (hi_layout _ _ _ _ _ Hinv1) Hb) as (_ & _ & _ & _ & Hbs).
  rewrite <- Hp in Hk.
  assert (HEAP_START < b_ptr b) as Hp0 by (unfold b_ptr, sizeof_block; lia).
  destruct (heap_memset_ok h1 T' l' _ b (count * size) Hinv1 Hb Hsz ltac:(nia)) as (h' & Hm & Hinv' & Hz & Hother & Hcur).
  exists b, h', T', l'. eexists. split; [|split; [exact Hinv'|split; [exact Hlive|split; [done|split; [done|split; [done|split; [|split; [by rewrite Hcur|exact Hcost]]]]]]]].
  - unfold kcalloc. replace (negb (size =? 0) && (SIZE_MAX / size <? count)) with false.
    2:{ destruct (Z.eqb_spec size 0); [done|]. simpl. symmetry. apply Z.ltb_ge.
        apply Z.div_le_lower_bound; unfold SIZE_MAX; nia. }
    rewrite u64_small by nia. rewrite (bind_Done _ _ _ _ _ Hk).
    destruct (Z.eqb_spec (b_ptr b) 0); [unfold HEAP_START in *; lia|].
    rewrite (bind_Done _ _ _ _ _ Hm). done.
  - intros q qs v Hq Hv. pose proof (NoDup_live _ _ (hi_layout _ _ _ _ _ Hinv1)) as Hnd.
    rewrite Hlive in Hnd. apply NoDup_cons in Hnd as [Hnin _].
    assert ((q, qs) ∈ live (spec_kmalloc (count * size) (heap_cursor h) bs).2.1) as Hq'.
    { rewrite Hlive. by apply list_elem_of_further. }
    assert (ldb (heap_mem h1) v = ldb (heap_mem h) v) as <-.
    { apply elem_of_live in Hq as (c & Hcin & _ & [= -> ->]). apply (Hpay c); [done|].
      unfold b_ptr, b_end in *. lia. }
    apply Hother. apply elem_of_live in Hq' as (c & Hcin & _ & [= Eq Es]).
    destruct (layout_apart _ _ _ _ (hi_layout _ _ _ _ _ Hinv1) Hb Hcin) as [->|Hap].
    + rewrite Eq, Es in Hq. done.
    + unfold b_ptr, b_end, sizeof_block, PAGE_SIZE in *. lia.
Qed.

(** Kcalloc clears the memory it returns and refuses a product that does not
    fit in 64 bits: on overflow it returns NULL and changes nothing; otherwise
    it allocates like kmalloc of count*size, and every byte of the range reads
    0 while the payloads of the allocations in use keep theirs. *)
Theorem kcalloc_spec h T l bs count size :
  heap_inv root h T l bs → 0 ≤ count < 2 ^ 64 → 0 ≤ size < 2 ^ 64 →
  (2 ^ 64 ≤ count * size → kcalloc count size h = Done (0, h))
  ∧ (count * size < 2 ^ 63 → room h l bs (count * size) →
     ∃ p h' T' l' bs', kcalloc count size h = Done (p, h') ∧ heap_inv root h' T' l' bs'
       ∧ bs' = (spec_kmalloc (count * size) (heap_cursor h) bs).2.1 ∧ p ≠ 0
       ∧ (∀ v, p ≤ v < p + count * size → ldb (heap_mem h') v = 0)
       ∧ (∀ q qs v, (q, qs) ∈ live bs → q ≤ v < q + qs → ldb (heap_mem h') v = ldb (heap_mem h) v)).
Proof.
  intros Hinv Hc Hs. split.
  - intros Hov. unfold kcalloc. destruct (Z.eqb_spec size 0) as [->|Hne]; [lia|]. simpl.
    destruct (Z.ltb_spec (SIZE_MAX / size) count); [done|]. unfold SIZE_MAX in *. exfalso.
    pose proof (Z.mul_div_le (2 ^ 64 - 1) size). nia.
  - intros Hn Hroom.
    destruct (kcalloc_ok h T l bs count size Hinv Hc Hs Hn Hroom)
      as (b & h' & T' & l' & bs' & Hk & Hinv' & _ & Hbs & Hp & Hz & Ho & _).
    exists (b_ptr b), h', T', l', bs'. unfold HEAP_START in *.
    split; [done|]. split; [done|]. split; [done|]. split; [lia|]. by split.
Qed.

(** A request within 15 bytes of 2^64 is rounded to an empty one: kmalloc
    treats it exactly as kmalloc of 0 bytes and returns a block of any size. *)
Theorem kmalloc_wraps n h : 2 ^ 64 - 15 ≤ n < 2 ^ 64 → kmalloc n h = kmalloc 0 h.
Proof. intros Hn. unfold kmalloc. by rewrite round16_wrap. Qed.
End heap_ops.

(** ** What the heap promises to code that keeps objects in it *)

(** [oh_live h l ns]: [l] are the pointers of the objects in use, and the heap
    has room for requests of the sizes [ns], in this order or left out. *)
Class ObjectHeap (H : Type) := {
  oh_alloc : Z → M H Z;
  oh_calloc : Z → Z → M H Z;
  oh_free : Z → M H unit;
  oh_live : H → list Z → list Z → Prop;
}.

Class ObjectHeapLaws `{OH : ObjectHeap H} := {
  oh_alloc_ok : ∀ h l n ns, oh_live h l (n :: ns) → 0 ≤ n < 2 ^ 63 →
    ∃ p h', oh_alloc n h = Done (p, h') ∧ p ≠ 0 ∧ p ∉ l ∧ oh_live h' (p :: l) ns;
  oh_calloc_ok : ∀ h l c n ns, oh_live h l (c * n :: ns) → 0 ≤ c < 2 ^ 64 → 0 ≤ n < 2 ^ 64 →
    c * n < 2 ^ 63 →
    ∃ p h', oh_calloc c n h = Done (p, h') ∧ p ≠ 0 ∧ p ∉ l ∧ oh_live h' (p :: l) ns;
  oh_free_ok : ∀ h l l' p ns, oh_live h l ns → l ≡ₚ p :: l' →
    ∃ h', oh_free p h = Done (tt, h') ∧ oh_live h' l' ns;
  oh_skip : ∀ h l n ns, oh_live h l (n :: ns) → oh_live h l ns;
  oh_live_perm : ∀ h l l' ns, oh_live h l ns → l ≡ₚ l' → oh_live h l' ns;
  oh_live_ok : ∀ h l ns, oh_live h l ns → NoDup l ∧ 0 ∉ l;
  oh_aligned : ∀ h l ns p, oh_live h l ns → p ∈ l → p mod 16 = 0;
}.

(** A heap that never reuses an address, to evaluate clients on. *)
Module DemoObjects.
Record bump := mk_bump { next : Z }.
#[export] Instance bump_heap : ObjectHeap bump := {|
  oh_alloc n h := Done (next h, mk_bump (next h + 16 + n / 16 * 16));
  oh_calloc c n h := Done (next h, mk_bump (next h + 16 + (c * n) / 16 * 16));
  oh_free _ h := Done (tt, h);
  oh_live h l ns := (0 < next h ∧ next h mod 16 = 0) ∧ NoDup l ∧ Forall (λ p, 0 < p < next h ∧ p mod 16 = 0) l
    ∧ Forall (λ n, 0 ≤ n) ns;
|}.

Lemma bump_alloc h l n ns : oh_live (ObjectHeap := bump_heap) h l (n :: ns) →
  next h ≠ 0 ∧ next h ∉ l
  ∧ oh_live (ObjectHeap := bump_heap) (mk_bump (next h + 16 + n / 16 * 16)) (next h :: l) ns.
Proof.
  intros ([Hh Ha] & Hnd & Hl & Hns). apply Forall_cons in Hns as [Hn Hns].
  assert (next h ∉ l) as Hnin by (rewrite Forall_forall in Hl; intros Hin; specialize (Hl _ Hin); lia).
  assert (0 ≤ n / 16) by (apply Z.div_pos; lia).
  split; [lia|]. split; [done|]. simpl. split; [split; [lia|zdiv]|]. split; [by apply NoDup_cons|]. split; [|done].
  apply Forall_cons. split; [lia|]. eapply Forall_impl; [exact Hl|]. simpl. lia.
Qed.

#[export] Instance bump_heap_laws : ObjectHeapLaws (OH := bump_heap).
Proof.
  split.
  - intros h l n ns Hl _. destruct (bump_alloc h l n ns Hl) as (? & ? & ?). by eexists _, _.
  - intros h l c n ns Hl _ _ _. destruct (bump_alloc h l (c * n) ns Hl) as (? & ? & ?). by eexists _, _.
  - intros h l l' p ns (Hh & Hnd & Hl & Hns) Hp. exists h. split; [done|].
    rewrite Hp in Hnd. rewrite Hp in Hl. apply NoDup_cons in Hnd as [_ ?]. apply Forall_cons in Hl as [_ ?]. done.
  - intros h l n ns (? & ? & ? & Hns). by apply Forall_cons in Hns as [_ ?].
  - intros h l l' ns (? & Hnd & Hl & ?) Hp. rewrite Hp in Hnd. rewrite Hp in Hl. done.
  - intros h l ns (_ & Hnd & Hl & _). split; [done|]. rewrite Forall_forall in Hl. intros H0. specialize (Hl _ H0). lia.
  - intros h l ns p (_ & _ & Hl & _) Hp. rewrite Forall_forall in Hl. by apply Hl.
Qed.
End DemoObjects.

(** Enough address space and free pages if every request takes [pages n] new pages. *)
Fixpoint budget (pages : Z → Z) (cursor free : Z) (ns : list Z) : Prop :=
  match ns with
  | [] => True
  | n :: ns' =>
      0 ≤ n → cursor + pages n * PAGE_SIZE + PAGE_SIZE ≤ HEAP_LIMIT ∧ 4 * pages n ≤ free
      ∧ budget pages (cursor + pages n * PAGE_SIZE + PAGE_SIZE) (free - 4 * pages n) ns'
  end.

Lemma budget_mono pages c c' f f' ns : c' ≤ c → f ≤ f' → budget pages c f ns → budget pages c' f' ns.
Proof.
  revert c c' f f'. induction ns as [|n ns IH]; intros c c' f f' Hc Hf; simpl; [done|].
  intros Hb Hn. destruct (Hb Hn) as (? & ? & ?). split; [lia|]. split; [lia|].
  eapply IH; [| |done]; lia.
Qed.
Lemma budget_skip (pages : Z → Z) c f n ns : 0 ≤ n → 0 < pages n → budget pages c f (n :: ns) → budget pages c f ns.
Proof.
  intros Hn Hp Hb. destruct (Hb Hn) as (_ & _ & Hb').
  eapply budget_mono; [| |exact Hb']; unfold PAGE_SIZE; lia.
Qed.

Section object_heap.
Context `{PAL : PageAllocatorLaws St}.

Definition heap_live (h : heap_state St) (l ns : list Z) : Prop :=
  Forall (λ n, 0 ≤ n) ns ∧
  ∃ root T free bs, heap_inv root h T free bs ∧ l ≡ₚ (live bs).*1
    ∧ budget cost (heap_cursor h) (Z.of_nat (length free)) ns.

#[export] Instance kernel_object_heap : ObjectHeap (heap_state St) := {|
  oh_alloc := kmalloc;
  oh_calloc := kcalloc;
  oh_free := kfree;
  oh_live := heap_live;
|}.

Lemma cost_pos n : 0 ≤ n → 0 < cost n.
Proof. intros. unfold cost. destruct (pages_for_pos ((n + 15) / 16 * 16)) as (? & _); [zdiv|done]. Qed.

Lemma spec_cursor n c bs : 0 ≤ n → (spec_kmalloc n c bs).2.2 ≤ c + cost n * PAGE_SIZE + PAGE_SIZE.
Proof.
  intros Hn. pose proof (cost_pos n Hn). unfold spec_kmalloc, cost in *.
  destruct (first_fit _ _); simpl; [unfold PAGE_SIZE; lia|]. unfold b_end. simpl. lia.
Qed.

Lemma live_ptrs top bs : layout top bs → NoDup (live bs).*1 ∧ 0 ∉ (live bs).*1.
Proof.
  intros Hl. split.
  - apply NoDup_fmap_2_strong; [|by eapply NoDup_live].
    intros x y (b & Hb & _ & ->)%elem_of_live (c & Hc & _ & ->)%elem_of_live. simpl. intros E.
    assert (b = c) as ->; [|done]. apply (layout_addr _ _ _ _ Hl Hb Hc). unfold b_ptr in E. lia.
  - intros (x & E & (b & Hb & _ & ->)%elem_of_live)%list_elem_of_fmap. simpl in E.
    destruct (layout_block _ _ _ Hl Hb) as (? & _). unfold b_ptr, sizeof_block, HEAP_START in *. lia.
Qed.

Lemma live_set_freed top bs b : layout top bs → b ∈ bs → b_free b = false →
  (b_ptr b, b_size b) :: live (set_free (b_addr b) true bs) ≡ₚ live bs.
Proof.
  revert top. induction bs as [|c bs IH]; intros top Hl Hb Hf; [by apply elem_of_nil in Hb|].
  pose proof Hl as (_ & _ & _ & _ & Hl'). unfold live. simpl.
  apply elem_of_cons in Hb as [->|Hb].
  - rewrite Z.eqb_refl. simpl. rewrite Hf. f_equiv.
    fold (live (set_free (b_addr c) true bs)) (live bs).
    assert (set_free (b_addr c) true bs = bs) as ->; [|done].
    unfold set_free. rewrite <- (list_fmap_id bs) at 2. apply list_fmap_ext. intros i d Hd.
    apply list_elem_of_lookup_2 in Hd. destruct (layout_block _ _ _ Hl' Hd) as (_ & ? & _ & _ & ?).
    destruct (Z.eqb_spec (b_addr d) (b_addr c)); [|done].
    unfold b_end, sizeof_block, PAGE_SIZE in *. lia.
  - destruct (Z.eqb_spec (b_addr c) (b_addr b)) as [E|_].
    { destruct (layout_block _ _ _ Hl' Hb) as (_ & ? & _ & _ & ?).
      unfold b_end, sizeof_block, PAGE_SIZE in *. lia. }
    fold (live (set_free (b_addr b) true bs)) (live bs).
    destruct (b_free c); [by apply (IH _ Hl')|]. rewrite <- (IH _ Hl' Hb Hf). apply Permutation_swap.
Qed.

Lemma heap_live_alloc (h h' : heap_state St) l n ns b root T free bs T' free' bs' :
  heap_inv root h T free bs → l ≡ₚ (live bs).*1 → Forall (λ n, 0 ≤ n) ns → 0 ≤ n →
  budget cost (heap_cursor h) (Z.of_nat (length free)) (n :: ns) →
  heap_inv root h' T' free' bs' → live bs' ≡ₚ (b_ptr b, b_size b) :: live bs →
  heap_cursor h' ≤ heap_cursor h + cost n * PAGE_SIZE + PAGE_SIZE →
  Z.of_nat (length free) ≤ 4 * cost n + Z.of_nat (length free') →
  b_ptr b ≠ 0 ∧ b_ptr b ∉ l ∧ heap_live h' (b_ptr b :: l) ns.
Proof.
  intros Hinv Hl Hns Hn Hb Hinv' Hlive Hc Hf. destruct (Hb Hn) as (_ & _ & Hb').
  destruct (live_ptrs _ _ (hi_layout _ _ _ _ _ Hinv')) as [Hnd H0].
  rewrite Hlive in Hnd, H0. simpl in Hnd, H0. apply NoDup_cons in Hnd as [Hnin Hnd].
  apply not_elem_of_cons in H0 as [H0 _].
  split; [auto|]. split; [by rewrite Hl|]. split; [done|].
  exists root, T', free', bs'. split; [exact Hinv'|]. split; [by rewrite Hlive, Hl|].
  eapply budget_mono; [| |exact Hb']; lia.
Qed.

Lemma budget_room (h : heap_state St) free bs n ns : 0 ≤ n →
  budget cost (heap_cursor h) (Z.of_nat (length free)) (n :: ns) → room h free bs n.
Proof. intros Hn Hb _. by destruct (Hb Hn) as (? & ? & _). Qed.

#[export] Instance kernel_object_heap_laws : ObjectHeapLaws.
Proof.
  split.
  - intros h l n ns (Hns & root & T & free & bs & Hinv & Hl & Hb) Hn.
    apply Forall_cons in Hns as [_ Hns].
    destruct (kmalloc_ok root h T free bs n Hinv Hn (budget_room _ _ _ _ ns (proj1 Hn) Hb))
      as (h' & T' & free' & Hk & Hinv' & Hc & _ & Hf).
    destruct (spec_kmalloc_live n (heap_cursor h) bs) as (b & _ & _ & Hp & _ & Hlive);
      [by destruct Hinv|lia|].
    rewrite <- Hp in Hk. exists (b_ptr b), h'. split; [exact Hk|].
    apply (heap_live_alloc h h' l n ns b root T free bs T' free' _ Hinv Hl Hns (proj1 Hn) Hb Hinv' Hlive);
      [rewrite Hc; apply spec_cursor; lia|exact Hf].
  - intros h l c n ns (Hns & root & T & free & bs & Hinv & Hl & Hb) Hc Hn Hcn.
    apply Forall_cons in Hns as [Hcn0 Hns].
    destruct (kcalloc_ok root h T free bs c n Hinv Hc Hn Hcn (budget_room _ _ _ _ ns Hcn0 Hb))
      as (b & h' & T' & free' & bs' & Hk & Hinv' & Hlive & _ & _ & _ & _ & Hcur & Hf).
    exists (b_ptr b), h'. split; [exact Hk|].
    apply (heap_live_alloc h h' l (c * n) ns b root T free bs T' free' _ Hinv Hl Hns Hcn0 Hb Hinv' Hlive);
      [rewrite Hcur; by apply spec_cursor|exact Hf].
  - intros h l l' p ns (Hns & root & T & free & bs & Hinv & Hl & Hb) Hp.
    assert (p ∈ (live bs).*1) as (x & -> & (b & Hbin & Hf & ->)%elem_of_live)%list_elem_of_fmap.
    { rewrite <- Hl, Hp. apply list_elem_of_here. }
    destruct (kfree_ok root h T free bs b Hinv Hbin) as (h' & Hk & Hinv' & Hc & _).
    exists h'. split; [exact Hk|]. split; [done|]. exists root, T, free. eexists.
    split; [exact Hinv'|]. split; [|by rewrite Hc].
    apply (Permutation_cons_inv (a := b_ptr b)).
    rewrite <- (live_set_freed _ _ b (hi_layout _ _ _ _ _ Hinv) Hbin Hf) in Hl. simpl in Hl.
    rewrite <- Hl. symmetry. exact Hp.
  - intros h l n ns (Hns & root & T & free & bs & Hinv & Hl & Hb).
    apply Forall_cons in Hns as [Hn Hns]. split; [done|]. exists root, T, free, bs.
    split; [done|]. split; [done|]. eapply budget_skip; [exact Hn|by apply cost_pos|exact Hb].
  - intros h l l' ns (Hns & root & T & free & bs & Hinv & Hl & Hb) Hp. split; [done|].
    exists root, T, free, bs. split; [done|]. split; [by rewrite <- Hp|done].
  - intros h l ns (_ & root & T & free & bs & Hinv & Hl & _). rewrite Hl.
    eapply live_ptrs. by destruct Hinv.
  - intros h l ns p (_ & root & T & free & bs & Hinv & Hl & _). rewrite Hl.
    intros (x & -> & (b & Hb & _ & ->)%elem_of_live)%list_elem_of_fmap.
    destruct (layout_block _ _ _ (hi_layout _ _ _ _ _ Hinv) Hb) as (? & ? & ? & ? & ?).
    simpl. unfold b_ptr, sizeof_block, PAGE_SIZE in *. zdiv.
Qed.
End object_heap.

(** ** The first allocation of a booted kernel *)

Module HeapWitness.
Import Pmm. Import DemoMemmap DemoHhdm VmmWitness.

Definition demo_heap : heap_state pmm_state := mk_heap _ demo_vmm 0 HEAP_START.

Lemma demo_heap_inv : heap_inv demo_root demo_heap {[ [] := demo_root ]} demo_free [].
Proof.
  split.
  - apply demo_inv.
  - reflexivity.
  - exists 46. split; [lia|]. split; [reflexivity|]. by vm_compute.
  - reflexivity.
  - by vm_compute.
  - split; [reflexivity|by vm_compute].
  - intros b v Hb. destruct (not_elem_of_nil _ Hb).
Qed.

Lemma demo_room n : 0 ≤ n ≤ 4000 → room demo_heap demo_free [] n.
Proof.
  intros Hn _. assert (pages_for ((n + 15) / 16 * 16) = 1) as ->.
  { unfold pages_for, sizeof_block, PAGE_SIZE. zdiv. }
  split; [by vm_compute|simpl; lia].
Qed.

Lemma kmalloc_refines_witness :
  ∃ h' T' l', kmalloc 100 demo_heap = Done (HEAP_START + 32, h')
    ∧ heap_inv demo_root h' T' l' [mk_blk HEAP_START 4064 false]
    ∧ heap_cursor h' = HEAP_START + 8192.
Proof.
  destruct (kmalloc_refines demo_root demo_heap _ demo_free [] 100 demo_heap_inv ltac:(lia)
    (demo_room 100 ltac:(lia))) as (h' & T' & l' & Hk & Hinv & Hc & _).
  exists h', T', l'. split; [exact Hk|]. split; [exact Hinv|exact Hc].
Defined.

Lemma kmalloc_safe_witness :
  ∃ p sz h' T' l' bs', kmalloc 100 demo_heap = Done (p, h') ∧ heap_inv demo_root h' T' l' bs'
    ∧ 100 ≤ sz ∧ live bs' ≡ₚ [(p, sz)] ∧ p mod 32 = 0.
Proof.
  destruct (kmalloc_safe demo_root demo_heap _ demo_free [] 100 demo_heap_inv ltac:(lia)
    (demo_room 100 ltac:(lia))) as (p & sz & h' & T' & l' & bs' & Hk & Hinv & Hs & Hl & Ha & _).
  exists p, sz, h', T', l', bs'. split; [exact Hk|]. split; [exact Hinv|]. split; [exact Hs|].
  split; [exact Hl|exact Ha].
Defined.

Lemma kfree_refines_witness :
  ∃ h T l h', heap_inv demo_root h T l [mk_blk HEAP_START 4064 false]
    ∧ kfree (HEAP_START + 32) h = Done (tt, h')
    ∧ heap_inv demo_root h' T l [mk_blk HEAP_START 4064 true].
Proof.
  destruct (kmalloc_ok demo_root demo_heap _ demo_free [] 100 demo_heap_inv ltac:(lia)
    (demo_room 100 ltac:(lia))) as (h & T & l & _ & Hinv & _).
  destruct (kfree_refines demo_root h T l _ (HEAP_START + 32) Hinv) as [Hk _].
  destruct (Hk (mk_blk HEAP_START 4064 false)) as (h' & Hf & Hinv' & _);
    [apply list_elem_of_here|reflexivity|].
  exists h, T, l, h'. split; [exact Hinv|]. split; [exact Hf|exact Hinv'].
Defined.

Lemma kcalloc_spec_witness :
  ∃ p h', kcalloc 10 16 demo_heap = Done (p, h') ∧ p ≠ 0 ∧ ldb (heap_mem h') (p + 159) = 0.
Proof.
  destruct (kcalloc_spec demo_root demo_heap _ demo_free [] 10 16 demo_heap_inv ltac:(lia) ltac:(lia))
    as [_ Hk].
  destruct (Hk ltac:(lia) (demo_room 160 ltac:(lia))) as (p & h' & _ & _ & _ & Hc & _ & _ & Hp & Hz & _).
  exists p, h'. split; [exact Hc|]. split; [exact Hp|]. apply Hz. lia.
Defined.

Lemma kmalloc_wraps_witness : kmalloc (2 ^ 64 - 1) demo_heap = kmalloc 0 demo_heap.
Proof. apply kmalloc_wraps. lia. Defined.
End HeapWitness.
