(* ===== verification/Guard.v ===== *)
(** * The kernel heap with guard pages: src/memory/heap.c built with KMALLOC_CANARY

    The build of run.sh. Every allocation gets whole pages of its own between two unmapped
    pages, behind a page with a [guard_block_t] (magic, size, pages, next); a block is never used
    again. [guard_inv] relates the memory to the list of blocks; and this heap, too, is an
    [ObjectHeap], so that what is proved of the code that keeps objects in a heap holds for both
    builds. *)
From S2P Require Import Prelude CMem Phys Vmm Heap.
From S2P Require Pmm.

(** guard_block_t: the fields of the header at [b] *)
Definition gb_magic (m : mem) (b : Z) : Z := ld64 m b.
Definition gb_size (m : mem) (b : Z) : Z := ld64 m (b + 8).
Definition gb_pages (m : mem) (b : Z) : Z := ld64 m (b + 16).
Definition gb_next (m : mem) (b : Z) : Z := ld64 m (b + 24).

Definition is_guard_block_ptr (ptr : Z) : bool := negb (ptr =? 0) && (Z.land ptr (PAGE_SIZE - 1) =? 0).

Record guard_state {St : Type} := mk_guard { g_heap : heap_state St; guard_head : Z }.
Arguments guard_state : clear implicits.

Section guard.
Context `{PageAllocator St}.
Abbreviation G := (guard_state St).

Definition on_g {A} : M (heap_state St) A → M G A := zoom g_heap (λ h g, mk_guard St h (guard_head g)).

Definition request_guard_pages (size : Z) : M G Z :=
  let usable_pages := u64 (size + PAGE_SIZE - 1) / PAGE_SIZE in
  let total_pages := u64 (usable_pages + 3) in
  base ← on_g (request_pages total_pages);
  if base =? 0 then mret 0
  else
    let guard_low := u64 (base + PAGE_SIZE) in
    let usable := u64 (base + 2 * PAGE_SIZE) in
    let guard_high := u64 (base + 2 * PAGE_SIZE + usable_pages * PAGE_SIZE) in
    _ ← on_g (on_vm (unmap_page guard_low));
    _ ← on_g (on_vm (unmap_page guard_high));
    _ ← on_g (store64 base BLOCK_MAGIC);
    _ ← on_g (store64 (base + 8) (u64 (usable_pages * PAGE_SIZE)));
    _ ← on_g (store64 (base + 16) total_pages);
    next ← gets guard_head;
    _ ← on_g (store64 (base + 24) next);
    _ ← modify (λ g, mk_guard St (g_heap g) base);
    mret usable.

Definition guard_kmalloc (size : Z) : M G Z := request_guard_pages (round16 size).

(** What kfree does with other pointers is that of the plain build. *)
Definition guard_kfree (ptr : Z) : M G unit :=
  if ptr =? 0 then mret tt
  else
    let guard := u64 (ptr - 2 * PAGE_SIZE) in
    hit ← gets (λ g, is_guard_block_ptr ptr && (gb_magic (heap_mem (g_heap g)) guard =? BLOCK_MAGIC));
    if hit : bool then on_g (store64 guard 0)
    else
      let block := u64 (ptr - sizeof_block) in
      valid ← gets (λ g, block_is_valid (heap_mem (g_heap g)) block);
      if negb valid then mret tt else on_g (store32 (block + 16) 1).

Definition guard_kcalloc (count size : Z) : M G Z :=
  if negb (size =? 0) && (SIZE_MAX / size <? count) then mret 0
  else
    let total := u64 (count * size) in
    ptr ← guard_kmalloc total;
    if ptr =? 0 then mret 0
    else _ ← on_g (heap_memset ptr 0 total); mret ptr.

Definition kmalloc_canary_selftest : M G bool :=
  p ← guard_kmalloc PAGE_SIZE;
  if p =? 0 then mret false
  else if negb (Z.land p (PAGE_SIZE - 1) =? 0) then mret false
  else mret true.
End guard.

(** ** Specification *)

(** A block by its header's address, its usable pages, and whether it is in use. *)
Record gblk := mk_gblk { g_addr : Z; g_pages : Z; g_live : bool }.
Definition g_ptr (b : gblk) : Z := g_addr b + 2 * PAGE_SIZE.
Definition g_top (b : gblk) : Z := g_ptr b + g_pages b * PAGE_SIZE.     (* its upper guard page *)
Definition g_end (b : gblk) : Z := g_top b + PAGE_SIZE.
Definition guard_pages (n : Z) : Z := ((n + 15) / 16 * 16 + PAGE_SIZE - 1) / PAGE_SIZE.

(** From [top] down, a page free above each. *)
Fixpoint glayout (top : Z) (bs : list gblk) : Prop :=
  match bs with
  | [] => HEAP_START ≤ top
  | b :: bs' => g_addr b mod PAGE_SIZE = 0 ∧ 0 ≤ g_pages b ∧ g_end b + PAGE_SIZE ≤ top ∧ glayout (g_addr b) bs'
  end.

(** [p] points to the headers of [bs], linked in order; the magic of a freed block is cleared. *)
Fixpoint glist (m : mem) (p : Z) (bs : list gblk) : Prop :=
  match bs with
  | [] => p = 0
  | b :: bs' =>
      p = g_addr b ∧ gb_magic m p = (if g_live b then BLOCK_MAGIC else 0) ∧ gb_size m p = g_pages b * PAGE_SIZE
      ∧ gb_pages m p = g_pages b + 3 ∧ glist m (gb_next m p) bs'
  end.
Definition release (a : Z) (bs : list gblk) : list gblk :=
  (λ b, if g_addr b =? a then mk_gblk (g_addr b) (g_pages b) false else b) <$> bs.
(** The pointers in use. *)
Definition g_ptrs (bs : list gblk) : list Z := omap (λ b, if g_live b then Some (g_ptr b) else None) bs.

Definition gshape (b : gblk) : Z * Z := (g_addr b, g_pages b).

Lemma glist_ext m m' p bs : (∀ b, b ∈ bs → agree m m' (g_addr b) 32) → glist m p bs → glist m' p bs.
Proof.
  revert p. induction bs as [|b bs IH]; intros p Hag; simpl; [done|]. intros (-> & Hm & Hs & Hf & Hn).
  assert (agree m m' (g_addr b) 32) as Ha by (apply Hag, list_elem_of_here).
  unfold agree, gb_magic, gb_size, gb_pages, gb_next in *. rewrite !(ldn_ext _ m m') by (intros; apply Ha; lia).
  do 4 (split; [done|]). apply IH; [|done]. intros c Hc. apply Hag. by apply list_elem_of_further.
Qed.
Lemma glist_magic m p bs b : glist m p bs → b ∈ bs → gb_magic m (g_addr b) = if g_live b then BLOCK_MAGIC else 0.
Proof.
  revert p. induction bs as [|c bs IH]; intros p Hl; [by intros ?%elem_of_nil|]. destruct Hl as (-> & Hm & _ & _ & Hn).
  intros [->|Hb]%elem_of_cons; [done|by eapply IH].
Qed.

Lemma glayout_top top bs : glayout top bs → HEAP_START ≤ top.
Proof.
  revert top. induction bs as [|b bs IH]; intros top; [done|]. intros (_ & Hp & Ht & Hl%IH).
  unfold g_end, g_top, g_ptr, PAGE_SIZE in *. lia.
Qed.
Lemma glayout_block top bs b : glayout top bs → b ∈ bs →
  HEAP_START ≤ g_addr b ∧ g_addr b mod PAGE_SIZE = 0 ∧ 0 ≤ g_pages b ∧ g_end b + PAGE_SIZE ≤ top.
Proof.
  revert top. induction bs as [|c bs IH]; intros top; [intros _ Hb; by apply elem_of_nil in Hb|].
  intros (Ha & Hp & Ht & Hl) [->|Hb]%elem_of_cons.
  - apply glayout_top in Hl. done.
  - destruct (IH _ Hl Hb) as (? & ? & ? & ?). unfold g_end, g_top, g_ptr, PAGE_SIZE in *. repeat (split; [done|]). lia.
Qed.
Lemma glayout_apart top bs b c : glayout top bs → b ∈ bs → c ∈ bs → b = c ∨ g_end b ≤ g_addr c ∨ g_end c ≤ g_addr b.
Proof.
  revert top. induction bs as [|d bs IH]; intros top; [intros _ Hb; by apply elem_of_nil in Hb|].
  intros (Ha & Hp & Ht & Hl) [->|Hb]%elem_of_cons [->|Hc]%elem_of_cons; [by left| | |by eapply IH].
  - destruct (glayout_block _ _ _ Hl Hc) as (_ & _ & _ & ?). unfold PAGE_SIZE in *. lia.
  - destruct (glayout_block _ _ _ Hl Hb) as (_ & _ & _ & ?). unfold PAGE_SIZE in *. lia.
Qed.

Lemma glayout_shape top bs bs' : gshape <$> bs' = gshape <$> bs → glayout top bs → glayout top bs'.
Proof.
  revert top bs'. induction bs as [|b bs IH]; intros top [|c bs'] E; try done. injection E as Ea Ep E.
  unfold glayout, g_end, g_top, g_ptr. rewrite Ea, Ep. fold glayout. intros (? & ? & ? & Hl).
  do 3 (split; [done|]). by apply IH.
Qed.
Lemma glayout_addr top bs b c : glayout top bs → b ∈ bs → c ∈ bs → g_addr b = g_addr c → b = c.
Proof.
  intros Hl Hb Hc E. destruct (glayout_apart _ _ _ _ Hl Hb Hc) as [?|[?|?]]; [done| |];
    pose proof (glayout_block _ _ _ Hl Hb); pose proof (glayout_block _ _ _ Hl Hc);
    unfold g_end, g_top, g_ptr, PAGE_SIZE in *; lia.
Qed.
Lemma release_shape a bs : gshape <$> release a bs = gshape <$> bs.
Proof.
  unfold release. rewrite <- list_fmap_compose. apply list_fmap_ext. intros i b _. simpl. by destruct (g_addr b =? a).
Qed.
Lemma glist_release m p bs a : a mod PAGE_SIZE = 0 → Forall (λ b, g_addr b mod PAGE_SIZE = 0) bs →
  glist m p bs → glist (st64 a 0 m) p (release a bs).
Proof.
  intros Ha. revert p. induction bs as [|b bs IH]; intros p Hal; [done|].
  apply Forall_cons in Hal as [Hb Hal]. simpl. intros (-> & Hm & Hs & Hf & Hn).
  unfold gb_magic, gb_size, gb_pages, gb_next in *. destruct (Z.eqb_spec (g_addr b) a) as [<-|Hne]; simpl.
  - rewrite ldn_stn_eq. rewrite !ldn_stn_ne by lia. do 4 (split; [done|]). by apply IH.
  - assert (g_addr b + 4096 ≤ a ∨ a + 4096 ≤ g_addr b) as Hap by (unfold PAGE_SIZE in *; zdiv).
    rewrite !ldn_stn_ne by lia. do 4 (split; [done|]). by apply IH.
Qed.

Lemma elem_of_g_ptrs bs p : p ∈ g_ptrs bs ↔ ∃ b, b ∈ bs ∧ g_live b = true ∧ p = g_ptr b.
Proof.
  unfold g_ptrs. rewrite list_elem_of_omap. split.
  - intros (b & Hb & E). exists b. destruct (g_live b); [|done]. by injection E as <-.
  - intros (b & Hb & Hf & ->). exists b. by rewrite Hf.
Qed.
Lemma g_ptrs_ok top bs : glayout top bs → NoDup (g_ptrs bs) ∧ 0 ∉ g_ptrs bs.
Proof.
  intros Hl. split.
  - revert top Hl. induction bs as [|b bs IH]; intros top Hl; [constructor|]. destruct Hl as (_ & _ & _ & Hl).
    unfold g_ptrs. simpl. destruct (g_live b); [|by eapply IH]. constructor; [|by eapply IH].
    intros (c & Hc & _ & E)%elem_of_g_ptrs. destruct (glayout_block _ _ _ Hl Hc) as (_ & _ & ? & ?).
    unfold g_end, g_top, g_ptr, PAGE_SIZE in *. lia.
  - intros (b & Hb & _ & E)%elem_of_g_ptrs. destruct (glayout_block _ _ _ Hl Hb) as (? & _).
    unfold g_ptr, HEAP_START, PAGE_SIZE in *. lia.
Qed.
Lemma g_ptrs_release top bs b : glayout top bs → b ∈ bs → g_live b = true →
  g_ptr b :: g_ptrs (release (g_addr b) bs) ≡ₚ g_ptrs bs.
Proof.
  revert top. induction bs as [|c bs IH]; intros top Hl Hb Hf; [by apply elem_of_nil in Hb|].
  pose proof Hl as (_ & _ & _ & Hl'). unfold g_ptrs. simpl. apply elem_of_cons in Hb as [->|Hb].
  - rewrite Z.eqb_refl. simpl. rewrite Hf. f_equiv. fold (release (g_addr c) bs).
    assert (release (g_addr c) bs = bs) as ->; [|done].
    unfold release. rewrite <- (list_fmap_id bs) at 2. apply list_fmap_ext. intros i d Hd.
    apply list_elem_of_lookup_2 in Hd. destruct (glayout_block _ _ _ Hl' Hd) as (_ & _ & ? & ?).
    destruct (Z.eqb_spec (g_addr d) (g_addr c)); [|done]. unfold g_end, g_top, g_ptr, PAGE_SIZE in *. lia.
  - destruct (Z.eqb_spec (g_addr c) (g_addr b)) as [E|_].
    { destruct (glayout_block _ _ _ Hl' Hb) as (_ & _ & ? & ?). unfold g_end, g_top, g_ptr, PAGE_SIZE in *. lia. }
    fold (release (g_addr b) bs) (g_ptrs (release (g_addr b) bs)) (g_ptrs bs).
    destruct (g_live c); [|by apply (IH _ Hl')]. rewrite <- (IH _ Hl' Hb Hf). apply Permutation_swap.
Qed.

Lemma guard_pages_ok n : 0 ≤ n → 0 ≤ guard_pages n ∧ n ≤ (n + 15) / 16 * 16 ≤ guard_pages n * PAGE_SIZE
  ∧ guard_pages n * PAGE_SIZE ≤ n + 15 + PAGE_SIZE.
Proof. intros Hn. unfold guard_pages, PAGE_SIZE. zdiv. Qed.

Section guard_spec.
Context `{PAL : PageAllocatorLaws St}.
Variable root : Z.
Abbreviation G := (guard_state St).

(** What a block is in memory: its header's page and its own are mapped, its two guard pages are not. *)
Record block_in (h : heap_state St) (b : gblk) : Prop := {
  bi_header : ∀ v, g_addr b ≤ v < g_addr b + PAGE_SIZE → mapped h v;
  bi_usable : ∀ v, g_ptr b ≤ v < g_top b → mapped h v;
  bi_low : ∀ v, g_ptr b - PAGE_SIZE ≤ v < g_ptr b → ¬ mapped h v;
  bi_high : ∀ v, g_top b ≤ v < g_end b → ¬ mapped h v;
}.
Record guard_inv (g : G) T l (bs : list gblk) : Prop := {
  gi_vm : vm_ok root (g_heap g) T l;
  gi_layout : glayout (heap_cursor (g_heap g)) bs;
  gi_cursor : heap_cursor (g_heap g) mod PAGE_SIZE = 0 ∧ heap_cursor (g_heap g) ≤ HEAP_LIMIT;
  gi_list : glist (heap_mem (g_heap g)) (guard_head g) bs;
  gi_blocks : ∀ b, b ∈ bs → block_in (g_heap g) b;
}.

Lemma on_g_Done {A} (m : M (heap_state St) A) g x h : m (g_heap g) = Done (x, h) → on_g m g = Done (x, mk_guard St h (guard_head g)).
Proof. exact (zoom_Done g_heap _ m g x h). Qed.

Lemma mapped_table h T l v : vm_ok root h T l → HEAP_START ≤ v < 2 ^ 64 → mapped h v →
  ∃ pt, T !! [PML4_INDEX v; PDPT_INDEX v; PD_INDEX v] = Some pt.
Proof.
  intros [Hvm Hroot _] Hv Hm. unfold mapped, heap_mem in Hm.
  rewrite (translate_spec kernel_half root _ T) in Hm by (done || (by destruct Hvm) || by apply heap_kernel_half).
  unfold spec_translate in Hm. repeat (case_decide; [lia|]).
  destruct (T !! [PML4_INDEX v; PDPT_INDEX v; PD_INDEX v]) as [pt|] eqn:E; [by exists pt|done].
Qed.

(** Unmapping one mapped page of the heap. *)
Lemma unmap_page_ok h T l v : vm_ok root h T l → HEAP_START ≤ v < 2 ^ 64 - PAGE_SIZE → v mod PAGE_SIZE = 0 → mapped h v →
  ∃ h', on_vm (unmap_page v) h = Done (tt, h') ∧ vm_ok root h' T l ∧ head h' = head h ∧ heap_cursor h' = heap_cursor h
    ∧ (∀ b, HEAP_START ≤ b → ldb (heap_mem h') b = ldb (heap_mem h) b)
    ∧ (∀ w, v ≤ w < v + PAGE_SIZE → ¬ mapped h' w)
    ∧ (∀ w, HEAP_START ≤ w < 2 ^ 64 → w < v ∨ v + PAGE_SIZE ≤ w → mapped h' w ↔ mapped h w).
Proof.
  intros Hok Hv Hal Hm. assert (0 < PAGE_SIZE) by done. destruct (mapped_table h T l v Hok) as (pt & Hpt); [lia|done|]. destruct Hok as [Hvm Hroot Hmask].
  destruct (vmm_unmap_refines kernel_half root (heap_vm h) T l (kernel_address_space (heap_vm h)) v pt Hvm Hroot)
    as (s' & Hr & Hvm' & Hgone & Hsame & Hout); [apply heap_kernel_half; lia|done|].
  exists (heap_with h (with_pages (heap_vm h) s' [Invlpg v])). split; [by apply (on_vm_Done _ h)|].
  split; [by split|]. split; [done|]. split; [done|]. split; [|split].
  - intros b Hb. apply Hout. by eapply outside_tables_heap.
  - intros w Hw Hmw. unfold mapped, heap_mem in Hmw. simpl in Hmw. rewrite Hgone in Hmw; [lia|].
    unfold vpn, PAGE_SIZE in *. f_equal. zdiv.
  - intros w Hw Hne. unfold mapped, heap_mem. simpl.
    destruct (Hsame w) as [H1 H2]; [by apply heap_kernel_half|by apply heap_vpn_ne|]. unfold vm_mem in H1, H2.
    split; intros Hx; [|by rewrite H1]. destruct (Z.ltb_spec (vmm_virt_to_phys_as (kernel_address_space (heap_vm h)) w (pa_mem (vm_pages (heap_vm h)))) 0); [|done].
    exfalso. exact (proj1 (Z.lt_nge _ _) (H2 ltac:(done)) Hx).
Qed.

(** Below [c], in the heap, contents and mappings are the same. *)
Definition same_below (c : Z) (h h' : heap_state St) : Prop :=
  ∀ v, HEAP_START ≤ v < c → ldb (heap_mem h') v = ldb (heap_mem h) v ∧ (mapped h' v ↔ mapped h v).
Lemma same_below_trans c h1 h2 h3 : same_below c h1 h2 → same_below c h2 h3 → same_below c h1 h3.
Proof.
  intros H12 H23 v Hv. destruct (H12 v Hv) as [E1 M1], (H23 v Hv) as [E2 M2]. split; [by rewrite E2|]. by rewrite M2.
Qed.
Lemma block_in_below c h h' b : block_in h b → (∀ v, HEAP_START ≤ v < c → mapped h' v ↔ mapped h v) →
  HEAP_START ≤ g_addr b → 0 ≤ g_pages b → g_end b ≤ c → block_in h' b.
Proof.
  intros [Hh Hu Hl Hg] Hs Hb Hp Hc. unfold g_end, g_top, g_ptr, PAGE_SIZE in *.
  split; unfold g_end, g_top, g_ptr, PAGE_SIZE in *.
  - intros v Hv. apply (Hs v); [lia|]. by apply Hh.
  - intros v Hv. apply (Hs v); [lia|]. by apply Hu.
  - intros v Hv Hm'. apply (Hl v); [done|]. apply (Hs v); [lia|done].
  - intros v Hv Hm'. apply (Hg v); [done|]. apply (Hs v); [lia|done].
Qed.

Lemma block_in_shape h b c : gshape b = gshape c → block_in h b → block_in h c.
Proof.
  destruct b as [a n lv], c as [a' n' lv']. intros [= <- <-] [Hh Hu Hl Hg]. by split.
Qed.

(** The header request_guard_pages writes. *)
Definition guard_header (b size pages next : Z) (m : mem) : mem :=
  st64 (b + 24) next (st64 (b + 16) pages (st64 (b + 8) size (st64 b BLOCK_MAGIC m))).
Lemma guard_header_run g b size pages x :
  (_ ← on_g (store64 b BLOCK_MAGIC); _ ← on_g (store64 (b + 8) size); _ ← on_g (store64 (b + 16) pages);
   next ← gets guard_head; _ ← on_g (store64 (b + 24) next); _ ← modify (λ g, mk_guard St (g_heap g) b); mret x : M G Z) g
  = Done (x, mk_guard St (set_heap_mem (guard_header b size pages (guard_head g) (heap_mem (g_heap g))) (g_heap g)) b).
Proof.
  unfold on_g, zoom, store64, modify, gets, mbind, M_bind, set_heap_mem, heap_mem, set_pages, guard_header.
  simpl. by rewrite !pa_mem_set, !pa_set_set.
Qed.
Lemma guard_header_magic b size pages next m : gb_magic (guard_header b size pages next m) b = BLOCK_MAGIC.
Proof.
  unfold gb_magic, guard_header. do 3 rewrite ldn_stn_ne by lia. rewrite ldn_stn_eq. reflexivity.
Qed.
Lemma guard_header_other b size pages next m v : v < b ∨ b + 32 ≤ v → ldb (guard_header b size pages next m) v = ldb m v.
Proof. intros Hv. unfold guard_header. rewrite !ldb_stn_ne by lia. done. Qed.

(** The pages for a block and its guards, with the guards unmapped. *)
Lemma guard_region_ok h T l up (c := heap_cursor h) : vm_ok root h T l → 0 ≤ up → 4 * (up + 3) ≤ Z.of_nat (length l) →
  HEAP_START ≤ c → c mod PAGE_SIZE = 0 → c + (up + 3) * PAGE_SIZE + PAGE_SIZE ≤ HEAP_LIMIT →
  ∃ h1 h2 h3 T' l', request_pages (up + 3) h = Done (c, h1) ∧ on_vm (unmap_page (c + PAGE_SIZE)) h1 = Done (tt, h2)
    ∧ on_vm (unmap_page (c + 2 * PAGE_SIZE + up * PAGE_SIZE)) h2 = Done (tt, h3)
    ∧ vm_ok root h3 T' l' ∧ Z.of_nat (length l) ≤ 4 * (up + 3) + Z.of_nat (length l')
    ∧ heap_cursor h3 = c + (up + 3) * PAGE_SIZE + PAGE_SIZE ∧ same_below c h h3
    ∧ (∀ v, c ≤ v < c + (up + 3) * PAGE_SIZE → mapped h3 v ↔
        ¬ (c + PAGE_SIZE ≤ v < c + 2 * PAGE_SIZE ∨ c + 2 * PAGE_SIZE + up * PAGE_SIZE ≤ v)).
Proof.
  intros Hok Hup Hlen Hc Hal Hlim. assert (PAGE_SIZE = 4096) as HP by done.
  assert (HEAP_LIMIT < 2 ^ 64 - PAGE_SIZE) as Hlim64 by done.
  destruct (request_pages_ok root (up + 3) h T l Hok) as (h1 & T' & l' & Hr & Hok1 & Hl & Hc1 & (Hmem & Hmap & _) & Hnew & Honly);
    [lia|done|done|done|lia|]. fold c in Hr, Hc1, Hnew, Honly.
  destruct (unmap_page_ok h1 T' l' (c + PAGE_SIZE) Hok1) as (h2 & Hr2 & Hok2 & _ & Hc2 & Hmem2 & Hgone2 & Hsame2);
    [lia|rewrite HP in *; zdiv|apply Hnew; lia|].
  destruct (unmap_page_ok h2 T' l' (c + 2 * PAGE_SIZE + up * PAGE_SIZE) Hok2)
    as (h3 & Hr3 & Hok3 & _ & Hc3 & Hmem3 & Hgone3 & Hsame3);
    [lia|rewrite HP in *; zdiv|apply Hsame2; [lia|lia|apply Hnew; lia]|].
  exists h1, h2, h3, T', l'. do 3 (split; [done|]). split; [done|]. split; [lia|]. split; [by rewrite Hc3, Hc2|]. split.
  - intros v Hv. split; [rewrite Hmem3, Hmem2 by lia; apply Hmem; lia|].
    rewrite Hsame3, Hsame2 by lia. split; [intros Hx; apply Honly; [lia|lia|done]|apply Hmap; lia].
  - intros v Hv. split.
    + intros Hx [Hlow|Hhigh]; [|by apply (Hgone3 v); [lia|]].
      apply (Hgone2 v); [lia|]. apply Hsame3; [lia|lia|done].
    + intros Hn. apply Hsame3; [lia|lia|]. apply Hsame2; [lia|lia|]. apply Hnew. lia.
Qed.

Lemma gi_block g T l bs b : guard_inv g T l bs → b ∈ bs →
  HEAP_START ≤ g_addr b ∧ g_addr b mod PAGE_SIZE = 0 ∧ 0 ≤ g_pages b ∧ g_end b + PAGE_SIZE ≤ heap_cursor (g_heap g)
  ∧ heap_cursor (g_heap g) ≤ HEAP_LIMIT.
Proof.
  intros Hinv Hb. destruct (glayout_block _ _ _ (gi_layout _ _ _ _ Hinv) Hb) as (? & ? & ? & ?).
  by destruct (gi_cursor _ _ _ _ Hinv).
Qed.

(** A write in the heap that leaves the headers as those of [bs']. *)
Lemma guard_inv_write g T l bs bs' m : guard_inv g T l bs → gshape <$> bs' = gshape <$> bs →
  (∀ v, v < HEAP_START → ldb m v = ldb (heap_mem (g_heap g)) v) → glist m (guard_head g) bs' →
  guard_inv (mk_guard St (set_heap_mem m (g_heap g)) (guard_head g)) T l bs'.
Proof.
  intros Hinv Hsh Hm Hl. destruct (vm_ok_write root (g_heap g) T l m (gi_vm _ _ _ _ Hinv) Hm) as [Hok Hmap].
  split; simpl; [done|eapply glayout_shape; [exact Hsh|by destruct Hinv]|by destruct Hinv| |].
  - unfold heap_mem. simpl. by rewrite pa_mem_set.
  - intros b Hb. assert (gshape b ∈ gshape <$> bs) as (c & Ec & Hc)%list_elem_of_fmap.
    { rewrite <- Hsh. by apply list_elem_of_fmap_2. }
    destruct (gi_block _ _ _ _ _ Hinv Hc) as (? & _ & ? & ? & ?). assert (HEAP_LIMIT < 2 ^ 64) by done.
    apply (block_in_shape _ c); [done|]. apply (block_in_below (g_end c) (g_heap g)); [by eapply gi_blocks| |done|done|done].
    intros v Hv. symmetry. apply Hmap. unfold PAGE_SIZE in *. lia.
Qed.

(** What a request of [n] bytes needs. *)
Definition guard_cost (n : Z) : Z := guard_pages n + 3.
Definition guard_room (g : G) (l : list Z) (n : Z) : Prop :=
  heap_cursor (g_heap g) + guard_cost n * PAGE_SIZE + PAGE_SIZE ≤ HEAP_LIMIT ∧ 4 * guard_cost n ≤ Z.of_nat (length l).

Lemma guard_head_range g T l bs : guard_inv g T l bs → 0 ≤ guard_head g < 2 ^ 64.
Proof.
  intros Hinv. pose proof (gi_list _ _ _ _ Hinv) as Hl. destruct bs as [|b bs]; simpl in Hl; [lia|]. destruct Hl as [-> _].
  destruct (gi_block _ _ _ _ b Hinv) as (? & _ & ? & ? & ?); [apply list_elem_of_here|].
  unfold g_end, g_top, g_ptr, HEAP_START, HEAP_LIMIT, PAGE_SIZE in *. lia.
Qed.
Lemma guard_header_glist b up next m bs : 0 ≤ up < 2 ^ 48 → 0 ≤ next < 2 ^ 64 →
  (∀ c, c ∈ bs → g_addr c + 32 ≤ b) → glist m next bs →
  glist (guard_header b (up * PAGE_SIZE) (up + 3) next m) b (mk_gblk b up true :: bs).
Proof.
  intros Hs Hn Hbs Hl. simpl. unfold gb_magic, gb_size, gb_pages, gb_next, guard_header.
  repeat first [rewrite ldn_stn_eq | rewrite ldn_stn_ne by lia].
  change (8 * Z.of_nat 8) with 64. rewrite !Z.mod_small by (done || (unfold PAGE_SIZE; lia)).
  do 4 (split; [done|]). eapply glist_ext; [|exact Hl]. intros c Hc v Hv. apply guard_header_other. specialize (Hbs c Hc). lia.
Qed.

(** The memory, the blocks and the cursor after the header of a new block. *)
Lemma guard_inv_new g T l bs up h T' l' (c := heap_cursor (g_heap g)) (b := mk_gblk c up true) :
  guard_inv g T l bs → 0 ≤ up → g_end b + PAGE_SIZE ≤ HEAP_LIMIT →
  vm_ok root h T' l' → heap_cursor h = g_end b + PAGE_SIZE → same_below c (g_heap g) h →
  (∀ v, c ≤ v < g_end b → mapped h v ↔ ¬ (g_ptr b - PAGE_SIZE ≤ v < g_ptr b ∨ g_top b ≤ v)) →
  let m := guard_header c (up * PAGE_SIZE) (up + 3) (guard_head g) (heap_mem h) in
  guard_inv (mk_guard St (set_heap_mem m h) c) T' l' (b :: bs) ∧ same_below c (g_heap g) (set_heap_mem m h).
Proof.
  intros Hinv Hup Hlim Hok Hcur Hsame Hmap m. assert (PAGE_SIZE = 4096) as HP by done.
  assert (HEAP_LIMIT < 2 ^ 64) as Hl64 by done.
  assert (g_end b = c + 3 * PAGE_SIZE + up * PAGE_SIZE) as Hend by (unfold g_end, g_top, g_ptr; simpl; lia).
  pose proof (glayout_top _ _ (gi_layout _ _ _ _ Hinv)) as Hc. fold c in Hc.
  destruct (gi_cursor _ _ _ _ Hinv) as [Hal _]. fold c in Hal.
  destruct (vm_ok_write root h T' l' m Hok) as [Hok' Hkeep]; [intros v Hv; apply guard_header_other; lia|].
  assert (same_below c (g_heap g) (set_heap_mem m h)) as Hs'.
  { eapply same_below_trans; [exact Hsame|]. intros v Hv. split; [|symmetry; apply Hkeep; lia].
    unfold heap_mem. simpl. rewrite pa_mem_set. apply guard_header_other. lia. }
  split; [|done]. split; simpl.
  - done.
  - rewrite Hcur. split; [done|]. split; [done|]. split; [lia|]. by destruct Hinv.
  - rewrite Hcur, Hend, HP in *. split; [zdiv|lia].
  - unfold heap_mem. simpl. rewrite pa_mem_set. apply guard_header_glist.
    + unfold HEAP_START, HEAP_LIMIT in *. lia.
    + by eapply guard_head_range.
    + intros d Hd. destruct (gi_block _ _ _ _ _ Hinv Hd) as (_ & _ & ? & ? & _). fold c in H1.
      unfold g_end, g_top, g_ptr in *. lia.
    + eapply glist_ext; [|by destruct Hinv]. intros d Hd v Hv. apply Hsame.
      destruct (gi_block _ _ _ _ _ Hinv Hd) as (? & _ & ? & ? & _). fold c in H2. unfold g_end, g_top, g_ptr in *. lia.
  - intros d [->|Hd]%elem_of_cons.
    + split; intros v Hv; [apply Hkeep, Hmap|apply Hkeep, Hmap|rewrite <- Hkeep, Hmap|rewrite <- Hkeep, Hmap];
        unfold g_end, g_top, g_ptr in *; simpl in *; lia.
    + destruct (gi_block _ _ _ _ _ Hinv Hd) as (? & _ & ? & ? & _). fold c in H2.
      apply (block_in_below c (g_heap g)); [by eapply gi_blocks|apply Hs'|done|done|lia].
Qed.

Lemma guard_kmalloc_ok g T l bs n (b := mk_gblk (heap_cursor (g_heap g)) (guard_pages n) true) :
  guard_inv g T l bs → 0 ≤ n < 2 ^ 63 → guard_room g l n →
  ∃ g' T' l', guard_kmalloc n g = Done (g_ptr b, g') ∧ guard_inv g' T' l' (b :: bs)
    ∧ heap_cursor (g_heap g') = g_end b + PAGE_SIZE ∧ Z.of_nat (length l) ≤ 4 * guard_cost n + Z.of_nat (length l')
    ∧ same_below (heap_cursor (g_heap g)) (g_heap g) (g_heap g').
Proof.
  intros Hinv Hn [Hlim Hlen]. unfold guard_cost in *. assert (PAGE_SIZE = 4096) as HP by done.
  destruct (guard_pages_ok n) as (Hup & Hfit & Hmax); [lia|]. set (up := guard_pages n) in *. set (c := heap_cursor (g_heap g)) in *.
  assert (g_end b = c + 3 * PAGE_SIZE + up * PAGE_SIZE) as Hend by (unfold g_end, g_top, g_ptr; simpl; lia).
  pose proof (glayout_top _ _ (gi_layout _ _ _ _ Hinv)) as Hc. destruct (gi_cursor _ _ _ _ Hinv) as [Hal _].
  destruct (guard_region_ok (g_heap g) T l up (gi_vm _ _ _ _ Hinv) Hup Hlen Hc Hal) as
    (h1 & h2 & h3 & T' & l' & Hr1 & Hr2 & Hr3 & Hok & Hl' & Hcur & Hsame & Hmap); [fold c; lia|]. fold c in Hr1, Hr2, Hr3, Hcur, Hsame, Hmap, Hc.
  destruct (guard_inv_new g T l bs up h3 T' l' Hinv Hup) as [Hinv' Hs']; fold c b; [lia|done|lia|done|..].
  { intros v Hv. rewrite Hmap by lia. unfold g_top, g_ptr. simpl. lia. }
  fold c in Hinv', Hs'. eexists _, T', l'. split; [|split; [exact Hinv'|split; [simpl; lia|split; [lia|exact Hs']]]].
  assert (HEAP_LIMIT < 2 ^ 64) as Hl64 by done. unfold HEAP_START in Hc.
  unfold guard_kmalloc, request_guard_pages. rewrite round16_spec by lia.
  assert (u64 ((n + 15) / 16 * 16 + PAGE_SIZE - 1) / PAGE_SIZE = up) as -> by (rewrite u64_small by lia; done).
  rewrite (u64_small (up + 3)), (u64_small (up * PAGE_SIZE)) by lia.
  rewrite (bind_Done _ _ _ _ _ (on_g_Done _ _ _ _ Hr1)). destruct (Z.eqb_spec c 0); [lia|].
  rewrite !u64_small by lia. rewrite (bind_Done _ _ _ _ _ (on_g_Done _ (mk_guard St h1 _) _ _ Hr2)).
  rewrite (bind_Done _ _ _ _ _ (on_g_Done _ (mk_guard St h2 _) _ _ Hr3)). exact (guard_header_run (mk_guard St h3 (guard_head g)) _ _ _ _).
Qed.

(** What kfree tests, for the pointer of a block. *)
Lemma guard_kfree_eq g T l bs b : guard_inv g T l bs → b ∈ bs →
  guard_kfree (g_ptr b) g = (if g_live b then on_g (store64 (g_addr b) 0) g else Done (tt, g)).
Proof.
  intros Hinv Hb. destruct (gi_block _ _ _ _ _ Hinv Hb) as (Ha & Hal & Hp & Ht & Hl).
  pose proof (glist_magic _ _ _ b (gi_list _ _ _ _ Hinv) Hb) as Hm. assert (PAGE_SIZE = 4096) as HP by done.
  assert (HEAP_LIMIT < 2 ^ 64) by done. pose proof heap_start_pos.
  assert (g_ptr b mod PAGE_SIZE = 0) as Hal' by (unfold g_ptr; rewrite HP in *; zdiv).
  assert (g_ptr b < 2 ^ 64) by (unfold g_end, g_top in *; lia).
  unfold guard_kfree. destruct (Z.eqb_spec (g_ptr b) 0) as [E|E]; [unfold g_ptr in *; lia|].
  rewrite gets_bind. unfold is_guard_block_ptr. apply Z.eqb_neq in E as ->. rewrite page_aligned_land by done.
  rewrite (u64_small (g_ptr b - 2 * PAGE_SIZE)) by (unfold g_ptr in *; lia).
  replace (g_ptr b - 2 * PAGE_SIZE) with (g_addr b) by (unfold g_ptr; lia). rewrite Hm.
  destruct (g_live b); [reflexivity|]. change (negb false && (0 =? 0) && (0 =? BLOCK_MAGIC)) with false. cbv iota.
  rewrite gets_bind. unfold block_is_valid. rewrite u64_small by (unfold sizeof_block, g_ptr in *; lia).
  destruct (Z.eqb_spec (g_ptr b - sizeof_block) 0); [reflexivity|].
  destruct (Z.eqb_spec (Z.land (g_ptr b - sizeof_block) (PAGE_SIZE - 1)) 0) as [E'|]; [|reflexivity].
  change (PAGE_SIZE - 1) with (Z.ones 12) in E'. rewrite Z.land_ones in E' by lia. change (2 ^ 12) with 4096 in E'.
  unfold sizeof_block in *. rewrite HP in *. exfalso. zdiv.
Qed.

Lemma guard_kfree_ok g T l bs b : guard_inv g T l bs → b ∈ bs → g_live b = true →
  ∃ g', guard_kfree (g_ptr b) g = Done (tt, g') ∧ guard_inv g' T l (release (g_addr b) bs)
    ∧ heap_cursor (g_heap g') = heap_cursor (g_heap g)
    ∧ (∀ v, v < g_addr b ∨ g_addr b + 8 ≤ v → ldb (heap_mem (g_heap g')) v = ldb (heap_mem (g_heap g)) v).
Proof.
  intros Hinv Hb Hlive. destruct (gi_block _ _ _ _ _ Hinv Hb) as (Ha & Hal & _).
  set (m := st64 (g_addr b) 0 (heap_mem (g_heap g))).
  assert (∀ v, v < g_addr b ∨ g_addr b + 8 ≤ v → ldb m v = ldb (heap_mem (g_heap g)) v) as Hm.
  { intros v Hv. apply ldb_stn_ne. lia. }
  exists (mk_guard St (set_heap_mem m (g_heap g)) (guard_head g)).
  split; [rewrite (guard_kfree_eq g T l bs b Hinv Hb), Hlive; reflexivity|]. split; [|split; [done|]].
  - apply (guard_inv_write g T l bs); [done|apply release_shape|intros v Hv; apply Hm; lia|].
    apply glist_release; [done| |by destruct Hinv]. apply Forall_forall. intros c Hc.
    by destruct (gi_block _ _ _ _ _ Hinv Hc) as (_ & ? & _).
  - intros v Hv. unfold heap_mem. simpl. rewrite pa_mem_set. by apply Hm.
Qed.

(** Clearing the start of a block. *)
Lemma guard_memset_ok g T l bs b n : guard_inv g T l bs → b ∈ bs → 0 ≤ n ≤ g_pages b * PAGE_SIZE →
  ∃ g', on_g (heap_memset (g_ptr b) 0 n) g = Done (tt, g') ∧ guard_inv g' T l bs
    ∧ heap_cursor (g_heap g') = heap_cursor (g_heap g)
    ∧ (∀ v, ldb (heap_mem (g_heap g')) v
        = if decide (g_ptr b ≤ v < g_ptr b + n) then 0 else ldb (heap_mem (g_heap g)) v).
Proof.
  intros Hinv Hb Hn. destruct (gi_block _ _ _ _ _ Hinv Hb) as (Ha & _ & _ & _). pose proof heap_start_pos.
  assert (HEAP_START < g_ptr b) as Hp by (unfold g_ptr, PAGE_SIZE; lia).
  destruct (CMem.memset (g_ptr b) 0 n (heap_mem (g_heap g))) as [m| | |] eqn:Hms;
    [|unfold CMem.memset in Hms; destruct (Z.eqb_spec (g_ptr b) 0); [lia|done]..].
  pose proof (λ c, ldb_memset (g_ptr b) 0 n _ m c (proj1 Hn) Hms) as Hm.
  exists (mk_guard St (set_heap_mem m (g_heap g)) (guard_head g)).
  split; [apply on_g_Done; unfold heap_memset; by rewrite Hms|]. split; [|split; [done|]].
  - apply (guard_inv_write g T l bs); [done|done|intros v Hv; rewrite Hm, decide_False by lia; done|].
    eapply glist_ext; [|by destruct Hinv]. intros c Hc v Hv. rewrite Hm, decide_False; [done|].
    destruct (glayout_apart _ _ _ _ (gi_layout _ _ _ _ Hinv) Hb Hc) as [<-|[?|?]];
      destruct (gi_block _ _ _ _ _ Hinv Hc) as (_ & _ & ? & _); unfold g_end, g_top, g_ptr, PAGE_SIZE in *; lia.
  - intros v. unfold heap_mem. simpl. by rewrite pa_mem_set, Hm.
Qed.

Lemma guard_kcalloc_ok g T l bs count size (b := mk_gblk (heap_cursor (g_heap g)) (guard_pages (count * size)) true) :
  guard_inv g T l bs → 0 ≤ count < 2 ^ 64 → 0 ≤ size < 2 ^ 64 → count * size < 2 ^ 63 → guard_room g l (count * size) →
  ∃ g' T' l', guard_kcalloc count size g = Done (g_ptr b, g') ∧ guard_inv g' T' l' (b :: bs)
    ∧ heap_cursor (g_heap g') = g_end b + PAGE_SIZE
    ∧ Z.of_nat (length l) ≤ 4 * guard_cost (count * size) + Z.of_nat (length l')
    ∧ (∀ v, g_ptr b ≤ v < g_ptr b + count * size → ldb (heap_mem (g_heap g')) v = 0)
    ∧ (∀ v, HEAP_START ≤ v < heap_cursor (g_heap g) → ldb (heap_mem (g_heap g')) v = ldb (heap_mem (g_heap g)) v).
Proof.
  intros Hinv Hc Hs Hn Hroom. assert (0 ≤ count * size) as Hn0 by nia.
  destruct (guard_kmalloc_ok g T l bs (count * size) Hinv ltac:(lia) Hroom) as (g1 & T' & l' & Hk & Hinv1 & Hcur & Hl & Hsame).
  fold b in Hk, Hinv1, Hcur. destruct (guard_pages_ok (count * size) Hn0) as (_ & Hfit & _).
  destruct (guard_memset_ok g1 T' l' _ b (count * size) Hinv1 (list_elem_of_here _ _)) as (g' & Hms & Hinv' & Hcur' & Hm); [simpl; lia|].
  exists g', T', l'. split; [|split; [done|split; [by rewrite Hcur'|split; [done|split]]]].
  - unfold guard_kcalloc. replace (negb (size =? 0) && (SIZE_MAX / size <? count)) with false.
    2:{ destruct (Z.eqb_spec size 0); [done|]. symmetry. apply Z.ltb_ge.
        apply Z.div_le_lower_bound; unfold SIZE_MAX; nia. }
    rewrite u64_small by lia. rewrite (bind_Done _ _ _ _ _ Hk).
    destruct (gi_block _ _ _ _ b Hinv1 (list_elem_of_here _ _)) as (? & _). pose proof heap_start_pos.
    destruct (Z.eqb_spec (g_ptr b) 0); [unfold g_ptr, PAGE_SIZE in *; lia|].
    rewrite (bind_Done _ _ _ _ _ Hms). done.
  - intros v Hv. by rewrite Hm, decide_True.
  - intros v Hv. rewrite Hm, decide_False by (unfold g_ptr, PAGE_SIZE; simpl; lia). by apply Hsame.
Qed.

(** C6: with guard pages, an access that leaves an allocation faults: from a well-formed heap with
    room, kmalloc of [n] bytes completes with a page-aligned pointer into whole mapped pages that
    hold the [n] bytes, the page below them and the page above them are not mapped, the block is
    apart, guards included, from every block ever given out, and nothing below it in the heap
    changes; what other blocks hold and that their guard pages fault is kept. *)
Theorem guard_kmalloc_safe g T l bs n : guard_inv g T l bs → 0 ≤ n < 2 ^ 63 → guard_room g l n →
  ∃ p size g' T' l', guard_kmalloc n g = Done (p, g') ∧ guard_inv g' T' l' (mk_gblk (p - 2 * PAGE_SIZE) (size / PAGE_SIZE) true :: bs)
    ∧ n ≤ size ∧ size mod PAGE_SIZE = 0 ∧ p mod PAGE_SIZE = 0 ∧ HEAP_START < p
    ∧ (∀ v, p ≤ v < p + size → mapped (g_heap g') v)
    ∧ (∀ v, p - PAGE_SIZE ≤ v < p ∨ p + size ≤ v < p + size + PAGE_SIZE → ¬ mapped (g_heap g') v)
    ∧ (∀ c, c ∈ bs → g_end c ≤ p - 2 * PAGE_SIZE ∧ block_in (g_heap g') c)
    ∧ (∀ c v, c ∈ bs → g_ptr c ≤ v < g_top c → ldb (heap_mem (g_heap g')) v = ldb (heap_mem (g_heap g)) v).
Proof.
  intros Hinv Hn Hroom. destruct (guard_kmalloc_ok g T l bs n Hinv Hn Hroom) as (g' & T' & l' & Hk & Hinv' & _ & _ & Hsame).
  destruct (guard_pages_ok n) as (Hup & Hfit & _); [lia|]. set (b := mk_gblk _ _ true) in *. assert (PAGE_SIZE = 4096) as HP by done.
  destruct (gi_block _ _ _ _ b Hinv' (list_elem_of_here _ _)) as (? & Hal & _).
  destruct (gi_blocks _ _ _ _ Hinv' b (list_elem_of_here _ _)) as [_ Hu Hlo Hhi].
  exists (g_ptr b), (g_pages b * PAGE_SIZE), g', T', l'. split; [exact Hk|].
  replace (mk_gblk (g_ptr b - 2 * PAGE_SIZE) (g_pages b * PAGE_SIZE / PAGE_SIZE) true) with b.
  2:{ unfold g_ptr, b. simpl. f_equal; [lia|]. by rewrite Z.div_mul. }
  split; [exact Hinv'|]. split; [simpl; lia|]. split; [by rewrite Z.mod_mul|].
  split; [unfold g_ptr; rewrite HP in *; zdiv|]. split; [unfold g_ptr; lia|]. split; [exact Hu|].
  split; [intros v [Hv|Hv]; [by apply Hlo|by apply Hhi]|]. split.
  - intros c Hc. split; [|by apply (gi_blocks _ _ _ _ Hinv'), list_elem_of_further].
    destruct (gi_block _ _ _ _ c Hinv Hc) as (_ & _ & _ & ? & _). unfold g_ptr. simpl. lia.
  - intros c v Hc Hv. apply Hsame. destruct (gi_block _ _ _ _ c Hinv Hc) as (? & _ & ? & ? & _).
    unfold g_end, g_top, g_ptr in *. lia.
Qed.

(** Kfree of a block in use clears its magic and nothing else; freed again, the block's pointer is
    ignored, and so is NULL. A freed block stays mapped and is never given out again. *)
Theorem guard_kfree_spec g T l bs b : guard_inv g T l bs → b ∈ bs →
  (g_live b = true → ∃ g', guard_kfree (g_ptr b) g = Done (tt, g') ∧ guard_inv g' T l (release (g_addr b) bs)
     ∧ (∀ v, v < g_addr b ∨ g_addr b + 8 ≤ v → ldb (heap_mem (g_heap g')) v = ldb (heap_mem (g_heap g)) v)
     ∧ guard_kfree (g_ptr b) g' = Done (tt, g'))
  ∧ (g_live b = false → guard_kfree (g_ptr b) g = Done (tt, g)) ∧ guard_kfree 0 g = Done (tt, g).
Proof.
  intros Hinv Hb. split; [|split; [|done]].
  - intros Hlive. destruct (guard_kfree_ok g T l bs b Hinv Hb Hlive) as (g' & Hk & Hinv' & _ & Hm).
    exists g'. split; [done|]. split; [done|]. split; [done|].
    apply (guard_kfree_eq g' T l _ (mk_gblk (g_addr b) (g_pages b) false) Hinv').
    apply list_elem_of_fmap. exists b. by rewrite Z.eqb_refl.
  - intros Hlive. by rewrite (guard_kfree_eq g T l bs b Hinv Hb), Hlive.
Qed.

(** The self-test passes on a well-formed heap with room. *)
Theorem selftest_passes g T l bs : guard_inv g T l bs → guard_room g l PAGE_SIZE →
  ∃ g' T' l' b, kmalloc_canary_selftest g = Done (true, g') ∧ guard_inv g' T' l' (b :: bs).
Proof.
  intros Hinv Hroom. destruct (guard_kmalloc_ok g T l bs PAGE_SIZE Hinv ltac:(done) Hroom) as (g' & T' & l' & Hk & Hinv' & _).
  set (b := mk_gblk _ _ true) in *. exists g', T', l', b. split; [|exact Hinv']. assert (PAGE_SIZE = 4096) as HP by done.
  destruct (gi_block _ _ _ _ b Hinv' (list_elem_of_here _ _)) as (? & Hal & _). pose proof heap_start_pos.
  unfold kmalloc_canary_selftest. rewrite (bind_Done _ _ _ _ _ Hk).
  destruct (Z.eqb_spec (g_ptr b) 0); [unfold g_ptr in *; lia|].
  rewrite page_aligned_land; [done|]. unfold g_ptr. rewrite HP in *. zdiv.
Qed.
End guard_spec.

(** ** The guarded heap keeps the promise of [ObjectHeap] *)

Section guard_objects.
Context `{PAL : PageAllocatorLaws St}.
Abbreviation G := (guard_state St).

Definition guard_live (g : G) (l ns : list Z) : Prop :=
  Forall (λ n, 0 ≤ n) ns ∧
  ∃ root T free bs, guard_inv root g T free bs ∧ l ≡ₚ g_ptrs bs
    ∧ budget guard_cost (heap_cursor (g_heap g)) (Z.of_nat (length free)) ns.

(** Not an instance for the search: a client names the heap it is built with. *)
Definition guard_object_heap : ObjectHeap G := {|
  oh_alloc := guard_kmalloc;
  oh_calloc := guard_kcalloc;
  oh_free := guard_kfree;
  oh_live := guard_live;
|}.

Lemma guard_live_alloc root (g g' : G) T free bs l n ns T' free' (b := mk_gblk (heap_cursor (g_heap g)) (guard_pages n) true) :
  guard_inv root g T free bs → l ≡ₚ g_ptrs bs → Forall (λ n, 0 ≤ n) ns → 0 ≤ n →
  budget guard_cost (heap_cursor (g_heap g)) (Z.of_nat (length free)) (n :: ns) →
  guard_inv root g' T' free' (b :: bs) → heap_cursor (g_heap g') = g_end b + PAGE_SIZE →
  Z.of_nat (length free) ≤ 4 * guard_cost n + Z.of_nat (length free') →
  g_ptr b ≠ 0 ∧ g_ptr b ∉ l ∧ guard_live g' (g_ptr b :: l) ns.
Proof.
  intros Hinv Hl Hns Hn Hb Hinv' Hcur Hf. destruct (Hb Hn) as (_ & _ & Hb').
  destruct (g_ptrs_ok _ _ (gi_layout _ _ _ _ _ Hinv')) as [Hnd H0].
  change (g_ptrs (b :: bs)) with (g_ptr b :: g_ptrs bs) in Hnd, H0. apply NoDup_cons in Hnd as [Hnin Hnd].
  apply not_elem_of_cons in H0 as [H0 _]. split; [auto|]. split; [by rewrite Hl|]. split; [done|].
  exists root, T', free', (b :: bs). split; [done|]. change (g_ptrs (b :: bs)) with (g_ptr b :: g_ptrs bs).
  split; [by rewrite Hl|]. eapply budget_mono; [| |exact Hb']; [|lia]. rewrite Hcur.
  unfold g_end, g_top, g_ptr, guard_cost, b. simpl. lia.
Qed.

#[export] Instance guard_object_heap_laws : ObjectHeapLaws (OH := guard_object_heap).
Proof.
  split.
  - intros g l n ns (Hns & root & T & free & bs & Hinv & Hl & Hb) Hn. apply Forall_cons in Hns as [_ Hns].
    destruct (Hb (proj1 Hn)) as (? & ? & _).
    destruct (guard_kmalloc_ok root g T free bs n Hinv Hn) as (g' & T' & free' & Hk & Hinv' & Hc & Hf & _); [by split|].
    exists (g_ptr (mk_gblk (heap_cursor (g_heap g)) (guard_pages n) true)), g'. split; [exact Hk|].
    exact (guard_live_alloc root g g' T free bs l n ns T' free' Hinv Hl Hns (proj1 Hn) Hb Hinv' Hc Hf).
  - intros g l c n ns (Hns & root & T & free & bs & Hinv & Hl & Hb) Hc Hn Hcn. apply Forall_cons in Hns as [Hn0 Hns].
    destruct (Hb Hn0) as (? & ? & _).
    destruct (guard_kcalloc_ok root g T free bs c n Hinv Hc Hn Hcn) as (g' & T' & free' & Hk & Hinv' & Hcur & Hf & _); [by split|].
    exists (g_ptr (mk_gblk (heap_cursor (g_heap g)) (guard_pages (c * n)) true)), g'. split; [exact Hk|].
    exact (guard_live_alloc root g g' T free bs l (c * n) ns T' free' Hinv Hl Hns Hn0 Hb Hinv' Hcur Hf).
  - intros g l l' p ns (Hns & root & T & free & bs & Hinv & Hl & Hb) Hp.
    assert (p ∈ g_ptrs bs) as (b & Hbin & Hlive & ->)%elem_of_g_ptrs by (rewrite <- Hl, Hp; apply list_elem_of_here).
    destruct (guard_kfree_ok root g T free bs b Hinv Hbin Hlive) as (g' & Hk & Hinv' & Hc & _).
    exists g'. split; [exact Hk|]. split; [done|]. exists root, T, free. eexists. split; [exact Hinv'|].
    split; [|by rewrite Hc]. apply (Permutation_cons_inv (a := g_ptr b)).
    rewrite (g_ptrs_release _ _ b (gi_layout _ _ _ _ _ Hinv) Hbin Hlive). rewrite <- Hl. by symmetry.
  - intros g l n ns (Hns & root & T & free & bs & Hinv & Hl & Hb). apply Forall_cons in Hns as [Hn Hns].
    split; [done|]. exists root, T, free, bs. split; [done|]. split; [done|].
    eapply budget_skip; [exact Hn| |exact Hb]. destruct (guard_pages_ok n Hn) as (? & _). unfold guard_cost. lia.
  - intros g l l' ns (Hns & root & T & free & bs & Hinv & Hl & Hb) Hp. split; [done|].
    exists root, T, free, bs. split; [done|]. split; [by rewrite <- Hp|done].
  - intros g l ns (_ & root & T & free & bs & Hinv & Hl & _). rewrite Hl. eapply g_ptrs_ok. by destruct Hinv.
  - intros g l ns p (_ & root & T & free & bs & Hinv & Hl & _). rewrite Hl. intros (b & Hb & _ & ->)%elem_of_g_ptrs.
    destruct (gi_block _ _ _ _ _ _ Hinv Hb) as (? & ? & _). unfold g_ptr, PAGE_SIZE in *. zdiv.
Qed.
End guard_objects.

(** ** The first allocation of a booted kernel *)

Module GuardWitness.
Import Pmm. Import DemoHhdm.

(** 32 usable pages *)
#[export, program] Instance guard_memmap : Memmap := {| memmap_entries := [ mk_entry 0x100000 0x20000 0 ] |}.
Next Obligation. repeat constructor; simpl; intros; pow2; done. Qed.
Next Obligation. intros i j e f Hij Hi Hj. destruct i as [|i], j as [|j]; simpl in *; simplify_eq; lia. Qed.
Next Obligation. done. Qed.

Lemma guard_boot : ∃ root g T l, guard_inv root g T l [] ∧ guard_room g l 100.
Proof.
  assert (pa_owns (pmm_boot ∅) all_pages) as Ho by (exists [], all_pages; split; [apply pmm_boot_rep|done]).
  assert (length all_pages = 32%nat) as Hlen by (vm_compute; reflexivity).
  destruct (pa_alloc _ _ Ho) as (p & l & s & _ & Hl & Ho' & _ & Hz); [by intros E; rewrite E in Hlen|].
  destruct (pa_owns_ok _ _ Ho) as [Hnd Hok]. rewrite Hl in Hnd, Hok. apply NoDup_cons in Hnd as [Hnin _].
  apply Forall_cons in Hok as [Hp _].
  assert (length l = 31%nat) as Hlen' by (apply Permutation_length in Hl; simpl in Hl; lia).
  exists p, (mk_guard _ (mk_heap _ (mk_vmm _ s (mk_as (phys_to_virt p) p) (2 ^ 46 - 1) p []) 0 HEAP_START) 0), {[ [] := p ]}, l.
  split; [|split; [by vm_compute|rewrite Hlen'; by vm_compute]]. split; [split; [split|..]|..].
  - exact Ho'.
  - apply pt_wf_empty; [done|]. intros i _ Hi. by apply (page_zero_ld64 _ p).
  - intros π q [_ <-]%lookup_singleton_Some. done.
  - reflexivity.
  - exists 46. split; [lia|]. split; [reflexivity|by vm_compute].
  - by vm_compute.
  - split; [reflexivity|by vm_compute].
  - reflexivity.
  - intros b Hb. destruct (not_elem_of_nil _ Hb).
Qed.

Lemma guard_kmalloc_safe_witness : ∃ g p g', guard_kmalloc 100 g = Done (p, g') ∧ p mod PAGE_SIZE = 0
  ∧ mapped (g_heap g') (p + 99) ∧ ¬ mapped (g_heap g') (p - 1).
Proof.
  destruct guard_boot as (root & g & T & l & Hinv & Hroom).
  destruct (guard_kmalloc_safe root g T l [] 100 Hinv ltac:(lia) Hroom)
    as (p & size & g' & T' & l' & Hk & _ & Hs & _ & Hal & _ & Hm & Hn & _).
  exists g, p, g'. split; [exact Hk|]. split; [exact Hal|]. split; [apply Hm; lia|apply Hn; left; unfold PAGE_SIZE; lia].
Defined.
End GuardWitness.
