(* ===== verification/CString.v ===== *)
(** * C strings: src/kernel_common/c_generic/string.c and itoa.c

    The loops of string.c over the byte memory, and the relation [cstr] between
    a NUL-terminated string in memory and a [string] of the model. Each routine
    is proved to compute the function on strings that the file system code is
    modelled with. [itoa] is proved to write the numeral of its argument. *)
From S2P Require Import Prelude CMem.

(** A character as its unsigned byte. *)
Definition code (c : Ascii.ascii) : Z := Z.of_N (Ascii.N_of_ascii c).

(** Memory at [p] holds [s] and a NUL. *)
Fixpoint cstr (m : mem) (p : Z) (s : string) : Prop :=
  match s with
  | EmptyString => ldb m p = 0
  | String c s' => ldb m p = code c ∧ code c ≠ 0 ∧ cstr m (p + 1) s'
  end.

(** while (str[len]) len++; *)
Fixpoint strlen_loop (fuel : nat) (m : mem) (str len : Z) : outcome Z :=
  if ldb m (str + len) =? 0 then Done len
  else match fuel with
  | O => OutOfFuel
  | S k => strlen_loop k m str (len + 1)
  end.
Definition strlen (fuel : nat) (m : mem) (str : Z) : outcome Z := strlen_loop fuel m str 0.

(** while (( *dest++ = *src++)); *)
Fixpoint strcpy_loop (fuel : nat) (m : mem) (dest src : Z) : outcome mem :=
  let c := ldb m src in
  let m := stb dest c m in
  if c =? 0 then Done m
  else match fuel with
  | O => OutOfFuel
  | S k => strcpy_loop k m (dest + 1) (src + 1)
  end.
Definition strcpy (fuel : nat) (dest src : Z) (m : mem) : outcome mem := strcpy_loop fuel m dest src.

Fixpoint strcmp (fuel : nat) (m : mem) (a b : Z) : outcome Z :=
  if negb (ldb m a =? 0) && (ldb m a =? ldb m b) then
    match fuel with
    | O => OutOfFuel
    | S k => strcmp k m (a + 1) (b + 1)
    end
  else Done (ldb m a - ldb m b).

(** The address found, or 0 (NULL). *)
Fixpoint strchr (fuel : nat) (m : mem) (s c : Z) : outcome Z :=
  let ch := u8 c in
  if negb (ldb m s =? 0) then
    if ldb m s =? ch then Done s
    else match fuel with
    | O => OutOfFuel
    | S k => strchr k m (s + 1) c
    end
  else if ch =? 0 then Done s else Done 0.

(** The two loops of strncpy, [k] bytes being left. *)
Fixpoint strncpy_pad (k : nat) (i dest : Z) (m : mem) : mem :=
  match k with
  | O => m
  | S k' => strncpy_pad k' (i + 1) dest (stb (dest + i) 0 m)
  end.
Fixpoint strncpy_loop (k : nat) (i dest src : Z) (m : mem) : mem :=
  match k with
  | O => m
  | S k' =>
      if ldb m (src + i) =? 0 then strncpy_pad k i dest m
      else strncpy_loop k' (i + 1) dest src (stb (dest + i) (ldb m (src + i)) m)
  end.
Definition strncpy (dest src n : Z) (m : mem) : mem := strncpy_loop (Z.to_nat n) 0 dest src m.

(** static const char *digits *)
Definition digits : list Z :=
  [48; 49; 50; 51; 52; 53; 54; 55; 56; 57; 97; 98; 99; 100; 101; 102].
Definition digit (d : Z) : Z := default 0 (digits !! Z.to_nat d).

(** while (value) { tmp[i++] = digits[value % base]; value /= base; } *)
Fixpoint itoa_digits (fuel : nat) (value base : Z) (tmp : list Z) : outcome (list Z) :=
  if value =? 0 then Done tmp
  else match fuel with
  | O => OutOfFuel
  | S k => itoa_digits k (value / base) base (tmp ++ [digit (value mod base)])
  end.

(** while (i--) buffer[j++] = tmp[i]; *)
Fixpoint itoa_reverse (i : nat) (j : Z) (tmp : list Z) (buffer : Z) (m : mem) : mem :=
  match i with
  | O => stb (buffer + j) 0 m
  | S k => itoa_reverse k (j + 1) tmp buffer (stb (buffer + j) (default 0 (tmp !! k)) m)
  end.

(** [tmp] has 65 bytes. *)
Definition itoa (value buffer base : Z) (m : mem) : outcome mem :=
  if value =? 0 then Done (stb (buffer + 1) 0 (stb buffer 48 m))
  else
    tmp ← itoa_digits 65 value base [];
    Done (itoa_reverse (length tmp) 0 tmp buffer m).

(** ** The functions on strings *)

Fixpoint str_cmp (s t : string) : Z :=
  match s, t with
  | EmptyString, EmptyString => 0
  | EmptyString, String d _ => - code d
  | String c _, EmptyString => code c
  | String c s', String d t' => if code c =? code d then str_cmp s' t' else code c - code d
  end.

(** The index of the first [c] in [s]. *)
Fixpoint str_index (c : Z) (s : string) : option nat :=
  match s with
  | EmptyString => if c =? 0 then Some O else None
  | String d s' => if code d =? c then Some O else S <$> str_index c s'
  end.

(** The number a list of digit characters stands for, most significant first. *)
Definition digit_value (c : Z) : Z := if c <? 58 then c - 48 else c - 87.
Definition numeral (base : Z) (cs : list Z) : Z :=
  fold_left (λ v c, v * base + digit_value c) cs 0.

(** ** Lemmas *)

Lemma code_range c : 0 ≤ code c < 256.
Proof.
  unfold code. pose proof (Ascii.N_ascii_bounded c). lia.
Qed.

Lemma code_inj c d : code c = code d → c = d.
Proof.
  unfold code. intros E%N2Z.inj. rewrite <- (Ascii.ascii_N_embedding c), E.
  apply Ascii.ascii_N_embedding.
Qed.

Fixpoint nul_free (s : string) : Prop :=
  match s with EmptyString => True | String c s' => code c ≠ 0 ∧ nul_free s' end.

Lemma cstr_nul_free m p s : cstr m p s → nul_free s.
Proof. revert p. induction s; simpl; naive_solver. Qed.

Lemma str_cmp_eq s t : nul_free s → nul_free t → str_cmp s t = 0 ↔ s = t.
Proof.
  revert t. induction s as [|c s IH]; intros [|d t]; simpl; [done| | |].
  - intros _ [? _]. split; [lia|done].
  - intros [? _] _. split; [lia|done].
  - intros [_ Hs] [_ Ht]. destruct (Z.eqb_spec (code c) (code d)) as [E|E].
    + apply code_inj in E. subst. rewrite (IH t) by done. split; [by intros ->|by intros [= ->]].
    + split; [lia|]. by intros [= -> ->].
Qed.

Lemma cstr_ext m m' p s :
  (∀ b, p ≤ b ≤ p + Z.of_nat (String.length s) → ldb m' b = ldb m b) → cstr m p s → cstr m' p s.
Proof.
  revert p. induction s as [|c s IH]; intros p He; simpl.
  - rewrite He; [done|simpl; lia].
  - intros (Hc & Hn & Hs). rewrite He by lia. split; [done|]. split; [done|].
    apply IH; [|done]. intros b Hb. apply He. simpl. lia.
Qed.

Lemma strlen_ok fuel m p s : cstr m p s → (String.length s ≤ fuel)%nat →
  strlen fuel m p = Done (Z.of_nat (String.length s)).
Proof.
  unfold strlen. intros Hs Hf.
  assert (∀ i, 0 ≤ i → cstr m (p + i) s → strlen_loop fuel m p i = Done (i + Z.of_nat (String.length s))) as Hg.
  { clear Hs. revert s Hf. induction fuel as [|k IH]; intros s Hf i Hi Hs.
    - destruct s; [|simpl in Hf; lia]. simpl in *. rewrite Hs. simpl. f_equal. lia.
    - destruct s as [|c s]; simpl in *.
      + rewrite Hs. simpl. f_equal. lia.
      + destruct Hs as (Hc & Hn & Hs). destruct (Z.eqb_spec (ldb m (p + i)) 0); [congruence|].
        rewrite (IH s) by (lia || by rewrite Z.add_assoc). f_equal. lia. }
  rewrite (Hg 0); [done|lia|by rewrite Z.add_0_r].
Qed.

Lemma strcmp_ok fuel m a b s t : cstr m a s → cstr m b t → (String.length s ≤ fuel)%nat →
  strcmp fuel m a b = Done (str_cmp s t).
Proof.
  revert a b s t. induction fuel as [|k IH]; intros a b s t Hs Ht Hf.
  - destruct s; [|simpl in Hf; lia]. simpl in Hs |- *. rewrite Hs. simpl.
    destruct t; simpl in Ht; [by rewrite Ht|]. destruct Ht as (-> & _). done.
  - destruct s as [|c s], t as [|d t]; simpl in Hs, Ht |- *.
    + by rewrite Hs, Ht.
    + rewrite Hs. simpl. by destruct Ht as (-> & _).
    + destruct Hs as (-> & Hn & _). rewrite Ht.
      destruct (Z.eqb_spec (code c) 0); [done|]. simpl. f_equal. lia.
    + destruct Hs as (-> & Hn & Hs), Ht as (-> & _ & Ht).
      destruct (Z.eqb_spec (code c) 0); [done|]. simpl.
      destruct (code c =? code d); [|done]. apply IH; [done|done|simpl in Hf; lia].
Qed.

Lemma strchr_ok fuel m p s c : cstr m p s → 0 ≤ c < 256 → (String.length s ≤ fuel)%nat →
  strchr fuel m p c = Done (match str_index c s with Some i => p + Z.of_nat i | None => 0 end).
Proof.
  intros Hs Hc. revert p s Hs. induction fuel as [|k IH]; intros p s Hs Hf;
    destruct s as [|d s]; try (simpl in Hf; lia); simpl in Hs |- *;
    (assert (u8 c = c) as -> by (apply Z.mod_small; lia)).
  - rewrite Hs. simpl. destruct (c =? 0); [f_equal; lia|done].
  - rewrite Hs. simpl. destruct (c =? 0); [f_equal; lia|done].
  - destruct Hs as (-> & Hn & Hs). destruct (Z.eqb_spec (code d) 0); [done|]. simpl.
    destruct (code d =? c); [f_equal; lia|].
    rewrite (IH _ _ Hs) by (simpl in Hf; lia). destruct (str_index c s); simpl; [f_equal; lia|done].
Qed.

Lemma strcpy_ok fuel m dest src s : cstr m src s → (String.length s ≤ fuel)%nat →
  (let n := Z.of_nat (String.length s) in dest + n < src ∨ src + n < dest) →
  ∃ m', strcpy fuel dest src m = Done m' ∧ cstr m' dest s
    ∧ (∀ b, b < dest ∨ dest + Z.of_nat (String.length s) < b → ldb m' b = ldb m b).
Proof.
  unfold strcpy. revert m dest src s. induction fuel as [|k IH]; intros m dest src s Hs Hf Hd.
  - destruct s; [|simpl in Hf; lia]. simpl in *. rewrite Hs. simpl. eexists. split; [done|].
    split; [by rewrite ldb_stb_eq|]. intros b Hb. apply ldb_stb_ne. lia.
  - destruct s as [|c s]; simpl in Hs, Hd |- *.
    + rewrite Hs. simpl. eexists. split; [done|].
      split; [by rewrite ldb_stb_eq|]. intros b Hb. apply ldb_stb_ne. lia.
    + destruct Hs as (-> & Hn & Hs). destruct (Z.eqb_spec (code c) 0); [done|].
      destruct (IH (stb dest (code c) m) (dest + 1) (src + 1) s) as (m' & Hc & Hs' & Hm);
        [|simpl in Hf; lia|lia|].
      { eapply cstr_ext; [|done]. intros b Hb. apply ldb_stb_ne. lia. }
      exists m'. split; [done|]. split.
      * rewrite Hm by lia. rewrite ldb_stb_eq. split; [|done].
        unfold u8. rewrite Z.mod_small; [done|]. apply code_range.
      * intros b Hb. rewrite Hm by lia. apply ldb_stb_ne. lia.
Qed.

Definition char_at (s : string) (i : Z) : Z :=
  match String.get (Z.to_nat i) s with Some c => code c | None => 0 end.

Lemma cstr_char_at m p s i : cstr m p s → 0 ≤ i ≤ Z.of_nat (String.length s) →
  ldb m (p + i) = char_at s i ∧ (char_at s i = 0 ↔ i = Z.of_nat (String.length s)).
Proof.
  unfold char_at. revert p i. induction s as [|c s IH]; intros p i Hs Hi.
  - simpl in *. replace (p + i) with p by lia. rewrite Hs. split; [by destruct (Z.to_nat i)|].
    split; [lia|]. intros. by destruct (Z.to_nat i).
  - destruct Hs as (Hc & Hn & Hs). destruct (decide (i = 0)) as [->|Hne].
    + simpl. rewrite Z.add_0_r, Hc. split; [done|]. split; [done|]. lia.
    + replace (Z.to_nat i) with (S (Z.to_nat (i - 1))) by lia. simpl in Hi |- *.
      replace (p + i) with (p + 1 + (i - 1)) by lia.
      destruct (IH (p + 1) (i - 1) Hs) as [-> Hz]; [lia|]. split; [done|]. rewrite Hz. lia.
Qed.

Lemma char_at_end s i : Z.of_nat (String.length s) ≤ i → char_at s i = 0.
Proof.
  unfold char_at. revert i. induction s as [|c s IH]; intros i Hi.
  - by destruct (Z.to_nat i).
  - simpl in Hi. replace (Z.to_nat i) with (S (Z.to_nat (i - 1))) by lia. simpl. apply IH. lia.
Qed.

Lemma ldb_strncpy_pad k i dest m b : 0 ≤ i →
  ldb (strncpy_pad k i dest m) b = if decide (dest + i ≤ b < dest + i + Z.of_nat k) then 0 else ldb m b.
Proof.
  revert i m. induction k as [|k IH]; intros i m Hi; simpl.
  - rewrite decide_False by lia. done.
  - rewrite IH, ldb_stb by lia. repeat case_decide; try lia; done.
Qed.

Lemma ldb_strncpy_loop k i dest src s m b : 0 ≤ i ≤ Z.of_nat (String.length s) → cstr m src s →
  (dest + i + Z.of_nat k ≤ src ∨ src + Z.of_nat (String.length s) < dest) →
  ldb (strncpy_loop k i dest src m) b =
    if decide (dest + i ≤ b < dest + i + Z.of_nat k) then char_at s (b - dest) else ldb m b.
Proof.
  revert i m. induction k as [|k IH]; intros i m Hi Hs Hd.
  - simpl. rewrite decide_False by lia. done.
  - simpl. destruct (cstr_char_at m src s i Hs Hi) as [Hc Hz].
    destruct (Z.eqb_spec (ldb m (src + i)) 0) as [E|E].
    + rewrite Hc in E. apply Hz in E. subst i. rewrite ldb_strncpy_pad, ldb_stb by lia.
      repeat case_decide; try lia; try done; subst; rewrite ?char_at_end by lia; done.
    + assert (i < Z.of_nat (String.length s)) by (rewrite Hc, Hz in E; lia).
      rewrite IH; [|lia| |lia].
      * rewrite ldb_stb. repeat case_decide; try lia; try done. subst.
        replace (dest + i - dest) with i by lia. rewrite <- Hc. apply Z.mod_small, ldb_range.
      * eapply cstr_ext; [|done]. intros c Hcr. apply ldb_stb_ne. lia.
Qed.

(** ** Properties of string.c *)

(** Strcmp decides equality of strings: on two NUL-terminated strings it
    terminates with the difference of the first bytes that differ, which is 0
    exactly when the strings are equal. *)
Theorem strcmp_spec fuel m a b s t :
  cstr m a s → cstr m b t → (String.length s ≤ fuel)%nat →
  strcmp fuel m a b = Done (str_cmp s t) ∧ (str_cmp s t = 0 ↔ s = t).
Proof.
  intros Hs Ht Hf. split; [by apply strcmp_ok|].
  apply str_cmp_eq; [by eapply cstr_nul_free|by eapply cstr_nul_free].
Qed.

(** Strcpy makes [dest] a copy of the string at [src] and strncpy fills
    exactly [n] bytes with the string's characters and zeros after its end,
    when source and destination do not overlap; neither writes elsewhere. *)
Theorem strcpy_strncpy_spec fuel m dest src s n :
  cstr m src s → (String.length s ≤ fuel)%nat → 0 ≤ n →
  (let len := Z.of_nat (String.length s) in
   (dest + Z.max len n < src ∨ src + len < dest) →
   (∃ m', strcpy fuel dest src m = Done m' ∧ cstr m' dest s
      ∧ ∀ b, b < dest ∨ dest + len < b → ldb m' b = ldb m b)
   ∧ ∀ b, ldb (strncpy dest src n m) b =
       if decide (dest ≤ b < dest + n) then char_at s (b - dest) else ldb m b).
Proof.
  intros Hs Hf Hn len Hd. split; [by apply (strcpy_ok fuel m dest src s); simpl; [..|lia]|].
  intros b. unfold strncpy. rewrite (ldb_strncpy_loop _ _ _ _ s) by (done || lia).
  replace (dest + 0) with dest by lia. by rewrite Z2Nat.id by lia.
Qed.

(** ** itoa *)

Lemma digit_ok d : 0 ≤ d < 16 → digit_value (digit d) = d ∧ 0 ≤ digit d < 256 ∧ (digit d = 48 → d = 0).
Proof.
  intros Hd. assert (∃ n, (n < 16)%nat ∧ d = Z.of_nat n) as (n & Hn & ->).
  { exists (Z.to_nat d). lia. }
  do 16 (destruct n as [|n]; [by vm_compute|]). lia.
Qed.

Lemma numeral_snoc base cs c : numeral base (cs ++ [c]) = numeral base cs * base + digit_value c.
Proof. unfold numeral. by rewrite fold_left_app. Qed.

(** The digits of [v], least significant first. *)
Record digits_of (base v : Z) (ds : list Z) : Prop := {
  do_value : numeral base (reverse ds) = v;
  do_digits : Forall (λ c, 0 ≤ c < 256 ∧ 0 ≤ digit_value c < base) ds;
  do_leading : if decide (v = 0) then ds = [] else head (reverse ds) ≠ Some 48;
}.

Lemma digits_of_cons base v ds : 2 ≤ base ≤ 16 → 0 < v → digits_of base (v / base) ds →
  digits_of base v (digit (v mod base) :: ds).
Proof.
  intros Hb Hv [Hval Hds Hl].
  destruct (digit_ok (v mod base)) as (Hd & Hr & H0); [pose proof (Z.mod_pos_bound v base); lia|].
  split.
  - rewrite reverse_cons, numeral_snoc, Hval, Hd. pose proof (Z.div_mod v base). lia.
  - constructor; [|done]. rewrite Hd. pose proof (Z.mod_pos_bound v base). lia.
  - rewrite decide_False by lia. rewrite reverse_cons. case_decide as E.
    + subst ds. simpl. intros [= H48]. apply H0 in H48. pose proof (Z.div_mod v base). lia.
    + by destruct (reverse ds).
Qed.

Lemma itoa_digits_ok fuel v base tmp : 2 ≤ base ≤ 16 → 0 ≤ v < base ^ Z.of_nat fuel →
  ∃ ds, itoa_digits fuel v base tmp = Done (tmp ++ ds) ∧ digits_of base v ds ∧ (length ds ≤ fuel)%nat.
Proof.
  intros Hb. revert v tmp. induction fuel as [|k IH]; intros v tmp Hv.
  - assert (v = 0) as -> by (simpl in Hv; lia). exists []. rewrite app_nil_r. split; [done|].
    split; [split; done|done].
  - simpl. destruct (Z.eqb_spec v 0) as [->|Hne].
    { exists []. rewrite app_nil_r. split; [done|]. split; [by split|simpl; lia]. }
    destruct (IH (v / base) (tmp ++ [digit (v mod base)])) as (ds & -> & Hds & Hlen).
    { rewrite Nat2Z.inj_succ, Z.pow_succ_r in Hv by lia.
      split; [apply Z.div_pos; lia|apply Z.div_lt_upper_bound; lia]. }
    exists (digit (v mod base) :: ds). rewrite <- (assoc app). split; [done|].
    split; [apply digits_of_cons; [done|lia|done]|simpl; lia].
Qed.

Lemma itoa_digits_mono fuel fuel' v base tmp ds : (fuel ≤ fuel')%nat →
  itoa_digits fuel v base tmp = Done ds → itoa_digits fuel' v base tmp = Done ds.
Proof.
  revert fuel' v tmp. induction fuel as [|k IH]; intros [|k'] v tmp Hle; simpl;
    destruct (v =? 0); try done; try lia. apply IH. lia.
Qed.

Lemma ldb_itoa_reverse tmp buffer i j m b : (i ≤ length tmp)%nat → 0 ≤ j →
  Forall (λ c, 0 ≤ c < 256) tmp →
  ldb (itoa_reverse i j tmp buffer m) b =
    if decide (buffer + j ≤ b < buffer + j + Z.of_nat i)
    then default 0 (reverse (take i tmp) !! Z.to_nat (b - buffer - j))
    else if decide (b = buffer + j + Z.of_nat i) then 0 else ldb m b.
Proof.
  intros Hi Hj Ht. revert j m Hi Hj. induction i as [|i IH]; intros j m Hi Hj.
  - simpl. rewrite ldb_stb. repeat case_decide; try lia; done.
  - simpl itoa_reverse. rewrite IH, ldb_stb by lia.
    destruct (lookup_lt_is_Some_2 tmp i Hi) as [c Hc].
    assert (0 ≤ c < 256) as Hcr by (by eapply (Forall_lookup_1 _ _ _ _ Ht)).
    rewrite (take_S_r _ _ _ Hc), reverse_app, Hc. simpl. fold (@reverse Z).
    repeat case_decide; try lia; try done.
    + replace (Z.to_nat (b - buffer - j)) with (S (Z.to_nat (b - buffer - (j + 1)))) by lia. done.
    + subst. replace (Z.to_nat (buffer + j - buffer - j)) with O by lia. simpl. by apply Z.mod_small.
Qed.

(** Itoa writes the numeral of its argument: for bases 2 to 16 it terminates
    within its 65-byte scratch array and leaves in [buffer] a NUL-terminated
    list of at most 64 digits below the base, without a leading zero, whose
    value is the argument; nothing outside the numeral is written. *)
Theorem itoa_numeral value buffer base m :
  2 ≤ base ≤ 16 → 0 < value < 2 ^ 64 →
  ∃ m' cs, itoa value buffer base m = Done m'
    ∧ bytes m' buffer (S (length cs)) = cs ++ [0]
    ∧ numeral base cs = value ∧ Forall (λ c, 0 ≤ digit_value c < base) cs
    ∧ head cs ≠ Some 48 ∧ (length cs ≤ 64)%nat
    ∧ (∀ b, b < buffer ∨ buffer + Z.of_nat (length cs) < b → ldb m' b = ldb m b).
Proof.
  intros Hb Hv.
  assert (2 ^ 64 ≤ base ^ 64) as Hp by (apply Z.pow_le_mono_l; lia).
  destruct (itoa_digits_ok 64 value base []) as (ds & Hds & [Hval Hdig Hlead] & Hlen); [done|lia|].
  rewrite decide_False in Hlead by lia.
  assert (Forall (λ c, 0 ≤ c < 256) ds) as Hr by (eapply Forall_impl; [done|]; naive_solver).
  pose proof (itoa_digits_mono 64 65 value base [] ds ltac:(lia) Hds) as Hds'.
  assert (∀ b, ldb (itoa_reverse (length ds) 0 ds buffer m) b =
    if decide (buffer ≤ b < buffer + Z.of_nat (length ds))
    then default 0 (reverse ds !! Z.to_nat (b - buffer))
    else if decide (b = buffer + Z.of_nat (length ds)) then 0 else ldb m b) as Hm.
  { intros b. rewrite ldb_itoa_reverse by (done || lia). rewrite take_ge by lia.
    by rewrite !Z.add_0_r, Z.sub_0_r. }
  exists (itoa_reverse (length ds) 0 ds buffer m), (reverse ds). rewrite length_reverse.
  split; [|split; [|split; [exact Hval|split; [|split; [exact Hlead|split; [exact Hlen|]]]]]].
  - unfold itoa. destruct (Z.eqb_spec value 0); [lia|]. by rewrite Hds'.
  - apply list_eq_same_length with (n := S (length ds));
      [by rewrite length_app, length_reverse, Nat.add_1_r|by rewrite length_bytes|].
    intros i x y Hi. rewrite lookup_bytes by lia. rewrite Hm. intros [= <-].
    destruct (decide (i < length ds)%nat).
    + rewrite decide_True by lia. rewrite lookup_app_l by (by rewrite length_reverse).
      replace (Z.to_nat (buffer + Z.of_nat i - buffer)) with i by lia. by intros ->.
    + rewrite decide_False, decide_True by lia. rewrite lookup_app_r by (rewrite length_reverse; lia).
      rewrite length_reverse. replace (i - length ds)%nat with O by lia. simpl. by intros [= <-].
  - apply Forall_reverse. eapply Forall_impl; [exact Hdig|]. naive_solver.
  - intros b Hb'. rewrite Hm, !decide_False by lia. done.
Qed.

Module CStringWitness.

Definition demo_mem : mem :=
  stb 104 0 (stb 103 0 (stb 102 98 (stb 101 47 (stb 100 97 (stb 200 97 ∅))))).

Lemma demo_cstr : cstr demo_mem 100 "a/b" ∧ cstr demo_mem 200 "a".
Proof. by vm_compute. Qed.

Lemma strcmp_spec_witness :
  strcmp 3 demo_mem 100 200 = Done (str_cmp "a/b" "a") ∧ (str_cmp "a/b" "a" = 0 ↔ "a/b" = "a"%string).
Proof. apply strcmp_spec; [apply demo_cstr|apply demo_cstr|simpl; lia]. Defined.

Lemma strcpy_strncpy_spec_witness : ∃ m', strcpy 3 300 100 demo_mem = Done m' ∧ cstr m' 300 "a/b".
Proof.
  destruct (strcpy_strncpy_spec 3 demo_mem 300 100 "a/b" 5 (proj1 demo_cstr) ltac:(simpl; lia)
    ltac:(lia)) as [(m' & Hc & Hs & _) _]; [simpl; lia|].
  exists m'. split; [exact Hc|exact Hs].
Defined.

Lemma itoa_numeral_witness :
  ∃ m' cs, itoa 2025 0x1000 10 ∅ = Done m' ∧ bytes m' 0x1000 (S (length cs)) = cs ++ [0]
    ∧ numeral 10 cs = 2025.
Proof.
  destruct (itoa_numeral 2025 0x1000 10 ∅ ltac:(lia) ltac:(lia)) as (m' & cs & Hi & Hb & Hn & _).
  exists m', cs. split; [exact Hi|]. split; [exact Hb|exact Hn].
Defined.
End CStringWitness.
