(* ===== verification/Term.v ===== *)
(** * The serial terminal: src/kernel_common/terminal.c

    Port writes are logged; the line-status register is the hardware's, a
    stream of values of which one in every [lsr_bound] reports an empty
    transmitter. The number printers are proved to print the numeral of their
    argument. [std_write], the write operation of /dev/stdout, is here too. *)
From S2P Require Import Prelude CMem CString.

Definition SERIAL_PORT : Z := 0x3F8.

(** The UART: the value the [i]th read of its line-status register returns.
    Bit 5 (transmitter empty) comes back after at most [lsr_bound] reads. *)
Class Uart := {
  lsr : nat → Z;
  lsr_bound : nat;
  lsr_ready : ∀ i, ∃ j, (i ≤ j < i + lsr_bound)%nat ∧ Z.land (lsr j) 0x20 ≠ 0;
}.

Record term_state := mk_term {
  terminal_ready : bool;
  lsr_reads : nat;
  port_log : list (Z * Z);     (* outb(port, value), in order *)
}.

Section term.
Context `{Uart}.

Definition outb (port v : Z) : M term_state unit :=
  modify (λ t, mk_term (terminal_ready t) (lsr_reads t) (port_log t ++ [(port, u8 v)])).

(** while ((inb(SERIAL_PORT + 5) & 0x20) == 0) ; *)
Definition terminal_wait : M term_state unit := λ t,
  i ← loop (λ i, Z.land (lsr i) 0x20 =? 0) (λ i, Done (S i)) lsr_bound (lsr_reads t);
  Done (tt, mk_term (terminal_ready t) (S i) (port_log t)).

Definition terminal_putc_raw (c : Z) : M term_state unit :=
  _ ← terminal_wait; outb SERIAL_PORT (u8 c).

Definition set_ready : M term_state unit :=
  modify (λ t, mk_term true (lsr_reads t) (port_log t)).

Definition terminal_init : M term_state unit :=
  _ ← outb (SERIAL_PORT + 1) 0x00;
  _ ← outb (SERIAL_PORT + 3) 0x80;
  _ ← outb (SERIAL_PORT + 0) 0x03;
  _ ← outb (SERIAL_PORT + 1) 0x00;
  _ ← outb (SERIAL_PORT + 3) 0x03;
  _ ← outb (SERIAL_PORT + 2) 0xC7;
  _ ← outb (SERIAL_PORT + 4) 0x0B;
  set_ready.

Definition terminal_putc (c : Z) : M term_state unit :=
  r ← gets terminal_ready;
  _ ← (if negb r then terminal_init else mret tt);
  _ ← (if c =? 10 then terminal_putc_raw 13 else mret tt);
  terminal_putc_raw c.

Definition terminal_puts (cs : list Z) : M term_state unit := for_each cs terminal_putc.

(** A string constant of the program. *)
Definition chars (s : string) : list Z := code <$> String.list_ascii_of_string s.
Definition terminal_write (s : string) : M term_state unit := terminal_puts (chars s).

(** while (value > 0 && i < sizeof(buffer)) buffer[i++] = '0' + value % 10, value /= 10; *)
Fixpoint decimal_digits (room : nat) (value : Z) : list Z :=
  match room with
  | O => []
  | S k => if 0 <? value then 48 + value mod 10 :: decimal_digits k (value / 10) else []
  end.

(** while (i > 0) terminal_putc(buffer[--i]); *)
Definition print_back (buffer : list Z) : M term_state unit := terminal_puts (reverse buffer).

Definition terminal_write_u64 (value : Z) : M term_state unit :=
  if value =? 0 then terminal_putc 48 else print_back (decimal_digits 21 value).

Definition terminal_write_u8 (value : Z) : M term_state unit :=
  if value =? 0 then terminal_putc 48 else print_back (decimal_digits 4 value).

Definition hex_digits (shifts : list Z) (value : Z) : list Z :=
  (λ shift, digit (Z.land (Z.shiftr value shift) 0xF)) <$> shifts.

Definition terminal_write_hex_u64 (value : Z) : M term_state unit :=
  _ ← terminal_write "0x";
  terminal_puts (hex_digits [60;56;52;48;44;40;36;32;28;24;20;16;12;8;4;0] value).

Definition terminal_write_hex_u8 (value : Z) : M term_state unit :=
  _ ← terminal_write "0x";
  terminal_puts (hex_digits [4; 0] value).

(** std_write, [buffer] being the bytes it is given. [char] is signed. *)
Definition std_write (offset : Z) (buffer : list Z) (size : Z) : M term_state Z :=
  _ ← terminal_write_u64 offset;
  _ ← terminal_write_u64 (u64 (offset + size));
  _ ← terminal_write ": ";
  _ ← for_each buffer (λ c,
        if (32 <=? c) && (c <=? 126) then terminal_putc c else terminal_write_hex_u8 c);
  mret 0.

Definition do_sys_term (c : Z) : M term_state Z := _ ← terminal_putc c; mret 0.

(** ** What reaches the serial line *)

Definition putc_out (c : Z) : list Z := if c =? 10 then [13; c] else [c].
Definition puts_out (cs : list Z) : list Z := cs ≫= putc_out.

Definition init_log : list (Z * Z) :=
  [(0x3F9, 0x00); (0x3FB, 0x80); (0x3F8, 0x03); (0x3F9, 0x00); (0x3FB, 0x03); (0x3FA, 0xC7); (0x3FC, 0x0B)].

(** From [t] to [t'] the line was set up if it was not, and [cs] was sent. *)
Definition sent (t t' : term_state) (cs : list Z) : Prop :=
  terminal_ready t' = (terminal_ready t || negb (bool_decide (cs = [])))
  ∧ port_log t' = port_log t
      ++ (if terminal_ready t || bool_decide (cs = []) then [] else init_log)
      ++ ((λ c, (SERIAL_PORT, u8 c)) <$> cs).

Lemma sent_nil t : sent t t [].
Proof. unfold sent. simpl. rewrite orb_false_r, orb_true_r, app_nil_r. done. Qed.

Lemma sent_trans t1 t2 t3 a b : sent t1 t2 a → sent t2 t3 b → sent t1 t3 (a ++ b).
Proof.
  intros [Hr Hl] [Hr' Hl']. unfold sent. rewrite Hr', Hr, Hl', Hl, Hr. rewrite fmap_app.
  destruct (terminal_ready t1) eqn:E; simpl.
  - split; [done|]. by rewrite (assoc app).
  - destruct a as [|x a]; simpl; [destruct b; simpl; by rewrite ?app_nil_r|].
    split; [done|]. rewrite <- !(assoc app). done.
Qed.

Lemma terminal_wait_ok t : ∃ t', terminal_wait t = Done (tt, t') ∧ terminal_ready t' = terminal_ready t
  ∧ port_log t' = port_log t.
Proof.
  destruct (lsr_ready (lsr_reads t)) as (j & Hj & Hrdy).
  destruct (loop_total (λ i, Z.land (lsr i) 0x20 =? 0) (λ i, Done (S i))
    (λ i, (i ≤ j)%nat) (λ i, (j - i)%nat) lsr_bound (lsr_reads t)) as (i & Hl & _ & _).
  - intros i Hi Hc. exists (S i). split; [done|]. destruct (decide (i = j)) as [->|]; [|lia].
    by apply Z.eqb_eq in Hc.
  - lia.
  - lia.
  - eexists. unfold terminal_wait. rewrite Hl. done.
Qed.

Lemma terminal_putc_raw_ok t c : ∃ t', terminal_putc_raw c t = Done (tt, t')
  ∧ terminal_ready t' = terminal_ready t ∧ port_log t' = port_log t ++ [(SERIAL_PORT, u8 c)].
Proof.
  destruct (terminal_wait_ok t) as (t1 & Hw & Hr & Hl). eexists. unfold terminal_putc_raw.
  rewrite (bind_Done _ _ _ _ _ Hw). split; [done|]. simpl. rewrite Hl. split; [done|].
  unfold u8. by rewrite Z.mod_mod.
Qed.

Lemma terminal_init_ok t : ∃ t', terminal_init t = Done (tt, t')
  ∧ terminal_ready t' = true ∧ port_log t' = port_log t ++ init_log.
Proof.
  eexists. split; [reflexivity|]. simpl. split; [done|]. by rewrite <- !(assoc app).
Qed.

Lemma terminal_putc_ok t c : ∃ t', terminal_putc c t = Done (tt, t') ∧ sent t t' (putc_out c).
Proof.
  assert (∃ t1, (if negb (terminal_ready t) then terminal_init else mret tt) t = Done (tt, t1)
    ∧ terminal_ready t1 = true
    ∧ port_log t1 = port_log t ++ (if terminal_ready t then [] else init_log)) as (t1 & H1 & Hr1 & Hl1).
  { destruct (terminal_ready t) eqn:E; simpl.
    - exists t. by rewrite app_nil_r.
    - apply terminal_init_ok. }
  assert (∃ t2, (if c =? 10 then terminal_putc_raw 13 else mret tt) t1 = Done (tt, t2)
    ∧ terminal_ready t2 = true
    ∧ port_log t2 = port_log t1 ++ (if c =? 10 then [(SERIAL_PORT, u8 13)] else [])) as (t2 & H2 & Hr2 & Hl2).
  { destruct (c =? 10).
    - destruct (terminal_putc_raw_ok t1 13) as (t2 & ? & ? & ?). exists t2. by rewrite <- Hr1.
    - exists t1. by rewrite app_nil_r. }
  destruct (terminal_putc_raw_ok t2 c) as (t3 & H3 & Hr3 & Hl3). exists t3. split.
  - unfold terminal_putc. unfold mbind at 1, M_bind at 1, gets.
    rewrite (bind_Done _ _ _ _ _ H1). rewrite (bind_Done _ _ _ _ _ H2). exact H3.
  - unfold sent, putc_out. rewrite Hr3, Hr2, Hl3, Hl2, Hl1. rewrite <- !(assoc app).
    destruct (c =? 10); simpl; by destruct (terminal_ready t).
Qed.

Lemma terminal_puts_ok t cs : ∃ t', terminal_puts cs t = Done (tt, t') ∧ sent t t' (puts_out cs).
Proof.
  revert t. induction cs as [|c cs IH]; intros t; [exists t; split; [done|apply sent_nil]|].
  destruct (terminal_putc_ok t c) as (t1 & H1 & Hs1). destruct (IH t1) as (t2 & H2 & Hs2).
  exists t2. split; [|by eapply sent_trans]. unfold terminal_puts. simpl.
  by rewrite (bind_Done _ _ _ _ _ H1).
Qed.

(** Digits are sent as they are. *)
Lemma puts_out_digits cs : Forall (λ c, c ≠ 10) cs → puts_out cs = cs.
Proof.
  induction 1 as [|c cs Hc Hcs IH]; [done|]. unfold puts_out in *. rewrite bind_cons, IH.
  unfold putc_out. by destruct (Z.eqb_spec c 10).
Qed.

Lemma decimal_digits_ok room v : 0 ≤ v < 10 ^ Z.of_nat room →
  digits_of 10 v (decimal_digits room v) ∧ (length (decimal_digits room v) ≤ room)%nat
  ∧ Forall (λ c, c ≠ 10) (decimal_digits room v).
Proof.
  revert v. induction room as [|k IH]; intros v Hv; simpl.
  - assert (v = 0) as -> by (simpl in Hv; lia). split; [by split|]. split; [lia|constructor].
  - destruct (Z.ltb_spec 0 v).
    + destruct (IH (v / 10)) as (Hd & Hl & Hn).
      { rewrite Nat2Z.inj_succ, Z.pow_succ_r in Hv by lia.
        split; [apply Z.div_pos; lia|apply Z.div_lt_upper_bound; lia]. }
      assert (48 + v mod 10 = digit (v mod 10)) as ->.
      { pose proof (Z.mod_pos_bound v 10). assert (∃ n, (n < 10)%nat ∧ v mod 10 = Z.of_nat n) as (n & Hn' & ->).
        { exists (Z.to_nat (v mod 10)). lia. }
        do 10 (destruct n as [|n]; [done|]). lia. }
      split; [by apply digits_of_cons|]. split; [simpl; lia|]. constructor; [|done].
      destruct (digit_ok (v mod 10)) as (Hdv & _); [pose proof (Z.mod_pos_bound v 10); lia|].
      intros E. rewrite E in Hdv. change (digit_value 10) with (-38) in Hdv. pose proof (Z.mod_pos_bound v 10). lia.
    + assert (v = 0) as -> by lia. split; [by split|]. split; [simpl; lia|constructor].
Qed.

Lemma decimal_digits_room room v : 0 ≤ v < 10 ^ Z.of_nat room →
  decimal_digits (S room) v = decimal_digits room v.
Proof.
  revert v. induction room as [|k IH]; intros v Hv.
  - simpl in *. destruct (Z.ltb_spec 0 v); [lia|done].
  - cbn [decimal_digits]. destruct (0 <? v); [|done]. f_equal. apply IH.
    rewrite Nat2Z.inj_succ, Z.pow_succ_r in Hv by lia.
    split; [apply Z.div_pos; lia|apply Z.div_lt_upper_bound; lia].
Qed.

(** Terminal_write_u64 prints the decimal numeral of its argument on the
    serial line, at most 20 digits and without a leading zero (a single 0 for
    zero), setting the line up first if it was not; its 21-byte buffer is never
    too small, and it always terminates. *)
Theorem terminal_write_u64_prints v t : 0 ≤ v < 2 ^ 64 →
  ∃ t' cs, terminal_write_u64 v t = Done (tt, t') ∧ sent t t' cs
    ∧ numeral 10 cs = v ∧ Forall (λ c, 0 ≤ digit_value c < 10) cs
    ∧ (1 ≤ length cs ≤ 20)%nat ∧ (head cs = Some 48 → v = 0).
Proof.
  intros Hv. unfold terminal_write_u64. destruct (Z.eqb_spec v 0) as [->|Hne].
  - destruct (terminal_putc_ok t 48) as (t' & Hp & Hs). exists t', [48].
    split; [done|]. split; [done|]. split; [done|]. split; [by repeat constructor|]. by split; [simpl; lia|].
  - assert (decimal_digits 21 v = decimal_digits 20 v) as ->.
    { apply decimal_digits_room. change (Z.of_nat 20) with 20. pow2. lia. }
    destruct (decimal_digits_ok 20 v) as ([Hval Hdig Hlead] & Hl & Hn).
    { change (Z.of_nat 20) with 20. pow2. lia. }
    rewrite decide_False in Hlead by done.
    destruct (terminal_puts_ok t (reverse (decimal_digits 20 v))) as (t' & Hp & Hs).
    rewrite puts_out_digits in Hs by (by apply Forall_reverse).
    exists t', (reverse (decimal_digits 20 v)). split; [done|]. split; [done|]. split; [done|].
    split; [apply Forall_reverse; eapply Forall_impl; [exact Hdig|]; naive_solver|].
    rewrite length_reverse. split; [split; [|done]|done].
    destruct (decimal_digits 20 v); [|simpl; lia]. vm_compute in Hval. lia.
Qed.
End term.

Module TermWitness.
#[export, program] Instance idle_uart : Uart := {| lsr _ := 0x60; lsr_bound := 1 |}.
Next Obligation. intros i. exists i. split; [lia|done]. Qed.

Lemma terminal_write_u64_prints_witness :
  ∃ t' cs, terminal_write_u64 1024 (mk_term false 0 []) = Done (tt, t')
    ∧ sent (mk_term false 0 []) t' cs ∧ numeral 10 cs = 1024.
Proof.
  destruct (terminal_write_u64_prints 1024 (mk_term false 0 []) ltac:(lia))
    as (t' & cs & Hw & Hs & Hn & _).
  exists t', cs. split; [exact Hw|]. split; [exact Hs|exact Hn].
Defined.
End TermWitness.
