(* ===== verification/Fb.v ===== *)
(** * The framebuffer device: src/framebuffer/fb.c

    The operations of /dev/fb0 over the byte memory: [front] is the screen,
    [back] the kernel buffer that reads and writes address. The page-fault
    operation (fb_vma_fault) is with the other users of page tables in Vma.v. *)
From S2P Require Import Prelude CMem.

Record reddyos_framebuffer := mk_fb {
  front : Z; back : Z;
  fb_width : Z; fb_height : Z; fb_pitch : Z; fb_bpp : Z;
  fb_size : Z;
}.

Definition FB_IOCTL_FLIP : Z := 0x46420001.
Definition FB_IOCTL_CLEAR : Z := 0x46420002.
Definition FB_IOCTL_GET_INFO : Z := 0x46420003.

(** Both clamp [size] to the end of the buffer, in 64-bit arithmetic. *)
Definition fb_clamp (fb : reddyos_framebuffer) (offset size : Z) : Z :=
  if fb_size fb <? u64 (offset + size) then u64 (fb_size fb - offset) else size.

Definition fb_read (fb : reddyos_framebuffer) (offset buffer size : Z) (m : mem) : Z * mem :=
  if fb_size fb <=? offset then (0, m)
  else
    let size := fb_clamp fb offset size in
    (i32 size, memcpy buffer (u64 (back fb + offset)) size m).

(** ((u32 * ) fb->back) + offset: the offset counts 4-byte pixels here *)
Definition fb_write (fb : reddyos_framebuffer) (offset buffer size : Z) (m : mem) : Z * mem :=
  if fb_size fb <=? offset then (0, m)
  else
    let size := fb_clamp fb offset size in
    (i32 size, memcpy (u64 (back fb + 4 * offset)) buffer size m).

(** for (i = 0; i < n; i++) back[i] = color; *)
Fixpoint fb_fill (n : nat) (i back color : Z) (m : mem) : mem :=
  match n with
  | O => m
  | S k => fb_fill k (i + 1) back color (st32 (back + 4 * i) color m)
  end.

(** [fb] is None for a NULL [vnode->internal]. *)
Definition fb_ioctl (fb : option reddyos_framebuffer) (cmd arg : Z) (m : mem) : Z * mem :=
  if cmd =? FB_IOCTL_FLIP then
    (0, match fb with Some f => memcpy (front f) (back f) (fb_size f) m | None => m end)
  else if cmd =? FB_IOCTL_CLEAR then
    (0, match fb with
        | Some f => fb_fill (Z.to_nat (fb_size f / 4)) 0 (back f) (u32 arg) m
        | None => m
        end)
  else if cmd =? FB_IOCTL_GET_INFO then
    match fb with
    | None => (-1, m)
    | Some f =>
        if arg =? 0 then (-1, m)
        else (0, st64 (arg + 32) (fb_size f) (stn 2 (arg + 24) (fb_bpp f)
                  (st64 (arg + 16) (fb_pitch f) (st64 (arg + 8) (fb_height f)
                   (st64 arg (fb_width f) m)))))
    end
  else (-1, m).

(** A framebuffer whose back buffer is an object of the kernel heap. *)
Record fb_ok (fb : reddyos_framebuffer) : Prop := {
  fb_size_ok : 0 < fb_size fb < 2 ^ 31;
  fb_back_ok : 0 < back fb ∧ back fb + 4 * fb_size fb < 2 ^ 64;
}.

(** Reading /dev/fb0 stays inside the back buffer: when offset + size does
    not wrap around 64 bits, fb_read returns how many bytes are left (0 past the
    end), copies exactly those bytes of the back buffer, in order, to the
    caller's buffer, and changes nothing else. *)
Theorem fb_read_spec fb offset buffer size m :
  fb_ok fb → 0 ≤ offset → 0 ≤ size → offset + size < 2 ^ 64 →
  (let n := Z.max 0 (Z.min size (fb_size fb - offset)) in
   buffer + n ≤ back fb ∨ back fb + fb_size fb ≤ buffer →
   (fb_read fb offset buffer size m).1 = n
   ∧ bytes (fb_read fb offset buffer size m).2 buffer (Z.to_nat n) = bytes m (back fb + offset) (Z.to_nat n)
   ∧ ∀ b, b < buffer ∨ buffer + n ≤ b → ldb (fb_read fb offset buffer size m).2 b = ldb m b).
Proof.
  intros [Hs Hb] Ho Hz Hw n Hd. unfold fb_read, fb_clamp.
  destruct (Z.leb_spec (fb_size fb) offset).
  - replace n with 0 by (unfold n; lia). done.
  - rewrite (u64_small (offset + size)), (u64_small (back fb + offset)) by lia.
    assert ((if fb_size fb <? offset + size then u64 (fb_size fb - offset) else size) = n) as ->.
    { unfold n. destruct (Z.ltb_spec (fb_size fb) (offset + size)); [rewrite u64_small|]; lia. }
    assert (0 ≤ n ≤ fb_size fb - offset) by (unfold n; lia).
    cbn [fst snd]. split; [apply i32_small; lia|]. split.
    + apply bytes_ext. intros i Hi. rewrite ldb_memcpy, decide_True by lia. f_equal. lia.
    + intros b Hb'. by rewrite ldb_memcpy, decide_False by lia.
Qed.

(** Writing /dev/fb0 does not write where reading reads: a write of [size]
    bytes at [offset] lands at back + 4*offset, so a write in the last three
    quarters of the file changes memory beyond the back buffer. *)
Theorem fb_write_out_of_bounds fb offset buffer m :
  fb_ok fb → fb_size fb ≤ 4 * offset → offset < fb_size fb →
  (fb_write fb offset buffer 1 m).1 = 1
  ∧ back fb + fb_size fb ≤ back fb + 4 * offset
  ∧ ldb (fb_write fb offset buffer 1 m).2 (back fb + 4 * offset) = ldb m buffer.
Proof.
  intros [Hs Hb] Ho Ho'. unfold fb_write, fb_clamp.
  destruct (Z.leb_spec (fb_size fb) offset); [lia|].
  rewrite (u64_small (offset + 1)), (u64_small (back fb + 4 * offset)) by lia.
  destruct (Z.ltb_spec (fb_size fb) (offset + 1)); [lia|]. cbn [fst snd].
  split; [done|]. split; [lia|]. unfold memcpy. change (Z.to_nat 1) with 1%nat. cbn [copy_up].
  rewrite !Z.add_0_r, ldb_stb_eq. unfold u8. rewrite Z.mod_small; [done|]. apply ldb_range.
Qed.

Module FbWitness.
Definition demo_fb : reddyos_framebuffer := mk_fb 0x1000000 0x100000 2 2 8 32 16.

Lemma demo_fb_ok : fb_ok demo_fb.
Proof. split; by vm_compute. Qed.

Lemma fb_read_spec_witness :
  (fb_read demo_fb 12 0x5000 100 ∅).1 = 4
  ∧ bytes (fb_read demo_fb 12 0x5000 100 ∅).2 0x5000 4 = bytes ∅ 0x10000c 4.
Proof.
  destruct (fb_read_spec demo_fb 12 0x5000 100 ∅ demo_fb_ok ltac:(lia) ltac:(lia) ltac:(lia))
    as (Hr & Hb & _); [left; vm_compute; discriminate|]. split; [exact Hr|exact Hb].
Defined.

Lemma fb_write_out_of_bounds_witness :
  ldb (fb_write demo_fb 4 0x5000 1 ∅).2 (0x100000 + 16) = ldb ∅ 0x5000.
Proof.
  destruct (fb_write_out_of_bounds demo_fb 4 0x5000 ∅ demo_fb_ok ltac:(vm_compute; discriminate) ltac:(reflexivity))
    as (_ & _ & H). exact H.
Defined.
End FbWitness.
