(* ===== verification/Vfs.v ===== *)
(** * The virtual file system: src/filesystem/vfs/ and src/filesystem/fs/devfs/

    vnodes are the static objects of tarfs.c and devfs.c; a directory's
    [internal] points to one of their two arrays of 64 child pointers, a tar
    file's to its bytes, fb0's to the framebuffer. The code tells them apart by
    nothing but the path it takes, so reading one as another is [Undef] here.
    The components of this file: vfs.c, mount.c and devfs.c. *)
From Stdlib Require Import Ascii.
From S2P Require Import Prelude CMem CString Term Fb.

(** What the C library's headers define (errno, stat, seek), by value. *)
Class Abi := {
  EINVAL : Z; EBADF : Z; ENOENT : Z; ENODEV : Z; ENOMEM : Z;
  SEEK_SET : Z; SEEK_CUR : Z; SEEK_END : Z;
  S_IFDIR : Z; S_IFCHR : Z; S_IFREG : Z;
  S_RALL : Z;     (* S_IRUSR | S_IRGRP | S_IROTH *)
  S_WALL : Z;     (* S_IWUSR | S_IWGRP | S_IWOTH *)
  S_XALL : Z;     (* S_IXUSR | S_IXGRP | S_IXOTH *)
  seek_distinct : NoDup [SEEK_SET; SEEK_CUR; SEEK_END];
  errno_range : Forall (λ e, 0 < e < 4096) [EINVAL; EBADF; ENOENT; ENODEV; ENOMEM];
}.

Definition O_RDONLY : Z := 0.
Definition O_WRONLY : Z := 1.
Definition O_TRUNC : Z := 16.

Definition DEVFS_MAX_NODES : nat := 64.

(** Pointers to the static vnodes and arrays. *)
Inductive vptr := TarRoot | TarNode (i : nat) | DevRoot | DevNode (i : nat).
Inductive aptr := TarChildren | DevChildren.
#[export] Instance vptr_eq_dec : EqDecision vptr.
Proof. solve_decision. Defined.
#[export] Instance aptr_eq_dec : EqDecision aptr.
Proof. solve_decision. Defined.

(** The operation tables of the kernel, and which operations they have. *)
Inductive vnode_ops := tar_ops | fb_ops | stdin_ops | stdout_ops | stderr_ops.
#[export] Instance vnode_ops_eq_dec : EqDecision vnode_ops.
Proof. solve_decision. Defined.
Definition has_read (o : vnode_ops) : bool :=
  match o with tar_ops | fb_ops => true | _ => false end.
Definition has_write (o : vnode_ops) : bool :=
  match o with fb_ops | stdout_ops | stderr_ops => true | _ => false end.
Definition has_ioctl (o : vnode_ops) : bool := match o with fb_ops => true | _ => false end.
Definition has_vma_fault (o : vnode_ops) : bool := match o with fb_ops => true | _ => false end.

(** void *internal, by what it points to. *)
Inductive vinternal := INull | IChildren (a : aptr) | IData (p : Z) | IFb.

Record vnode := mk_vnode {
  vn_name : string;
  vn_size : Z;                       (* int64_t *)
  vn_ops : option vnode_ops;
  vn_internal : vinternal;
}.
Definition vnode_zero : vnode := mk_vnode "" 0 None INull.

Record fs_state := mk_fs {
  tar_nodes : list vnode;            (* nodes[64] of tarfs_init *)
  tar_root : vnode;                  (* root_node *)
  tar_children : list (option vptr); (* children[64] *)
  dev_nodes : list vnode;
  dev_root_node : vnode;
  dev_children : list (option vptr);
  root_mount : option (string * vptr);
}.

Definition get_vnode (v : vptr) (s : fs_state) : option vnode :=
  match v with
  | TarRoot => Some (tar_root s)
  | TarNode i => tar_nodes s !! i
  | DevRoot => Some (dev_root_node s)
  | DevNode i => dev_nodes s !! i
  end.

Definition set_vnode (v : vptr) (n : vnode) (s : fs_state) : fs_state :=
  match v with
  | TarRoot => mk_fs (tar_nodes s) n (tar_children s) (dev_nodes s) (dev_root_node s) (dev_children s) (root_mount s)
  | TarNode i => mk_fs (<[i := n]> (tar_nodes s)) (tar_root s) (tar_children s) (dev_nodes s) (dev_root_node s) (dev_children s) (root_mount s)
  | DevRoot => mk_fs (tar_nodes s) (tar_root s) (tar_children s) (dev_nodes s) n (dev_children s) (root_mount s)
  | DevNode i => mk_fs (tar_nodes s) (tar_root s) (tar_children s) (<[i := n]> (dev_nodes s)) (dev_root_node s) (dev_children s) (root_mount s)
  end.

Definition get_array (a : aptr) (s : fs_state) : list (option vptr) :=
  match a with TarChildren => tar_children s | DevChildren => dev_children s end.
Definition set_array (a : aptr) (l : list (option vptr)) (s : fs_state) : fs_state :=
  match a with
  | TarChildren => mk_fs (tar_nodes s) (tar_root s) l (dev_nodes s) (dev_root_node s) (dev_children s) (root_mount s)
  | DevChildren => mk_fs (tar_nodes s) (tar_root s) (tar_children s) (dev_nodes s) (dev_root_node s) l (root_mount s)
  end.
Definition set_root_mount (r : option (string * vptr)) (s : fs_state) : fs_state :=
  mk_fs (tar_nodes s) (tar_root s) (tar_children s) (dev_nodes s) (dev_root_node s) (dev_children s) r.

Definition deref (v : vptr) (s : fs_state) : outcome vnode :=
  match get_vnode v s with Some n => Done n | None => Undef "vnode pointer out of its array" end.

(** vnode_t **children = node->internal; None is NULL. *)
Definition children_of (n : vnode) (s : fs_state) : outcome (option (list (option vptr))) :=
  match vn_internal n with
  | INull => Done None
  | IChildren a => Done (Some (get_array a s))
  | IData _ | IFb => Undef "vnode data read as an array of children"
  end.

(** for (i = 0; children[i]; i++) if (!strcmp(children[i]->name, name)): the
    index and child found. *)
Fixpoint find_child (s : fs_state) (i : nat) (l : list (option vptr)) (name : string)
    : outcome (option (nat * vptr)) :=
  match l with
  | [] => Undef "read past the end of the children array"
  | None :: _ => Done None
  | Some v :: l' =>
      n ← deref v s;
      if String.eqb (vn_name n) name then Done (Some (i, v)) else find_child s (S i) l' name
  end.

(** The string up to the first '/', and what follows it if there is one. *)
Fixpoint split_slash (p : string) : string * option string :=
  match p with
  | EmptyString => (EmptyString, None)
  | String c p' =>
      if Ascii.eqb c "/"%char then (EmptyString, Some p')
      else let '(h, t) := split_slash p' in (String c h, t)
  end.

(** The component-by-component loop of vfs_find_vnode. *)
Fixpoint walk_path (fuel : nat) (s : fs_state) (node : vptr) (path_copy : string) : outcome (option vptr) :=
  match path_copy with
  | EmptyString => Done (Some node)
  | _ =>
      match fuel with
      | O => OutOfFuel
      | S k =>
          let '(component, slash) := split_slash path_copy in
          if (String.length component =? 0)%nat then Done None
          else if (64 <=? String.length component)%nat then Done None
          else
            n ← deref node s;
            children ← children_of n s;
            match children with
            | None => Done None
            | Some l =>
                found ← find_child s 0 l component;
                match found with
                | None => Done None
                | Some (_, v) =>
                    match slash with
                    | Some rest => walk_path k s v rest
                    | None => Done (Some v)
                    end
                end
            end
      end
  end.

(** if (path[0] == '/') path++; *)
Definition skip_slash (p : string) : string :=
  match p with String c p' => if Ascii.eqb c "/"%char then p' else p | EmptyString => p end.

(** if (tmp[len - 1] == '/') tmp[len - 1] = 0; *)
Fixpoint strip_slash (p : string) : string :=
  match p with
  | EmptyString => EmptyString
  | String c EmptyString => if Ascii.eqb c "/"%char then EmptyString else p
  | String c p' => String c (strip_slash p')
  end.

Definition vfs_find_vnode (path : string) (s : fs_state) : outcome (option vptr) :=
  match root_mount s with
  | None => Done None
  | Some (_, node) =>
      let path := skip_slash path in
      if String.eqb path "" then Done (Some node)
      else if (128 <=? String.length path)%nat then Done None
      else
        let tmp := strip_slash path in
        n ← deref node s;
        children ← children_of n s;
        direct ← match children with
                 | Some l => find_child s 0 l tmp
                 | None => Done None
                 end;
        match direct with
        | Some (_, v) => Done (Some v)
        | None => walk_path (String.length tmp) s node tmp
        end
  end.

Definition vfs_is_dir (path : string) (s : fs_state) : outcome Z :=
  match root_mount s with
  | None => Done 0
  | Some _ =>
      node ← vfs_find_vnode path s;
      match node with
      | None => Done 0
      | Some v =>
          n ← deref v s;
          Done (match vn_ops n, vn_internal n with None, INull => 0 | None, _ => 1 | _, _ => 0 end)
      end
  end.

(** for (i = 0; children[i]; i++) count++; *)
Fixpoint count_children (l : list (option vptr)) : outcome Z :=
  match l with
  | [] => Undef "read past the end of the children array"
  | None :: _ => Done 0
  | Some _ :: l' => n ← count_children l'; Done (n + 1)
  end.

Definition vfs_dir_count (path : string) (s : fs_state) : outcome Z :=
  node ← vfs_find_vnode path s;
  match node with
  | None => Done (-1)
  | Some v =>
      n ← deref v s;
      children ← children_of n s;
      match children with None => Done (-1) | Some l => count_children l end
  end.

(** ** mount.c *)

(** for (i = 0; i < 64; i++) if (!children[i]): the first empty slot. *)
Definition empty_slot (l : list (option vptr)) : option nat :=
  fst <$> list_find (λ x, x = None) (take 64 l).

Definition mount_fs (path : option string) (new_node : option vptr) : M fs_state Z := λ s,
  match new_node with
  | None => Done (-1, s)
  | Some new_node =>
      let is_root := match path with Some p => String.eqb p "/" | None => false end in
      match root_mount s with
      | None =>
          if negb is_root then Done (-1, s)
          else Done (0, set_root_mount (Some ("mounted"%string, new_node)) s)
      | Some (name, root) =>
          match path with
          | None => Done (0, set_root_mount (Some (name, new_node)) s)
          | Some path =>
              if is_root then Done (0, set_root_mount (Some (name, new_node)) s)
              else
                let p := skip_slash path in
                match split_slash p with
                | (_, Some _) => Done (-1, s)
                | (_, None) =>
                    parent ← deref root s;
                    match vn_internal parent with
                    | INull => Done (-1, s)
                    | IData _ | IFb => Undef "vnode data read as an array of children"
                    | IChildren a =>
                        let l := get_array a s in
                        found ← find_child s 0 l p;
                        match found with
                        | Some (i, _) => Done (0, set_array a (<[i := Some new_node]> l) s)
                        | None =>
                            match empty_slot l with
                            | Some i => Done (0, set_array a (<[i := Some new_node]> l) s)
                            | None => Done (-1, s)
                            end
                        end
                    end
                end
          end
      end
  end.

(** ** devfs.c *)

Definition devfs_init : M fs_state unit := modify (λ s,
  mk_fs (tar_nodes s) (tar_root s) (tar_children s)
    (replicate DEVFS_MAX_NODES vnode_zero)
    (mk_vnode "dev" 0 None (IChildren DevChildren))
    (replicate DEVFS_MAX_NODES None) (root_mount s)).

(** strncpy(n->name, name, 63) into a cleared name[64] *)
Definition truncate_name (name : string) : string := String.substring 0 63 name.

(** for (i = 0; i < 64 && dev_children[i]; i++) count++; *)
Fixpoint count_prefix (l : list (option vptr)) : Z :=
  match l with Some _ :: l' => 1 + count_prefix l' | _ => 0 end.

Definition devfs_register (name : string) (ops : option vnode_ops) (private : vinternal)
    : M fs_state (option vptr) := λ s,
  match list_find (λ n, vn_name n = ""%string) (dev_nodes s) with
  | None => Done (None, s)
  | Some (idx, _) =>
      let s := set_vnode (DevNode idx) (mk_vnode (truncate_name name) 0 ops private) s in
      let s := match list_find (λ x, x = None) (dev_children s) with
               | Some (i, _) => set_array DevChildren (<[i := Some (DevNode idx)]> (dev_children s)) s
               | None => s
               end in
      let r := dev_root_node s in
      let s := set_vnode DevRoot
                 (mk_vnode (vn_name r) (count_prefix (dev_children s)) (vn_ops r) (vn_internal r)) s in
      Done (Some (DevNode idx), s)
  end.

Definition devfs_root : vptr := DevRoot.

(** terminal_device_init and fb_device_init register the kernel's devices. *)
Definition terminal_device_init : M fs_state unit :=
  _ ← devfs_register "stdin" (Some stdin_ops) INull;
  _ ← devfs_register "stdout" (Some stdout_ops) INull;
  _ ← devfs_register "stderr" (Some stderr_ops) INull;
  mret tt.

(** node->size = size; *)
Definition set_vn_size (v : vptr) (size : Z) : M fs_state unit := λ s,
  n ← deref v s;
  Done (tt, set_vnode v (mk_vnode (vn_name n) size (vn_ops n) (vn_internal n)) s).

Definition fb_device_init (fb0 : reddyos_framebuffer) : M fs_state unit :=
  node ← devfs_register "fb0" (Some fb_ops) IFb;
  match node with
  | Some v => set_vn_size v (i64 (fb_size fb0))
  | None => mret tt
  end.

(** ** Open files: vfs_open to vfs_lseek *)

Record file := mk_file {
  f_vnode : vptr;
  f_offset : Z;
  f_refcount : Z;
  f_flags : Z;
}.

(** The kernel's state as file operations see it. *)
Record kio := mk_kio {
  io_fs : fs_state;
  io_mem : mem;
  io_fb : option reddyos_framebuffer;   (* fb0 *)
  io_term : term_state;
}.

Definition on_fs {A} : M fs_state A → M kio A :=
  zoom io_fs (λ x s, mk_kio x (io_mem s) (io_fb s) (io_term s)).
Definition on_term {A} : M term_state A → M kio A :=
  zoom io_term (λ x s, mk_kio (io_fs s) (io_mem s) (io_fb s) x).
Definition on_mem {A} (f : mem → A * mem) : M kio A := λ s,
  let '(a, m) := f (io_mem s) in Done (a, mk_kio (io_fs s) m (io_fb s) (io_term s)).
Definition mderef (v : vptr) : M kio vnode := λ s, n ← deref v (io_fs s); Done (n, s).

(** vfs_open: None stands for the result -1, [Some f] for 0 with [*out = f]. *)
Definition vfs_open (path : string) (flags : Z) : M kio (option file) := λ s,
  match root_mount (io_fs s) with
  | None => Done (None, s)
  | Some _ =>
      node ← vfs_find_vnode path (io_fs s);
      match node with
      | None => Done (None, s)
      | Some v =>
          let out := mk_file v 0 0 flags in
          if negb (Z.land flags O_TRUNC =? 0) then
            '(_, s) ← on_fs (set_vn_size v 0) s;
            Done (Some out, s)
          else Done (Some out, s)
      end
  end.

(** tar_read of tarfs.c; the size is an int64_t compared as an unsigned. *)
Definition tar_read (n : vnode) (data offset buffer size : Z) (m : mem) : Z * mem :=
  if u64 (vn_size n) <=? offset then (0, m)
  else
    let size := if u64 (vn_size n) <? u64 (offset + size) then u64 (vn_size n - offset) else size in
    (i32 size, memcpy buffer (u64 (data + offset)) size m).

(** file->vnode->ops->read( ... ): a NULL table or entry is a call of address 0,
    and an operation on another kind of [internal] reads it as its own. *)
Definition ops_read (n : vnode) (offset buffer size : Z) : M kio Z :=
  match vn_ops n with
  | Some tar_ops =>
      match vn_internal n with
      | IData data => on_mem (tar_read n data offset buffer size)
      | _ => mundef "tar_read on a node without data"
      end
  | Some fb_ops =>
      fb ← gets io_fb;
      match fb with
      | Some fb => on_mem (fb_read fb offset buffer size)
      | None => mundef "fb_read without a framebuffer"
      end
  | _ => mundef "call of a NULL read operation"
  end.

Section io.
Context `{Uart}.

Definition ops_write (n : vnode) (offset buffer size : Z) : M kio Z :=
  match vn_ops n with
  | Some fb_ops =>
      fb ← gets io_fb;
      match fb with
      | Some fb => on_mem (fb_write fb offset buffer size)
      | None => mundef "fb_write without a framebuffer"
      end
  | Some stdout_ops | Some stderr_ops =>
      m ← gets io_mem;
      on_term (std_write offset (bytes m buffer (Z.to_nat size)) size)
  | _ => mundef "call of a NULL write operation"
  end.

(** if (read > 0) file->offset += read; *)
Definition advance (f : file) (r : Z) : file :=
  if 0 <? r then mk_file (f_vnode f) (u64 (f_offset f + r)) (f_refcount f) (f_flags f) else f.

(** The result and the file afterwards. *)
Definition vfs_read (f : file) (buffer size : Z) : M kio (Z * file) :=
  if buffer =? 0 then mret (-1, f)
  else
    n ← mderef (f_vnode f);
    r ← ops_read n (f_offset f) buffer size;
    mret (r, advance f r).

Definition vfs_write (f : file) (buffer size : Z) : M kio (Z * file) :=
  n ← mderef (f_vnode f);
  r ← ops_write n (f_offset f) buffer size;
  mret (r, advance f r).
End io.

Definition vfs_ioctl (f : file) (cmd arg : Z) : M kio Z :=
  n ← mderef (f_vnode f);
  match vn_ops n with
  | None => mret (-1)
  | Some o =>
      if negb (has_ioctl o) then mret (-1)
      else
        fb ← gets io_fb;
        on_mem (fb_ioctl (match vn_internal n with IFb => fb | _ => None end) cmd arg)
  end.

Record stat := mk_stat {
  st_dev : Z; st_ino : vptr; st_mode : Z; st_nlink : Z; st_size : Z; st_blksize : Z; st_blocks : Z;
}.

Section stat.
Context `{Abi}.

(** vfs_stat of an existing node into an existing buffer: the result is 0. *)
Definition vfs_stat (v : vptr) (s : fs_state) : outcome stat :=
  node ← deref v s;
  let is_dir := match vn_ops node, vn_internal node with None, INull => false | None, _ => true | _, _ => false end in
  let is_chr := match vn_ops node with Some o => has_ioctl o | None => false end in
  let reg size mode nlink blocks := mk_stat 1 v mode nlink size 512 blocks in
  if is_dir then
    children ← children_of node s;
    count ← match children with Some l => count_children l | None => Done 0 end;
    Done (reg (i64 count) (Z.lor (Z.lor S_IFDIR S_RALL) S_XALL) 2 0)
  else
    let blocks := Z.quot (i64 (vn_size node + 511)) 512 in
    if is_chr then Done (reg (vn_size node) (Z.lor (Z.lor S_IFCHR S_RALL) S_WALL) 1 blocks)
    else
      let mode := Z.lor S_IFREG S_RALL in
      let mode := match vn_ops node with
                  | Some o => if has_write o then Z.lor mode S_WALL else mode
                  | None => mode
                  end in
      Done (reg (vn_size node) mode 1 blocks).

(** vfs_lseek; off_t arithmetic is 64-bit two's complement. *)
Definition vfs_lseek (f : file) (offset whence : Z) (s : fs_state) : outcome (Z * file) :=
  n ← deref (f_vnode f) s;
  new_offset ←
    (if whence =? SEEK_SET then Done offset
     else if whence =? SEEK_CUR then Done (i64 (i64 (f_offset f) + offset))
     else if whence =? SEEK_END then Done (i64 (vn_size n + offset))
     else Panic "Invalid whence value in vfs_lseek");
  let new_offset := if new_offset <? 0 then 0 else new_offset in
  let new_offset := if vn_size n <? new_offset then vn_size n else new_offset in
  Done (new_offset, mk_file (f_vnode f) (u64 new_offset) (f_refcount f) (f_flags f)).
End stat.

(** ** Specification: names, directories and paths *)

(** The children before the terminating NULL. *)
Fixpoint kids (l : list (option vptr)) : list vptr :=
  match l with Some v :: l' => v :: kids l' | _ => [] end.

Definition name_of (s : fs_state) (v : vptr) : option string := vn_name <$> get_vnode v s.

Definition lookup_child (s : fs_state) (l : list (option vptr)) (name : string) : option vptr :=
  snd <$> list_find (λ v, name_of s v = Some name) (kids l).

(** An array of 64 slots with the children [ks]: filled from the start, and
    with room for the terminating NULL. *)
Definition slots (ks : list vptr) : list (option vptr) :=
  (Some <$> ks) ++ replicate (64 - length ks) None.

(** Every array is filled from the start and terminated; every pointer in it
    or mounted is valid. *)
Record fs_wf (s : fs_state) : Prop := {
  wf_slots : ∀ a, get_array a s = slots (kids (get_array a s)) ∧ (length (kids (get_array a s)) < 64)%nat;
  wf_kids : ∀ a v, v ∈ kids (get_array a s) → is_Some (get_vnode v s);
  wf_mount : ∀ nm r, root_mount s = Some (nm, r) → is_Some (get_vnode r s);
}.

(** Following a list of names from a node; a file on the way is read as a
    directory, which has no meaning. *)
Fixpoint resolve (s : fs_state) (v : vptr) (cs : list string) : outcome (option vptr) :=
  match cs with
  | [] => Done (Some v)
  | c :: cs' =>
      n ← deref v s;
      match vn_internal n with
      | INull => Done None
      | IData _ | IFb => Undef "vnode data read as an array of children"
      | IChildren a =>
          match lookup_child s (get_array a s) c with
          | None => Done None
          | Some v' => resolve s v' cs'
          end
      end
  end.

Fixpoint no_slash (c : string) : Prop :=
  match c with EmptyString => True | String a c' => a ≠ "/"%char ∧ no_slash c' end.

Definition good_name (c : string) : Prop := c ≠ ""%string ∧ no_slash c ∧ (String.length c < 64)%nat.

Fixpoint join_path (cs : list string) : string :=
  match cs with
  | [] => ""
  | [c] => c
  | c :: cs' => String.append c (String "/" (join_path cs'))
  end.

(** ** Lemmas *)

Lemma find_child_spec s i l name : None ∈ l → (∀ v, v ∈ kids l → is_Some (get_vnode v s)) →
  find_child s i l name
    = Done ((λ x, (i + x.1, x.2)%nat) <$> list_find (λ v, name_of s v = Some name) (kids l)).
Proof.
  revert i. induction l as [|[v|] l IH]; intros i Ht Hv; simpl; [by apply elem_of_nil in Ht| |done].
  assert (None ∈ l) as Ht' by (apply elem_of_cons in Ht as [?|?]; done).
  destruct (Hv v) as [n Hn]; [apply list_elem_of_here|]. unfold deref. rewrite Hn. simpl.
  assert (name_of s v = Some (vn_name n)) as Hname by (unfold name_of; by rewrite Hn).
  destruct (String.eqb_spec (vn_name n) name) as [E|E].
  - rewrite decide_True by congruence. simpl. by rewrite Nat.add_0_r.
  - rewrite decide_False by congruence. rewrite IH; [|done|].
    + f_equal. destruct (list_find _ (kids l)) as [[j w]|]; simpl; [|done]. do 3 f_equal. lia.
    + intros w Hw. apply Hv. by apply list_elem_of_further.
Qed.

Lemma find_child_lookup s l name : None ∈ l → (∀ v, v ∈ kids l → is_Some (get_vnode v s)) →
  ∃ r, find_child s 0 l name = Done r ∧ snd <$> r = lookup_child s l name.
Proof.
  intros Ht Hv. rewrite find_child_spec by done. eexists. split; [done|]. unfold lookup_child.
  by destruct (list_find _ _) as [[]|].
Qed.

Lemma slots_term ks : (length ks < 64)%nat → None ∈ slots ks.
Proof.
  intros Hl. unfold slots. apply elem_of_app. right.
  replace (64 - length ks)%nat with (S (63 - length ks)) by lia. apply list_elem_of_here.
Qed.

Lemma wf_term s a : fs_wf s → None ∈ get_array a s.
Proof. intros Hwf. destruct (wf_slots _ Hwf a) as [E Hl]. rewrite E. by apply slots_term. Qed.

Lemma kids_app ks n : kids ((Some <$> ks) ++ replicate n None) = ks.
Proof. induction ks as [|k ks IH]; [by destruct n|]. simpl. f_equal. exact IH. Qed.

Lemma kids_slots ks : kids (slots ks) = ks.
Proof. apply kids_app. Qed.

Lemma slots_insert ks i w : (i < length ks)%nat → <[i := Some w]> (slots ks) = slots (<[i := w]> ks).
Proof.
  intros Hi. unfold slots. rewrite insert_app_l by (by rewrite length_fmap).
  by rewrite length_insert, list_fmap_insert.
Qed.

Lemma slots_snoc ks w : (length ks < 64)%nat → <[length ks := Some w]> (slots ks) = slots (ks ++ [w]).
Proof.
  intros Hl. unfold slots. rewrite insert_app_r_alt by (by rewrite length_fmap).
  rewrite length_fmap, Nat.sub_diag, fmap_app, <- (assoc app), length_app. simpl.
  replace (64 - length ks)%nat with (S (64 - (length ks + 1))) by lia. done.
Qed.

(** The first empty slot follows the children. *)
Lemma find_slot ks : (length ks < 64)%nat →
  list_find (λ x, x = None) (slots ks) = Some (length ks, None).
Proof.
  intros Hl. apply list_find_Some. split; [|split; [done|]].
  - unfold slots. rewrite lookup_app_r by (by rewrite length_fmap).
    rewrite length_fmap, Nat.sub_diag. by replace (64 - length ks)%nat with (S (63 - length ks)) by lia.
  - intros j y Hj Hlt. unfold slots in Hj. rewrite lookup_app_l in Hj by (by rewrite length_fmap).
    rewrite list_lookup_fmap in Hj. by destruct (ks !! j) as [w|]; simplify_eq/=.
Qed.

Lemma length_slots ks : (length ks ≤ 64)%nat → length (slots ks) = 64%nat.
Proof. intros. unfold slots. rewrite length_app, length_fmap, length_replicate. lia. Qed.

Lemma split_slash_slash c rest : no_slash c →
  split_slash (String.append c (String "/" rest)) = (c, Some rest).
Proof.
  induction c as [|a c IH]; simpl; [done|]. intros [Ha Hc].
  destruct (Ascii.eqb_spec a "/"%char); [done|]. by rewrite IH.
Qed.

Lemma split_slash_none c : no_slash c → split_slash c = (c, None).
Proof.
  induction c as [|a c IH]; simpl; [done|]. intros [Ha Hc].
  destruct (Ascii.eqb_spec a "/"%char); [done|]. by rewrite IH.
Qed.

Lemma join_path_cons c cs : cs ≠ [] → join_path (c :: cs) = String.append c (String "/" (join_path cs)).
Proof. by destruct cs. Qed.

Lemma append_length a b : String.length (String.append a b) = (String.length a + String.length b)%nat.
Proof. induction a; simpl; [done|]. by rewrite IHa. Qed.

Lemma append_nil_r a : String.append a "" = a.
Proof.
  induction a as [|c a IH]; [done|]. change (String c (String.append a "") = String c a). by rewrite IH.
Qed.

Lemma join_path_ne cs : cs ≠ [] → Forall good_name cs → join_path cs ≠ ""%string.
Proof.
  destruct cs as [|c cs]; [done|]. intros _ [[Hc _] _]%Forall_cons. destruct cs; [done|].
  rewrite join_path_cons by done. by destruct c.
Qed.

(** The component loop follows the components. *)
Lemma walk_path_resolve fuel s v cs : fs_wf s → cs ≠ [] → Forall good_name cs →
  (String.length (join_path cs) ≤ fuel)%nat →
  walk_path fuel s v (join_path cs) = resolve s v cs.
Proof.
  intros Hwf. pose proof (λ a, wf_term s a Hwf) as Ht. pose proof (wf_kids _ Hwf) as Hk.
  clear Hwf. revert v cs. induction fuel as [|k IH]; intros v cs Hne Hgood Hlen.
  { pose proof (join_path_ne cs Hne Hgood). destruct (join_path cs); [done|simpl in Hlen; lia]. }
  destruct cs as [|c cs]; [done|]. apply Forall_cons in Hgood as [(Hc & Hns & Hl) Hgood].
  pose proof (join_path_ne (c :: cs) ltac:(done) ltac:(by constructor)) as Hj.
  assert (split_slash (join_path (c :: cs)) = (c, match cs with [] => None | _ => Some (join_path cs) end)) as Hs.
  { destruct cs as [|d cs]; [by apply split_slash_none|].
    rewrite join_path_cons by done. by apply split_slash_slash. }
  cbn [walk_path]. destruct (join_path (c :: cs)) as [|a p] eqn:Ej; [done|]. rewrite Hs.
  destruct (Nat.eqb_spec (String.length c) 0) as [E|_]; [by destruct c|].
  destruct (Nat.leb_spec 64 (String.length c)); [lia|]. simpl resolve.
  unfold deref. destruct (get_vnode v s) as [n|]; simpl; [|done].
  unfold children_of. destruct (vn_internal n) as [|a'| |]; simpl; try done.
  destruct (find_child_lookup s (get_array a' s) c (Ht a') (Hk a')) as (r & -> & <-). simpl.
  destruct r as [[i w]|]; simpl; [|done]. destruct cs as [|d cs]; [done|].
  apply IH; [done|done|]. rewrite <- Ej, join_path_cons, append_length in Hlen by done.
  cbn [String.length] in Hlen. lia.
Qed.

Lemma good_name_ends c : good_name c → strip_slash c = c ∧ skip_slash c = c ∧ ∀ d, skip_slash (String.append c d) = String.append c d.
Proof.
  intros (Hne & Hns & _). split; [|split].
  - clear Hne. induction c as [|a c IH]; [done|]. destruct Hns as [Ha Hns]. simpl.
    destruct c; [by destruct (Ascii.eqb_spec a "/"%char)|]. by rewrite IH.
  - destruct c as [|a c]; [done|]. destruct Hns as [Ha _]. simpl. by destruct (Ascii.eqb_spec a "/"%char).
  - intros d. destruct c as [|a c]; [done|]. destruct Hns as [Ha _]. simpl. by destruct (Ascii.eqb_spec a "/"%char).
Qed.

Lemma strip_slash_cons a p : p ≠ ""%string → strip_slash (String a p) = String a (strip_slash p).
Proof. by destruct p. Qed.

Lemma strip_slash_app a b : b ≠ ""%string → strip_slash (String.append a b) = String.append a (strip_slash b).
Proof.
  intros Hb. induction a as [|x a IH]; [done|]. simpl. rewrite IH.
  destruct (String.append a b) eqn:E; [by destruct a|done].
Qed.

Lemma strip_slash_join cs : cs ≠ [] → Forall good_name cs → strip_slash (join_path cs) = join_path cs.
Proof.
  induction cs as [|c cs IH]; [done|]. intros _ [Hc Hcs]%Forall_cons.
  destruct cs as [|d cs]; [by apply good_name_ends in Hc as (? & _)|].
  pose proof (join_path_ne (d :: cs) ltac:(done) Hcs) as Hne.
  rewrite join_path_cons, strip_slash_app, strip_slash_cons by done. by rewrite IH.
Qed.

Lemma strip_slash_trail p : strip_slash (String.append p "/") = p.
Proof.
  induction p as [|a p IH]; [done|]. simpl. rewrite IH. by destruct p.
Qed.

Lemma skip_slash_join cs d : cs ≠ [] → Forall good_name cs →
  skip_slash (String.append (join_path cs) d) = String.append (join_path cs) d.
Proof.
  destruct cs as [|c cs]; [done|]. intros _ [Hc _]%Forall_cons. apply good_name_ends in Hc as (_ & _ & Hc).
  destruct cs as [|e cs]; [apply Hc|]. rewrite join_path_cons by done.
  assert (∀ x y z, String.append (String.append x y) z = String.append x (String.append y z)) as Hassoc.
  { intros x y z. induction x as [|ch x IHx]; [done|].
    change (String ch ((x +:+ y) +:+ z) = String ch (x +:+ (y +:+ z))). by rewrite IHx. }
  rewrite Hassoc. apply Hc.
Qed.

(** ** Properties *)

Lemma vfs_find_ok s nm r n a cs (lead trail : bool) :
  fs_wf s → root_mount s = Some (nm, r) → get_vnode r s = Some n → vn_internal n = IChildren a →
  cs ≠ [] → Forall good_name cs →
  (String.length (join_path cs) + (if trail then 1 else 0) < 128)%nat →
  let path := String.append (if lead then "/" else "") (String.append (join_path cs) (if trail then "/" else "")) in
  vfs_find_vnode path s =
    match lookup_child s (get_array a s) (join_path cs) with
    | Some v => Done (Some v)
    | None => resolve s r cs
    end.
Proof.
  intros Hwf Hm Hn Ha Hne Hgood Hlen path. unfold vfs_find_vnode. rewrite Hm.
  assert (skip_slash path = String.append (join_path cs) (if trail then "/" else "")) as ->.
  { unfold path. destruct lead; [done|]. by apply skip_slash_join. }
  pose proof (join_path_ne cs Hne Hgood) as Hj.
  destruct (String.eqb_spec (String.append (join_path cs) (if trail then "/" else "")) "") as [E|_].
  { by destruct (join_path cs). }
  rewrite append_length.
  destruct (Nat.leb_spec 128 (String.length (join_path cs) + String.length (if trail then "/" else "")));
    [destruct trail; simpl in *; lia|].
  assert (strip_slash (String.append (join_path cs) (if trail then "/" else "")) = join_path cs) as ->.
  { destruct trail; [apply strip_slash_trail|].
    rewrite append_nil_r. by apply strip_slash_join. }
  unfold deref. rewrite Hn. simpl. unfold children_of. rewrite Ha. simpl.
  destruct (find_child_lookup s (get_array a s) (join_path cs)) as (x & -> & <-);
    [by apply wf_term|by intros v; apply (wf_kids _ Hwf a)|].
  simpl. destruct x as [[i v]|]; simpl; [done|]. by apply walk_path_resolve.
Qed.

(** C11: path lookup follows the path. In a well-formed file system whose root is
    mounted, for a path of names that are not empty, hold no slash and have at
    most 63 characters, with or without a leading and a trailing slash and
    shorter than 128 characters in all, [vfs_find_vnode] terminates with the
    root's child of that full name if there is one (tar files are stored under
    full paths), and otherwise with what following the names one by one gives. *)
Theorem vfs_find_resolves s nm r n a cs (lead trail : bool) :
  fs_wf s → root_mount s = Some (nm, r) → get_vnode r s = Some n → vn_internal n = IChildren a →
  cs ≠ [] → Forall good_name cs →
  (String.length (join_path cs) + (if trail then 1 else 0) < 128)%nat →
  let path := String.append (if lead then "/" else "") (String.append (join_path cs) (if trail then "/" else "")) in
  vfs_find_vnode path s =
    match lookup_child s (get_array a s) (join_path cs) with
    | Some v => Done (Some v)
    | None => resolve s r cs
    end.
Proof. apply vfs_find_ok. Qed.

(** A file is not a directory to anyone but the caller: following a path
    through a tar file or the framebuffer reads its data as an array of vnode
    pointers, instead of failing. *)
Theorem vfs_find_through_file s nm r n a f fn rest :
  fs_wf s → root_mount s = Some (nm, r) → get_vnode r s = Some n → vn_internal n = IChildren a →
  good_name f → good_name rest → (String.length f + String.length rest + 1 < 128)%nat →
  lookup_child s (get_array a s) f = Some fn →
  lookup_child s (get_array a s) (join_path [f; rest]) = None →
  (∃ p, vn_internal <$> get_vnode fn s = Some (IData p)) ∨ vn_internal <$> get_vnode fn s = Some IFb →
  vfs_find_vnode (String "/" (join_path [f; rest])) s = Undef "vnode data read as an array of children".
Proof.
  intros Hwf Hm Hn Ha Hf Hrest Hlen Hfn Hd Hdata.
  change (String "/" (join_path [f; rest])) with (String.append "/" (join_path [f; rest])).
  rewrite <- (append_nil_r (join_path [f; rest])).
  rewrite (vfs_find_ok s nm r n a [f; rest] true false); try done.
  - rewrite Hd. simpl. unfold deref. rewrite Hn. simpl. rewrite Ha, Hfn.
    destruct (get_vnode fn s) as [m|]; simpl in *; [|by destruct Hdata as [[]|]].
    by destruct Hdata as [[p [= ->]]|[= ->]].
  - constructor; [exact Hf|constructor; [exact Hrest|constructor]].
  - rewrite join_path_cons, append_length by done. cbn [String.length]. simpl. lia.
Qed.

(** *** mount.c *)

Lemma get_vnode_set_array a l v s : get_vnode v (set_array a l s) = get_vnode v s.
Proof. by destruct v, a. Qed.

Lemma get_array_set a b l s : get_array b (set_array a l s) = if decide (a = b) then l else get_array b s.
Proof. by destruct a, b. Qed.

(** The children after mounting [w] under [name]: it takes the place of the
    child of that name, or the end. *)
Definition mount_kids (s : fs_state) (ks : list vptr) (name : string) (w : vptr) : list vptr :=
  match list_find (λ v, name_of s v = Some name) ks with
  | Some (i, _) => <[i := w]> ks
  | None => ks ++ [w]
  end.

Lemma find_child_index s l name : None ∈ l → (∀ v, v ∈ kids l → is_Some (get_vnode v s)) →
  find_child s 0 l name = Done (list_find (λ v, name_of s v = Some name) (kids l)).
Proof.
  intros Ht Hv. rewrite find_child_spec by done. by destruct (list_find _ _) as [[]|].
Qed.

Lemma list_find_insert_here {A} (P : A → Prop) `{∀ x, Decision (P x)} l i v w :
  list_find P l = Some (i, v) → P w → list_find P (<[i := w]> l) = Some (i, w).
Proof.
  intros (Hi & _ & Hlt)%list_find_Some Hw. apply list_find_Some. split; [|split; [done|]].
  - apply list_lookup_insert_eq. by eapply lookup_lt_Some.
  - intros j y Hj Hji. rewrite list_lookup_insert_ne in Hj by lia. by eapply Hlt.
Qed.

Lemma list_find_snoc_here {A} (P : A → Prop) `{∀ x, Decision (P x)} l w :
  list_find P l = None → P w → list_find P (l ++ [w]) = Some (length l, w).
Proof.
  intros Hn Hw. apply list_find_Some. split; [|split; [done|]].
  - rewrite lookup_app_r, Nat.sub_diag by lia. done.
  - intros j y Hj Hlt. rewrite lookup_app_l in Hj by done. rewrite list_find_None in Hn.
    rewrite Forall_forall in Hn. by eapply Hn, list_elem_of_lookup_2.
Qed.

Lemma list_find_insert_other {A} (P : A → Prop) `{∀ x, Decision (P x)} l i v w :
  l !! i = Some v → ¬ P v → ¬ P w → list_find P (<[i := w]> l) = list_find P l.
Proof.
  revert i. induction l as [|x l IH]; intros [|i] Hi Hv Hw; simpl in *; try done.
  - injection Hi as ->. by rewrite !decide_False.
  - destruct (decide (P x)); [done|]. by rewrite IH.
Qed.

Lemma list_find_snoc_other {A} (P : A → Prop) `{∀ x, Decision (P x)} l w :
  ¬ P w → list_find P (l ++ [w]) = list_find P l.
Proof.
  intros Hw. induction l as [|x l IH]; simpl; [by rewrite decide_False|].
  destruct (decide (P x)); [done|]. by rewrite IH.
Qed.

Lemma lookup_child_set_array a l s l' nm : lookup_child (set_array a l s) l' nm = lookup_child s l' nm.
Proof.
  unfold lookup_child. f_equal. induction (kids l') as [|v vs IH]; [done|]. simpl. rewrite IH.
  apply decide_ext. unfold name_of. by rewrite get_vnode_set_array.
Qed.

Lemma mount_kids_length s ks name w : (length (mount_kids s ks name w) ≤ S (length ks))%nat.
Proof.
  unfold mount_kids. destruct (list_find _ ks) as [[]|]; [rewrite length_insert; lia|].
  rewrite length_app. simpl. lia.
Qed.

Lemma mount_kids_elem s ks name w v : v ∈ mount_kids s ks name w → v = w ∨ v ∈ ks.
Proof.
  unfold mount_kids. destruct (list_find _ ks) as [[i u]|].
  - intros [j Hj]%list_elem_of_lookup. apply list_lookup_insert_Some in Hj as [(_ & <- & _)|[_ Hj]]; [by left|].
    right. by eapply list_elem_of_lookup_2.
  - intros [?|?%list_elem_of_singleton]%elem_of_app; [by right|by left].
Qed.

(** Mounting under the root directory: for a name without a slash,
    [mount_fs] replaces the child of that name or appends one, keeping the
    directory well formed while it has room; the mounted node is then what the
    name finds provided it is the node's own name (lookups compare the name in
    the vnode, not the mount path), and every other name finds what it did. *)
Theorem mount_fs_spec s nm r n a name w wn :
  fs_wf s → root_mount s = Some (nm, r) → get_vnode r s = Some n → vn_internal n = IChildren a →
  good_name name → get_vnode w s = Some wn → (length (kids (get_array a s)) < 63)%nat →
  let s' := set_array a (slots (mount_kids s (kids (get_array a s)) name w)) s in
  mount_fs (Some (String "/" name)) (Some w) s = Done (0, s')
  ∧ fs_wf s'
  ∧ (vn_name wn = name → lookup_child s' (get_array a s') name = Some w)
  ∧ (∀ other, other ≠ name → vn_name wn ≠ other →
       lookup_child s' (get_array a s') other = lookup_child s (get_array a s) other).
Proof.
  intros Hwf Hm Hn Ha Hname Hw Hlen s'. destruct (wf_slots _ Hwf a) as [Hslots _].
  set (ks := kids (get_array a s)) in *.
  pose proof (find_child_index s (get_array a s) name (wf_term _ a Hwf) (wf_kids _ Hwf a)) as Hfind.
  fold ks in Hfind. destruct Hname as (Hne & Hns & _).
  split; [|split; [|split]].
  - unfold mount_fs. destruct (String.eqb_spec (String "/" name) "/") as [[= ->]|_]; [done|].
    rewrite Hm. simpl skip_slash. rewrite split_slash_none by done.
    unfold deref. rewrite Hn. simpl. rewrite Ha, Hfind. simpl. unfold s', mount_kids.
    destruct (list_find _ ks) as [[i v]|] eqn:Hf.
    + apply list_find_Some in Hf as (Hi & _ & _). rewrite Hslots, slots_insert; [done|].
      by eapply lookup_lt_Some.
    + unfold empty_slot. rewrite Hslots, take_ge, find_slot by (rewrite ?length_slots; lia). simpl.
      by rewrite slots_snoc by lia.
  - split.
    + intros b. unfold s'. rewrite get_array_set. case_decide as E; [|apply (wf_slots _ Hwf)].
      rewrite kids_slots. split; [done|]. pose proof (mount_kids_length s ks name w). lia.
    + intros b v. unfold s'. rewrite get_array_set, get_vnode_set_array.
      case_decide as E; [|apply (wf_kids _ Hwf)]. rewrite kids_slots.
      intros [->|Hv]%mount_kids_elem; [by eexists|by apply (wf_kids _ Hwf a)].
    + intros nm' r' Hr. unfold s'. rewrite get_vnode_set_array. apply (wf_mount _ Hwf nm').
      by destruct a.
  - intros Hwn. unfold s'. rewrite get_array_set, decide_True by done. rewrite lookup_child_set_array.
    unfold lookup_child. rewrite kids_slots. assert (name_of s w = Some name) as Hnw.
    { unfold name_of. rewrite Hw. simpl. by rewrite Hwn. }
    unfold mount_kids. destruct (list_find _ ks) as [[i v]|] eqn:Hf.
    + rewrite (list_find_insert_here _ ks i v w Hf Hnw). done.
    + rewrite (list_find_snoc_here _ ks w Hf Hnw). done.
  - intros other Hoth Hwn. unfold s'. rewrite get_array_set, decide_True by done.
    rewrite lookup_child_set_array. unfold lookup_child. rewrite kids_slots. fold ks.
    assert (name_of s w ≠ Some other) as Hnw.
    { unfold name_of. rewrite Hw. simpl. congruence. }
    unfold mount_kids. destruct (list_find (λ v, name_of s v = Some name) ks) as [[i v]|] eqn:Hf.
    + apply list_find_Some in Hf as (Hi & Hv & _).
      rewrite (list_find_insert_other _ ks i v w); [done|done|congruence|done].
    + by rewrite list_find_snoc_other.
Qed.

(** *** devfs.c *)

(** [k] devices are registered, in order. *)
Record dev_ok (s : fs_state) (k : nat) : Prop := {
  dev_len : length (dev_nodes s) = DEVFS_MAX_NODES;
  dev_used : ∀ i n, dev_nodes s !! i = Some n → (vn_name n ≠ ""%string ↔ (i < k)%nat);
  dev_slots : dev_children s = slots (DevNode <$> seq 0 k);
}.

Lemma truncate_short name : (String.length name ≤ 63)%nat → truncate_name name = name.
Proof.
  unfold truncate_name. generalize 63%nat. induction name as [|c p IH]; intros [|n] Hl; simpl in *;
    try done; try lia. by rewrite IH by lia.
Qed.

Lemma devfs_init_ok s : ∃ s', devfs_init s = Done (tt, s') ∧ dev_ok s' 0.
Proof.
  eexists. split; [reflexivity|]. split; [done| |done].
  intros i n [-> _]%lookup_replicate_1. simpl. split; [done|lia].
Qed.

Lemma count_prefix_slots ks : count_prefix (slots ks) = Z.of_nat (length ks).
Proof.
  unfold slots. generalize (64 - length ks)%nat. intros m. induction ks as [|k ks IH]; [by destruct m|].
  change (1 + count_prefix ((Some <$> ks) ++ replicate m None) = Z.of_nat (length (k :: ks))).
  rewrite IH. simpl length. lia.
Qed.

(** Devices register in order: with [k] < 64 devices registered, devfs_register
    of a name of 1 to 63 characters takes node [k], gives it the name, the
    operations and the private pointer and size 0, appends it to the children,
    counts k+1 entries in the root and leaves the earlier devices alone; with
    64 it returns NULL and changes nothing. *)
Theorem devfs_register_spec s k name ops private :
  dev_ok s k → name ≠ ""%string → (String.length name ≤ 63)%nat → (k ≤ 64)%nat →
  ((k < 64)%nat →
     ∃ s', devfs_register name ops private s = Done (Some (DevNode k), s')
       ∧ dev_ok s' (S k)
       ∧ get_vnode (DevNode k) s' = Some (mk_vnode name 0 ops private)
       ∧ vn_size (dev_root_node s') = Z.of_nat (S k)
       ∧ (∀ i, i ≠ k → get_vnode (DevNode i) s' = get_vnode (DevNode i) s))
  ∧ (k = 64%nat → devfs_register name ops private s = Done (None, s)).
Proof.
  intros [Hlen Hused Hslots] Hname Hl Hk. split.
  - intros Hlt. destruct (lookup_lt_is_Some_2 (dev_nodes s) k) as [n Hn]; [by rewrite Hlen|].
    assert (list_find (λ n, vn_name n = ""%string) (dev_nodes s) = Some (k, n)) as Hf.
    { apply list_find_Some. split; [done|]. split.
      - destruct (decide (vn_name n = ""%string)) as [|Hne]; [done|]. apply (Hused k n Hn) in Hne. lia.
      - intros j y Hj Hjk. by apply (Hused j y Hj). }
    unfold devfs_register. rewrite Hf. simpl. rewrite Hslots.
    rewrite find_slot by (by rewrite length_fmap, length_seq). rewrite length_fmap, length_seq.
    eexists. split; [reflexivity|]. simpl.
    assert (<[k := Some (DevNode k)]> (slots (DevNode <$> seq 0 k)) = slots (DevNode <$> seq 0 (S k))) as E.
    { rewrite seq_S, fmap_app. simpl.
      rewrite <- (slots_snoc (DevNode <$> seq 0 k)) by (by rewrite length_fmap, length_seq).
      by rewrite length_fmap, length_seq. }
    rewrite E, truncate_short by done. split; [split|split; [|split]].
    + simpl. by rewrite length_insert.
    + simpl. intros i m [(-> & <- & _)|[Hne Hi]]%list_lookup_insert_Some; [by split; [lia|]|].
      rewrite (Hused i m Hi). lia.
    + done.
    + apply list_lookup_insert_eq. by rewrite Hlen.
    + rewrite count_prefix_slots, length_fmap, length_seq. done.
    + intros i Hi. by apply list_lookup_insert_ne.
  - intros ->. unfold devfs_register.
    destruct (list_find _ (dev_nodes s)) as [[i n]|] eqn:Hf; [|done].
    apply list_find_Some in Hf as (Hi & He & _). exfalso.
    apply (proj2 (Hused i n Hi)); [|done]. apply lookup_lt_Some in Hi. rewrite Hlen in Hi. done.
Qed.

(** A full /dev has no terminator: once 64 devices are registered, looking
    for any name that is not among them reads past the array of children. *)
Theorem devfs_full_unterminated s name :
  dev_ok s 64 → (∀ i n, dev_nodes s !! i = Some n → vn_name n ≠ name) →
  find_child s 0 (dev_children s) name = Undef "read past the end of the children array".
Proof.
  intros [Hlen Hused Hslots] Hn. rewrite Hslots. unfold slots. rewrite length_fmap, length_seq, app_nil_r.
  assert (∀ ks i, Forall (λ v, ∃ j, v = DevNode j ∧ (j < 64)%nat) ks →
    find_child s i (Some <$> ks) name = Undef "read past the end of the children array") as Hg.
  { induction ks as [|v ks IH]; intros i; [done|]. intros [(j & -> & Hj) Hks]%Forall_cons. simpl.
    destruct (lookup_lt_is_Some_2 (dev_nodes s) j) as [n Hjn]; [by rewrite Hlen|].
    unfold deref. simpl. rewrite Hjn. simpl.
    destruct (String.eqb_spec (vn_name n) name) as [E|_]; [by destruct (Hn _ _ Hjn)|]. by apply IH. }
  apply Hg. apply Forall_fmap, Forall_forall. intros j Hj%elem_of_seq. exists j. split; [done|lia].
Qed.

(** *** Open files *)

Section file_properties.
Context `{Abi}.

(** Vfs_lseek clamps: from the start, the current offset or the end, the new
    offset is the target moved into [0, size], is returned and stored, and only
    the offset of the file changes; any other [whence] panics the kernel. *)
Theorem vfs_lseek_spec s f n offset whence :
  get_vnode (f_vnode f) s = Some n → 0 ≤ vn_size n < 2 ^ 62 → 0 ≤ f_offset f < 2 ^ 62 →
  - 2 ^ 62 ≤ offset < 2 ^ 62 →
  let clamp x := Z.max 0 (Z.min x (vn_size n)) in
  let at_ x := Done (clamp x, mk_file (f_vnode f) (clamp x) (f_refcount f) (f_flags f)) in
  (whence = SEEK_SET → vfs_lseek f offset whence s = at_ offset)
  ∧ (whence = SEEK_CUR → vfs_lseek f offset whence s = at_ (f_offset f + offset))
  ∧ (whence = SEEK_END → vfs_lseek f offset whence s = at_ (vn_size n + offset))
  ∧ (whence ∉ [SEEK_SET; SEEK_CUR; SEEK_END] →
     vfs_lseek f offset whence s = Panic "Invalid whence value in vfs_lseek").
Proof.
  intros Hn Hs Ho Hoff clamp at_.
  assert (∀ x, (let y := if x <? 0 then 0 else x in if vn_size n <? y then vn_size n else y) = clamp x) as Hc.
  { intros x. cbv zeta. unfold clamp. destruct (Z.ltb_spec x 0);
      [destruct (Z.ltb_spec (vn_size n) 0)|destruct (Z.ltb_spec (vn_size n) x)]; lia. }
  assert (∀ x, u64 (clamp x) = clamp x) as Hu by (intros x; apply u64_small; unfold clamp; lia).
  pose proof seek_distinct as Hnd. apply NoDup_cons in Hnd as [H1 H2]. apply NoDup_cons in H2 as [H2 _].
  rewrite !not_elem_of_cons in H1. rewrite !not_elem_of_cons in H2.
  destruct H1 as [H1 [H3 _]]. destruct H2 as [H2 _].
  unfold vfs_lseek, deref. rewrite Hn. simpl.
  split; [|split; [|split]].
  - intros ->. rewrite Z.eqb_refl. simpl. cbv zeta in Hc. by rewrite Hc, Hu.
  - intros ->. destruct (Z.eqb_spec SEEK_CUR SEEK_SET); [congruence|]. rewrite Z.eqb_refl. simpl.
    rewrite (i64_small (f_offset f)), i64_small by lia. cbv zeta in Hc. by rewrite Hc, Hu.
  - intros ->. destruct (Z.eqb_spec SEEK_END SEEK_SET); [congruence|].
    destruct (Z.eqb_spec SEEK_END SEEK_CUR); [congruence|]. rewrite Z.eqb_refl. simpl.
    rewrite i64_small by lia. cbv zeta in Hc. by rewrite Hc, Hu.
  - rewrite !not_elem_of_cons. intros (? & ? & ? & ?).
    destruct (Z.eqb_spec whence SEEK_SET); [done|]. destruct (Z.eqb_spec whence SEEK_CUR); [done|].
    by destruct (Z.eqb_spec whence SEEK_END).
Qed.
End file_properties.

(** Reading a tar file reads the file: when offset + size does not wrap
    around, vfs_read of an open tar file returns the number of bytes left, up to
    the size asked for (0 at the end), copies exactly those bytes of the file's
    data to the buffer, moves the offset past them, and changes no other memory. *)
Theorem vfs_read_tar s f n data buffer size :
  get_vnode (f_vnode f) (io_fs s) = Some n → vn_ops n = Some tar_ops → vn_internal n = IData data →
  0 ≤ vn_size n < 2 ^ 31 → 0 < data → data + vn_size n < 2 ^ 64 →
  0 ≤ f_offset f → f_offset f + size < 2 ^ 64 → 0 < size → buffer ≠ 0 →
  let k := Z.max 0 (Z.min size (vn_size n - f_offset f)) in
  buffer + k ≤ data ∨ data + vn_size n ≤ buffer →
  ∃ m, vfs_read f buffer size s
      = Done ((k, mk_file (f_vnode f) (f_offset f + k) (f_refcount f) (f_flags f)),
              mk_kio (io_fs s) m (io_fb s) (io_term s))
    ∧ bytes m buffer (Z.to_nat k) = bytes (io_mem s) (data + f_offset f) (Z.to_nat k)
    ∧ (∀ b, b < buffer ∨ buffer + k ≤ b → ldb m b = ldb (io_mem s) b).
Proof.
  intros Hn Hops Hint Hsz Hd0 Hd Ho Hw Hsize Hb k Hdis. unfold vfs_read.
  destruct (Z.eqb_spec buffer 0); [done|].
  unfold mbind, M_bind, mderef, deref. rewrite Hn. simpl. unfold ops_read. rewrite Hops, Hint.
  unfold on_mem, tar_read. rewrite (u64_small (vn_size n)) by lia.
  destruct (Z.leb_spec (vn_size n) (f_offset f)).
  - assert (k = 0) as -> by (unfold k; lia). simpl. exists (io_mem s).
    unfold mret, M_ret, advance. simpl. rewrite Z.add_0_r. destruct s, f. done.
  - rewrite (u64_small (f_offset f + size)), (u64_small (data + f_offset f)) by lia.
    assert ((if vn_size n <? f_offset f + size then u64 (vn_size n - f_offset f) else size) = k) as ->.
    { unfold k. destruct (Z.ltb_spec (vn_size n) (f_offset f + size)); [rewrite u64_small|]; lia. }
    assert (0 < k ≤ vn_size n - f_offset f) as Hk by (unfold k; lia).
    rewrite i32_small by lia. eexists. split.
    + unfold mret, M_ret, advance. destruct (Z.ltb_spec 0 k); [|lia].
      rewrite u64_small by lia. reflexivity.
    + split.
      * apply bytes_ext. intros i Hi. rewrite ldb_memcpy, decide_True by lia. f_equal. lia.
      * intros b Hb'. by rewrite ldb_memcpy, decide_False by lia.
Qed.

(** A read whose offset + size wraps around 64 bits is not clamped: tar_read
    (and with it vfs_read) then copies all of [size] bytes from the offset,
    beyond the end of the file. *)
Theorem tar_read_wraps n data offset buffer size m :
  0 ≤ vn_size n < 2 ^ 63 → 0 ≤ offset < vn_size n →
  2 ^ 64 - offset ≤ size < 2 ^ 64 →
  tar_read n data offset buffer size m = (i32 size, memcpy buffer (u64 (data + offset)) size m)
  ∧ vn_size n - offset < size.
Proof.
  intros Hs Ho Hz. unfold tar_read. rewrite (u64_small (vn_size n)) by lia.
  destruct (Z.leb_spec (vn_size n) offset); [lia|].
  assert (u64 (offset + size) = offset + size - 2 ^ 64) as ->.
  { unfold u64. pow2. zdiv. }
  destruct (Z.ltb_spec (vn_size n) (offset + size - 2 ^ 64)); [lia|]. split; [done|lia].
Qed.

(** ** A small file system: /bin/init and /motd from the archive, /dev/fb0 *)

Module VfsWitness.
#[export, program] Instance linux_abi : Abi := {|
  EINVAL := 22; EBADF := 9; ENOENT := 2; ENODEV := 19; ENOMEM := 12;
  SEEK_SET := 0; SEEK_CUR := 1; SEEK_END := 2;
  S_IFDIR := 0x4000; S_IFCHR := 0x2000; S_IFREG := 0x8000;
  S_RALL := 292; S_WALL := 146; S_XALL := 73;
|}.
Next Obligation. by apply (bool_decide_unpack _); vm_compute. Qed.
Next Obligation. by apply (bool_decide_unpack _); vm_compute. Qed.

Definition demo_fs : fs_state := mk_fs
  (mk_vnode "bin/init" 9000 (Some tar_ops) (IData 0x10200)
   :: mk_vnode "motd" 12 (Some tar_ops) (IData 0x20000) :: replicate 62 vnode_zero)
  (mk_vnode "/" 0 None (IChildren TarChildren))
  (slots [TarNode 0; TarNode 1; DevRoot])
  (mk_vnode "fb0" 16 (Some fb_ops) IFb :: replicate 63 vnode_zero)
  (mk_vnode "dev" 1 None (IChildren DevChildren))
  (slots [DevNode 0])
  (Some ("tarfs"%string, TarRoot)).

Lemma demo_fs_wf : fs_wf demo_fs.
Proof.
  split.
  - intros []; simpl; (split; [reflexivity|lia]).
  - intros [] v Hv; simpl in Hv; set_unfold; naive_solver.
  - intros nm r [= <- <-]. by eexists.
Qed.

Lemma good_names : Forall good_name ["dev"; "fb0"]%string ∧ good_name "motd" ∧ good_name "x" ∧ good_name "tmp".
Proof. split; [repeat (apply Forall_cons; split; [by vm_compute; repeat split; (done || lia)|]); constructor|].
  by vm_compute; repeat split; (done || lia). Qed.

Lemma vfs_find_resolves_witness : vfs_find_vnode "/dev/fb0/" demo_fs = Done (Some (DevNode 0)).
Proof.
  exact (vfs_find_resolves demo_fs "tarfs" TarRoot _ TarChildren ["dev"; "fb0"]%string true true
    demo_fs_wf eq_refl eq_refl eq_refl ltac:(discriminate) (proj1 good_names) ltac:(vm_compute; lia)).
Defined.

Lemma vfs_find_through_file_witness :
  vfs_find_vnode "/motd/x" demo_fs = Undef "vnode data read as an array of children".
Proof.
  destruct good_names as (_ & Hm & Hx & _).
  exact (vfs_find_through_file demo_fs "tarfs" TarRoot _ TarChildren "motd" (TarNode 1) "x"
    demo_fs_wf eq_refl eq_refl eq_refl Hm Hx ltac:(vm_compute; lia) eq_refl eq_refl
    (or_introl (ex_intro _ 0x20000 eq_refl))).
Defined.

Lemma mount_fs_spec_witness :
  ∃ s', mount_fs (Some "/tmp"%string) (Some (TarNode 1)) demo_fs = Done (0, s') ∧ fs_wf s'.
Proof.
  destruct good_names as (_ & _ & _ & Ht).
  destruct (mount_fs_spec demo_fs "tarfs" TarRoot _ TarChildren "tmp" (TarNode 1) _
    demo_fs_wf eq_refl eq_refl eq_refl Ht eq_refl ltac:(vm_compute; lia)) as (Hm & Hwf & _).
  eexists. split; [exact Hm|exact Hwf].
Defined.

Lemma devfs_register_spec_witness :
  ∃ s s', devfs_register "fb0" (Some fb_ops) IFb s = Done (Some (DevNode 0), s') ∧ dev_ok s' 1.
Proof.
  destruct (devfs_init_ok demo_fs) as (s & _ & Hs).
  destruct (devfs_register_spec s 0 "fb0" (Some fb_ops) IFb Hs ltac:(discriminate) ltac:(vm_compute; lia) ltac:(lia))
    as [Hr _].
  destruct (Hr ltac:(lia)) as (s' & Hreg & Hok & _). exists s, s'. split; [exact Hreg|exact Hok].
Defined.

Definition full_fs : fs_state := mk_fs [] vnode_zero [] (replicate 64 (mk_vnode "tty" 0 None INull))
  vnode_zero (slots (DevNode <$> seq 0 64)) None.

Lemma full_fs_ok : dev_ok full_fs 64.
Proof.
  split; [done| |done]. intros i n [-> Hi]%lookup_replicate_1. simpl. split; [done|discriminate].
Qed.

Lemma devfs_full_unterminated_witness :
  find_child full_fs 0 (dev_children full_fs) "fb0" = Undef "read past the end of the children array".
Proof.
  apply devfs_full_unterminated; [exact full_fs_ok|].
  intros i n [-> _]%lookup_replicate_1. discriminate.
Defined.

Lemma vfs_lseek_spec_witness :
  vfs_lseek (mk_file (TarNode 1) 3 1 0) 100 2 demo_fs = Done (12, mk_file (TarNode 1) 12 1 0).
Proof.
  destruct (vfs_lseek_spec demo_fs (mk_file (TarNode 1) 3 1 0) _ 100 2 eq_refl ltac:(simpl; lia)
    ltac:(simpl; lia) ltac:(lia)) as (_ & _ & He & _).
  exact (He eq_refl).
Defined.

Definition demo_kio : kio := mk_kio demo_fs (stb 0x20000 72 ∅) None (mk_term false 0 []).

Lemma vfs_read_tar_witness :
  ∃ m, vfs_read (mk_file (TarNode 1) 0 1 0) 0x5000 100 demo_kio
      = Done ((12, mk_file (TarNode 1) 12 1 0), mk_kio demo_fs m None (mk_term false 0 []))
    ∧ bytes m 0x5000 12 = bytes (io_mem demo_kio) 0x20000 12.
Proof.
  destruct (vfs_read_tar demo_kio (mk_file (TarNode 1) 0 1 0) _ 0x20000 0x5000 100 eq_refl eq_refl eq_refl
    ltac:(simpl; lia) ltac:(lia) ltac:(simpl; lia) ltac:(simpl; lia) ltac:(simpl; lia) ltac:(lia)
    ltac:(discriminate) ltac:(simpl; lia)) as (m & Hr & Hb & _).
  exists m. split; [exact Hr|exact Hb].
Defined.

Lemma tar_read_wraps_witness :
  tar_read (mk_vnode "motd" 12 (Some tar_ops) (IData 0x20000)) 0x20000 4 0x5000 (2 ^ 64 - 2) ∅
    = (-2, memcpy 0x5000 0x20004 (2 ^ 64 - 2) ∅).
Proof.
  exact (proj1 (tar_read_wraps (mk_vnode "motd" 12 (Some tar_ops) (IData 0x20000)) 0x20000 4 0x5000
    (2 ^ 64 - 2) ∅ ltac:(simpl; lia) ltac:(simpl; lia) ltac:(lia))).
Defined.
End VfsWitness.
