(* ===== verification/Tarfs.v ===== *)
(** * The initial archive: src/filesystem/fs/tarfs/tarfs.c

    [tarfs_init] walks a tar archive in memory and fills the static nodes and
    the root directory; [archive] describes the archives it is meant for, and
    the theorems read every file back. *)
From Stdlib Require Import Ascii.
From S2P Require Import Prelude CMem CString Fb Term Vfs.

(** char is signed on x86-64. *)
Definition schar (b : Z) : Z := if b <? 128 then b else b - 256.

(** while ( *str) { value *= 8; value += *str - '0'; str++; } *)
Fixpoint oct2bin_loop (fuel : nat) (m : mem) (str value : Z) : outcome Z :=
  if ldb m str =? 0 then Done value
  else match fuel with
  | O => OutOfFuel
  | S k => oct2bin_loop k m (str + 1) (u64 (u64 (value * 8) + (schar (ldb m str) - 48)))
  end.
Definition oct2bin (fuel : nat) (m : mem) (str : Z) : outcome Z := oct2bin_loop fuel m str 0.

(** strcpy(node->name, name): the array has room for 63 characters and a NUL. *)
Fixpoint copy_name (room : nat) (m : mem) (name : Z) : outcome string :=
  if ldb m name =? 0 then Done EmptyString
  else match room with
  | O => Undef "name longer than vnode.name"
  | S k =>
      s ← copy_name k m (name + 1);
      Done (String (Ascii.ascii_of_N (Z.to_N (ldb m name))) s)
  end.

(** The offsets of tar_header. *)
Definition hdr_size : Z := 124.

Record tar_walk := mk_walk {
  tw_ptr : Z;
  tw_count : nat;          (* child_count *)
  tw_fs : fs_state;
}.

(** const char *name = hdr->name; if (name[0] == '.' && name[1] == '/') name += 2; *)
Definition hdr_name (m : mem) (ptr : Z) : Z :=
  if (ldb m ptr =? 46) && (ldb m (ptr + 1) =? 47) then ptr + 2 else ptr.

(** One turn of the loop of tarfs_init. [fuel] bounds the octal digits read. *)
Definition tar_entry (fuel : nat) (m : mem) (w : tar_walk) : outcome tar_walk :=
  size ← oct2bin fuel m (tw_ptr w + hdr_size);
  if (64 <=? tw_count w)%nat then Undef "more than 64 files"
  else
    name ← copy_name 63 m (hdr_name m (tw_ptr w));
    let node := mk_vnode name (i64 size) (Some tar_ops) (IData (tw_ptr w + 512)) in
    let fs := set_vnode (TarNode (tw_count w)) node (tw_fs w) in
    let fs := set_array TarChildren
                (<[tw_count w := Some (TarNode (tw_count w))]> (tar_children fs)) fs in
    let full := u64 (u64 (size + 511) / 512 * 512) in
    Done (mk_walk (u64 (tw_ptr w + u64 (512 + full))) (S (tw_count w)) fs).

Definition tar_more (m : mem) (w : tar_walk) : bool := negb (ldb m (tw_ptr w) =? 0).

Definition tarfs_init (fuel : nat) (address : Z) (m : mem) (s : fs_state) : outcome fs_state :=
  w ← loop (tar_more m) (tar_entry fuel m) fuel (mk_walk address 0 s);
  if (64 <=? tw_count w)%nat then Undef "children[64]"
  else
    let fs := set_array TarChildren (<[tw_count w := None]> (tar_children (tw_fs w))) (tw_fs w) in
    let fs := set_vnode TarRoot (mk_vnode "/" 0 None (IChildren TarChildren)) fs in
    Done (set_root_mount (Some ("tarfs"%string, TarRoot)) fs).

(** The static objects before the first call. *)
Definition tar_boot (s : fs_state) : Prop :=
  length (tar_nodes s) = 64%nat ∧ tar_children s = replicate 64 None.

(** ** Archives *)

(** The 11 octal digits of a size field. *)
Fixpoint octal (k : nat) (n : Z) : string :=
  match k with
  | O => EmptyString
  | S k' => String (Ascii.ascii_of_N (Z.to_N (48 + (n / 8 ^ Z.of_nat k') mod 8))) (octal k' n)
  end.

Definition blocks (n : Z) : Z := (n + 511) / 512 * 512.

(** The name a header's name stands for: tar writes "./name" for the files of the directory
    it archives, as in [tar -C root .], which is how the initial archive is built. *)
Definition file_name (raw : string) : string :=
  match raw with
  | String c (String d name) => if Ascii.eqb c "." && Ascii.eqb d "/" then name else raw
  | _ => raw
  end.

(** At [p], an archive of the files [fs] (name and bytes): a 512-byte header
    with the name, with or without "./" before it, and the size, the data, padding to 512; a
    zero byte at the end. A directory is a file without bytes whose name ends in a slash, and
    the directory "./" itself one without a name. *)
Fixpoint archive (m : mem) (p : Z) (fs : list (string * list Z)) : Prop :=
  match fs with
  | [] => ldb m p = 0
  | (name, data) :: fs' =>
      let n := Z.of_nat (length data) in
      (∃ raw, cstr m p raw ∧ raw ≠ ""%string ∧ (String.length raw < 100)%nat ∧ file_name raw = name)
      ∧ (String.length name ≤ 63)%nat
      ∧ cstr m (p + hdr_size) (octal 11 n) ∧ n < 2 ^ 33
      ∧ bytes m (p + 512) (length data) = data
      ∧ 0 ≤ p ∧ p + 512 + blocks n < 2 ^ 64
      ∧ archive m (p + 512 + blocks n) fs'
  end.

(** The nodes an archive stands for. *)
Fixpoint archive_nodes (p : Z) (fs : list (string * list Z)) : list vnode :=
  match fs with
  | [] => []
  | (name, data) :: fs' =>
      mk_vnode name (Z.of_nat (length data)) (Some tar_ops) (IData (p + 512))
      :: archive_nodes (p + 512 + blocks (Z.of_nat (length data))) fs'
  end.

(** ** Lemmas *)

Lemma code_ascii n : 0 ≤ n < 256 → code (Ascii.ascii_of_N (Z.to_N n)) = n.
Proof. intros. unfold code. rewrite Ascii.N_ascii_embedding by lia. lia. Qed.

Lemma octal_length k n : String.length (octal k n) = k.
Proof. induction k; simpl; congruence. Qed.

Lemma oct2bin_ok fuel m p k n v : cstr m p (octal k n) → (k ≤ fuel)%nat →
  0 ≤ v → 0 ≤ n → v * 8 ^ Z.of_nat k + n mod 8 ^ Z.of_nat k < 2 ^ 63 →
  oct2bin_loop fuel m p v = Done (v * 8 ^ Z.of_nat k + n mod 8 ^ Z.of_nat k).
Proof.
  revert fuel p v. induction k as [|k IH]; intros fuel p v Hs Hf Hv Hn Hb.
  - simpl in Hs. replace (v * 8 ^ Z.of_nat 0 + n mod 8 ^ Z.of_nat 0) with v
      by (change (8 ^ Z.of_nat 0) with 1; rewrite Z.mod_1_r; lia).
    by destruct fuel; simpl; rewrite Hs.
  - destruct fuel as [|fuel]; [lia|]. simpl in Hs. destruct Hs as (Hc & Hne & Hs).
    set (d := (n / 8 ^ Z.of_nat k) mod 8) in *.
    assert (0 ≤ d < 8) as Hd by (apply Z.mod_pos_bound; lia).
    rewrite code_ascii in Hc by lia. simpl. rewrite Hc.
    destruct (Z.eqb_spec (48 + d) 0); [lia|]. unfold schar. destruct (Z.ltb_spec (48 + d) 128); [|lia].
    assert (8 ^ Z.of_nat (S k) = 8 * 8 ^ Z.of_nat k) as Hp.
    { rewrite Nat2Z.inj_succ, Z.pow_succ_r by lia. done. }
    assert (0 < 8 ^ Z.of_nat k) as Hpos by (apply Z.pow_pos_nonneg; lia).
    assert (n mod 8 ^ Z.of_nat (S k) = d * 8 ^ Z.of_nat k + n mod 8 ^ Z.of_nat k) as Hmod.
    { rewrite Hp. unfold d. rewrite (Z.mul_comm 8), Z.rem_mul_r by lia. lia. }
    rewrite Hmod, Hp in *.
    pose proof (Z.mod_pos_bound n (8 ^ Z.of_nat k) Hpos).
    rewrite (u64_small (v * 8)) by nia. rewrite u64_small by nia.
    rewrite IH by (done || lia || nia). f_equal. nia.
Qed.

Lemma copy_name_ok room m p s : cstr m p s → (String.length s ≤ room)%nat → copy_name room m p = Done s.
Proof.
  revert p s. induction room as [|k IH]; intros p s Hs Hl;
    destruct s as [|c s]; try (simpl in Hl; lia); simpl in Hs |- *.
  - by rewrite Hs.
  - by rewrite Hs.
  - destruct Hs as (-> & Hn & Hs). destruct (Z.eqb_spec (code c) 0); [done|].
    rewrite (IH _ s Hs) by (simpl in Hl; lia). simpl. do 2 f_equal.
    unfold code. by rewrite N2Z.id, Ascii.ascii_N_embedding.
Qed.

Lemma pow8_11 : 8 ^ Z.of_nat 11 = 2 ^ 33.
Proof. reflexivity. Qed.

(** The name that tarfs_init copies. *)
Lemma code_eqb c d : (code c =? code d) = Ascii.eqb c d.
Proof.
  destruct (Ascii.eqb_spec c d) as [->|Hne]; [apply Z.eqb_refl|]. apply Z.eqb_neq. intros E. apply Hne.
  unfold code in E. apply N2Z.inj in E. by rewrite <- (Ascii.ascii_N_embedding c), <- (Ascii.ascii_N_embedding d), E.
Qed.
Lemma hdr_name_ok m p raw : cstr m p raw → raw ≠ ""%string → cstr m (hdr_name m p) (file_name raw).
Proof.
  intros Hs Hne. destruct raw as [|c raw]; [done|]. pose proof Hs as (Hc & _ & Hs'). unfold hdr_name. rewrite Hc.
  change 46 with (code "."). change 47 with (code "/"). rewrite code_eqb. destruct raw as [|d raw]; simpl in Hs'.
  - rewrite Hs'. change (0 =? code "/") with false. rewrite andb_false_r. exact Hs.
  - destruct Hs' as (Hd & _ & Hs'). rewrite Hd, code_eqb. simpl file_name. destruct (_ && _); [|exact Hs].
    by replace (p + 2) with (p + 1 + 1) by lia.
Qed.

(** What has been filled in after the first [k] entries. *)
Record tar_filled (s0 : fs_state) (ns : list vnode) (w : tar_walk) : Prop := {
  tf_count : tw_count w = length ns;
  tf_nodes : take (length ns) (tar_nodes (tw_fs w)) = ns;
  tf_len : length (tar_nodes (tw_fs w)) = 64%nat;
  tf_children : tar_children (tw_fs w) = slots (TarNode <$> seq 0 (length ns));
  tf_dev : dev_nodes (tw_fs w) = dev_nodes s0 ∧ dev_children (tw_fs w) = dev_children s0
    ∧ dev_root_node (tw_fs w) = dev_root_node s0;
}.

(** The size field. *)
Lemma tar_size_ok fuel m p name data fs : archive m p ((name, data) :: fs) → (11 ≤ fuel)%nat →
  oct2bin fuel m (p + hdr_size) = Done (Z.of_nat (length data)).
Proof.
  intros (_ & _ & Hsz & Hn & _ & _ & Hb & _) Hf. set (n := Z.of_nat (length data)) in *. pose proof pow8_11 as H8.
  unfold oct2bin. rewrite (oct2bin_ok fuel m _ 11 n 0 Hsz Hf); rewrite ?H8, ?(Z.mod_small n) by lia.
  - f_equal.
  - lia.
  - lia.
  - pow2. change (2 ^ 33) with 8589934592 in *. lia.
Qed.

Lemma tar_more_ok m w name data fs : archive m (tw_ptr w) ((name, data) :: fs) → tar_more m w = true.
Proof.
  intros ((raw & Hraw & Hne & _) & _). unfold tar_more. destruct raw as [|c raw]; [done|].
  destruct Hraw as (-> & ? & _). by destruct (Z.eqb_spec (code c) 0).
Qed.

Lemma tar_entry_ok fuel m s0 ns w name data fs :
  tar_filled s0 ns w → archive m (tw_ptr w) ((name, data) :: fs) → (length ns < 64)%nat → (11 ≤ fuel)%nat →
  ∃ w', tar_entry fuel m w = Done w' ∧ tar_more m w = true
    ∧ tar_filled s0 (ns ++ [mk_vnode name (Z.of_nat (length data)) (Some tar_ops) (IData (tw_ptr w + 512))]) w'
    ∧ tw_ptr w' = tw_ptr w + 512 + blocks (Z.of_nat (length data)).
Proof.
  intros [Hc Hns Hlen Hch Hdev] Ha Hl Hf. pose proof (tar_size_ok fuel m _ _ _ _ Ha Hf) as Hsize.
  pose proof (tar_more_ok m w _ _ _ Ha) as Hmore.
  destruct Ha as ((raw & Hraw & Hne & _ & Heq) & Hnl & _ & Hn & _ & Hp & Hb & _).
  pose proof (hdr_name_ok m _ raw Hraw Hne) as Hname. rewrite Heq in Hname.
  set (n := Z.of_nat (length data)) in *. unfold tar_entry. rewrite Hsize.
  cbn [mbind outcome_bind]. rewrite Hc. destruct (Nat.leb_spec 64 (length ns)); [lia|].
  rewrite (copy_name_ok 63 m _ name Hname Hnl). cbn [mbind outcome_bind].
  eexists. split; [reflexivity|]. split; [exact Hmore|split].
  - split; simpl.
    + rewrite length_app. simpl. lia.
    + rewrite length_app. simpl. rewrite i64_small by (change (2 ^ 33) with 8589934592 in *; pow2; lia).
      rewrite Nat.add_1_r. rewrite (take_S_r _ _ (mk_vnode name n (Some tar_ops) (IData (tw_ptr w + 512)))).
      * by rewrite take_insert_ge, Hns by lia.
      * apply list_lookup_insert_eq. lia.
    + by rewrite length_insert.
    + rewrite Hch, length_app. simpl. rewrite Nat.add_1_r, seq_S, fmap_app. simpl.
      rewrite <- (slots_snoc (TarNode <$> seq 0 (length ns))) by (by rewrite length_fmap, length_seq).
      by rewrite length_fmap, length_seq.
    + done.
  - simpl. assert (0 ≤ n) by lia. assert (0 ≤ blocks n) by (unfold blocks; zdiv).
    assert (u64 (u64 (n + 511) / 512 * 512) = blocks n) as ->.
    { change (2 ^ 33) with 8589934592 in *. rewrite (u64_small (n + 511)) by (pow2; lia).
      unfold blocks in *. apply u64_small. pow2. zdiv. }
    rewrite (u64_small (512 + blocks n)), u64_small by lia. lia.
Qed.

Lemma tar_loop_ok fuel k m s0 fs : (11 ≤ fuel)%nat → ∀ ns w,
  tar_filled s0 ns w → archive m (tw_ptr w) fs → (length ns + length fs ≤ 64)%nat → (length fs ≤ k)%nat →
  ∃ w', loop (tar_more m) (tar_entry fuel m) k w = Done w'
    ∧ tar_filled s0 (ns ++ archive_nodes (tw_ptr w) fs) w'.
Proof.
  intros Hfuel. revert k. induction fs as [|[name data] fs IH]; intros k ns w Hw Ha Hlen Hk.
  - exists w. simpl in *. rewrite app_nil_r. split; [|done]. unfold tar_more.
    destruct k; simpl; unfold tar_more; by rewrite Ha.
  - destruct k as [|k]; [simpl in Hk; lia|]. simpl in Hlen, Hk.
    destruct (tar_entry_ok fuel m s0 ns w name data fs Hw Ha) as (w1 & He & Hmore & Hw1 & Hp1); [lia|lia|].
    simpl loop. rewrite Hmore, He. cbn [mbind outcome_bind].
    destruct (IH k _ w1 Hw1) as (w' & Hl & Hw').
    + rewrite Hp1. by destruct Ha as (_ & _ & _ & _ & _ & _ & _ & ?).
    + rewrite length_app. simpl. lia.
    + lia.
    + exists w'. split; [done|]. rewrite <- (assoc app), Hp1 in Hw'. exact Hw'.
Qed.

(** The 65th file has no node. *)
Lemma tar_loop_full fuel m s0 fs : (11 ≤ fuel)%nat → ∀ k ns w,
  tar_filled s0 ns w → archive m (tw_ptr w) fs → (length ns ≤ 64 < length ns + length fs)%nat → (length fs ≤ k)%nat →
  loop (tar_more m) (tar_entry fuel m) k w = Undef "more than 64 files".
Proof.
  intros Hfuel. induction fs as [|[name data] fs IH]; intros k ns w Hw Ha Hlen Hk; [simpl in Hlen; lia|].
  destruct k as [|k]; [simpl in Hk; lia|]. simpl in Hlen, Hk. simpl loop.
  rewrite (tar_more_ok m w _ _ _ Ha). destruct (decide (length ns < 64)%nat) as [Hlt|Hge].
  - destruct (tar_entry_ok fuel m s0 ns w name data fs Hw Ha) as (w1 & -> & _ & Hw1 & Hp1); [lia|lia|].
    cbn [mbind outcome_bind]. apply (IH k _ w1 Hw1).
    + rewrite Hp1. by destruct Ha as (_ & _ & _ & _ & _ & _ & _ & ?).
    + rewrite length_app. simpl. lia.
    + lia.
  - unfold tar_entry. rewrite (tar_size_ok fuel m _ _ _ _ Ha Hfuel). cbn [mbind outcome_bind].
    rewrite (tf_count _ _ _ Hw). destruct (Nat.leb_spec 64 (length ns)); [done|lia].
Qed.

Lemma archive_nodes_length p fs : length (archive_nodes p fs) = length fs.
Proof. revert p. induction fs as [|[]]; intros p; simpl; [done|]. by rewrite IHfs. Qed.

Lemma archive_nodes_lookup m p fs i name data : archive m p fs → fs !! i = Some (name, data) →
  ∃ d, archive_nodes p fs !! i
      = Some (mk_vnode name (Z.of_nat (length data)) (Some tar_ops) (IData d))
    ∧ bytes m d (length data) = data.
Proof.
  revert p i. induction fs as [|[nm dt] fs IH]; intros p i Ha Hi; [done|].
  destruct Ha as (_ & _ & _ & _ & Hd & _ & _ & Ha). destruct i as [|i]; simpl in Hi.
  - injection Hi as <- <-. by exists (p + 512).
  - by apply IH.
Qed.

(** The walk of a whole archive. *)
Lemma tar_walk_ok fuel m s fs a : tar_boot s → archive m a fs → (length fs ≤ 64)%nat →
  (11 ≤ fuel)%nat → (length fs ≤ fuel)%nat →
  ∃ w, loop (tar_more m) (tar_entry fuel m) fuel (mk_walk a 0 s) = Done w
    ∧ tar_filled s (archive_nodes a fs) w.
Proof.
  intros [Hl Hc] Ha Hlen Hf Hf'.
  assert (tar_filled s [] (mk_walk a 0 s)) as H0 by (split; simpl; done).
  destruct (tar_loop_ok fuel fuel m s fs Hf [] (mk_walk a 0 s) H0 Ha Hlen Hf') as (w & Hw & Hfill).
  by exists w.
Qed.

(** Nodes with different names, in the children array of the root. *)
Lemma lookup_tar_nodes s names : (∀ i nm, names !! i = Some nm → name_of s (TarNode i) = Some nm) → NoDup names →
  let l := slots (TarNode <$> seq 0 (length names)) in
  (∀ i nm, names !! i = Some nm → lookup_child s l nm = Some (TarNode i))
  ∧ (∀ nm, nm ∉ names → lookup_child s l nm = None).
Proof.
  intros Hname Hnd l. unfold lookup_child, l. rewrite kids_slots. split.
  - intros i nm Hi. pose proof (lookup_lt_Some _ _ _ Hi).
    assert (list_find (λ v, name_of s v = Some nm) (TarNode <$> seq 0 (length names)) = Some (i, TarNode i)) as ->; [|done].
    apply list_find_Some. split; [by rewrite list_lookup_fmap, lookup_seq_lt by done|]. split; [by apply Hname|].
    intros j y Hj Hji E. rewrite list_lookup_fmap, lookup_seq_lt in Hj by lia. injection Hj as <-.
    destruct (lookup_lt_is_Some_2 names j) as [nm' Hj]; [lia|].
    rewrite (Hname j nm' Hj) in E. injection E as ->. pose proof (NoDup_lookup _ _ _ _ Hnd Hi Hj). lia.
  - intros nm Hn. destruct (list_find _ _) as [[j y]|] eqn:E; [|done].
    apply list_find_Some in E as (Hj & Hy & _). exfalso. apply Hn.
    rewrite list_lookup_fmap in Hj. destruct (seq 0 (length names) !! j) as [j'|] eqn:Ej; [|done].
    apply lookup_seq in Ej as [-> Hlt]. injection Hj as <-. destruct (lookup_lt_is_Some_2 names j) as [nm' Hjj]; [lia|].
    rewrite (Hname _ nm' Hjj) in Hy. injection Hy as ->. by eapply list_elem_of_lookup_2.
Qed.

(** Reading an archive back, for the theorem below and for the boot. *)
Lemma tarfs_init_ok fuel m s files a :
  tar_boot s → archive m a files → (length files ≤ 63)%nat → NoDup files.*1 →
  (11 ≤ fuel)%nat → (length files ≤ fuel)%nat →
  ∃ s', tarfs_init fuel a m s = Done s'
    ∧ root_mount s' = Some ("tarfs"%string, TarRoot)
    ∧ get_vnode TarRoot s' = Some (mk_vnode "/" 0 None (IChildren TarChildren))
    ∧ get_array TarChildren s' = slots (TarNode <$> seq 0 (length files))
    ∧ (∀ i name data, files !! i = Some (name, data) →
         lookup_child s' (tar_children s') name = Some (TarNode i)
         ∧ ∃ d, get_vnode (TarNode i) s'
               = Some (mk_vnode name (Z.of_nat (length data)) (Some tar_ops) (IData d))
             ∧ bytes m d (length data) = data)
    ∧ (∀ name, name ∉ files.*1 → lookup_child s' (tar_children s') name = None).
Proof.
  intros Hboot Ha Hlen Hnd Hf Hf'.
  destruct (tar_walk_ok fuel m s files a Hboot Ha ltac:(lia) Hf Hf') as (w & Hw & [Hc Hns Hl Hch _]).
  rewrite archive_nodes_length in *.
  unfold tarfs_init. rewrite Hw. cbn [mbind outcome_bind]. rewrite Hc.
  destruct (Nat.leb_spec 64 (length files)); [lia|]. eexists. split; [reflexivity|].
  set (s' := set_root_mount _ _).
  assert (get_array TarChildren s' = slots (TarNode <$> seq 0 (length files))) as Harr.
  { simpl. rewrite Hch. apply list_insert_id. unfold slots.
    rewrite lookup_app_r by (by rewrite !length_fmap, length_seq).
    rewrite !length_fmap, length_seq, Nat.sub_diag.
    by replace (64 - length files)%nat with (S (63 - length files)) by lia. }
  assert (∀ i name data, files !! i = Some (name, data) → ∃ d,
    get_vnode (TarNode i) s' = Some (mk_vnode name (Z.of_nat (length data)) (Some tar_ops) (IData d))
    ∧ bytes m d (length data) = data) as Hnode.
  { intros i name data Hi. destruct (archive_nodes_lookup m a files i name data Ha Hi) as (d & Hd & Hb).
    exists d. split; [|done]. simpl. rewrite <- Hns in Hd. rewrite lookup_take_lt in Hd; [done|].
    by apply lookup_lt_Some in Hi. }
  destruct (lookup_tar_nodes s' files.*1) as [Hfind Hnone]; [|done|].
  { intros i name Hi. rewrite list_lookup_fmap in Hi. destruct (files !! i) as [[nm data]|] eqn:E; [|done].
    injection Hi as <-. destruct (Hnode i nm data E) as (d & Hd & _). unfold name_of. by rewrite Hd. }
  cbv zeta in Hfind, Hnone. rewrite length_fmap, <- Harr in Hfind, Hnone.
  split; [done|]. split; [done|]. split; [exact Harr|]. split; [|exact Hnone].
  intros i name data Hi. split; [|by apply Hnode]. apply Hfind. by rewrite list_lookup_fmap, Hi.
Qed.

(** ** Properties *)

(** C12: the file system is the archive: for an archive of at most 63 files and directories with
    different names, stored as they are or behind "./" as the build's tar stores them, tarfs_init terminates with the root mounted on a
    well-formed directory in which every name of the archive, and no other, is
    found; the node has the file's size and points to its bytes. *)
Theorem tarfs_init_reads_archive fuel m s files a :
  tar_boot s → archive m a files → (length files ≤ 63)%nat → NoDup files.*1 →
  (11 ≤ fuel)%nat → (length files ≤ fuel)%nat →
  ∃ s', tarfs_init fuel a m s = Done s'
    ∧ root_mount s' = Some ("tarfs"%string, TarRoot)
    ∧ get_vnode TarRoot s' = Some (mk_vnode "/" 0 None (IChildren TarChildren))
    ∧ get_array TarChildren s' = slots (TarNode <$> seq 0 (length files))
    ∧ (∀ i name data, files !! i = Some (name, data) →
         lookup_child s' (tar_children s') name = Some (TarNode i)
         ∧ ∃ d, get_vnode (TarNode i) s'
               = Some (mk_vnode name (Z.of_nat (length data)) (Some tar_ops) (IData d))
             ∧ bytes m d (length data) = data)
    ∧ (∀ name, name ∉ files.*1 → lookup_child s' (tar_children s') name = None).
Proof. apply tarfs_init_ok. Qed.

(** C22: 63 files are the most that tarfs_init has room for. On an archive of exactly 64 it
    fills all of children[64] and then writes the terminating NULL past its end; on a
    larger one it writes the 65th node past the end of nodes[64]. *)
Theorem tarfs_init_overflow fuel m s files a :
  tar_boot s → archive m a files → (64 ≤ length files)%nat → (length files ≤ fuel)%nat →
  tarfs_init fuel a m s = Undef (if decide (length files = 64%nat) then "children[64]" else "more than 64 files").
Proof.
  intros Hboot Ha Hlen Hf. destruct (decide (length files = 64%nat)) as [E|Hne].
  - destruct (tar_walk_ok fuel m s files a Hboot Ha ltac:(lia) ltac:(lia) ltac:(lia)) as (w & Hw & [Hc _ _ _ _]).
    rewrite archive_nodes_length in Hc. unfold tarfs_init. rewrite Hw. cbn [mbind outcome_bind]. by rewrite Hc, E.
  - destruct Hboot as [Hl Hc]. assert (tar_filled s [] (mk_walk a 0 s)) as H0 by (split; simpl; done).
    unfold tarfs_init. by rewrite (tar_loop_full fuel m s files ltac:(lia) fuel [] (mk_walk a 0 s) H0 Ha) by (simpl; lia).
Qed.

Module TarfsWitness.

(** The archive of a directory with one file, bin/init, with the bytes 7, 8, as tar writes it:
    the directory, the directory bin, and the file. *)
Definition put_string (p : Z) (s : string) (m : mem) : mem :=
  foldr (λ x m, stb (p + Z.of_nat (fst x)) (code (snd x)) m) (stb (p + Z.of_nat (String.length s)) 0 m)
    (imap pair (String.list_ascii_of_string s)).
Definition put_header (p : Z) (name : string) (size : Z) (m : mem) : mem :=
  put_string (p + 124) (octal 11 size) (put_string p name m).
Definition demo_tar : mem :=
  stb 0x10601 8 (stb 0x10600 7
    (put_header 0x10000 "./" 0 (put_header 0x10200 "./bin/" 0 (put_header 0x10400 "./bin/init" 2 ∅)))).
Definition demo_files : list (string * list Z) := [("", []); ("bin/", []); ("bin/init", [7; 8])]%string.
Definition demo_boot : fs_state :=
  mk_fs (replicate 64 vnode_zero) vnode_zero (replicate 64 None) [] vnode_zero [] None.

Ltac header raw := split; [exists raw; split; [by vm_compute|]; split; [done|]; split; [simpl; lia|done]|];
  split; [simpl; lia|]; split; [by vm_compute|]; split; [by vm_compute|]; split; [vm_compute; reflexivity|];
  split; [by vm_compute|]; split; [by vm_compute|].
Lemma demo_archive : archive demo_tar 0x10000 demo_files.
Proof. cbn [archive demo_files]. header "./"%string. header "./bin/"%string. header "./bin/init"%string. by vm_compute. Qed.
Lemma demo_names : NoDup demo_files.*1.
Proof. apply (bool_decide_unpack _). by vm_compute. Qed.

Lemma tarfs_init_reads_archive_witness :
  ∃ s' d, tarfs_init 16 0x10000 demo_tar demo_boot = Done s'
    ∧ lookup_child s' (tar_children s') "bin/init" = Some (TarNode 2)
    ∧ get_vnode (TarNode 2) s' = Some (mk_vnode "bin/init" 2 (Some tar_ops) (IData d))
    ∧ bytes demo_tar d 2 = [7; 8].
Proof.
  destruct (tarfs_init_reads_archive 16 demo_tar demo_boot demo_files 0x10000 (conj eq_refl eq_refl) demo_archive
    ltac:(simpl; lia) demo_names ltac:(lia) ltac:(simpl; lia))
    as (s' & Ht & _ & _ & _ & Hf & _).
  destruct (Hf 2%nat "bin/init"%string [7; 8] eq_refl) as (Hl & d & Hd & Hb).
  exists s', d. split; [exact Ht|]. split; [exact Hl|]. split; [exact Hd|exact Hb].
Defined.

(** 64 empty files, all named "a": headers every 512 bytes. *)
Definition full_tar (n : nat) : mem :=
  foldr (λ i m, put_string (512 * Z.of_nat i + 124) (octal 11 0) (put_string (512 * Z.of_nat i) "a" m))
    ∅ (seq 0 n).

Lemma full_archive m k : ∀ i, Forall (λ j, cstr m (512 * Z.of_nat j) "a"
    ∧ cstr m (512 * Z.of_nat j + 124) (octal 11 0)) (seq i k) →
  (i + k ≤ 65)%nat → ldb m (512 * Z.of_nat (i + k)) = 0 →
  archive m (512 * Z.of_nat i) (replicate k ("a"%string, [])).
Proof.
  induction k as [|k IH]; intros i Hs Hik Hz; [by rewrite Nat.add_0_r in Hz|].
  simpl seq in Hs. apply Forall_cons in Hs as [[Hn Ho] Hs]. simpl replicate. cbn [archive].
  split; [exists "a"%string; split; [exact Hn|]; split; [discriminate|]; split; [simpl; lia|done]|]. split; [simpl; lia|].
  split; [exact Ho|]. split; [simpl; lia|].
  split; [reflexivity|]. change (blocks (Z.of_nat (length (@nil Z)))) with 0.
  split; [lia|]. split; [lia|].
  replace (512 * Z.of_nat i + 512 + 0) with (512 * Z.of_nat (S i)) by lia.
  apply IH; [exact Hs|lia|]. by rewrite Nat.add_succ_comm.
Qed.

Ltac solve_full :=
  apply (full_archive _ _ 0%nat); [|lia|by vm_compute];
  apply Forall_forall; intros j Hj; vm_compute in Hj;
  repeat (apply elem_of_cons in Hj as [->|Hj]; [by vm_compute|]); by apply elem_of_nil in Hj.
Lemma archive_64 : archive (full_tar 64) 0 (replicate 64 ("a"%string, [])).
Proof. solve_full. Qed.
Lemma archive_65 : archive (full_tar 65) 0 (replicate 65 ("a"%string, [])).
Proof. solve_full. Qed.

Lemma tarfs_init_overflow_witness : tarfs_init 64 0 (full_tar 64) demo_boot = Undef "children[64]"
  ∧ tarfs_init 65 0 (full_tar 65) demo_boot = Undef "more than 64 files".
Proof.
  split.
  - apply (tarfs_init_overflow 64 (full_tar 64) demo_boot _ 0 (conj eq_refl eq_refl) archive_64); rewrite length_replicate; lia.
  - apply (tarfs_init_overflow 65 (full_tar 65) demo_boot _ 0 (conj eq_refl eq_refl) archive_65); rewrite length_replicate; lia.
Defined.
End TarfsWitness.
