(* ===== verification/Bootfs.v ===== *)
(** * The file system a booted kernel has

    What init_filesystem and register_devices of main.c leave in the static tables of tarfs.c
    and devfs.c: the archive's files under their full names, and the devices under /dev. *)
From Stdlib Require Import Ascii.
From S2P Require Import Prelude CMem Fb Term Vfs Tarfs.

(** The devices in the order they register. *)
Definition devices : list (string * vnode_ops) :=
  [("fb0", fb_ops); ("stdin", stdin_ops); ("stdout", stdout_ops); ("stderr", stderr_ops)]%string.

(** What registering a device leaves alone. *)
Record same_tar (s s' : fs_state) : Prop := {
  st_nodes : tar_nodes s' = tar_nodes s;
  st_root : tar_root s' = tar_root s;
  st_children : tar_children s' = tar_children s;
  st_mount : root_mount s' = root_mount s;
  st_dev : vn_name (dev_root_node s') = vn_name (dev_root_node s) ∧ vn_ops (dev_root_node s') = vn_ops (dev_root_node s)
    ∧ vn_internal (dev_root_node s') = vn_internal (dev_root_node s);
}.
Lemma same_tar_trans s1 s2 s3 : same_tar s1 s2 → same_tar s2 s3 → same_tar s1 s3.
Proof. intros [? ? ? ? (? & ? & ?)] [? ? ? ? (? & ? & ?)]. split; [congruence..|]. repeat split; congruence. Qed.
Lemma register_same_tar name ops p s r s' : devfs_register name ops p s = Done (r, s') → same_tar s s'.
Proof.
  unfold devfs_register. destruct (list_find _ (dev_nodes s)) as [[i n]|]; [|by intros [= _ <-]].
  intros [= _ <-]. by destruct (list_find _ (dev_children _)) as [[]|].
Qed.

Section boot.
Implicit Types (s : fs_state).

(** [k] devices are registered, those of [ds], in order. *)
Record has_devices s (ds : list (string * vnode_ops)) : Prop := {
  hd_ok : dev_ok s (length ds);
  hd_nodes : ∀ i name ops, ds !! i = Some (name, ops) → ∃ n, get_vnode (DevNode i) s = Some n
    ∧ vn_name n = name ∧ vn_ops n = Some ops;
}.
Lemma register_device s ds name ops private : has_devices s ds → name ≠ ""%string → (String.length name ≤ 63)%nat →
  (length ds < 64)%nat →
  ∃ s', devfs_register name (Some ops) private s = Done (Some (DevNode (length ds)), s') ∧ has_devices s' (ds ++ [(name, ops)])
    ∧ same_tar s s' ∧ get_vnode (DevNode (length ds)) s' = Some (mk_vnode name 0 (Some ops) private).
Proof.
  intros [Hok Hn] Hname Hl Hlen.
  destruct (proj1 (devfs_register_spec s (length ds) name (Some ops) private Hok Hname Hl ltac:(lia)) Hlen)
    as (s' & Hr & Hok' & Hnew & _ & Hsame).
  exists s'. split; [done|]. split; [|split; [by eapply register_same_tar|done]]. split.
  - by rewrite length_app, Nat.add_1_r.
  - intros i nm o [Hi|[Hi Heq]]%lookup_app_Some.
    + rewrite Hsame by (apply lookup_lt_Some in Hi; lia). by apply Hn.
    + destruct (i - length ds)%nat as [|j] eqn:E; [|by destruct j]. injection Heq as <- <-.
      assert (i = length ds) as -> by lia. by eexists.
Qed.
Lemma sized_device s ds i n size : has_devices s ds → get_vnode (DevNode i) s = Some n → vn_name n ≠ ""%string →
  let s' := set_vnode (DevNode i) (mk_vnode (vn_name n) size (vn_ops n) (vn_internal n)) s in
  set_vn_size (DevNode i) size s = Done (tt, s') ∧ has_devices s' ds ∧ same_tar s s'.
Proof.
  intros [[Hlen Hused Hslots] Hn] Hi Hne s'. split; [|split; [split; [split|]|by repeat split]].
  - unfold set_vn_size, deref. by rewrite Hi.
  - simpl. by rewrite length_insert.
  - simpl. intros j m [(-> & <- & _)|[Hij Hj]]%list_lookup_insert_Some; [exact (Hused _ n Hi)|exact (Hused j m Hj)].
  - done.
  - intros j name ops Hj. simpl. destruct (decide (i = j)) as [->|Hij].
    + rewrite list_lookup_insert_eq by (by eapply lookup_lt_Some). destruct (Hn j name ops Hj) as (m & Hm & ? & ?).
      rewrite Hi in Hm. injection Hm as <-. by eexists.
    + rewrite list_lookup_insert_ne by done. by apply Hn.
Qed.

(** The four devices, on an empty devfs. *)
Lemma register_all s fb : has_devices s [] →
  ∃ s1 s2, fb_device_init fb s = Done (tt, s1) ∧ terminal_device_init s1 = Done (tt, s2)
    ∧ has_devices s2 devices ∧ same_tar s s2.
Proof.
  intros H0. destruct (register_device s [] "fb0" fb_ops IFb H0) as (a & Ea & Ha & Ta & Na); [done|simpl; lia|simpl; lia|].
  destruct (sized_device a _ 0 _ (i64 (fb_size fb)) Ha Na) as (Eb & Hb & Tb); [done|]. set (b := set_vnode _ _ a) in *.
  destruct (register_device b _ "stdin" stdin_ops INull Hb) as (c & Ec & Hc & Tc & _); [done|simpl; lia|simpl; lia|].
  destruct (register_device c _ "stdout" stdout_ops INull Hc) as (d & Ed & Hd & Td & _); [done|simpl; lia|simpl; lia|].
  destruct (register_device d _ "stderr" stderr_ops INull Hd) as (e & Ee & He & Te & _); [done|simpl; lia|simpl; lia|].
  exists b, e. split; [|split; [|split; [exact He|eauto using same_tar_trans]]].
  - unfold fb_device_init. rewrite (bind_Done _ _ _ _ _ Ea). exact Eb.
  - unfold terminal_device_init. rewrite (bind_Done _ _ _ _ _ Ec), (bind_Done _ _ _ _ _ Ed), (bind_Done _ _ _ _ _ Ee). done.
Qed.

(** The archive [files] of memory [m] is the root directory, with /dev in it. *)
Record booted_fs (m : mem) (files : list (string * list Z)) s : Prop := {
  bf_wf : fs_wf s;
  bf_mount : root_mount s = Some ("tarfs"%string, TarRoot);
  bf_root : get_vnode TarRoot s = Some (mk_vnode "/" 0 None (IChildren TarChildren));
  bf_files : ∀ i name data, files !! i = Some (name, data) →
    lookup_child s (tar_children s) name = Some (TarNode i)
    ∧ ∃ d, get_vnode (TarNode i) s = Some (mk_vnode name (Z.of_nat (length data)) (Some tar_ops) (IData d))
        ∧ bytes m d (length data) = data;
  bf_others : ∀ name, name ∉ files.*1 → name ≠ "dev"%string → lookup_child s (tar_children s) name = None;
  bf_dev : lookup_child s (tar_children s) "dev" = Some DevRoot ∧ vn_internal (dev_root_node s) = IChildren DevChildren;
  bf_devices : has_devices s devices;
}.

Lemma dev_good : good_name "dev".
Proof. vm_compute. repeat split; (done || lia). Qed.

Lemma seq_kids s n : (∀ i, (i < n)%nat → is_Some (get_vnode (TarNode i) s)) →
  ∀ v, v ∈ TarNode <$> seq 0 n → is_Some (get_vnode v s).
Proof. intros Hs v (i & -> & Hi%elem_of_seq)%list_elem_of_fmap. apply Hs. lia. Qed.

(** The archive read and devfs initialised, before /dev is mounted. *)
Lemma fs_wf_before s files m : root_mount s = Some ("tarfs"%string, TarRoot) →
  tar_children s = slots (TarNode <$> seq 0 (length files)) → dev_children s = slots [] → (length files ≤ 62)%nat →
  (∀ i name data, files !! i = Some (name, data) → ∃ d,
     get_vnode (TarNode i) s = Some (mk_vnode name (Z.of_nat (length data)) (Some tar_ops) (IData d)) ∧ bytes m d (length data) = data) →
  fs_wf s.
Proof.
  intros Hm Ht Hd Hlen Hf. split.
  - intros []; simpl; rewrite ?Ht, ?Hd, !kids_slots, ?length_fmap, ?length_seq; (split; [done|simpl; lia]).
  - intros [] v; simpl; rewrite ?Ht, ?Hd, kids_slots; [|by intros ?%elem_of_nil].
    apply seq_kids. intros i Hi. destruct (lookup_lt_is_Some_2 files i Hi) as [[nm dt] E].
    destruct (Hf i nm dt E) as (d & -> & _). by eexists.
  - intros nm r. rewrite Hm. intros [= <- <-]. by eexists.
Qed.

(** Registering devices keeps the file system well formed and its other names. *)
Lemma name_of_same_tar s s' v : same_tar s s' → (∀ i, v ≠ DevNode i) → name_of s' v = name_of s v.
Proof.
  intros [Hn Hr Hc Hm (Hdn & _)] Hv. unfold name_of. destruct v as [|i| |i]; simpl; [by rewrite Hr|by rewrite Hn|by rewrite Hdn|by destruct (Hv i)].
Qed.
Lemma lookup_ext s s' ks name : (∀ v, v ∈ ks → name_of s' v = name_of s v) →
  lookup_child s' (slots ks) name = lookup_child s (slots ks) name.
Proof.
  intros Hks. unfold lookup_child. rewrite kids_slots. f_equal. induction ks as [|v ks IH]; [done|]. simpl.
  rewrite (Hks v) by apply list_elem_of_here.
  rewrite IH; [done|]. intros w Hw. apply Hks. by apply list_elem_of_further.
Qed.

(** Device nodes are in /dev only. *)
Definition no_devices (ks : list vptr) : Prop := ∀ v i, v ∈ ks → v ≠ DevNode i.
Lemma fs_wf_after s s' ks nm : fs_wf s → root_mount s = Some (nm, TarRoot) → same_tar s s' → tar_children s = slots ks → no_devices ks → has_devices s' devices → fs_wf s'.
Proof.
  intros [Hs Hk _] Hm [Tn Tr Tc Tm Td] Hks Hno [[_ _ Hslots] Hn]. split.
  - intros []; simpl; [rewrite Tc; apply (Hs TarChildren)|]. rewrite Hslots, kids_slots. split; [done|simpl; lia].
  - intros [] v; simpl.
    + rewrite Tc. intros Hv. pose proof (Hk TarChildren v Hv) as Hv'. destruct v as [|i| |i]; simpl in *; [done|by rewrite Tn|done|].
      rewrite Hks, kids_slots in Hv. by destruct (Hno _ i Hv).
    + rewrite Hslots, kids_slots. intros (i & -> & Hi%elem_of_seq)%list_elem_of_fmap. simpl in Hi.
      destruct (lookup_lt_is_Some_2 devices i ltac:(simpl; lia)) as [[name ops] E]. destruct (Hn i name ops E) as (n & -> & _). by eexists.
  - intros nm' r. rewrite Tm, Hm. intros [= _ <-]. by eexists.
Qed.

(** The calls of the boot that touch the file system, one after the other. *)
Lemma boot_fs_ok fuel a m s files fb : tar_boot s → archive m a files → (length files ≤ 62)%nat → NoDup files.*1 →
  "dev"%string ∉ files.*1 → (11 ≤ fuel)%nat → (length files ≤ fuel)%nat →
  ∃ s1 s2 s3 s4 s5, tarfs_init fuel a m s = Done s1 ∧ devfs_init s1 = Done (tt, s2)
    ∧ mount_fs (Some "/dev"%string) (Some devfs_root) s2 = Done (0, s3)
    ∧ fb_device_init fb s3 = Done (tt, s4) ∧ terminal_device_init s4 = Done (tt, s5) ∧ booted_fs m files s5.
Proof.
  intros Hboot Har Hlen Hnd Hdev Hf Hf'.
  destruct (tarfs_init_ok fuel m s files a Hboot Har ltac:(lia) Hnd Hf Hf') as (s1 & E1 & Hm1 & Hr1 & Hc1 & Hfiles & Hothers).
  set (s2 := state_of s1 (devfs_init s1)). assert (devfs_init s1 = Done (tt, s2)) as E2 by done.
  set (ks := TarNode <$> seq 0 (length files)) in *.
  assert (tar_children s2 = slots ks) as Hc2 by exact Hc1. assert (root_mount s2 = Some ("tarfs"%string, TarRoot)) as Hm2 by exact Hm1.
  assert (fs_wf s2) as Hwf2.
  { eapply fs_wf_before; [done|exact Hc2|done|done|]. intros i nm dt Hi. destruct (Hfiles i nm dt Hi) as (_ & d & Hd & Hb). by exists d. }
  assert (kids (get_array TarChildren s2) = ks) as Hkids by (change (kids (get_array TarChildren s1) = ks); rewrite Hc1; apply kids_slots).
  destruct (mount_fs_spec s2 "tarfs" TarRoot _ TarChildren "dev" DevRoot _ Hwf2 Hm2 Hr1 eq_refl dev_good eq_refl)
    as (E3 & Hwf3 & Hdev3 & Hoth3); [rewrite Hkids; unfold ks; rewrite length_fmap, length_seq; lia|].
  set (ks3 := mount_kids s2 _ "dev" DevRoot) in *. set (s3 := set_array TarChildren (slots ks3) s2) in *.
  assert (no_devices ks3) as Hno.
  { intros v i [->|Hv]%mount_kids_elem; [done|]. rewrite Hkids in Hv. apply list_elem_of_fmap in Hv as (j & -> & _). done. }
  assert (has_devices s3 []) as Hd3.
  { split; [|intros i nm ops; by rewrite lookup_nil]. destruct (devfs_init_ok s1) as (s2' & E & [Hl Hu Hs]).
    rewrite E2 in E. injection E as <-. by split. }
  destruct (register_all s3 fb Hd3) as (s4 & s5 & E4 & E5 & Hd5 & Ht).
  exists s1, s2, s3, s4, s5. do 5 (split; [done|]).
  assert (∀ name, lookup_child s5 (tar_children s5) name = lookup_child s3 (get_array TarChildren s3) name) as Hlook.
  { intros name. rewrite (st_children _ _ Ht). apply lookup_ext. intros v Hv. apply name_of_same_tar; [done|]. intros i. by apply Hno. }
  assert (∀ name, lookup_child s2 (get_array TarChildren s2) name = lookup_child s1 (tar_children s1) name) as Hlook2.
  { intros name. change (lookup_child s2 (get_array TarChildren s1) name = lookup_child s1 (get_array TarChildren s1) name). rewrite Hc1.
    apply lookup_ext. intros v Hv. apply list_elem_of_fmap in Hv as (j & -> & _). done. }
  split.
  - by apply (fs_wf_after s3 s5 ks3 "tarfs").
  - rewrite (st_mount _ _ Ht). exact Hm2.
  - simpl. rewrite (st_root _ _ Ht). exact Hr1.
  - intros i name data Hi. destruct (Hfiles i name data Hi) as (Hl & d & Hd & Hb). split; [|exists d; split; [|done]].
    + assert (name ≠ "dev"%string) as Hne by (intros ->; apply Hdev, list_elem_of_fmap; exists ("dev"%string, data); split; [done|by eapply list_elem_of_lookup_2]).
      rewrite Hlook, Hoth3, Hlook2 by done. exact Hl.
    + simpl. rewrite (st_nodes _ _ Ht). exact Hd.
  - intros name Hn Hne. rewrite Hlook, Hoth3, Hlook2 by done. by apply Hothers.
  - split; [rewrite Hlook; by apply Hdev3|]. by rewrite (proj2 (proj2 (st_dev _ _ Ht))).
  - exact Hd5.
Qed.

(** ** What paths find *)

Lemma lookup_device s i name ops : has_devices s devices → devices !! i = Some (name, ops) →
  lookup_child s (dev_children s) name = Some (DevNode i).
Proof.
  intros [[_ _ Hslots] Hn] Hi. unfold lookup_child. rewrite Hslots, kids_slots.
  assert (∀ j nm o, devices !! j = Some (nm, o) → name_of s (DevNode j) = Some nm) as Hname.
  { intros j nm o Hj. destruct (Hn j nm o Hj) as (n & E & <- & _). unfold name_of. by rewrite E. }
  pose proof (Hname 0%nat _ _ eq_refl) as H0. pose proof (Hname 1%nat _ _ eq_refl) as H1.
  pose proof (Hname 2%nat _ _ eq_refl) as H2. pose proof (Hname 3%nat _ _ eq_refl) as H3.
  simpl. rewrite H0, H1, H2, H3. do 4 (destruct i as [|i]; [injection Hi as <- <-; reflexivity|]). done.
Qed.

Section paths.
Variables (m : mem) (files : list (string * list Z)) (s : fs_state).
Hypothesis Hs : booted_fs m files s.

Lemma booted_path cs : cs ≠ [] → Forall good_name cs → (String.length (join_path cs) < 128)%nat →
  vfs_find_vnode (String "/" (join_path cs)) s =
    match lookup_child s (tar_children s) (join_path cs) with Some v => Done (Some v) | None => resolve s TarRoot cs end.
Proof.
  intros Hne Hg Hl. rewrite <- (append_nil_r (join_path cs)) at 1.
  exact (vfs_find_ok s "tarfs" TarRoot _ TarChildren cs true false (bf_wf _ _ _ Hs) (bf_mount _ _ _ Hs) (bf_root _ _ _ Hs) eq_refl
    Hne Hg ltac:(simpl; lia)).
Qed.
Lemma booted_file i cs data : files !! i = Some (join_path cs, data) → cs ≠ [] → Forall good_name cs →
  (String.length (join_path cs) < 128)%nat →
  vfs_find_vnode (String "/" (join_path cs)) s = Done (Some (TarNode i)).
Proof. intros Hi Hne Hg Hl. rewrite booted_path by done. by rewrite (proj1 (bf_files _ _ _ Hs i _ _ Hi)). Qed.
Lemma booted_device i name ops : devices !! i = Some (name, ops) → String.append "dev/" name ∉ files.*1 →
  vfs_find_vnode (String.append "/dev/" name) s = Done (Some (DevNode i)).
Proof.
  intros Hi Hno. assert (good_name name ∧ (String.length name < 10)%nat) as [Hg Hl].
  { do 4 (destruct i as [|i]; [injection Hi as <- _; vm_compute; repeat split; (done || lia)|]). done. }
  change (String.append "/dev/" name) with (String "/" (join_path ["dev"%string; name])).
  rewrite booted_path; [|done|constructor; [apply dev_good|by constructor]|simpl; lia].
  change (join_path ["dev"%string; name]) with (String.append "dev/" name).
  rewrite (bf_others _ _ _ Hs _ Hno) by done. cbn [resolve]. unfold deref. rewrite (bf_root _ _ _ Hs). cbn [mbind outcome_bind vn_internal get_array get_vnode].
  destruct (bf_dev _ _ _ Hs) as [-> Hd]. cbn [get_vnode mbind outcome_bind]. rewrite Hd. cbn [get_array]. by rewrite (lookup_device s i name ops (bf_devices _ _ _ Hs) Hi).
Qed.
Lemma booted_nothing name : name ∉ files.*1 → good_name name → name ≠ "dev"%string → vfs_find_vnode (String "/" name) s = Done None.
Proof.
  intros Hn Hg Hd. destruct Hg as (Hne & Hns & Hl). change (String "/" name) with (String "/" (join_path [name])).
  rewrite booted_path; [|done|by apply Forall_singleton|simpl; lia]. cbn [join_path]. rewrite (bf_others _ _ _ Hs name Hn Hd). cbn [resolve].
  unfold deref. rewrite (bf_root _ _ _ Hs). cbn [mbind outcome_bind vn_internal get_array]. by rewrite (bf_others _ _ _ Hs name Hn Hd).
Qed.
End paths.
End boot.
