(* ===== verification/Fd.v ===== *)
(** * File descriptors: src/filesystem/fd/fd.c and src/syscalls/fs/fs.c

    A process's table maps descriptors to [fd_t] objects, each naming a slot of
    the global table of open files. The tables, the descriptors and the files
    are objects of the kernel heap: this file is proved against [ObjectHeap],
    which Heap.v implements. [open_file] is the abstraction: the open
    file behind each descriptor of each process; [fd_inv] the invariant under
    which the operations refine its update. *)
From S2P Require Import Prelude CMem Fb Term Vfs Heap.

Definition BASE_FILE_LIST_SIZE : Z := 32.
Definition BASE_FD_LIST_SIZE : Z := 16.
Definition sizeof_file : Z := 24.
Definition sizeof_fd : Z := 4.

(** The fields of process_t that fd.c uses. *)
Record proc_fds := mk_proc {
  fds_ptr : Z;
  fds : list Z;                 (* fd_t pointers, 0 for NULL *)
  fd_capacity : Z;
}.

Record fd_state {H : Type} := mk_fd {
  fd_heap : H;
  fd_io : kio;
  files : gmap Z file;          (* file_t objects *)
  fd_objs : gmap Z Z;           (* fd_t objects: of_idx *)
  gft_ptr : Z;
  global_file_table : list Z;   (* file_t pointers, 0 for NULL *)
  global_file_capacity : Z;
  procs : gmap Z proc_fds;
}.
Arguments fd_state : clear implicits.

Section fd.
Context `{OH : ObjectHeap H} `{Uart} `{Abi}.
Abbreviation S := (fd_state H).

Definition on_heap {A} : M H A → M S A :=
  zoom fd_heap (λ h s, mk_fd H h (fd_io s) (files s) (fd_objs s) (gft_ptr s) (global_file_table s)
                         (global_file_capacity s) (procs s)).
Definition on_io {A} : M kio A → M S A :=
  zoom fd_io (λ io s, mk_fd H (fd_heap s) io (files s) (fd_objs s) (gft_ptr s) (global_file_table s)
                        (global_file_capacity s) (procs s)).
Definition set_files (fs : gmap Z file) (s : S) : S :=
  mk_fd H (fd_heap s) (fd_io s) fs (fd_objs s) (gft_ptr s) (global_file_table s) (global_file_capacity s) (procs s).
Definition set_fd_objs (os : gmap Z Z) (s : S) : S :=
  mk_fd H (fd_heap s) (fd_io s) (files s) os (gft_ptr s) (global_file_table s) (global_file_capacity s) (procs s).
Definition set_gft (p : Z) (t : list Z) (c : Z) (s : S) : S :=
  mk_fd H (fd_heap s) (fd_io s) (files s) (fd_objs s) p t c (procs s).
Definition set_procs (ps : gmap Z proc_fds) (s : S) : S :=
  mk_fd H (fd_heap s) (fd_io s) (files s) (fd_objs s) (gft_ptr s) (global_file_table s) (global_file_capacity s) ps.

Definition get_file (p : Z) : M S file := λ s,
  match files s !! p with Some f => Done (f, s) | None => Undef "not a live file_t" end.
Definition put_file (p : Z) (f : file) : M S unit := modify (λ s, set_files (<[p := f]> (files s)) s).
Definition get_fd (p : Z) : M S Z := λ s,
  match fd_objs s !! p with Some i => Done (i, s) | None => Undef "not a live fd_t" end.
Definition get_proc (pid : Z) : M S proc_fds := λ s,
  match procs s !! pid with Some p => Done (p, s) | None => Undef "not a live process_t" end.
Definition put_proc (pid : Z) (p : proc_fds) : M S unit := modify (λ s, set_procs (<[pid := p]> (procs s)) s).

(** kfree of a file_t and of an fd_t *)
Definition free_file (p : Z) : M S unit :=
  _ ← on_heap (oh_free p); modify (λ s, set_files (delete p (files s)) s).
Definition free_fd (p : Z) : M S unit :=
  _ ← on_heap (oh_free p); modify (λ s, set_fd_objs (delete p (fd_objs s)) s).

(** A table of NULL pointers. *)
Definition null_table (n : Z) : list Z := replicate (Z.to_nat n) 0.

Definition fd_init : M S unit :=
  p ← on_heap (oh_calloc BASE_FILE_LIST_SIZE 8);
  modify (set_gft p (if p =? 0 then [] else null_table BASE_FILE_LIST_SIZE) BASE_FILE_LIST_SIZE).

(** kcalloc, memcpy of the old slots, kfree of the old table *)
Definition of_extend_table : M S bool :=
  c ← gets global_file_capacity;
  let new_capacity := u64 (c * 2) in
  new_table ← on_heap (oh_calloc new_capacity 8);
  if new_table =? 0 then mret false
  else
    t ← gets global_file_table;
    old ← gets gft_ptr;
    _ ← on_heap (oh_free old);
    _ ← modify (set_gft new_table (t ++ null_table (new_capacity - c)) new_capacity);
    mret true.

Definition process_fd_extend (pid : Z) : M S bool :=
  p ← get_proc pid;
  let new_capacity := u64 (fd_capacity p * 2) in
  new_table ← on_heap (oh_calloc new_capacity 8);
  if new_table =? 0 then mret false
  else
    _ ← on_heap (oh_free (fds_ptr p));
    _ ← put_proc pid (mk_proc new_table (fds p ++ null_table (new_capacity - fd_capacity p)) new_capacity);
    mret true.

(** for (i = 0; i < capacity; i++) if (table[i] == NULL): the first free slot. A
    table that was never allocated (NULL) has no slots, so running through it
    without finding one is undefined ([full_table]). *)
Definition free_slot (capacity : Z) (table : list Z) : option nat :=
  fst <$> list_find (λ p, p = 0) (take (Z.to_nat capacity) table).

Definition full_table (capacity : Z) (table : list Z) : M S unit :=
  if Z.of_nat (length table) <? capacity then mundef "table[i]" else mret tt.

(** The for (;;) of of_open: as soon as the table was extended a slot is free,
    so two turns are enough. *)
Fixpoint of_place (fuel : nat) (p flags : Z) : M S Z :=
  c ← gets global_file_capacity;
  t ← gets global_file_table;
  match free_slot c t with
  | Some i =>
      _ ← modify (λ s, set_gft (gft_ptr s) (<[i := p]> (global_file_table s)) (global_file_capacity s) s);
      f ← get_file p;
      _ ← put_file p (mk_file (f_vnode f) (f_offset f) (u32 (f_refcount f + 1)) flags);
      mret (i32 (Z.of_nat i))
  | None =>
      match fuel with
      | O => λ _, OutOfFuel
      | Datatypes.S k =>
          _ ← full_table c t;
          ok ← of_extend_table;
          if negb ok then _ ← free_file p; mret (-1)
          else of_place k p flags
      end
  end.

Definition of_open (path : string) (flags : Z) : M S Z :=
  p ← on_heap (oh_alloc sizeof_file);
  if p =? 0 then mret (-1)
  else
    r ← on_io (vfs_open path flags);
    match r with
    | None => _ ← on_heap (oh_free p); mret (-1)
    | Some f => _ ← put_file p f; of_place 1 p flags
    end.

Definition table_get (t : list Z) (i : Z) : M S Z :=
  match t !! Z.to_nat i with
  | Some p => if i <? 0 then mundef "global_file_table index" else mret p
  | None => mundef "global_file_table index"
  end.

Definition of_close (idx : Z) : M S Z :=
  t ← gets global_file_table;
  p ← table_get t idx;
  if p =? 0 then mret (-1)
  else
    f ← get_file p;
    let refcount := u32 (f_refcount f - 1) in
    _ ← put_file p (mk_file (f_vnode f) (f_offset f) refcount (f_flags f));
    if refcount =? 0 then
      _ ← free_file p;
      _ ← modify (λ s, set_gft (gft_ptr s) (<[Z.to_nat idx := 0]> (global_file_table s))
                         (global_file_capacity s) s);
      mret 0
    else mret 0.

Fixpoint fd_place (fuel : nat) (pid fd of_idx : Z) : M S Z :=
  p ← get_proc pid;
  match free_slot (fd_capacity p) (fds p) with
  | Some i =>
      _ ← put_proc pid (mk_proc (fds_ptr p) (<[i := fd]> (fds p)) (fd_capacity p));
      mret (i32 (Z.of_nat i))
  | None =>
      match fuel with
      | O => λ _, OutOfFuel
      | Datatypes.S k =>
          _ ← full_table (fd_capacity p) (fds p);
          ok ← process_fd_extend pid;
          if negb ok then _ ← free_fd fd; _ ← of_close of_idx; mret (-1)
          else fd_place k pid fd of_idx
      end
  end.

Definition process_fd_open (pid : Z) (path : string) (flags : Z) : M S Z :=
  of_idx ← of_open path flags;
  if of_idx <? 0 then mret (-1)
  else
    fd ← on_heap (oh_alloc sizeof_fd);
    if fd =? 0 then _ ← of_close of_idx; mret (-1)
    else
      _ ← modify (λ s, set_fd_objs (<[fd := of_idx]> (fd_objs s)) s);
      fd_place 1 pid fd of_idx.

Definition process_fd_base (pid : Z) : M S Z :=
  a ← process_fd_open pid "/dev/stdin" O_RDONLY;
  if a <? 0 then mret (-1)
  else
    b ← process_fd_open pid "/dev/stdout" O_WRONLY;
    if b <? 0 then mret (-1)
    else
      c ← process_fd_open pid "/dev/stderr" O_WRONLY;
      if c <? 0 then mret (-1) else mret 0.

(** The descriptor's fd_t, 0 when there is none: fd is an int. *)
Definition fd_slot (p : proc_fds) (fd : Z) : M S Z :=
  if (fd <? 0) || (fd_capacity p <=? fd) then mret 0
  else match fds p !! Z.to_nat fd with Some q => mret q | None => mundef "process->fds[fd]" end.

Definition process_fd_close (pid fd : Z) : M S Z :=
  p ← get_proc pid;
  fd_p ← fd_slot p fd;
  if fd_p =? 0 then mret (-1)
  else
    of_idx ← get_fd fd_p;
    _ ← of_close of_idx;
    _ ← put_proc pid (mk_proc (fds_ptr p) (<[Z.to_nat fd := 0]> (fds p)) (fd_capacity p));
    _ ← free_fd fd_p;
    mret 0.

Definition process_unpack_fd (pid fd : Z) : M S Z :=
  p ← get_proc pid;
  fd_p ← fd_slot p fd;
  if fd_p =? 0 then mret 0
  else
    of_idx ← get_fd fd_p;
    t ← gets global_file_table;
    table_get t of_idx.

Definition process_fd_init (pid : Z) : M S bool :=
  p ← on_heap (oh_calloc BASE_FD_LIST_SIZE 8);
  _ ← put_proc pid (mk_proc p (if p =? 0 then [] else null_table BASE_FD_LIST_SIZE) BASE_FD_LIST_SIZE);
  mret (negb (p =? 0)).

(** ** src/syscalls/fs/fs.c; results are u64 *)

Definition do_sys_open (pid : Z) (path : string) (flags : Z) : M S Z :=
  r ← process_fd_open pid path flags; mret (u64 r).

Definition do_sys_close (pid fd : Z) : M S Z :=
  r ← process_fd_close pid (i32 fd); mret (u64 r).

(** An operation on the open file of a descriptor, which it may move on. *)
Definition with_file (pid fd : Z) (op : file → M kio (Z * file)) : M S Z :=
  p ← process_unpack_fd pid (i32 fd);
  if p =? 0 then mret (u64 (- EBADF))
  else
    f ← get_file p;
    '(r, f') ← on_io (op f);
    _ ← put_file p f';
    mret (u64 r).

Definition do_sys_read (pid fd buffer size : Z) : M S Z :=
  if (buffer =? 0) || (size =? 0) then mret (u64 (- EINVAL))
  else with_file pid fd (λ f, vfs_read f buffer size).

Definition do_sys_write (pid fd buffer size : Z) : M S Z :=
  if (buffer =? 0) || (size =? 0) then mret (u64 (- EINVAL))
  else with_file pid fd (λ f, vfs_write f buffer size).

Definition do_sys_ioctl (pid fd cmd arg : Z) : M S Z :=
  with_file pid fd (λ f, r ← vfs_ioctl f cmd arg; mret (r, f)).

Definition do_sys_lseek (pid fd offset whence : Z) : M S Z :=
  with_file pid fd (λ f io, r ← vfs_lseek f offset whence (io_fs io); Done (r, io)).

(** vfs_stat with its NULL check; the stat it fills in is left to the caller. *)
Definition stat_into (v : vptr) (buffer : Z) : M S (Z * option stat) := λ s,
  if buffer =? 0 then Done ((u64 (-1), None), s)
  else st ← vfs_stat v (io_fs (fd_io s)); Done ((0, Some st), s).

Definition do_sys_stat (filename : string) (buffer : Z) : M S (Z * option stat) := λ s,
  node ← vfs_find_vnode filename (io_fs (fd_io s));
  match node with
  | None => Done ((u64 (- ENOENT), None), s)
  | Some v => stat_into v buffer s
  end.

Definition do_sys_fstat (pid fd buffer : Z) : M S (Z * option stat) :=
  p ← process_unpack_fd pid (i32 fd);
  if p =? 0 then mret (u64 (- EBADF), None)
  else
    f ← get_file p;
    stat_into (f_vnode f) buffer.
End fd.

(** ** Invariant and abstraction *)

(** A slot of a table; slots past its end are empty. *)
Definition tget (t : list Z) (i : nat) : Z := default 0 (t !! i).

(** The kinds of the heap objects in use. *)
Inductive kind := KFile | KFd | KTable | KOther.

Definition klist (k : gmap Z kind) : list Z := (map_to_list k).*1.

Section fd_spec.
Context `{OHL : ObjectHeapLaws H} `{Uart} `{Abi}.
Abbreviation S := (fd_state H).

Record fd_inv (s : S) (k : gmap Z kind) (ns : list Z) : Prop := {
  fi_live : oh_live (fd_heap s) (klist k) ns;
  fi_gft : Z.of_nat (length (global_file_table s)) = global_file_capacity s
    ∧ 0 < global_file_capacity s ≤ 2 ^ 29 ∧ k !! gft_ptr s = Some KTable;
  fi_slot : ∀ i, tget (global_file_table s) i ≠ 0 →
    k !! tget (global_file_table s) i = Some KFile ∧ is_Some (files s !! tget (global_file_table s) i);
  fi_slot_inj : ∀ i j, tget (global_file_table s) i ≠ 0 →
    tget (global_file_table s) i = tget (global_file_table s) j → i = j;
  fi_proc : ∀ pid pr, procs s !! pid = Some pr →
    Z.of_nat (length (fds pr)) = fd_capacity pr ∧ 0 < fd_capacity pr ≤ 2 ^ 29
    ∧ k !! fds_ptr pr = Some KTable ∧ fds_ptr pr ≠ gft_ptr s;
  fi_proc_inj : ∀ pid pid' pr pr', procs s !! pid = Some pr → procs s !! pid' = Some pr' →
    fds_ptr pr = fds_ptr pr' → pid = pid';
  fi_fd : ∀ pid pr i, procs s !! pid = Some pr → tget (fds pr) i ≠ 0 →
    k !! tget (fds pr) i = Some KFd
    ∧ ∃ idx f, fd_objs s !! tget (fds pr) i = Some (Z.of_nat idx)
        ∧ tget (global_file_table s) idx ≠ 0
        ∧ files s !! tget (global_file_table s) idx = Some f ∧ f_refcount f = 1;
  fi_fd_inj : ∀ pid pid' pr pr' i i', procs s !! pid = Some pr → procs s !! pid' = Some pr' →
    tget (fds pr) i ≠ 0 → tget (fds pr) i = tget (fds pr') i' → pid = pid' ∧ i = i';
  fi_idx_inj : ∀ pid pid' pr pr' i i' idx, procs s !! pid = Some pr → procs s !! pid' = Some pr' →
    tget (fds pr) i ≠ 0 → tget (fds pr') i' ≠ 0 →
    fd_objs s !! tget (fds pr) i = Some idx → fd_objs s !! tget (fds pr') i' = Some idx →
    tget (fds pr) i = tget (fds pr') i';
}.

(** The open file behind a descriptor of a process. *)
Definition open_file (s : S) (pid : Z) (i : nat) : option file :=
  pr ← procs s !! pid;
  let q := tget (fds pr) i in
  if q =? 0 then None
  else
    idx ← fd_objs s !! q;
    files s !! tget (global_file_table s) (Z.to_nat idx).

(** *** Tables *)

Lemma tget_app_null t n i : tget (t ++ null_table n) i = tget t i.
Proof.
  unfold tget, null_table. destruct (decide (i < length t)%nat).
  - by rewrite lookup_app_l.
  - rewrite lookup_app_r, (lookup_ge_None_2 t) by lia.
    destruct (replicate _ _ !! _) eqn:E; [|done]. by apply lookup_replicate in E as [-> _].
Qed.

Lemma tget_insert t i j p : (i < length t)%nat → tget (<[i := p]> t) j = if decide (i = j) then p else tget t j.
Proof.
  intros Hi. unfold tget. case_decide as E.
  - subst. by rewrite list_lookup_insert_eq.
  - by rewrite list_lookup_insert_ne.
Qed.

Lemma tget_ne t i : tget t i ≠ 0 → (i < length t)%nat.
Proof.
  intros Hne. destruct (decide (i < length t)%nat); [done|]. unfold tget in Hne.
  by rewrite lookup_ge_None_2 in Hne by lia.
Qed.

Lemma free_slot_spec c t : Z.of_nat (length t) = c →
  match free_slot c t with
  | Some i => (i < length t)%nat ∧ tget t i = 0 ∧ (∀ j, (j < i)%nat → tget t j ≠ 0)
  | None => ∀ j, (j < length t)%nat → tget t j ≠ 0
  end.
Proof.
  intros Hc. unfold free_slot. rewrite take_ge by lia.
  destruct (list_find (λ p, p = 0) t) as [[i p]|] eqn:E; simpl.
  - apply list_find_Some in E as (Hi & -> & Hlt). split; [by eapply lookup_lt_Some|].
    split; [unfold tget; by rewrite Hi|]. intros j Hj. pose proof (lookup_lt_Some _ _ _ Hi).
    destruct (lookup_lt_is_Some_2 t j) as [q Hq]; [lia|]. unfold tget. rewrite Hq. by eapply Hlt.
  - apply list_find_None in E. intros j Hj. destruct (lookup_lt_is_Some_2 t j Hj) as [q Hq].
    unfold tget. rewrite Hq. rewrite Forall_forall in E. by eapply E, list_elem_of_lookup_2.
Qed.

(** *** Heap objects *)

Lemma klist_insert k p x : k !! p = None → klist (<[p := x]> k) ≡ₚ p :: klist k.
Proof. intros Hn. unfold klist. by rewrite map_to_list_insert. Qed.

Lemma klist_delete k p x : k !! p = Some x → klist k ≡ₚ p :: klist (delete p k).
Proof.
  intros Hp. rewrite <- (klist_insert (delete p k) p x) by apply lookup_delete_eq.
  by rewrite insert_delete_id.
Qed.

(** The objects of other parts of the kernel. *)
Definition others (L : list Z) : gmap Z kind := list_to_map ((λ q, (q, KOther)) <$> L).
Lemma klist_others L : NoDup L → klist (others L) ≡ₚ L.
Proof.
  intros Hnd. unfold klist, others. rewrite map_to_list_to_map.
  - rewrite <- list_fmap_compose. by rewrite list_fmap_id.
  - rewrite <- list_fmap_compose. by rewrite list_fmap_id.
Qed.

Lemma elem_of_klist k p : p ∈ klist k ↔ is_Some (k !! p).
Proof.
  unfold klist. rewrite list_elem_of_fmap. split.
  - intros ([q x] & -> & Hq%elem_of_map_to_list). eauto.
  - intros [x Hx]. exists (p, x). split; [done|]. by apply elem_of_map_to_list.
Qed.

Lemma on_heap_Done {A} (m : M H A) (s : S) x h : m (fd_heap s) = Done (x, h) →
  on_heap m s = Done (x, mk_fd H h (fd_io s) (files s) (fd_objs s) (gft_ptr s) (global_file_table s)
                         (global_file_capacity s) (procs s)).
Proof. intros E. unfold on_heap, zoom. by rewrite E. Qed.

Definition with_heap (h : H) (s : S) : S :=
  mk_fd H h (fd_io s) (files s) (fd_objs s) (gft_ptr s) (global_file_table s) (global_file_capacity s) (procs s).

(** A fresh object joins the ones in use. *)
Lemma fd_inv_alloc s k n ns h p x : fd_inv s k (n :: ns) → p ∉ klist k → oh_live h (p :: klist k) ns →
  k !! p = None ∧ fd_inv (with_heap h s) (<[p := x]> k) ns.
Proof.
  intros Hinv Hp Hlive.
  assert (k !! p = None) as Hn.
  { destruct (k !! p) eqn:E; [|done]. destruct Hp. apply elem_of_klist. by rewrite E. }
  split; [done|]. assert (∀ q y, k !! q = Some y → <[p := x]> k !! q = Some y) as Hk.
  { intros q y Hq. rewrite lookup_insert_ne; [done|]. congruence. }
  destruct Hinv as [_ Hg Hs Hsi Hp' Hpi Hf Hfi Hii]. split; simpl.
  - eapply oh_live_perm; [exact Hlive|]. by rewrite klist_insert.
  - destruct Hg as (? & ? & ?). auto.
  - intros i Hi. destruct (Hs i Hi). auto.
  - exact Hsi.
  - intros pid pr Hpr. destruct (Hp' pid pr Hpr) as (? & ? & ? & ?). auto.
  - exact Hpi.
  - intros pid pr i Hpr Hi. destruct (Hf pid pr i Hpr Hi) as [? ?]. auto.
  - exact Hfi.
  - exact Hii.
Qed.

Lemma fd_inv_skip s k n ns : fd_inv s k (n :: ns) → fd_inv s k ns.
Proof. intros [Hl ? ? ? ? ? ? ? ?]. split; try done. by eapply oh_skip. Qed.

(** *** Growing the tables *)

Lemma of_extend_ok s k ns : fd_inv s k (2 * global_file_capacity s * 8 :: ns) →
  (global_file_capacity s ≤ 2 ^ 28) →
  ∃ s' k', of_extend_table s = Done (true, s') ∧ fd_inv s' k' ns
    ∧ (∀ q x, k !! q = Some x → x ≠ KTable → k' !! q = Some x)
    ∧ files s' = files s ∧ fd_objs s' = fd_objs s ∧ procs s' = procs s ∧ fd_io s' = fd_io s
    ∧ global_file_table s' = global_file_table s ++ null_table (global_file_capacity s)
    ∧ global_file_capacity s' = 2 * global_file_capacity s.
Proof.
  intros Hinv Hcap. destruct (fi_gft _ _ _ Hinv) as (Hlen & Hpos & Hgk).
  set (c := global_file_capacity s) in *.
  assert (u64 (c * 2) = 2 * c) as Hu by (rewrite u64_small; lia).
  destruct (oh_calloc_ok (fd_heap s) (klist k) (2 * c) 8 ns (fi_live _ _ _ Hinv) ltac:(lia) ltac:(lia)
    ltac:(lia)) as (p & h1 & Ha & Hp0 & Hpn & Hl1).
  destruct (fd_inv_alloc s k _ ns h1 p KTable Hinv Hpn Hl1) as [Hkp Hinv1].
  assert (gft_ptr s ≠ p) as Hgp by congruence.
  destruct (oh_free_ok h1 (klist (<[p := KTable]> k)) (klist (delete (gft_ptr s) (<[p := KTable]> k)))
    (gft_ptr s) ns) as (h2 & Hf & Hl2).
  { by destruct Hinv1. }
  { apply (klist_delete _ _ KTable). by rewrite lookup_insert_ne. }
  set (k' := delete (gft_ptr s) (<[p := KTable]> k)) in *.
  exists (set_gft p (global_file_table s ++ null_table (2 * c - c)) (2 * c) (with_heap h2 s)), k'.
  replace (2 * c - c) with c by lia.
  assert (∀ q x, k !! q = Some x → q ≠ gft_ptr s → k' !! q = Some x) as Hk.
  { intros q x Hq Hne. unfold k'. rewrite lookup_delete_ne, lookup_insert_ne by congruence. done. }
  split; [|split; [|split; [|done]]].
  - unfold of_extend_table. unfold mbind at 1, M_bind at 1, gets at 1. fold c. rewrite Hu.
    rewrite (bind_Done _ _ _ _ _ (on_heap_Done _ s _ _ Ha)).
    destruct (Z.eqb_spec p 0); [done|].
    unfold mbind at 1, M_bind at 1, gets at 1. unfold mbind at 1, M_bind at 1, gets at 1. simpl.
    rewrite (bind_Done _ _ _ _ _ (on_heap_Done _ (with_heap h1 s) _ _ Hf)).
    replace (2 * c - c) with c by lia. reflexivity.
  - destruct Hinv as [_ Hg Hs Hsi Hp' Hpi Hfd Hfi Hii]. split; simpl.
    + exact Hl2.
    + rewrite length_app. unfold null_table. rewrite length_replicate. split; [lia|].
      split; [lia|]. unfold k'. rewrite lookup_delete_ne by done. apply lookup_insert_eq.
    + intros i. rewrite tget_app_null. intros Hi. destruct (Hs i Hi) as [Hki ?]. split; [|done].
      apply Hk; [done|]. congruence.
    + intros i j. rewrite !tget_app_null. apply Hsi.
    + intros pid pr Hpr. destruct (Hp' pid pr Hpr) as (? & ? & Hkp' & Hne). split; [done|].
      split; [done|]. split; [by apply Hk|]. congruence.
    + exact Hpi.
    + intros pid pr i Hpr Hi. destruct (Hfd pid pr i Hpr Hi) as [Hki (idx & f & ? & ? & ? & ?)].
      split; [apply Hk; [done|congruence]|]. exists idx, f. by rewrite tget_app_null.
    + exact Hfi.
    + exact Hii.
  - intros q x Hq Hx. apply Hk; [done|]. congruence.
Qed.

Lemma get_proc_Done (s : S) pid pr : procs s !! pid = Some pr → get_proc pid s = Done (pr, s).
Proof. unfold get_proc. by intros ->. Qed.

Lemma fd_extend_ok s k ns pid pr : fd_inv s k (2 * fd_capacity pr * 8 :: ns) →
  procs s !! pid = Some pr → fd_capacity pr ≤ 2 ^ 28 →
  ∃ q k', let pr' := mk_proc q (fds pr ++ null_table (fd_capacity pr)) (2 * fd_capacity pr) in
    ∃ h', let s' := set_procs (<[pid := pr']> (procs s)) (with_heap h' s) in
    process_fd_extend pid s = Done (true, s') ∧ fd_inv s' k' ns
    ∧ (∀ q x, k !! q = Some x → x ≠ KTable → k' !! q = Some x).
Proof.
  intros Hinv Hpr Hcap. destruct (fi_proc _ _ _ Hinv pid pr Hpr) as (Hlen & Hpos & Hgk & Hgp).
  set (c := fd_capacity pr) in *. assert (u64 (c * 2) = 2 * c) as Hu by (rewrite u64_small; lia).
  destruct (oh_calloc_ok (fd_heap s) (klist k) (2 * c) 8 ns (fi_live _ _ _ Hinv) ltac:(lia) ltac:(lia)
    ltac:(lia)) as (p & h1 & Ha & Hp0 & Hpn & Hl1).
  destruct (fd_inv_alloc s k _ ns h1 p KTable Hinv Hpn Hl1) as [Hkp Hinv1].
  assert (fds_ptr pr ≠ p) as Hfp by congruence.
  destruct (oh_free_ok h1 (klist (<[p := KTable]> k)) (klist (delete (fds_ptr pr) (<[p := KTable]> k)))
    (fds_ptr pr) ns) as (h2 & Hf & Hl2).
  { by destruct Hinv1. }
  { apply (klist_delete _ _ KTable). by rewrite lookup_insert_ne. }
  set (k' := delete (fds_ptr pr) (<[p := KTable]> k)) in *.
  exists p, k'. cbv zeta. exists h2.
  assert (∀ q x, k !! q = Some x → q ≠ fds_ptr pr → k' !! q = Some x) as Hk.
  { intros q x Hq Hne. unfold k'. rewrite lookup_delete_ne, lookup_insert_ne by congruence. done. }
  assert (∀ pid' pr', procs s !! pid' = Some pr' → pid' ≠ pid → fds_ptr pr' ≠ fds_ptr pr) as Hne.
  { intros pid' pr' Hpr' Hn E. apply Hn. by eapply (fi_proc_inj _ _ _ Hinv). }
  destruct Hinv as [_ Hg Hs Hsi Hp' Hpi Hfd Hfi Hii].
  assert (∀ pid' pr'' i, <[pid := mk_proc p (fds pr ++ null_table c) (2 * c)]> (procs s) !! pid' = Some pr'' →
    ∃ pr', procs s !! pid' = Some pr' ∧ tget (fds pr'') i = tget (fds pr') i) as Hlift.
  { intros pid' pr'' i [[<- <-]|[_ ?]]%lookup_insert_Some; [|by exists pr''].
    exists pr. split; [done|]. simpl. by rewrite tget_app_null. }
  split; [|split; [|intros q x Hq Hx; apply Hk; [done|congruence]]].
  - unfold process_fd_extend. rewrite (bind_Done _ _ _ _ _ (get_proc_Done s pid pr Hpr)). fold c. rewrite Hu.
    rewrite (bind_Done _ _ _ _ _ (on_heap_Done _ s _ _ Ha)). destruct (Z.eqb_spec p 0); [done|].
    rewrite (bind_Done _ _ _ _ _ (on_heap_Done _ (with_heap h1 s) _ _ Hf)).
    replace (2 * c - c) with c by lia. reflexivity.
  - split; simpl.
    + exact Hl2.
    + destruct Hg as (? & ? & Hgt). split; [done|]. split; [done|]. apply Hk; [done|congruence].
    + intros i Hi. destruct (Hs i Hi) as [Hki ?]. split; [|done]. apply Hk; [done|congruence].
    + exact Hsi.
    + intros pid' pr' [[<- <-]|[Hn Hpr']]%lookup_insert_Some; simpl.
      * rewrite length_app. unfold null_table. rewrite length_replicate. split; [lia|]. split; [lia|].
        split; [unfold k'; rewrite lookup_delete_ne by done; apply lookup_insert_eq|]. destruct Hg as (_ & _ & ?). congruence.
      * destruct (Hp' pid' pr' Hpr') as (? & ? & Hkp' & ?). split; [done|]. split; [done|]. split; [|done].
        apply Hk; [done|]. by eapply Hne.
    + intros pid1 pid2 pr1 pr2 [[<- <-]|[Hn1 H1']]%lookup_insert_Some [[<- <-]|[Hn2 H2']]%lookup_insert_Some;
        simpl; intros E; try done.
      * destruct (Hp' _ _ H2') as (_ & _ & ? & _). congruence.
      * destruct (Hp' _ _ H1') as (_ & _ & ? & _). congruence.
      * by eapply Hpi.
    + intros pid' pr'' i Hpr''. destruct (Hlift pid' pr'' i Hpr'') as (pr' & Hpr' & ->). intros Hi.
      destruct (Hfd pid' pr' i Hpr' Hi) as [Hki ?]. split; [|done]. apply Hk; [done|congruence].
    + intros pid1 pid2 pr1 pr2 i1 i2 H1' H2'. destruct (Hlift _ _ i1 H1') as (? & ? & ->).
      destruct (Hlift _ _ i2 H2') as (? & ? & ->). by eapply Hfi.
    + intros pid1 pid2 pr1 pr2 i1 i2 idx H1' H2'. destruct (Hlift _ _ i1 H1') as (? & ? & ->).
      destruct (Hlift _ _ i2 H2') as (? & ? & ->). by eapply Hii.
Qed.

Lemma full_table_Done c t (s : S) : Z.of_nat (length t) = c → full_table c t s = Done (tt, s).
Proof. intros <-. unfold full_table. by rewrite Z.ltb_irrefl. Qed.

(** *** Placing a file in a free slot of the global table *)

Definition file_placed (s : S) (i : nat) (p flags : Z) (f : file) : S :=
  set_files (<[p := mk_file (f_vnode f) (f_offset f) 1 flags]> (files s))
    (set_gft (gft_ptr s) (<[i := p]> (global_file_table s)) (global_file_capacity s) s).

Lemma place_file_ok s k ns i p flags f : fd_inv s k ns → (i < length (global_file_table s))%nat →
  tget (global_file_table s) i = 0 → p ≠ 0 → k !! p = Some KFile → files s !! p = Some f →
  (∀ j, tget (global_file_table s) j ≠ p) →
  fd_inv (file_placed s i p flags f) k ns.
Proof.
  intros [Hl Hg Hs Hsi Hp' Hpi Hfd Hfi Hii] Hi Hi0 Hp0 Hkp Hfp Hfresh. split; simpl; try done.
  - by rewrite length_insert.
  - intros j. rewrite tget_insert by done. case_decide.
    + intros _. split; [done|]. rewrite lookup_insert_eq. eauto.
    + intros Hj. destruct (Hs j Hj) as [? ?]. split; [done|]. by rewrite lookup_insert_ne by auto.
  - intros j1 j2. rewrite !tget_insert by done. repeat case_decide; subst; try done.
    + intros _ E. by destruct (Hfresh j2).
    + intros _ E. by destruct (Hfresh j1).
    + apply Hsi.
  - intros pid pr j Hpr Hj. destruct (Hfd pid pr j Hpr Hj) as [? (idx & f' & ? & ? & ? & ?)].
    split; [done|]. exists idx, f'. rewrite tget_insert by done.
    rewrite decide_False by (intros ->; done). by rewrite lookup_insert_ne by auto.
Qed.

(** No descriptor names slot [i]. *)
Definition idx_unused (s : S) (i : nat) : Prop :=
  ∀ pid pr j, procs s !! pid = Some pr → tget (fds pr) j ≠ 0 →
    fd_objs s !! tget (fds pr) j ≠ Some (Z.of_nat i).

Lemma empty_idx_unused s k ns i : fd_inv s k ns → tget (global_file_table s) i = 0 → idx_unused s i.
Proof.
  intros Hinv Hi pid pr j Hpr Hj E. destruct (fi_fd _ _ _ Hinv pid pr j Hpr Hj) as [_ (idx & f & Hq & Hn & _)].
  rewrite E in Hq. injection Hq as Hq%Nat2Z.inj. subst. done.
Qed.

(** Descriptors see the same files when theirs did not change. *)
Lemma open_file_ext s s' k ns : fd_inv s k ns → procs s' = procs s → fd_objs s' = fd_objs s →
  (∀ i, tget (global_file_table s) i ≠ 0 →
     tget (global_file_table s') i = tget (global_file_table s) i
     ∧ files s' !! tget (global_file_table s) i = files s !! tget (global_file_table s) i) →
  ∀ pid i, open_file s' pid i = open_file s pid i.
Proof.
  intros Hinv Hp Ho Hsame pid i. unfold open_file. rewrite Hp, Ho.
  destruct (procs s !! pid) as [pr|] eqn:Hpr; simpl; [|done].
  destruct (Z.eqb_spec (tget (fds pr) i) 0); [done|].
  destruct (fi_fd _ _ _ Hinv pid pr i Hpr) as [_ (idx & f & -> & Hn & _)]; [done|]. simpl.
  rewrite Nat2Z.id. destruct (Hsame idx Hn) as [-> ?]. done.
Qed.

(** of_open after the file was set up at [p]. *)
Lemma of_place_ok s k ns p flags f : fd_inv s k (2 * global_file_capacity s * 8 :: ns) →
  global_file_capacity s ≤ 2 ^ 28 → p ≠ 0 → k !! p = Some KFile → files s !! p = Some f →
  f_refcount f = 0 → (∀ j, tget (global_file_table s) j ≠ p) →
  ∃ s' k' i, of_place 1 p flags s = Done (Z.of_nat i, s') ∧ fd_inv s' k' ns
    ∧ procs s' = procs s ∧ fd_objs s' = fd_objs s ∧ fd_io s' = fd_io s
    ∧ tget (global_file_table s') i = p
    ∧ files s' !! p = Some (mk_file (f_vnode f) (f_offset f) 1 flags)
    ∧ idx_unused s' i
    ∧ (∀ pid j, open_file s' pid j = open_file s pid j)
    ∧ (∀ q x, k !! q = Some x → x ≠ KTable → k' !! q = Some x)
    ∧ (∀ i0, free_slot (global_file_capacity s) (global_file_table s) = Some i0 →
         global_file_table s' = <[i0 := p]> (global_file_table s) ∧ global_file_capacity s' = global_file_capacity s).
Proof.
  intros Hinv Hcap Hp0 Hkp Hfp Hrc Hfresh. destruct (fi_gft _ _ _ Hinv) as (Hlen & Hpos & _).
  assert (∀ (s1 : S) (k1 : gmap Z kind) i fuel, fd_inv s1 k1 ns →
    free_slot (global_file_capacity s1) (global_file_table s1) = Some i →
    files s1 = files s → global_file_capacity s1 ≤ 2 ^ 30 →
    of_place fuel p flags s1 = Done (Z.of_nat i, file_placed s1 i p flags f)) as Hrun.
  { intros s1 k1 i fuel Hinv1 Hfs Hfiles Hc1. destruct (fi_gft _ _ _ Hinv1) as (Hlen1 & _ & _).
    pose proof (free_slot_spec _ _ Hlen1) as Hsl. rewrite Hfs in Hsl. destruct Hsl as (Hi & _).
    assert (i32 (Z.of_nat i) = Z.of_nat i) as Hi32 by (apply i32_small; lia).
    destruct fuel; simpl; unfold mbind, M_bind, gets; rewrite Hfs; simpl; unfold get_file; simpl;
      rewrite Hfiles, Hfp; simpl; rewrite Hrc, Hi32; unfold file_placed, set_files, set_gft; simpl;
      by rewrite Hfiles. }
  pose proof (free_slot_spec _ _ Hlen) as Hsl.
  destruct (free_slot (global_file_capacity s) (global_file_table s)) as [i|] eqn:Hfs.
  - destruct Hsl as (Hi & Hi0 & _). apply fd_inv_skip in Hinv.
    exists (file_placed s i p flags f), k, i. split; [by eapply Hrun; [|..]; eauto; lia|].
    split; [by apply place_file_ok|]. split; [done|]. split; [done|]. split; [done|].
    split; [simpl; by rewrite tget_insert, decide_True|]. split; [apply lookup_insert_eq|].
    split; [intros pid pr j; by apply (empty_idx_unused s k ns)|]. split; [|by split; [|intros i0 [= <-]]].
    apply (open_file_ext _ _ k ns); try done. intros j Hj. simpl.
    rewrite tget_insert, decide_False by (done || by intros ->). split; [done|].
    by rewrite lookup_insert_ne by auto.
  - destruct (of_extend_ok s k ns Hinv Hcap) as (s1 & k1 & Hext & Hinv1 & Hk & Hf1 & Ho1 & Hpr1 & Hio1 & Hg1 & Hc1).
    set (i := length (global_file_table s)).
    assert (tget (global_file_table s1) i = 0) as Hi0.
    { rewrite Hg1, tget_app_null. unfold tget, i. by rewrite lookup_ge_None_2. }
    assert (i < length (global_file_table s1))%nat as Hilt.
    { rewrite Hg1, length_app. unfold null_table, i. rewrite length_replicate. lia. }
    destruct (fi_gft _ _ _ Hinv1) as (Hlen1 & _ & _).
    assert (free_slot (global_file_capacity s1) (global_file_table s1) = Some i) as Hfs1.
    { pose proof (free_slot_spec _ _ Hlen1) as Hsl1.
      destruct (free_slot (global_file_capacity s1) (global_file_table s1)) as [i'|]; [|by destruct (Hsl1 i)].
      destruct Hsl1 as (_ & Hi'0 & Hlt). rewrite Hg1, tget_app_null in Hi'0.
      destruct (decide (i' = i)) as [->|]; [done|]. destruct (decide (i' < i)%nat).
      - by destruct (Hsl i').
      - destruct (Hlt i); [lia|done]. }
    assert (∀ j, tget (global_file_table s1) j ≠ p) as Hfresh1.
    { intros j. by rewrite Hg1, tget_app_null. }
    assert (files s1 !! p = Some f) as Hfp1 by (by rewrite Hf1).
    assert (k1 !! p = Some KFile) as Hkp1 by (by apply Hk).
    exists (file_placed s1 i p flags f), k1, i.
    split; [|split; [by apply place_file_ok|split; [done|split; [done|split; [done|]]]]].
    { simpl. unfold mbind at 1, M_bind at 1, gets. unfold mbind at 1, M_bind at 1. rewrite Hfs.
      rewrite (bind_Done _ _ _ _ _ (full_table_Done _ _ s Hlen)).
      rewrite (bind_Done _ _ _ _ _ Hext). simpl. apply (Hrun s1 k1 i 0%nat Hinv1 Hfs1 Hf1). lia. }
    split; [simpl; by rewrite tget_insert, decide_True|]. split; [apply lookup_insert_eq|].
    split; [intros pid pr j; by apply (empty_idx_unused s1 k1 ns)|]. split; [|by split].
    apply fd_inv_skip in Hinv. apply (open_file_ext _ _ k ns); try done. intros j Hj. simpl.
    rewrite Hg1. rewrite tget_insert by (by rewrite <- Hg1). rewrite tget_app_null.
    rewrite decide_False by (intros <-; unfold tget, i in Hj; by rewrite lookup_ge_None_2 in Hj).
    rewrite lookup_insert_ne by auto. by rewrite Hf1.
Qed.

(** *** Placing a descriptor in a free slot of a process's table *)

Definition fd_placed (s : S) (pid : Z) (pr : proc_fds) (i : nat) (q : Z) : S :=
  set_procs (<[pid := mk_proc (fds_ptr pr) (<[i := q]> (fds pr)) (fd_capacity pr)]> (procs s)) s.

Lemma placed_proc s pid pr i q pid' pr'' j : procs s !! pid = Some pr → (i < length (fds pr))%nat →
  procs (fd_placed s pid pr i q) !! pid' = Some pr'' →
  ∃ pr', procs s !! pid' = Some pr' ∧ fds_ptr pr'' = fds_ptr pr' ∧ fd_capacity pr'' = fd_capacity pr'
    ∧ length (fds pr'') = length (fds pr')
    ∧ tget (fds pr'') j = if decide (pid' = pid ∧ j = i) then q else tget (fds pr') j.
Proof.
  intros Hpr Hi H'. cbn in H'. apply lookup_insert_Some in H' as [[<- <-]|[Hn Hpr']].
  - exists pr. simpl. rewrite length_insert, tget_insert by done. split; [done|]. split; [done|].
    split; [done|]. split; [done|]. repeat case_decide; naive_solver.
  - exists pr''. rewrite decide_False by naive_solver. done.
Qed.

Lemma place_fd_ok s k ns pid pr i q idx f : fd_inv s k ns → procs s !! pid = Some pr →
  (i < length (fds pr))%nat → tget (fds pr) i = 0 → q ≠ 0 → k !! q = Some KFd →
  fd_objs s !! q = Some (Z.of_nat idx) → tget (global_file_table s) idx ≠ 0 →
  files s !! tget (global_file_table s) idx = Some f → f_refcount f = 1 → idx_unused s idx →
  (∀ pid' pr' j, procs s !! pid' = Some pr' → tget (fds pr') j ≠ q) →
  fd_inv (fd_placed s pid pr i q) k ns.
Proof.
  intros [Hl Hg Hs Hsi Hp' Hpi Hfd Hfi Hii] Hpr Hi Hi0 Hq0 Hkq Hobj Hgi Hf Hrc Hun Hfresh.
  split; try done.
  - intros pid' pr'' H'. destruct (placed_proc s pid pr i q pid' pr'' 0 Hpr Hi H') as (pr' & Hpr' & -> & -> & -> & _).
    by apply (Hp' pid').
  - intros p1 p2 r1 r2 H1' H2'. destruct (placed_proc s pid pr i q p1 r1 0 Hpr Hi H1') as (? & ? & -> & _).
    destruct (placed_proc s pid pr i q p2 r2 0 Hpr Hi H2') as (? & ? & -> & _). by eapply Hpi.
  - intros pid' pr'' j H'. destruct (placed_proc s pid pr i q pid' pr'' j Hpr Hi H') as (pr' & Hpr' & _ & _ & _ & ->).
    case_decide; [|by apply (Hfd pid')]. intros _. split; [done|]. by exists idx, f.
  - intros p1 p2 r1 r2 j1 j2 H1' H2'.
    destruct (placed_proc s pid pr i q p1 r1 j1 Hpr Hi H1') as (? & Ha & _ & _ & _ & ->).
    destruct (placed_proc s pid pr i q p2 r2 j2 Hpr Hi H2') as (? & Hb & _ & _ & _ & ->).
    destruct (decide (p1 = pid ∧ j1 = i)) as [[-> ->]|]; destruct (decide (p2 = pid ∧ j2 = i)) as [[-> ->]|].
    + intros _ _. split; reflexivity.
    + intros _ E. exfalso. exact (Hfresh _ _ j2 Hb (eq_sym E)).
    + intros _ E. exfalso. exact (Hfresh _ _ j1 Ha E).
    + by apply (Hfi p1 p2).
  - intros p1 p2 r1 r2 j1 j2 x H1' H2'.
    destruct (placed_proc s pid pr i q p1 r1 j1 Hpr Hi H1') as (? & Ha & _ & _ & _ & ->).
    destruct (placed_proc s pid pr i q p2 r2 j2 Hpr Hi H2') as (? & Hb & _ & _ & _ & ->). simpl.
    destruct (decide (p1 = pid ∧ j1 = i)) as [[-> ->]|]; destruct (decide (p2 = pid ∧ j2 = i)) as [[-> ->]|].
    + intros _ _ _ _. reflexivity.
    + intros _ Hn E1 E2. rewrite Hobj in E1. injection E1 as <-. exfalso. exact (Hun _ _ j2 Hb Hn E2).
    + intros Hn _ E1 E2. rewrite Hobj in E2. injection E2 as <-. exfalso. exact (Hun _ _ j1 Ha Hn E1).
    + by apply (Hii p1 p2 _ _ j1 j2 x).
Qed.

Lemma placed_open s pid pr i q : procs s !! pid = Some pr → (i < length (fds pr))%nat →
  ∀ pid' j, open_file (fd_placed s pid pr i q) pid' j =
    if decide (pid' = pid ∧ j = i)
    then if q =? 0 then None else idx ← fd_objs s !! q; files s !! tget (global_file_table s) (Z.to_nat idx)
    else open_file s pid' j.
Proof.
  intros Hpr Hi pid' j. unfold open_file.
  destruct (procs (fd_placed s pid pr i q) !! pid') as [pr''|] eqn:E.
  - destruct (placed_proc s pid pr i q pid' pr'' j Hpr Hi E) as (pr' & -> & _ & _ & _ & Et).
    simpl. rewrite Et. by case_decide.
  - cbn in E. apply lookup_insert_None in E as [-> Hn]. rewrite decide_False by naive_solver. done.
Qed.

(** fd_place: the lowest free descriptor, after doubling the table if it is full. *)
Lemma fd_place_ok s k ns pid pr q idx f : fd_inv s k (2 * fd_capacity pr * 8 :: ns) →
  procs s !! pid = Some pr → fd_capacity pr ≤ 2 ^ 28 → q ≠ 0 → k !! q = Some KFd →
  fd_objs s !! q = Some (Z.of_nat idx) → tget (global_file_table s) idx ≠ 0 →
  files s !! tget (global_file_table s) idx = Some f → f_refcount f = 1 → idx_unused s idx →
  (∀ pid' pr' j, procs s !! pid' = Some pr' → tget (fds pr') j ≠ q) →
  ∃ s' k' i, fd_place 1 pid q (Z.of_nat idx) s = Done (Z.of_nat i, s') ∧ fd_inv s' k' ns
    ∧ fd_io s' = fd_io s
    ∧ tget (fds pr) i = 0 ∧ (∀ j, (j < i)%nat → tget (fds pr) j ≠ 0)
    ∧ (∀ pid' j, open_file s' pid' j = if decide (pid' = pid ∧ j = i) then Some f else open_file s pid' j)
    ∧ global_file_table s' = global_file_table s ∧ global_file_capacity s' = global_file_capacity s
    ∧ (∀ i0, free_slot (fd_capacity pr) (fds pr) = Some i0 →
         procs s' = <[pid := mk_proc (fds_ptr pr) (<[i0 := q]> (fds pr)) (fd_capacity pr)]> (procs s)).
Proof.
  intros Hinv Hpr Hcap Hq0 Hkq Hobj Hgi Hf Hrc Hun Hfresh.
  destruct (fi_proc _ _ _ Hinv pid pr Hpr) as (Hlen & Hpos & _).
  pose proof (free_slot_spec _ _ Hlen) as Hsl.
  destruct (free_slot (fd_capacity pr) (fds pr)) as [i|] eqn:Hfs.
  - destruct Hsl as (Hi & Hi0 & Hlt). apply fd_inv_skip in Hinv.
    exists (fd_placed s pid pr i q), k, i. split; [|split; [by eapply place_fd_ok|split; [done|split; [done|split; [done|split; [|by split; [|split; [|intros i0 [= <-]]]]]]]]].
    + simpl. rewrite (bind_Done _ _ _ _ _ (get_proc_Done s pid pr Hpr)), Hfs.
      rewrite (bind_Done _ _ _ tt (fd_placed s pid pr i q)) by reflexivity.
      unfold mret, M_ret. rewrite i32_small; [done|lia].
    + intros pid' j. rewrite (placed_open s pid pr i q Hpr Hi). case_decide; [|done].
      destruct (Z.eqb_spec q 0); [done|]. rewrite Hobj. simpl. by rewrite Nat2Z.id.
  - destruct (fd_extend_ok s k ns pid pr Hinv Hpr Hcap) as (r & k1 & h1 & Hext & Hinv1 & Hk).
    set (pr1 := mk_proc r (fds pr ++ null_table (fd_capacity pr)) (2 * fd_capacity pr)) in *.
    set (s1 := set_procs (<[pid := pr1]> (procs s)) (with_heap h1 s)) in *.
    set (i := length (fds pr)).
    assert (procs s1 !! pid = Some pr1) as Hpr1 by apply lookup_insert_eq.
    assert (tget (fds pr) i = 0) as Hi0 by (unfold tget, i; by rewrite lookup_ge_None_2).
    assert (i < length (fds pr1))%nat as Hilt.
    { simpl. rewrite length_app. unfold null_table, i. rewrite length_replicate. lia. }
    assert (∀ pid' pr'' j, procs s1 !! pid' = Some pr'' →
      ∃ pr', procs s !! pid' = Some pr' ∧ tget (fds pr'') j = tget (fds pr') j) as Hlift.
    { intros pid' pr'' j H'. unfold s1 in H'. cbn in H'.
      apply lookup_insert_Some in H' as [[<- <-]|[_ ?]]; [|by exists pr''].
      exists pr. split; [done|]. simpl. by rewrite tget_app_null. }
    destruct (fi_proc _ _ _ Hinv1 pid pr1 Hpr1) as (Hlen1 & _ & _).
    assert (free_slot (fd_capacity pr1) (fds pr1) = Some i) as Hfs1.
    { pose proof (free_slot_spec _ _ Hlen1) as Hsl1.
      destruct (free_slot (fd_capacity pr1) (fds pr1)) as [i'|].
      2:{ exfalso. apply (Hsl1 i Hilt). simpl. by rewrite tget_app_null. }
      destruct Hsl1 as (_ & Hi'0 & Hlt). simpl in Hi'0, Hlt. rewrite tget_app_null in Hi'0.
      destruct (decide (i' = i)) as [->|]; [done|]. destruct (decide (i' < i)%nat).
      - by destruct (Hsl i').
      - destruct (Hlt i); [lia|by rewrite tget_app_null]. }
    exists (fd_placed s1 pid pr1 i q), k1, i.
    split; [|split; [|split; [done|split; [done|split; [exact Hsl|split; [|by split; [|split]]]]]]].
    + simpl. rewrite (bind_Done _ _ _ _ _ (get_proc_Done s pid pr Hpr)), Hfs.
      rewrite (bind_Done _ _ _ _ _ (full_table_Done _ _ s Hlen)).
      rewrite (bind_Done _ _ _ _ _ Hext). simpl.
      rewrite (bind_Done _ _ _ _ _ (get_proc_Done s1 pid pr1 Hpr1)). simpl in Hfs1 |- *. rewrite Hfs1.
      rewrite (bind_Done _ _ _ tt (fd_placed s1 pid pr1 i q)) by reflexivity.
      unfold mret, M_ret. rewrite i32_small; [done|lia].
    + apply (place_fd_ok s1 k1 ns pid pr1 i q idx f); try done.
      * simpl. by rewrite tget_app_null.
      * by apply Hk.
      * intros pid' pr'' j Hp''. destruct (Hlift pid' pr'' j Hp'') as (pr' & Hpr' & ->). by apply (Hun pid').
      * intros pid' pr'' j Hp''. destruct (Hlift pid' pr'' j Hp'') as (pr' & Hpr' & ->). by apply (Hfresh pid').
    + intros pid' j. rewrite (placed_open s1 pid pr1 i q Hpr1 Hilt). case_decide.
      * destruct (Z.eqb_spec q 0); [done|]. simpl. rewrite Hobj. simpl. by rewrite Nat2Z.id.
      * unfold open_file. destruct (procs s1 !! pid') as [pr''|] eqn:E.
        -- destruct (Hlift pid' pr'' j E) as (pr' & -> & Et). simpl. by rewrite Et.
        -- unfold s1 in E. cbn in E. apply lookup_insert_None in E as [-> _]. done.
Qed.

(** Opening a file, with requests [ns] to spare; as long as there are free slots no table moves. *)
Lemma process_fd_open_ok s k ns pid pr path flags f io' :
  fd_inv s k (sizeof_file :: 2 * global_file_capacity s * 8 :: sizeof_fd :: 2 * fd_capacity pr * 8 :: ns) →
  procs s !! pid = Some pr → global_file_capacity s ≤ 2 ^ 28 → fd_capacity pr ≤ 2 ^ 28 →
  vfs_open path flags (fd_io s) = Done (Some f, io') → f_refcount f = 0 →
  ∃ s' k' i, process_fd_open pid path flags s = Done (Z.of_nat i, s')
    ∧ fd_inv s' k' ns ∧ fd_io s' = io'
    ∧ tget (fds pr) i = 0 ∧ (∀ j, (j < i)%nat → tget (fds pr) j ≠ 0)
    ∧ (∀ pid' j, open_file s' pid' j =
         if decide (pid' = pid ∧ j = i) then Some (mk_file (f_vnode f) (f_offset f) 1 flags)
         else open_file s pid' j)
    ∧ (∀ gi pi, free_slot (global_file_capacity s) (global_file_table s) = Some gi →
         free_slot (fd_capacity pr) (fds pr) = Some pi →
         ∃ p q, q ≠ 0 ∧ global_file_table s' = <[gi := p]> (global_file_table s)
           ∧ global_file_capacity s' = global_file_capacity s
           ∧ procs s' = <[pid := mk_proc (fds_ptr pr) (<[pi := q]> (fds pr)) (fd_capacity pr)]> (procs s)).
Proof.
  intros Hinv Hpr Hgc Hpc Hopen Hrc.
  destruct (oh_alloc_ok _ _ _ _ (fi_live _ _ _ Hinv) ltac:(unfold sizeof_file; lia))
    as (p & h1 & Ha & Hp0 & Hpn & Hl1).
  destruct (fd_inv_alloc s k _ _ h1 p KFile Hinv Hpn Hl1) as [Hkp Hinv1].
  assert (∀ j, tget (global_file_table s) j ≠ p) as Hpfresh.
  { intros j E. destruct (fi_slot _ _ _ Hinv j) as [Hkj _]; [congruence|]. congruence. }
  set (s2 := set_files (<[p := f]> (files s)) (mk_fd H h1 io' (files s) (fd_objs s) (gft_ptr s)
    (global_file_table s) (global_file_capacity s) (procs s))).
  assert (fd_inv s2 (<[p := KFile]> k) (2 * global_file_capacity s * 8 :: sizeof_fd :: 2 * fd_capacity pr * 8 :: ns)) as Hinv2.
  { destruct Hinv1 as [Hl Hg Hs Hsi Hp' Hpi Hfd Hfi Hii]. simpl in *. split; simpl; try done.
    - intros i Hi. destruct (Hs i Hi) as [? ?]. split; [done|]. by rewrite lookup_insert_ne by auto.
    - intros pid' pr' i Hpr' Hi. destruct (Hfd pid' pr' i Hpr' Hi) as [? (idx & f' & ? & ? & ? & ?)].
      split; [done|]. exists idx, f'. by rewrite lookup_insert_ne by auto. }
  assert (∀ pid' j, open_file s2 pid' j = open_file s pid' j) as Hopen2.
  { apply (open_file_ext _ _ k _ Hinv); try done. intros i Hi. simpl. by rewrite lookup_insert_ne by auto. }
  destruct (of_place_ok s2 (<[p := KFile]> k) (sizeof_fd :: 2 * fd_capacity pr * 8 :: ns) p flags f)
    as (s3 & k3 & idx & Hplace & Hinv3 & Hpr3 & Hobj3 & Hio3 & Hg3 & Hf3 & Hun3 & Hop3 & Hk3 & Hroom3);
    [exact Hinv2|exact Hgc|exact Hp0|apply lookup_insert_eq|apply lookup_insert_eq|exact Hrc|exact Hpfresh|].
  destruct (oh_alloc_ok _ _ _ _ (fi_live _ _ _ Hinv3) ltac:(unfold sizeof_fd; lia))
    as (q & h4 & Hb & Hq0 & Hqn & Hl4).
  destruct (fd_inv_alloc s3 k3 _ _ h4 q KFd Hinv3 Hqn Hl4) as [Hkq Hinv4].
  assert (∀ pid' pr' j, procs s3 !! pid' = Some pr' → tget (fds pr') j ≠ q) as Hqfresh.
  { intros pid' pr' j Hpr' E. destruct (fi_fd _ _ _ Hinv3 pid' pr' j Hpr') as [Hkj _]; [congruence|]. congruence. }
  set (s5 := set_fd_objs (<[q := Z.of_nat idx]> (fd_objs s3)) (with_heap h4 s3)).
  assert (fd_inv s5 (<[q := KFd]> k3) (2 * fd_capacity pr * 8 :: ns)) as Hinv5.
  { destruct Hinv4 as [Hl Hg Hs Hsi Hp' Hpi Hfd Hfi Hii].
    split; [exact Hl|exact Hg|exact Hs|exact Hsi|exact Hp'|exact Hpi| |exact Hfi|]; simpl.
    - intros pid' pr' i Hpr' Hi. rewrite (lookup_insert_ne (fd_objs s3) q)
        by (apply not_eq_sym; exact (Hqfresh pid' pr' i Hpr')).
      exact (Hfd pid' pr' i Hpr' Hi).
    - intros p1 p2 r1 r2 j1 j2 x H1' H2' Hn1 Hn2.
      rewrite (lookup_insert_ne _ q (tget (fds r1) j1)) by (apply not_eq_sym; exact (Hqfresh p1 r1 j1 H1')).
      rewrite (lookup_insert_ne _ q (tget (fds r2) j2)) by (apply not_eq_sym; exact (Hqfresh p2 r2 j2 H2')).
      exact (Hii p1 p2 r1 r2 j1 j2 x H1' H2' Hn1 Hn2). }
  assert (∀ pid' j, open_file s5 pid' j = open_file s3 pid' j) as Hopen5.
  { intros pid' j. unfold open_file. simpl. destruct (procs s3 !! pid') as [pr'|] eqn:E; simpl; [|done].
    by rewrite lookup_insert_ne by (apply not_eq_sym; exact (Hqfresh pid' pr' j E)). }
  destruct (fd_place_ok s5 (<[q := KFd]> k3) ns pid pr q idx (mk_file (f_vnode f) (f_offset f) 1 flags))
    as (s' & k' & i & Hfp & Hinv' & Hio' & Hi0 & Hlow & Hop' & Hgt & Hgc' & Hroom'); try done.
  { simpl. by rewrite Hpr3. }
  { apply lookup_insert_eq. }
  { apply lookup_insert_eq. }
  { simpl. by rewrite Hg3. }
  { simpl. by rewrite Hg3. }
  { intros pid' pr' j Hpr' Hn. simpl. rewrite lookup_insert_ne by (apply not_eq_sym; exact (Hqfresh pid' pr' j Hpr')).
    exact (Hun3 pid' pr' j Hpr' Hn). }
  exists s', k', i. split; [|split; [done|split; [by rewrite Hio'; simpl; rewrite Hio3|split; [done|split; [done|split]]]]].
  - unfold process_fd_open.
    assert (of_open path flags s = Done (Z.of_nat idx, s3)) as Hof.
    { unfold of_open. rewrite (bind_Done _ _ _ _ _ (on_heap_Done _ s _ _ Ha)).
      destruct (Z.eqb_spec p 0); [done|].
      rewrite (bind_Done _ _ _ (Some f) (mk_fd H h1 io' (files s) (fd_objs s) (gft_ptr s)
        (global_file_table s) (global_file_capacity s) (procs s)))
        by (unfold on_io, zoom; simpl; by rewrite Hopen).
      rewrite (bind_Done _ _ _ tt s2) by reflexivity. exact Hplace. }
    rewrite (bind_Done _ _ _ _ _ Hof). destruct (Z.ltb_spec (Z.of_nat idx) 0); [lia|].
    rewrite (bind_Done _ _ _ _ _ (on_heap_Done _ s3 _ _ Hb)). destruct (Z.eqb_spec q 0); [done|].
    rewrite (bind_Done _ _ _ tt s5) by reflexivity. exact Hfp.
  - intros pid' j. rewrite Hop'. case_decide; [done|]. by rewrite Hopen5, Hop3, Hopen2.
  - intros gi pi Hgi Hpi. destruct (Hroom3 gi Hgi) as [Et Ec]. exists p, q. split; [done|].
    rewrite Hgt, Hgc', (Hroom' pi Hpi). simpl. rewrite Et, Ec, Hpr3. by split.
Qed.

(** Opening a file. When the path resolves (vfs_open succeeds) and the heap has
    room, process_fd_open completes; it returns the lowest descriptor the
    process had free; that descriptor is now an open file at offset 0 with the
    flags asked for and one reference; every other descriptor of every process
    refers to the same open file as before, even when the tables were full and
    had to be doubled; and the invariant of the tables holds again. *)
Theorem process_fd_open_spec s k pid pr path flags f io' :
  fd_inv s k [sizeof_file; 2 * global_file_capacity s * 8; sizeof_fd; 2 * fd_capacity pr * 8] →
  procs s !! pid = Some pr → global_file_capacity s ≤ 2 ^ 28 → fd_capacity pr ≤ 2 ^ 28 →
  vfs_open path flags (fd_io s) = Done (Some f, io') → f_refcount f = 0 →
  ∃ s' k' i, process_fd_open pid path flags s = Done (Z.of_nat i, s')
    ∧ fd_inv s' k' [] ∧ fd_io s' = io'
    ∧ tget (fds pr) i = 0 ∧ (∀ j, (j < i)%nat → tget (fds pr) j ≠ 0)
    ∧ (∀ pid' j, open_file s' pid' j =
         if decide (pid' = pid ∧ j = i) then Some (mk_file (f_vnode f) (f_offset f) 1 flags)
         else open_file s pid' j).
Proof.
  intros Hinv Hpr Hgc Hpc Hopen Hrc.
  destruct (process_fd_open_ok s k [] pid pr path flags f io' Hinv Hpr Hgc Hpc Hopen Hrc) as (s' & k' & i & ? & ? & ? & ? & ? & ? & _).
  by exists s', k', i.
Qed.
(** *** Closing *)

Lemma tget_in_range t i q : tget t i = q → q ≠ 0 → t !! i = Some q.
Proof. unfold tget. destruct (t !! i); simpl; congruence. Qed.

Lemma open_file_Some s k ns pid i f : fd_inv s k ns → open_file s pid i = Some f →
  ∃ pr idx, procs s !! pid = Some pr ∧ tget (fds pr) i ≠ 0 ∧ k !! tget (fds pr) i = Some KFd
    ∧ fd_objs s !! tget (fds pr) i = Some (Z.of_nat idx)
    ∧ tget (global_file_table s) idx ≠ 0 ∧ k !! tget (global_file_table s) idx = Some KFile
    ∧ files s !! tget (global_file_table s) idx = Some f ∧ f_refcount f = 1.
Proof.
  intros Hinv Ho. unfold open_file in Ho. destruct (procs s !! pid) as [pr|] eqn:Hpr; [|done]. simpl in Ho.
  destruct (Z.eqb_spec (tget (fds pr) i) 0) as [|Hq]; [done|].
  destruct (fi_fd _ _ _ Hinv pid pr i Hpr Hq) as [Hkq (idx & f' & Hobj & Hp & Hf & Hrc)].
  rewrite Hobj in Ho. simpl in Ho. rewrite Nat2Z.id, Hf in Ho. injection Ho as ->.
  exists pr, idx. destruct (fi_slot _ _ _ Hinv idx Hp) as [Hkp _]. done.
Qed.

(** The state once descriptor [i] (object [q], slot [idx], file [p]) is gone. *)
Definition fd_closed (h : H) (s : S) (pid : Z) (pr : proc_fds) (i idx : nat) (q p : Z) : S :=
  mk_fd H h (fd_io s) (delete p (files s)) (delete q (fd_objs s)) (gft_ptr s)
    (<[idx := 0]> (global_file_table s)) (global_file_capacity s)
    (<[pid := mk_proc (fds_ptr pr) (<[i := 0]> (fds pr)) (fd_capacity pr)]> (procs s)).

Lemma closed_open s k ns pid pr i idx q p h : fd_inv s k ns → procs s !! pid = Some pr →
  tget (fds pr) i = q → q ≠ 0 → fd_objs s !! q = Some (Z.of_nat idx) →
  tget (global_file_table s) idx = p → p ≠ 0 →
  ∀ pid' j, open_file (fd_closed h s pid pr i idx q p) pid' j =
    if decide (pid' = pid ∧ j = i) then None else open_file s pid' j.
Proof.
  intros Hinv Hpr Hq Hq0 Hobj Hp Hp0 pid' j.
  assert (i < length (fds pr))%nat as Hi by (apply tget_ne; congruence).
  assert (idx < length (global_file_table s))%nat as Hidx by (apply tget_ne; congruence).
  unfold open_file at 1.
  change (procs (fd_closed h s pid pr i idx q p)) with (procs (fd_placed s pid pr i 0)).
  destruct (procs (fd_placed s pid pr i 0) !! pid') as [pr''|] eqn:E.
  2:{ cbn in E. apply lookup_insert_None in E as [E1 Hn]. simpl. case_decide; [done|].
      unfold open_file. by rewrite E1. }
  destruct (placed_proc s pid pr i 0 pid' pr'' j Hpr Hi E) as (pr' & Hpr' & _ & _ & _ & Et).
  simpl. rewrite Et. case_decide as Hd; [done|]. unfold open_file. rewrite Hpr'. simpl.
  destruct (Z.eqb_spec (tget (fds pr') j) 0) as [|Hn]; [done|].
  destruct (decide (tget (fds pr') j = q)) as [Eq|Hnq].
  { destruct Hd. eapply (fi_fd_inj _ _ _ Hinv); [exact Hpr'|exact Hpr|exact Hn|congruence]. }
  rewrite lookup_delete_ne by congruence.
  destruct (fi_fd _ _ _ Hinv pid' pr' j Hpr' Hn) as [_ (x & f & Hx & Hxn & Hf & _)]. rewrite Hx. simpl.
  rewrite Nat2Z.id, tget_insert by done. destruct (decide (idx = x)) as [->|Hne].
  { destruct Hnq. rewrite <- Hq. symmetry. eapply (fi_idx_inj _ _ _ Hinv); [exact Hpr|exact Hpr'|congruence|done| |done].
    by rewrite Hq. }
  rewrite lookup_delete_ne; [done|]. intros E'. apply Hne. eapply (fi_slot_inj _ _ _ Hinv); congruence.
Qed.
Lemma closed_inv s k ns pid pr i idx q p h : fd_inv s k ns → procs s !! pid = Some pr →
  tget (fds pr) i = q → q ≠ 0 → k !! q = Some KFd → fd_objs s !! q = Some (Z.of_nat idx) →
  tget (global_file_table s) idx = p → p ≠ 0 → k !! p = Some KFile →
  oh_live h (klist (delete q (delete p k))) ns →
  fd_inv (fd_closed h s pid pr i idx q p) (delete q (delete p k)) ns.
Proof.
  intros Hinv Hpr Hq Hq0 Hkq Hobj Hp Hp0 Hkp Hlive.
  assert (i < length (fds pr))%nat as Hi by (apply tget_ne; congruence).
  assert (idx < length (global_file_table s))%nat as Hidx by (apply tget_ne; congruence).
  destruct Hinv as [_ (Hg1 & Hg2 & Hg3) Hs Hsi Hp' Hpi Hfd Hfi Hii].
  assert (∀ a x, k !! a = Some x → a ≠ q → a ≠ p → delete q (delete p k) !! a = Some x) as Hk.
  { intros a x Ha H1' H2'. by rewrite !lookup_delete_ne by congruence. }
  assert (∀ pid' pr'' j, procs (fd_closed h s pid pr i idx q p) !! pid' = Some pr'' →
    ∃ pr', procs s !! pid' = Some pr' ∧ fds_ptr pr'' = fds_ptr pr' ∧ fd_capacity pr'' = fd_capacity pr'
      ∧ length (fds pr'') = length (fds pr')
      ∧ tget (fds pr'') j = if decide (pid' = pid ∧ j = i) then 0 else tget (fds pr') j) as Hlift.
  { intros pid' pr'' j H'. exact (placed_proc s pid pr i 0 pid' pr'' j Hpr Hi H'). }
  assert (∀ pid' pr'' j, procs (fd_closed h s pid pr i idx q p) !! pid' = Some pr'' → tget (fds pr'') j ≠ 0 →
    ∃ pr', procs s !! pid' = Some pr' ∧ tget (fds pr'') j = tget (fds pr') j ∧ tget (fds pr') j ≠ 0
      ∧ tget (fds pr') j ≠ q) as Hlive_fd.
  { intros pid' pr'' j H' Hn. destruct (Hlift pid' pr'' j H') as (pr' & Hpr' & _ & _ & _ & Et).
    rewrite Et in Hn. case_decide as Hd; [done|]. exists pr'. rewrite Et. split; [done|]. split; [done|].
    split; [done|]. intros E. apply Hd. apply (Hfi pid' pid pr' pr); congruence. }
  split; cbn [fd_heap fd_closed gft_ptr global_file_table global_file_capacity files fd_objs].
  - exact Hlive.
  - rewrite length_insert. split; [done|]. split; [done|]. apply Hk; congruence.
  - intros j. rewrite tget_insert by done. case_decide as Hd; [done|]. intros Hj.
    assert (tget (global_file_table s) j ≠ p) as Hjp by (intros E; apply Hd; symmetry; apply Hsi; congruence).
    destruct (Hs j Hj) as [Hkj ?]. split; [|by rewrite lookup_delete_ne by congruence].
    apply Hk; [done|congruence|done].
  - intros j1 j2. rewrite !tget_insert by done. repeat case_decide; try congruence. apply Hsi.
  - intros pid' pr'' H'. destruct (Hlift pid' pr'' 0%nat H') as (pr' & Hpr' & -> & -> & -> & _).
    destruct (Hp' pid' pr' Hpr') as (? & ? & Hkt & ?). split; [done|]. split; [done|]. split; [|done].
    apply Hk; congruence.
  - intros p1 p2 r1 r2 H1' H2'. destruct (Hlift p1 r1 0%nat H1') as (? & ? & -> & _).
    destruct (Hlift p2 r2 0%nat H2') as (? & ? & -> & _). by eapply Hpi.
  - intros pid' pr'' j H' Hn. destruct (Hlive_fd pid' pr'' j H' Hn) as (pr' & Hpr' & -> & Hn' & Hnq).
    destruct (Hfd pid' pr' j Hpr' Hn') as [Hkj (x & f & Hx & Hxn & Hf & Hrc)].
    assert (idx ≠ x) as Hne.
    { intros ->. apply Hnq. rewrite <- Hq. eapply Hii; [exact Hpr'|exact Hpr|done|congruence|exact Hx|by rewrite Hq]. }
    assert (tget (global_file_table s) x ≠ p) as Hxp by (intros E; apply Hne; apply Hsi; congruence).
    destruct (Hs x Hxn) as [Hkx _]. split; [apply Hk; [done|done|congruence]|]. exists x, f.
    rewrite lookup_delete_ne, tget_insert, decide_False, lookup_delete_ne by congruence. done.
  - intros p1 p2 r1 r2 j1 j2 H1' H2' Hn E.
    destruct (Hlive_fd p1 r1 j1 H1' Hn) as (r1' & Hr1 & E1 & Hn1 & _).
    destruct (Hlive_fd p2 r2 j2 H2') as (r2' & Hr2 & E2 & Hn2 & _); [congruence|].
    apply (Hfi p1 p2 r1' r2'); congruence.
  - intros p1 p2 r1 r2 j1 j2 x H1' H2' Hn1 Hn2.
    destruct (Hlive_fd p1 r1 j1 H1' Hn1) as (r1' & Hr1 & -> & Hn1' & Hq1).
    destruct (Hlive_fd p2 r2 j2 H2' Hn2) as (r2' & Hr2 & -> & Hn2' & Hq2).
    rewrite !lookup_delete_ne by congruence. by apply (Hii p1 p2).
Qed.

Lemma fd_slot_spec s k ns pid pr fd : fd_inv s k ns → procs s !! pid = Some pr →
  fd_slot (H := H) pr fd s = Done (if 0 <=? fd then tget (fds pr) (Z.to_nat fd) else 0, s).
Proof.
  intros Hinv Hpr. destruct (fi_proc _ _ _ Hinv pid pr Hpr) as (Hlen & _). unfold fd_slot.
  destruct (Z.ltb_spec fd 0), (Z.leb_spec 0 fd); try lia; [done|]. simpl.
  destruct (Z.leb_spec (fd_capacity pr) fd).
  - unfold tget. rewrite lookup_ge_None_2 by lia. done.
  - destruct (lookup_lt_is_Some_2 (fds pr) (Z.to_nat fd)) as [q Hq]; [lia|]. unfold tget. by rewrite Hq.
Qed.

Lemma table_get_Done (t : list Z) (i : nat) p (s : S) : t !! i = Some p →
  table_get (H := H) t (Z.of_nat i) s = Done (p, s).
Proof.
  intros Hi. unfold table_get. rewrite Nat2Z.id, Hi. destruct (Z.ltb_spec (Z.of_nat i) 0); [lia|done].
Qed.

(** Closing a file. process_fd_close of an open descriptor succeeds: that
    descriptor is closed, its file_t and fd_t return to the heap, every other
    descriptor of every process keeps its open file, and the invariant of the
    tables holds. A descriptor that is negative, past the table or not open gives
    -1 and changes nothing. *)
Theorem process_fd_close_spec s k ns pid pr fd : fd_inv s k ns → procs s !! pid = Some pr →
  match (if 0 <=? fd then open_file s pid (Z.to_nat fd) else None) with
  | Some f => ∃ s' k', process_fd_close pid fd s = Done (0, s') ∧ fd_inv s' k' ns ∧ fd_io s' = fd_io s
      ∧ (∀ pid' j, open_file s' pid' j =
           if decide (pid' = pid ∧ j = Z.to_nat fd) then None else open_file s pid' j)
      ∧ size k = Datatypes.S (Datatypes.S (size k'))
  | None => process_fd_close pid fd s = Done (-1, s)
  end.
Proof.
  intros Hinv Hpr. pose proof (fd_slot_spec s k ns pid pr fd Hinv Hpr) as Hslot.
  destruct (if 0 <=? fd then open_file s pid (Z.to_nat fd) else None) as [f|] eqn:Ho.
  - destruct (Z.leb_spec 0 fd); [|done].
    destruct (open_file_Some _ _ _ _ _ _ Hinv Ho) as (pr' & idx & Hpr' & Hq0 & Hkq & Hobj & Hp0 & Hkp & Hf & Hrc).
    assert (pr' = pr) as -> by congruence. set (i := Z.to_nat fd) in *.
    set (q := tget (fds pr) i) in *. set (p := tget (global_file_table s) idx) in *.
    assert (p ≠ q) as Hpq by congruence.
    destruct (oh_free_ok (fd_heap s) (klist k) (klist (delete p k)) p ns (fi_live _ _ _ Hinv)
      (klist_delete _ _ _ Hkp)) as (h1 & Hf1 & Hl1).
    destruct (oh_free_ok h1 (klist (delete p k)) (klist (delete q (delete p k))) q ns Hl1) as (h2 & Hf2 & Hl2).
    { apply (klist_delete _ _ KFd). by rewrite lookup_delete_ne. }
    exists (fd_closed h2 s pid pr i idx q p), (delete q (delete p k)).
    split; [|split; [by apply closed_inv|split; [done|split; [by apply (closed_open s k ns)|]]]].
    2:{ assert (∀ (m : gmap Z kind) a x, m !! a = Some x → size m = Datatypes.S (size (delete a m))) as Hsz.
        { intros m a x Ha. rewrite <- (insert_delete_id m a x Ha) at 1.
          by rewrite map_size_insert_None by apply lookup_delete_eq. }
        rewrite (Hsz k p KFile Hkp). f_equal. apply (Hsz _ q KFd). by rewrite lookup_delete_ne. }
    set (f0 := mk_file (f_vnode f) (f_offset f) 0 (f_flags f)).
    set (s1 := set_files (<[p := f0]> (files s)) s).
    set (s2 := set_gft (gft_ptr s) (<[idx := 0]> (global_file_table s)) (global_file_capacity s)
      (set_files (delete p (<[p := f0]> (files s))) (with_heap h1 s1))).
    assert (of_close (Z.of_nat idx) s = Done (0, s2)) as Hc.
    { unfold of_close. rewrite (bind_Done _ _ _ (global_file_table s) s) by reflexivity.
      rewrite (bind_Done _ _ _ _ _ (table_get_Done _ idx p s (tget_in_range _ _ _ eq_refl Hp0))).
      destruct (Z.eqb_spec p 0); [done|]. rewrite (bind_Done _ _ _ f s) by (unfold get_file; by rewrite Hf).
      rewrite Hrc. rewrite (bind_Done _ _ _ tt s1) by reflexivity.
      change (u32 (1 - 1) =? 0) with true. cbv iota. rewrite Nat2Z.id.
      rewrite (bind_Done _ _ _ tt (set_files (delete p (<[p := f0]> (files s))) (with_heap h1 s1))); [reflexivity|].
      unfold free_file. by rewrite (bind_Done _ _ _ _ _ (on_heap_Done _ s1 _ _ Hf1)). }
    unfold process_fd_close. rewrite (bind_Done _ _ _ _ _ (get_proc_Done s pid pr Hpr)).
    rewrite (bind_Done _ _ _ _ _ Hslot). fold i q. destruct (Z.leb_spec 0 fd); [|lia].
    destruct (Z.eqb_spec q 0); [done|].
    rewrite (bind_Done _ _ _ (Z.of_nat idx) s) by (unfold get_fd; by rewrite Hobj).
    rewrite (bind_Done _ _ _ _ _ Hc).
    rewrite (bind_Done _ _ _ tt (fd_placed s2 pid pr i 0)) by reflexivity.
    unfold free_fd. rewrite (bind_Done _ _ _ tt (set_fd_objs (delete q (fd_objs s)) (with_heap h2 (fd_placed s2 pid pr i 0)))).
    + unfold mret, M_ret, fd_closed, s2, set_fd_objs, set_gft, set_files. simpl. by rewrite delete_insert_eq.
    + by rewrite (bind_Done _ _ _ _ _ (on_heap_Done _ (fd_placed s2 pid pr i 0) _ _ Hf2)).
  - unfold process_fd_close. rewrite (bind_Done _ _ _ _ _ (get_proc_Done s pid pr Hpr)).
    rewrite (bind_Done _ _ _ _ _ Hslot).
    assert ((if 0 <=? fd then tget (fds pr) (Z.to_nat fd) else 0) = 0) as ->; [|done].
    destruct (0 <=? fd); [|done]. unfold open_file in Ho. rewrite Hpr in Ho. simpl in Ho.
    destruct (Z.eqb_spec (tget (fds pr) (Z.to_nat fd)) 0) as [|Hq]; [done|].
    destruct (fi_fd _ _ _ Hinv pid pr _ Hpr Hq) as [_ (idx & f & Hx & _ & Hf & _)].
    rewrite Hx in Ho. simpl in Ho. rewrite Nat2Z.id, Hf in Ho. done.
Qed.
(** *** The system calls on an open descriptor *)

Definition fd_file (s : S) (pid fd : Z) : option file :=
  if 0 <=? fd then open_file s pid (Z.to_nat fd) else None.

Lemma process_unpack_fd_ok s k ns pid pr fd : fd_inv s k ns → procs s !! pid = Some pr →
  match fd_file s pid fd with
  | Some f => ∃ p idx, process_unpack_fd pid fd s = Done (p, s) ∧ p ≠ 0 ∧ files s !! p = Some f
      ∧ tget (global_file_table s) idx = p ∧ f_refcount f = 1
      ∧ fd_objs s !! tget (fds pr) (Z.to_nat fd) = Some (Z.of_nat idx)
  | None => process_unpack_fd pid fd s = Done (0, s)
  end.
Proof.
  intros Hinv Hpr. pose proof (fd_slot_spec s k ns pid pr fd Hinv Hpr) as Hslot.
  unfold process_unpack_fd. rewrite (bind_Done _ _ _ _ _ (get_proc_Done s pid pr Hpr)).
  rewrite (bind_Done _ _ _ _ _ Hslot). unfold fd_file in *.
  destruct (Z.leb_spec 0 fd) as [Hfd|]; [|done].
  destruct (open_file s pid (Z.to_nat fd)) as [f|] eqn:Ho.
  - destruct (open_file_Some _ _ _ _ _ _ Hinv Ho) as (pr' & idx & Hpr' & Hq0 & Hkq & Hobj & Hp0 & Hkp & Hf & Hrc).
    assert (pr' = pr) as -> by congruence.
    exists (tget (global_file_table s) idx), idx. split; [|done].
    destruct (Z.eqb_spec (tget (fds pr) (Z.to_nat fd)) 0); [done|].
    rewrite (bind_Done _ _ _ (Z.of_nat idx) s) by (unfold get_fd; by rewrite Hobj).
    rewrite (bind_Done _ _ _ (global_file_table s) s) by reflexivity.
    exact (table_get_Done _ idx _ s (tget_in_range _ _ _ eq_refl Hp0)).
  - destruct (Z.eqb_spec (tget (fds pr) (Z.to_nat fd)) 0) as [|Hq]; [done|].
    destruct (fi_fd _ _ _ Hinv pid pr _ Hpr Hq) as [_ (idx & f & Hx & _ & Hf & _)].
    unfold open_file in Ho. rewrite Hpr in Ho. simpl in Ho.
    destruct (Z.eqb_spec (tget (fds pr) (Z.to_nat fd)) 0); [done|].
    rewrite Hx in Ho. simpl in Ho. rewrite Nat2Z.id, Hf in Ho. done.
Qed.

Lemma put_file_inv s k ns p f f' io : fd_inv s k ns → files s !! p = Some f → f_refcount f' = 1 →
  fd_inv (set_files (<[p := f']> (files s))
    (mk_fd H (fd_heap s) io (files s) (fd_objs s) (gft_ptr s) (global_file_table s) (global_file_capacity s) (procs s))) k ns.
Proof.
  intros [Hl Hg Hs Hsi Hp' Hpi Hfd Hfi Hii] Hf Hrc. split; simpl; try done.
  - intros i Hi. destruct (Hs i Hi) as [? ?]. split; [done|].
    destruct (decide (p = tget (global_file_table s) i)) as [->|]; [by rewrite lookup_insert_eq|].
    by rewrite lookup_insert_ne.
  - intros pid pr i Hpr Hi. destruct (Hfd pid pr i Hpr Hi) as [? (idx & f0 & Hx & Hn & Hf0 & Hrc0)].
    split; [done|]. exists idx.
    destruct (decide (p = tget (global_file_table s) idx)) as [Ep|].
    + exists f'. rewrite <- Ep, lookup_insert_eq. rewrite Ep. done.
    + exists f0. by rewrite lookup_insert_ne.
Qed.

(** An operation on a descriptor runs on its open file and updates no other. *)
Lemma with_file_ok s k ns pid pr fd op : fd_inv s k ns → procs s !! pid = Some pr →
  match fd_file s pid (i32 fd) with
  | Some f => ∀ r f' io', op f (fd_io s) = Done ((r, f'), io') → f_refcount f' = 1 →
      ∃ s', with_file pid fd op s = Done (u64 r, s') ∧ fd_inv s' k ns ∧ fd_io s' = io'
        ∧ (∀ pid' j, open_file s' pid' j =
             if decide (pid' = pid ∧ j = Z.to_nat (i32 fd)) then Some f' else open_file s pid' j)
  | None => with_file pid fd op s = Done (u64 (- EBADF), s)
  end.
Proof.
  intros Hinv Hpr. pose proof (process_unpack_fd_ok s k ns pid pr (i32 fd) Hinv Hpr) as Hu.
  destruct (fd_file s pid (i32 fd)) as [f|] eqn:Hff.
  2:{ unfold with_file. by rewrite (bind_Done _ _ _ _ _ Hu). }
  destruct Hu as (p & idx & Hu & Hp0 & Hf & Hp & Hrc & Hobj). intros r f' io' Hop Hrc'.
  set (s1 := mk_fd H (fd_heap s) io' (files s) (fd_objs s) (gft_ptr s) (global_file_table s) (global_file_capacity s) (procs s)).
  exists (set_files (<[p := f']> (files s)) s1).
  split; [|split; [by eapply put_file_inv|split; [done|]]].
  - unfold with_file. rewrite (bind_Done _ _ _ _ _ Hu). destruct (Z.eqb_spec p 0); [done|].
    rewrite (bind_Done _ _ _ f s) by (unfold get_file; by rewrite Hf).
    rewrite (bind_Done _ _ _ (r, f') s1); [reflexivity|]. unfold on_io, zoom. by rewrite Hop.
  - intros pid' j. unfold open_file. simpl. unfold fd_file in Hff.
    destruct (Z.leb_spec 0 (i32 fd)); [|done].
    destruct (open_file_Some _ _ _ _ _ _ Hinv Hff) as (pr0 & _ & Hpr0 & Hq0 & _).
    assert (pr0 = pr) as -> by congruence.
    destruct (procs s !! pid') as [pr'|] eqn:Hpr'; simpl.
    2:{ rewrite decide_False; [done|]. intros [-> _]. congruence. }
    destruct (Z.eqb_spec (tget (fds pr') j) 0) as [E0|Hn].
    { rewrite decide_False; [done|]. intros [-> ->]. congruence. }
    destruct (fi_fd _ _ _ Hinv pid' pr' j Hpr' Hn) as [_ (x & f0 & Hx & Hxn & Hf0 & _)]. rewrite Hx. simpl.
    rewrite Nat2Z.id. case_decide as Hd.
    + destruct Hd as [-> ->]. assert (pr' = pr) as -> by congruence. assert (x = idx) as -> by (apply Nat2Z.inj; congruence).
      by rewrite Hp, lookup_insert_eq.
    + rewrite lookup_insert_ne; [done|]. intros E. apply Hd.
      assert (idx = x) as -> by (apply (fi_slot_inj _ _ _ Hinv); congruence).
      assert (tget (fds pr) (Z.to_nat (i32 fd)) = tget (fds pr') j) as Eq
        by (by apply (fi_idx_inj _ _ _ Hinv pid pid' pr pr' _ _ (Z.of_nat x))).
      destruct (fi_fd_inj _ _ _ Hinv pid pid' pr pr' _ _ Hpr Hpr' Hq0 Eq) as [-> ->]. done.
Qed.

(** Reading through a descriptor. A null buffer or a zero size gives -EINVAL and
    a descriptor that is not open gives -EBADF, both without any effect; on an open
    one, do_sys_read returns what vfs_read returns on the open file behind it, that
    file's offset moves as vfs_read moved it, and every other open file and the
    tables are as before. *)
Theorem do_sys_read_spec s k ns pid pr fd buffer size : fd_inv s k ns → procs s !! pid = Some pr →
  if (buffer =? 0) || (size =? 0) then do_sys_read pid fd buffer size s = Done (u64 (- EINVAL), s)
  else match fd_file s pid (i32 fd) with
  | None => do_sys_read pid fd buffer size s = Done (u64 (- EBADF), s)
  | Some f => ∀ r f' io', vfs_read f buffer size (fd_io s) = Done ((r, f'), io') → f_refcount f' = 1 →
      ∃ s', do_sys_read pid fd buffer size s = Done (u64 r, s') ∧ fd_inv s' k ns ∧ fd_io s' = io'
        ∧ (∀ pid' j, open_file s' pid' j =
             if decide (pid' = pid ∧ j = Z.to_nat (i32 fd)) then Some f' else open_file s pid' j)
  end.
Proof.
  intros Hinv Hpr. unfold do_sys_read. destruct ((buffer =? 0) || (size =? 0)); [done|].
  exact (with_file_ok s k ns pid pr fd (λ f, vfs_read f buffer size) Hinv Hpr).
Qed.
End fd_spec.

Module FdWitness.
Import DemoObjects VfsWitness TermWitness.

(** One process (pid 1) with empty tables. *)
Definition demo_fd : fd_state bump := mk_fd _ (mk_bump 4096) demo_kio ∅ ∅
  1024 (null_table 32) 32 {[ 1 := mk_proc 2048 (null_table 16) 16 ]}.
Definition demo_kinds : gmap Z kind := {[ 1024 := KTable; 2048 := KTable ]}.

Lemma tget_null n i : tget (null_table n) i = 0.
Proof. unfold tget. destruct (null_table n !! i) eqn:E; [|done]. by apply lookup_replicate in E as [-> _]. Qed.

Lemma demo_fd_inv ns : Forall (λ n, 0 ≤ n) ns → fd_inv demo_fd demo_kinds ns.
Proof.
  intros Hns. split; simpl.
  - split; [by vm_compute|]. split; [|split; [|done]].
    + apply (bool_decide_unpack _). by vm_compute.
    + apply (bool_decide_unpack _). by vm_compute.
  - split; [done|]. split; [lia|done].
  - intros i. by rewrite tget_null.
  - intros i j. by rewrite tget_null.
  - intros pid pr [<- <-]%lookup_singleton_Some. simpl. split; [done|]. split; [lia|]. split; [done|lia].
  - intros ? ? ? ? [<- _]%lookup_singleton_Some [<- _]%lookup_singleton_Some. done.
  - intros pid pr i [<- <-]%lookup_singleton_Some. simpl. by rewrite tget_null.
  - intros ? ? ? ? i j [<- <-]%lookup_singleton_Some _. simpl. by rewrite tget_null.
  - intros ? ? ? ? i j ? [<- <-]%lookup_singleton_Some _. simpl. by rewrite tget_null.
Qed.

Lemma process_fd_open_spec_witness :
  ∃ s', process_fd_open 1 "/motd" 0 demo_fd = Done (0, s')
    ∧ open_file s' 1 0 = Some (mk_file (TarNode 1) 0 1 0).
Proof.
  destruct (process_fd_open_spec demo_fd demo_kinds 1 (mk_proc 2048 (null_table 16) 16) "/motd" 0
    (mk_file (TarNode 1) 0 0 0) demo_kio) as (s' & k' & i & Ho & _ & _ & Hi0 & Hlow & Hop).
  - apply demo_fd_inv. repeat apply Forall_cons_2; try apply Forall_nil_2; vm_compute; discriminate.
  - reflexivity.
  - vm_compute. discriminate.
  - vm_compute. discriminate.
  - vm_compute. reflexivity.
  - reflexivity.
  - assert (i = 0%nat) as ->.
    { destruct i; [reflexivity|]. destruct (Hlow 0%nat ltac:(lia)). apply tget_null. }
    exists s'. split; [exact Ho|]. rewrite Hop, decide_True by (split; reflexivity). reflexivity.
Defined.

(** The same process with /motd open as descriptor 0. *)
Definition demo_open : fd_state bump := fd_placed
  (file_placed (mk_fd _ (mk_bump 4096) demo_kio {[ 3072 := mk_file (TarNode 1) 0 0 0 ]} {[ 3584 := 0 ]}
     1024 (null_table 32) 32 {[ 1 := mk_proc 2048 (null_table 16) 16 ]}) 0 3072 0 (mk_file (TarNode 1) 0 0 0))
  1 (mk_proc 2048 (null_table 16) 16) 0 3584.
Definition open_kinds : gmap Z kind := {[ 1024 := KTable; 2048 := KTable; 3072 := KFile; 3584 := KFd ]}.

Lemma demo_open_inv : fd_inv demo_open open_kinds [].
Proof.
  apply (place_fd_ok _ open_kinds [] 1 _ 0 3584 0 (mk_file (TarNode 1) 0 1 0)); try reflexivity; try (simpl; lia).
  - apply place_file_ok; try reflexivity; try (simpl; lia).
    + split; simpl.
      * split; [by vm_compute|]. split; [|split; [|constructor]].
        -- apply (bool_decide_unpack _). by vm_compute.
        -- apply (bool_decide_unpack _). by vm_compute.
      * split; [done|]. split; [lia|done].
      * intros i. by rewrite tget_null.
      * intros i j. by rewrite tget_null.
      * intros pid pr [<- <-]%lookup_singleton_Some. simpl. split; [done|]. split; [lia|]. split; [done|lia].
      * intros ? ? ? ? [<- _]%lookup_singleton_Some [<- _]%lookup_singleton_Some. done.
      * intros pid pr i [<- <-]%lookup_singleton_Some. simpl. by rewrite tget_null.
      * intros ? ? ? ? i j [<- <-]%lookup_singleton_Some _. simpl. by rewrite tget_null.
      * intros ? ? ? ? i j ? [<- <-]%lookup_singleton_Some _. simpl. by rewrite tget_null.
    + intros j. simpl. rewrite tget_null. lia.
  - vm_compute. discriminate.
  - intros pid pr j Hp. cbn in Hp. apply lookup_singleton_Some in Hp as [<- <-]. simpl. by rewrite tget_null.
  - intros pid pr j Hp. cbn in Hp. apply lookup_singleton_Some in Hp as [<- <-]. simpl. rewrite tget_null. lia.
Qed.

Lemma process_fd_close_spec_witness :
  (∃ s', process_fd_close 1 0 demo_open = Done (0, s') ∧ open_file s' 1 0 = None)
  ∧ process_fd_close 1 5 demo_open = Done (-1, demo_open).
Proof.
  split.
  - destruct (process_fd_close_spec demo_open open_kinds [] 1 _ 0 demo_open_inv eq_refl)
      as (s' & k' & Hc & _ & _ & Ho & _).
    exists s'. split; [exact Hc|]. rewrite Ho, decide_True by (split; reflexivity). reflexivity.
  - exact (process_fd_close_spec demo_open open_kinds [] 1 _ 5 demo_open_inv eq_refl).
Defined.

Lemma do_sys_read_spec_witness :
  (∃ s', do_sys_read 1 0 0x5000 100 demo_open = Done (12, s')
     ∧ open_file s' 1 0 = Some (mk_file (TarNode 1) 12 1 0))
  ∧ do_sys_read 1 7 0x5000 100 demo_open = Done (u64 (-9), demo_open).
Proof.
  split.
  - destruct (do_sys_read_spec demo_open open_kinds [] 1 _ 0 0x5000 100 demo_open_inv eq_refl
      12 (mk_file (TarNode 1) 12 1 0) _ eq_refl eq_refl) as (s' & Hr & _ & _ & Ho).
    exists s'. split; [exact Hr|]. rewrite Ho, decide_True by (split; reflexivity). reflexivity.
  - exact (do_sys_read_spec demo_open open_kinds [] 1 _ 7 0x5000 100 demo_open_inv eq_refl).
Defined.
End FdWitness.
