(* ===== verification/Files.v ===== *)
(** * The file system calls as an abstract machine

    What user programs see of files is a map from (process, descriptor) to open files,
    next to the filesystem and the devices: [view]. [spec_step] is a system call on it. The
    tables of Fd.v refine it, over every sequence of calls; and every state that is reachable
    from fd_init has tables whose pointers are of the right type. *)
From S2P Require Import Prelude CMem Phys Heap Fb Term Vfs Fd.

(** A file system call, by its arguments. *)
Inductive fop :=
  | FOpen (path : string) (flags : Z)
  | FClose (fd : Z)
  | FRead (fd buffer size : Z)
  | FWrite (fd buffer size : Z)
  | FSeek (fd offset whence : Z)
  | FIoctl (fd cmd arg : Z).

(** ** The abstract machine *)

Record view := mk_view {
  v_files : Z → nat → option file;     (* per process and descriptor *)
  v_io : kio;
}.
(** Views are compared pointwise. *)
#[export] Instance view_equiv : Equiv view := λ V W, (∀ pid i, v_files V pid i = v_files W pid i) ∧ v_io V = v_io W.
#[export] Instance view_equivalence : Equivalence (≡@{view}).
Proof.
  split.
  - by split.
  - intros V W [Hf Hio]. by split.
  - intros U V W [Hf Hio] [Hf' Hio']. split; [|congruence]. intros pid i. by rewrite Hf.
Qed.

(** [D] with one descriptor changed. *)
Definition fset (D : Z → nat → option file) (pid : Z) (i : nat) (x : option file) : Z → nat → option file :=
  λ pid' j, if decide (pid' = pid ∧ j = i) then x else D pid' j.
Definition fget (D : Z → nat → option file) (pid fd : Z) : option file :=
  if 0 <=? fd then D pid (Z.to_nat fd) else None.

Section files.
Context `{OH : ObjectHeap H} `{UA : Uart} `{AB : Abi}.
Abbreviation S := (fd_state H).

(** A call that works on an open file. *)
Definition file_op (o : fop) : option (Z * (file → M kio (Z * file))) :=
  match o with
  | FRead fd buffer size => Some (fd, λ f, vfs_read f buffer size)
  | FWrite fd buffer size => Some (fd, λ f, vfs_write f buffer size)
  | FSeek fd offset whence => Some (fd, λ f io, r ← vfs_lseek f offset whence (io_fs io); Done (r, io))
  | FIoctl fd cmd arg => Some (fd, λ f, r ← vfs_ioctl f cmd arg; mret (r, f))
  | _ => None
  end.
Definition invalid (o : fop) : bool :=
  match o with FRead _ buffer size | FWrite _ buffer size => (buffer =? 0) || (size =? 0) | _ => false end.

Inductive spec_step (pid : Z) (V : view) : fop → Z → view → Prop :=
  | SOpen path flags f io' i V' :
      vfs_open path flags (v_io V) = Done (Some f, io') →
      v_files V pid i = None → (∀ j, (j < i)%nat → v_files V pid j ≠ None) →
      V' ≡ mk_view (fset (v_files V) pid i (Some (mk_file (f_vnode f) 0 1 flags))) io' →
      spec_step pid V (FOpen path flags) (u64 (Z.of_nat i)) V'
  | SNoFile path flags io' V' :
      vfs_open path flags (v_io V) = Done (None, io') → V' ≡ mk_view (v_files V) io' →
      spec_step pid V (FOpen path flags) (u64 (-1)) V'
  | SClose fd f V' :
      fget (v_files V) pid (i32 fd) = Some f → V' ≡ mk_view (fset (v_files V) pid (Z.to_nat (i32 fd)) None) (v_io V) →
      spec_step pid V (FClose fd) 0 V'
  | SNotOpen fd V' :
      fget (v_files V) pid (i32 fd) = None → V' ≡ V → spec_step pid V (FClose fd) (u64 (-1)) V'
  | SInvalid o V' : invalid o = true → V' ≡ V → spec_step pid V o (u64 (- EINVAL)) V'
  | SBadFile o fd op V' :
      invalid o = false → file_op o = Some (fd, op) → fget (v_files V) pid (i32 fd) = None → V' ≡ V →
      spec_step pid V o (u64 (- EBADF)) V'
  | SFile o fd op f r f' io' V' :
      invalid o = false → file_op o = Some (fd, op) → fget (v_files V) pid (i32 fd) = Some f →
      op f (v_io V) = Done ((r, f'), io') →
      V' ≡ mk_view (fset (v_files V) pid (Z.to_nat (i32 fd)) (Some f')) io' →
      spec_step pid V o (u64 r) V'.

Inductive spec_run : view → list (Z * fop) → list Z → view → Prop :=
  | SDone V V' : V' ≡ V → spec_run V [] [] V'
  | SNext V V1 V' pid o ops r rs : spec_step pid V o r V1 → spec_run V1 ops rs V' →
      spec_run V ((pid, o) :: ops) (r :: rs) V'.

(** ** The calls of fs.c *)

Definition run_op (pid : Z) (o : fop) : M S Z :=
  match o with
  | FOpen path flags => do_sys_open pid path flags
  | FClose fd => do_sys_close pid fd
  | FRead fd buffer size => do_sys_read pid fd buffer size
  | FWrite fd buffer size => do_sys_write pid fd buffer size
  | FSeek fd offset whence => do_sys_lseek pid fd offset whence
  | FIoctl fd cmd arg => do_sys_ioctl pid fd cmd arg
  end.
Fixpoint run_ops (ops : list (Z * fop)) : M S (list Z) :=
  match ops with
  | [] => mret []
  | (pid, o) :: ops' => r ← run_op pid o; rs ← run_ops ops'; mret (r :: rs)
  end.
End files.

Definition view_of `(s : fd_state H) : view := mk_view (open_file s) (fd_io s).

Section files_spec.
Context `{OHL : ObjectHeapLaws H} `{UA : Uart} `{AB : Abi}.
Abbreviation S := (fd_state H).
Implicit Types (s : S) (V W : view).

Lemma spec_step_ext pid V W o r V' W' : V ≡ W → V' ≡ W' → spec_step pid V o r V' → spec_step pid W o r W'.
Proof.
  intros [Hf Hio] HV' Hs. destruct V as [D io], W as [D' io']. cbn in Hf, Hio. subst io'.
  assert (∀ i x io1, mk_view (fset D pid i x) io1 ≡ mk_view (fset D' pid i x) io1) as Hset.
  { intros i x io1. split; [|done]. intros pid' j. cbn. unfold fset. by rewrite Hf. }
  assert (∀ fd, fget D' pid fd = fget D pid fd) as Hget by (intros fd; unfold fget; by rewrite Hf).
  inversion Hs as [path flags f io1 i V1 Ho Hi Hlow HV|path flags io1 V1 Ho HV|fd f V1 Hg HV|fd V1 Hg HV|o1 V1 Hi HV
    |o1 fd op V1 Hi Hop Hg HV|o1 fd op f r1 f' io1 V1 Hi Hop Hg Hr HV]; subst; cbn in *.
  - eapply SOpen; cbn; [exact Ho|by rewrite <- Hf|intros j Hj; rewrite <- Hf; by apply Hlow|]. by rewrite <- HV', HV, Hset.
  - eapply SNoFile; cbn; [exact Ho|]. rewrite <- HV', HV. by split.
  - eapply SClose; cbn; [by rewrite Hget|]. by rewrite <- HV', HV, Hset.
  - apply SNotOpen; cbn; [by rewrite Hget|]. rewrite <- HV', HV. by split.
  - apply SInvalid; [done|]. rewrite <- HV', HV. by split.
  - eapply SBadFile; cbn; [done|exact Hop|by rewrite Hget|]. rewrite <- HV', HV. by split.
  - eapply SFile; cbn; [done|exact Hop|by rewrite Hget|exact Hr|]. by rewrite <- HV', HV, Hset.
Qed.
#[export] Instance spec_step_proper pid : Proper ((≡) ==> (=) ==> (=) ==> (≡) ==> iff) (spec_step pid).
Proof. intros V W HV o ? <- r ? <- V' W' HV'. split; by apply spec_step_ext. Qed.

Lemma spec_run_ext V W ops rs V' : V ≡ W → spec_run V ops rs V' → spec_run W ops rs V'.
Proof.
  intros HV Hr. revert W HV. induction Hr as [V V' HV'|V V1 V' pid o ops r rs Hs Hr IH]; intros W HV.
  - constructor. by rewrite HV', HV.
  - eapply SNext; [|exact Hr]. by rewrite <- HV.
Qed.

(** ** One call *)

Lemma vfs_open_fresh path flags io f io' : vfs_open path flags io = Done (Some f, io') →
  f_offset f = 0 ∧ f_refcount f = 0.
Proof.
  unfold vfs_open. destruct (root_mount (io_fs io)); [|discriminate].
  destruct (vfs_find_vnode path (io_fs io)) as [[v|]| | |]; try discriminate. cbn.
  destruct (negb _); [|by intros [= <- _]]. destruct (on_fs _ io) as [[] | | |]; try discriminate. by intros [= <- _].
Qed.

(** No operation changes the number of references. *)
Lemma file_op_refcount o fd op f io r f' io' : file_op o = Some (fd, op) → op f io = Done ((r, f'), io') →
  f_refcount f' = f_refcount f.
Proof.
  assert (∀ f r, f_refcount (advance f r) = f_refcount f) as Hadv by (intros f0 r0; unfold advance; by destruct (0 <? r0)).
  destruct o as [path flags|c|c buffer size|c buffer size|c offset whence|c cmd arg]; intros [= <- <-].
  - unfold vfs_read. destruct (buffer =? 0); [by intros [= _ <- _]|].
    intros (n & io1 & _ & Hr)%bind_inv. apply bind_inv in Hr as (r1 & io2 & _ & [= _ <- _]). apply Hadv.
  - unfold vfs_write. intros (n & io1 & _ & Hr)%bind_inv. apply bind_inv in Hr as (r1 & io2 & _ & [= _ <- _]). apply Hadv.
  - destruct (vfs_lseek f offset whence (io_fs io)) as [[r1 f1]| | |] eqn:E; try discriminate. cbn. intros [= _ <- _].
    unfold vfs_lseek in E. destruct (deref (f_vnode f) (io_fs io)) as [n| | |]; try discriminate. cbn in E.
    destruct (whence =? SEEK_SET), (whence =? SEEK_CUR), (whence =? SEEK_END); try discriminate; by injection E as _ <-.
  - intros (r1 & io1 & _ & [= _ <- _])%bind_inv. done.
Qed.

(** The heap has room for what opening a file may ask for. *)
Definition open_requests (s : S) (pr : proc_fds) : list Z :=
  [sizeof_file; 2 * global_file_capacity s * 8; sizeof_fd; 2 * fd_capacity pr * 8].
Definition served (pid : Z) (o : fop) (s : S) : Prop :=
  ∃ pr, procs s !! pid = Some pr ∧
    match o with
    | FOpen _ _ => global_file_capacity s ≤ 2 ^ 28 ∧ fd_capacity pr ≤ 2 ^ 28
        ∧ ∀ l, oh_live (fd_heap s) l [] → oh_live (fd_heap s) l (open_requests s pr)
    | _ => True
    end.

Lemma fd_inv_room s k ns : fd_inv s k [] → (∀ l, oh_live (fd_heap s) l [] → oh_live (fd_heap s) l ns) → fd_inv s k ns.
Proof. intros [Hl ? ? ? ? ? ? ? ?] Hroom. split; try done. by apply Hroom. Qed.

Lemma open_slot s k ns pid pr i : fd_inv s k ns → procs s !! pid = Some pr → open_file s pid i = None ↔ tget (fds pr) i = 0.
Proof.
  intros Hinv Hpr. unfold open_file. rewrite Hpr. cbn. destruct (Z.eqb_spec (tget (fds pr) i) 0) as [|Hn]; [done|].
  destruct (fi_fd _ _ _ Hinv pid pr i Hpr Hn) as [_ (idx & f & Hx & _ & Hf & _)]. rewrite Hx. cbn. rewrite Nat2Z.id, Hf. done.
Qed.

(** of_open when the path does not open. *)
Lemma open_fails s k ns pid pr path flags io' : fd_inv s k (sizeof_file :: ns) → procs s !! pid = Some pr →
  vfs_open path flags (fd_io s) = Done (None, io') →
  ∃ s', process_fd_open pid path flags s = Done (-1, s') ∧ fd_inv s' k ns ∧ fd_io s' = io' ∧ procs s' = procs s
    ∧ ∀ pid' j, open_file s' pid' j = open_file s pid' j.
Proof.
  intros Hinv Hpr Hopen.
  destruct (oh_alloc_ok _ _ _ _ (fi_live _ _ _ Hinv) ltac:(unfold sizeof_file; lia)) as (p & h1 & Ha & Hp0 & Hpn & Hl1).
  destruct (oh_free_ok h1 (p :: klist k) (klist k) p ns Hl1 ltac:(done)) as (h2 & Hb & Hl2).
  set (s' := mk_fd H h2 io' (files s) (fd_objs s) (gft_ptr s) (global_file_table s) (global_file_capacity s) (procs s)).
  exists s'. split; [|split; [|by split]].
  - unfold process_fd_open, of_open. rewrite (bind_Done _ _ s (-1) s'); [reflexivity|].
    rewrite (bind_Done _ _ _ _ _ (on_heap_Done _ s _ _ Ha)), (proj2 (Z.eqb_neq p 0) Hp0).
    rewrite (bind_Done _ _ _ None (mk_fd H h1 io' (files s) (fd_objs s) (gft_ptr s) (global_file_table s) (global_file_capacity s) (procs s)))
      by (unfold on_io, zoom; cbn; by rewrite Hopen).
    rewrite (bind_Done _ _ _ tt s'); [reflexivity|]. unfold on_heap, zoom. cbn. by rewrite Hb.
  - destruct (fd_inv_skip _ _ _ _ Hinv). by split.
Qed.

Lemma set_view s s' pid i x : (∀ pid' j, open_file s' pid' j = if decide (pid' = pid ∧ j = i) then x else open_file s pid' j) →
  view_of s' ≡ mk_view (fset (v_files (view_of s)) pid i x) (fd_io s').
Proof. intros Ho. by split. Qed.
Lemma same_view s s' : (∀ pid' j, open_file s' pid' j = open_file s pid' j) →
  view_of s' ≡ mk_view (v_files (view_of s)) (fd_io s').
Proof. intros Ho. by split. Qed.

(** Each call on an open file is with_file. *)
Lemma run_file_op pid o fd op s : file_op o = Some (fd, op) → invalid o = false → run_op pid o s = with_file pid fd op s.
Proof.
  destruct o as [path flags|c|c buffer size|c buffer size|c offset whence|c cmd arg]; intros [= <- <-]; cbn [invalid]; intros Hi; try reflexivity;
    unfold run_op, do_sys_read, do_sys_write; by rewrite Hi.
Qed.
Lemma run_invalid pid o s : invalid o = true → run_op pid o s = Done (u64 (- EINVAL), s).
Proof. destruct o; try done; cbn [invalid run_op]; intros Hi; unfold do_sys_read, do_sys_write; by rewrite Hi. Qed.

(** A step of the abstract machine is what the call does. *)
Lemma op_refines s k pid o r V' : fd_inv s k [] → served pid o s → spec_step pid (view_of s) o r V' →
  ∃ s' k', run_op pid o s = Done (r, s') ∧ fd_inv s' k' [] ∧ V' ≡ view_of s'.
Proof.
  intros Hinv (pr & Hpr & Hroom) Hs.
  inversion Hs as [path flags f io1 i V1 Ho Hi Hlow HV|path flags io1 V1 Ho HV|fd f V1 Hg HV|fd V1 Hg HV|o1 V1 Hi HV
    |o1 fd op V1 Hi Hop Hg HV|o1 fd op f r1 f' io1 V1 Hi Hop Hg Hr HV]; subst; cbn [v_io v_files view_of] in *.
  - destruct Hroom as (Hgc & Hpc & Hl). destruct (vfs_open_fresh _ _ _ _ _ Ho) as [Hoff Hrc].
    destruct (process_fd_open_spec s k pid pr path flags f io1) as (s' & k' & j & Hr & Hinv' & Hio & Hj & Hjl & Hop); try done.
    { by apply fd_inv_room. }
    assert (j = i) as ->.
    { destruct (lt_eq_lt_dec j i) as [[Hlt| ->]|Hlt]; [|done|].
      - destruct (Hlow j Hlt). by apply (open_slot s k [] pid pr j Hinv Hpr).
      - destruct (Hjl i Hlt). by apply (open_slot s k [] pid pr i Hinv Hpr). }
    exists s', k'. split; [unfold run_op, do_sys_open; by rewrite (bind_Done _ _ _ _ _ Hr)|]. split; [done|].
    rewrite HV, (set_view s s' _ _ _ Hop), Hio, Hoff. done.
  - destruct Hroom as (_ & _ & Hl).
    destruct (open_fails s k (tail (open_requests s pr)) pid pr path flags io1) as (s' & Hr & Hinv' & Hio & _ & Hsame); try done.
    { by apply fd_inv_room. }
    exists s', k. split; [unfold run_op, do_sys_open; by rewrite (bind_Done _ _ _ _ _ Hr)|].
    split; [by do 3 apply fd_inv_skip in Hinv'|]. by rewrite HV, (same_view s s' Hsame), Hio.
  - pose proof (process_fd_close_spec s k [] pid pr (i32 fd) Hinv Hpr) as Hc.
    change (if 0 <=? i32 fd then open_file s pid (Z.to_nat (i32 fd)) else None) with (fget (open_file s) pid (i32 fd)) in Hc.
    rewrite Hg in Hc. destruct Hc as (s' & k' & Hr & Hinv' & Hio & Hop & _). exists s', k'.
    split; [unfold run_op, do_sys_close; by rewrite (bind_Done _ _ _ _ _ Hr)|]. split; [done|].
    by rewrite HV, (set_view s s' _ _ _ Hop), Hio.
  - pose proof (process_fd_close_spec s k [] pid pr (i32 fd) Hinv Hpr) as Hc.
    change (if 0 <=? i32 fd then open_file s pid (Z.to_nat (i32 fd)) else None) with (fget (open_file s) pid (i32 fd)) in Hc.
    rewrite Hg in Hc. exists s, k. split; [unfold run_op, do_sys_close; by rewrite (bind_Done _ _ _ _ _ Hc)|]. done.
  - exists s, k. split; [by apply run_invalid|done].
  - pose proof (with_file_ok s k [] pid pr fd op Hinv Hpr) as Hw. change (fd_file s pid (i32 fd)) with (fget (open_file s) pid (i32 fd)) in Hw.
    rewrite Hg in Hw. exists s, k. by rewrite (run_file_op _ _ _ _ _ Hop Hi).
  - pose proof (with_file_ok s k [] pid pr fd op Hinv Hpr) as Hw. change (fd_file s pid (i32 fd)) with (fget (open_file s) pid (i32 fd)) in Hw.
    rewrite Hg in Hw. destruct (Hw _ _ _ Hr) as (s' & Hrun & Hinv' & Hio & Hop').
    { rewrite (file_op_refcount _ _ _ _ _ _ _ _ Hop Hr). unfold fget in Hg. destruct (0 <=? i32 fd); [|done].
      by destruct (open_file_Some _ _ _ _ _ _ Hinv Hg) as (? & ? & ? & ? & ? & ? & ? & ? & ? & ?). }
    exists s', k. rewrite (run_file_op _ _ _ _ _ Hop Hi). split; [done|]. split; [done|].
    by rewrite HV, (set_view s s' _ _ _ Hop'), Hio.
Qed.

Lemma on_io_inv {A} (m : M kio A) s x s' : on_io m s = Done (x, s') → ∃ io', m (fd_io s) = Done (x, io').
Proof. unfold on_io. intros (io' & Hm & _)%zoom_inv. by exists io'. Qed.

(** Opening completes only if vfs_open does. *)
Lemma open_stops pid pr path flags s k r s' : fd_inv s k (open_requests s pr) → run_op pid (FOpen path flags) s = Done (r, s') →
  ¬ (∀ x, vfs_open path flags (fd_io s) ≠ Done x).
Proof.
  intros Hinv Hrun Hstop.
  destruct (oh_alloc_ok _ _ _ _ (fi_live _ _ _ Hinv) ltac:(unfold sizeof_file; lia)) as (p & h1 & Ha & Hp0 & _).
  unfold run_op, do_sys_open, process_fd_open, of_open in Hrun.
  apply bind_inv in Hrun as (r1 & s1 & Hrun & _). apply bind_inv in Hrun as (r2 & s2 & Hrun & _).
  rewrite (bind_Done _ _ _ _ _ (on_heap_Done _ s _ _ Ha)), (proj2 (Z.eqb_neq p 0) Hp0) in Hrun.
  apply bind_inv in Hrun as (r3 & s3 & Hio & _). apply on_io_inv in Hio as (io' & Hr). by apply (Hstop _ Hr).
Qed.

(** A call that completes is a step of the abstract machine. *)
Lemma op_steps s k pid o r s' : fd_inv s k [] → served pid o s → run_op pid o s = Done (r, s') →
  ∃ V', spec_step pid (view_of s) o r V'.
Proof.
  intros Hinv Hserved Hrun. destruct (invalid o) eqn:Hi.
  { rewrite (run_invalid _ _ _ Hi) in Hrun. injection Hrun as <- _. eexists. by apply SInvalid. }
  destruct (file_op o) as [[fd op]|] eqn:Hop.
  - rewrite (run_file_op _ _ _ _ _ Hop Hi) in Hrun. destruct Hserved as (pr & Hpr & _).
    destruct (fget (open_file s) pid (i32 fd)) as [f|] eqn:Hg.
    + unfold with_file in Hrun. pose proof (process_unpack_fd_ok s k [] pid pr (i32 fd) Hinv Hpr) as Hu.
      change (fd_file s pid (i32 fd)) with (fget (open_file s) pid (i32 fd)) in Hu. rewrite Hg in Hu.
      destruct Hu as (p & idx & Hu & Hp0 & Hf & _). rewrite (bind_Done _ _ _ _ _ Hu), (proj2 (Z.eqb_neq p 0) Hp0) in Hrun.
      rewrite (bind_Done _ _ _ f s) in Hrun by (unfold get_file; by rewrite Hf).
      apply bind_inv in Hrun as ([r1 f'] & s1 & Hio & Hrun). apply on_io_inv in Hio as (io' & Hr).
      injection Hrun as <- _. eexists. by eapply SFile.
    + pose proof (with_file_ok s k [] pid pr fd op Hinv Hpr) as Hw.
      change (fd_file s pid (i32 fd)) with (fget (open_file s) pid (i32 fd)) in Hw. rewrite Hg in Hw.
      rewrite Hw in Hrun. injection Hrun as <- _. eexists. by eapply SBadFile.
  - destruct o as [path flags|fd| | | |]; try discriminate; destruct Hserved as (pr & Hpr & Hroom).
    + destruct Hroom as (Hgc & Hpc & Hl). pose proof (fd_inv_room _ _ _ Hinv Hl) as Hinv1.
      destruct (vfs_open path flags (fd_io s)) as [[[f|] io1]|msg|msg|] eqn:Ho.
      * destruct (vfs_open_fresh _ _ _ _ _ Ho) as [_ Hrc].
        destruct (process_fd_open_spec s k pid pr path flags f io1) as (s1 & k1 & i & Hr & _ & _ & Hi0 & Hlow & _); try done.
        unfold run_op, do_sys_open in Hrun. rewrite (bind_Done _ _ _ _ _ Hr) in Hrun. injection Hrun as <- _.
        eexists. eapply SOpen; [exact Ho| | |reflexivity].
        -- by apply (open_slot s k [] pid pr).
        -- intros j Hj E. apply (Hlow j Hj). by apply (open_slot s k [] pid pr j Hinv Hpr).
      * destruct (open_fails _ _ _ pid pr path flags io1 Hinv1 Hpr Ho) as (s1 & Hr & _).
        unfold run_op, do_sys_open in Hrun. rewrite (bind_Done _ _ _ _ _ Hr) in Hrun. injection Hrun as <- _.
        eexists. by eapply SNoFile.
      * exfalso. by apply (open_stops pid pr path flags s k r s' Hinv1 Hrun); rewrite Ho.
      * exfalso. by apply (open_stops pid pr path flags s k r s' Hinv1 Hrun); rewrite Ho.
      * exfalso. by apply (open_stops pid pr path flags s k r s' Hinv1 Hrun); rewrite Ho.
    + pose proof (process_fd_close_spec s k [] pid pr (i32 fd) Hinv Hpr) as Hc.
      change (if 0 <=? i32 fd then open_file s pid (Z.to_nat (i32 fd)) else None) with (fget (open_file s) pid (i32 fd)) in Hc.
      destruct (fget (open_file s) pid (i32 fd)) as [f|] eqn:Hg; [destruct Hc as (s1 & k1 & Hc & _)|];
        unfold run_op, do_sys_close in Hrun; rewrite (bind_Done _ _ _ _ _ Hc) in Hrun; injection Hrun as <- _; eexists.
      * by eapply SClose.
      * by eapply SNotOpen.
Qed.

(** ** Sequences of calls *)

(** The process of each call exists, and the heap has room for each file that is opened. *)
Fixpoint all_served (ops : list (Z * fop)) (s : S) : Prop :=
  match ops with
  | [] => True
  | (pid, o) :: ops' => served pid o s ∧ ∀ r s', run_op pid o s = Done (r, s') → all_served ops' s'
  end.

Lemma run_ops_steps s k ops rs s' : fd_inv s k [] → all_served ops s → run_ops ops s = Done (rs, s') →
  spec_run (view_of s) ops rs (view_of s').
Proof.
  revert s k rs. induction ops as [|[pid o] ops IH]; intros s k rs Hinv Hall Hrun.
  - injection Hrun as <- <-. by constructor.
  - destruct Hall as [Hserved Hall]. apply bind_inv in Hrun as (r & s1 & Hrun1 & Hrun).
    apply bind_inv in Hrun as (rs1 & s2 & Hrun & [= <- <-]).
    destruct (op_steps s k pid o r s1 Hinv Hserved Hrun1) as (V1 & Hstep).
    destruct (op_refines s k pid o r V1 Hinv Hserved Hstep) as (s1' & k1 & Hrun1' & Hinv1 & HV1).
    rewrite Hrun1' in Hrun1. injection Hrun1 as <-. eapply SNext; [exact Hstep|].
    apply (spec_run_ext (view_of s1')); [by rewrite HV1|]. eapply IH; [exact Hinv1|by eapply Hall|exact Hrun].
Qed.

(** C31: whatever sequence of file system calls the processes make, the results they get
    and the files they have open are those of the abstract machine: the lowest free descriptor, its own
    offset for every open, no descriptor touched by a call on another one; the filesystem and
    the devices are as its steps leave them. *)
Theorem files_refine s k ops rs V' : fd_inv s k [] → all_served ops s → spec_run (view_of s) ops rs V' →
  ∃ s' k', run_ops ops s = Done (rs, s') ∧ fd_inv s' k' [] ∧ V' ≡ view_of s'.
Proof.
  intros Hinv Hall Hrun. remember (view_of s) as V eqn:HV. assert (V ≡ view_of s) as HVs by (by rewrite HV). clear HV.
  revert s k Hinv Hall HVs. induction Hrun as [V V' HV'|V V1 V' pid o ops r rs Hs Hr IH]; intros s k Hinv Hall HVs.
  - exists s, k. split; [done|]. split; [done|]. by rewrite HV'.
  - destruct Hall as [Hserved Hall]. rewrite HVs in Hs.
    destruct (op_refines s k pid o r V1 Hinv Hserved Hs) as (s1 & k1 & Hrun1 & Hinv1 & HV1).
    destruct (IH s1 k1 Hinv1 (Hall _ _ Hrun1) HV1) as (s' & k' & Hrun' & Hinv' & HV'').
    exists s', k'. split; [|done]. cbn [run_ops]. rewrite (bind_Done _ _ _ _ _ Hrun1), (bind_Done _ _ _ _ _ Hrun'). done.
Qed.

(** ** From boot on *)

(** The tables before fd_init: nothing is open, no process is there. *)
Definition no_files s : Prop := files s = ∅ ∧ fd_objs s = ∅ ∧ procs s = ∅.
Definition spare (l : list Z) s : Prop := ∀ L, oh_live (fd_heap s) L [] → oh_live (fd_heap s) L l.

(** The states after fd_init, process_fd_init of new processes and their calls; the rest of the
    kernel may have allocated objects before. *)
Inductive reachable : S → Prop :=
  | RBoot s s' L : no_files s → oh_live (fd_heap s) L [BASE_FILE_LIST_SIZE * 8] → fd_init s = Done (tt, s') → reachable s'
  | RProcess pid s b s' : reachable s → procs s !! pid = None → spare [BASE_FD_LIST_SIZE * 8] s →
      process_fd_init pid s = Done (b, s') → reachable s'
  | RCall pid o s r s' : reachable s → served pid o s → run_op pid o s = Done (r, s') → reachable s'.

Lemma tget_nulls n i : tget (null_table n) i = 0.
Proof. unfold tget. destruct (null_table n !! i) eqn:E; [|done]. by apply lookup_replicate in E as [-> _]. Qed.

Lemma boot_inv s s' L ns : no_files s → oh_live (fd_heap s) L (BASE_FILE_LIST_SIZE * 8 :: ns) → fd_init s = Done (tt, s') →
  ∃ k, fd_inv s' k ns.
Proof.
  intros (Hf & Ho & Hp) Hl Hrun.
  destruct (oh_calloc_ok _ _ _ _ _ Hl) as (p & h & Ha & Hp0 & HpL & Hl'); [done|done|done|].
  assert (klist (others L) ≡ₚ L) as HL by (apply klist_others; by eapply oh_live_ok).
  unfold fd_init in Hrun. rewrite (bind_Done _ _ _ _ _ (on_heap_Done _ s _ _ Ha)), (proj2 (Z.eqb_neq p 0) Hp0) in Hrun.
  injection Hrun as <-. exists (<[p := KTable]> (others L)). split; cbn; rewrite ?Hp, ?Ho, ?Hf.
  - eapply oh_live_perm; [exact Hl'|]. rewrite klist_insert, HL; [done|].
    destruct (others L !! p) eqn:E; [|done]. destruct HpL. rewrite <- HL. apply elem_of_klist. by rewrite E.
  - split; [done|]. split; [done|]. apply lookup_insert_eq.
  - intros i. by rewrite tget_nulls.
  - intros i j. by rewrite tget_nulls.
  - intros pid pr. by rewrite lookup_empty.
  - intros pid pid' pr pr'. by rewrite lookup_empty.
  - intros pid pr i. by rewrite lookup_empty.
  - intros pid pid' pr pr' i i'. by rewrite lookup_empty.
  - intros pid pid' pr pr' i i' idx. by rewrite lookup_empty.
Qed.

Lemma process_fd_init_ok pid s k ns : fd_inv s k (BASE_FD_LIST_SIZE * 8 :: ns) → procs s !! pid = None →
  ∃ p h k', let s' := set_procs (<[pid := mk_proc p (null_table BASE_FD_LIST_SIZE) BASE_FD_LIST_SIZE]> (procs s)) (with_heap h s) in
    process_fd_init pid s = Done (true, s') ∧ fd_inv s' k' ns.
Proof.
  intros Hinv0 Hnew. pose proof (fd_inv_skip _ _ _ _ Hinv0) as Hinv.
  destruct (oh_calloc_ok _ _ _ _ _ (fi_live _ _ _ Hinv0)) as (p & h & Ha & Hp0 & Hpn & Hl'); [done|done|done|].
  destruct (fd_inv_alloc s k _ _ h p KTable Hinv0 Hpn Hl') as [Hkp Hinv1].
  exists p, h, (<[p := KTable]> k). split.
  { unfold process_fd_init. by rewrite (bind_Done _ _ _ _ _ (on_heap_Done _ s _ _ Ha)), (proj2 (Z.eqb_neq p 0) Hp0). }
  assert (∀ q pr, procs s !! q = Some pr → pid ≠ q ∧ fds_ptr pr ≠ p) as Hold.
  { intros q pr Hq. split; [congruence|]. destruct (fi_proc _ _ _ Hinv q pr Hq) as (_ & _ & Hk & _). congruence. }
  assert (gft_ptr s ≠ p) as Hgp by (destruct (fi_gft _ _ _ Hinv) as (_ & _ & Hk); congruence).
  destruct Hinv1 as [Hl Hg Hs Hsi Hp Hpi Hfd Hfi Hii]. cbn in *.
  split; cbn; [exact Hl|exact Hg|exact Hs|exact Hsi|..].
  - intros q pr [[<- <-]|[Hne Hq]]%lookup_insert_Some; cbn; [|by apply (Hp q)].
    split; [done|]. split; [done|]. split; [apply lookup_insert_eq|done].
  - intros q q' pr pr' [[<- <-]|[Hne Hq]]%lookup_insert_Some [[<- <-]|[Hne' Hq']]%lookup_insert_Some; cbn; intros E; [done| | |by eapply Hpi].
    + by destruct (Hold _ _ Hq').
    + by destruct (Hold _ _ Hq).
  - intros q pr i [[<- <-]|[Hne Hq]]%lookup_insert_Some; cbn; [by rewrite tget_nulls|by apply (Hfd q pr)].
  - intros q q' pr pr' i i' [[<- <-]|[Hne Hq]]%lookup_insert_Some; cbn; [by rewrite tget_nulls|].
    intros [[<- <-]|[Hne' Hq']]%lookup_insert_Some; cbn; [by rewrite tget_nulls|by apply (Hfi q q')].
  - intros q q' pr pr' i i' idx [[<- <-]|[Hne Hq]]%lookup_insert_Some; cbn; [by rewrite tget_nulls|].
    intros [[<- <-]|[Hne' Hq']]%lookup_insert_Some; cbn; [by rewrite tget_nulls|by apply (Hii q q')].
Qed.

Lemma process_inv pid s b s' k : fd_inv s k [] → procs s !! pid = None → spare [BASE_FD_LIST_SIZE * 8] s →
  process_fd_init pid s = Done (b, s') → ∃ k', fd_inv s' k' [].
Proof.
  intros Hinv Hnew Hroom Hrun. apply (fd_inv_room _ _ _ Hinv) in Hroom as Hinv0.
  destruct (process_fd_init_ok pid s k [] Hinv0 Hnew) as (p & h & k' & Hr & Hinv').
  rewrite Hr in Hrun. injection Hrun as _ <-. by exists k'.
Qed.

Lemma call_inv pid o s k r s' : fd_inv s k [] → served pid o s → run_op pid o s = Done (r, s') → ∃ k', fd_inv s' k' [].
Proof.
  intros Hinv Hserved Hrun. destruct (op_steps s k pid o r s' Hinv Hserved Hrun) as (V' & Hstep).
  destruct (op_refines s k pid o r V' Hinv Hserved Hstep) as (s1 & k1 & Hrun1 & Hinv1 & _).
  rewrite Hrun1 in Hrun. injection Hrun as <-. by exists k1.
Qed.

Lemma reachable_inv s : reachable s → ∃ k, fd_inv s k [].
Proof.
  intros Hr. induction Hr as [s s' L Hno Hl Hrun|pid s b s' _ [k Hinv] Hnew Hroom Hrun|pid o s r s' _ [k Hinv] Hserved Hrun].
  - by eapply boot_inv.
  - by eapply process_inv.
  - by eapply call_inv.
Qed.

(** The descriptor's fd_t is a live object with the index of a live file_t that it alone holds. *)
Record well_typed s (q : Z) : Prop := {
  wt_fd : ∃ idx p f, fd_objs s !! q = Some (Z.of_nat idx) ∧ global_file_table s !! idx = Some p ∧ p ≠ 0
    ∧ files s !! p = Some f ∧ f_refcount f = 1;
  wt_alone : ∀ pid pid' pr pr' i i', procs s !! pid = Some pr → procs s !! pid' = Some pr' →
    tget (fds pr) i = q → tget (fds pr') i' = q → pid = pid' ∧ i = i';
}.

(** C32: in every state that boot, new processes and their calls lead to, a descriptor slot is NULL or
    points to a live fd_t that no other slot points to, whose index is in the table of open files and
    leads to a live file_t with one reference; so closing a descriptor, whatever its number, never reaches
    undefined behaviour. *)
Theorem files_typed s pid pr : reachable s → procs s !! pid = Some pr →
  Z.of_nat (length (fds pr)) = fd_capacity pr
  ∧ (∀ i, tget (fds pr) i = 0 ∨ well_typed s (tget (fds pr) i))
  ∧ ∀ fd, ∃ r s', process_fd_close pid fd s = Done (r, s') ∧ (r = 0 ∨ r = -1).
Proof.
  intros Hr Hpr. destruct (reachable_inv s Hr) as (k & Hinv).
  split; [by destruct (fi_proc _ _ _ Hinv pid pr Hpr)|]. split.
  - intros i. destruct (decide (tget (fds pr) i = 0)) as [|Hn]; [by left|right]. split.
    + destruct (fi_fd _ _ _ Hinv pid pr i Hpr Hn) as [_ (idx & f & Hx & Hp & Hf & Hrc)].
      exists idx, (tget (global_file_table s) idx), f. split; [done|]. split; [by apply tget_in_range|done].
    + intros p1 p2 r1 r2 j1 j2 H1 H2 E1 E2. apply (fi_fd_inj _ _ _ Hinv p1 p2 r1 r2); [done|done|congruence|congruence].
  - intros fd. pose proof (process_fd_close_spec s k [] pid pr fd Hinv Hpr) as Hc.
    destruct (if 0 <=? fd then open_file s pid (Z.to_nat fd) else None).
    + destruct Hc as (s' & k' & Hc & _). eexists _, _. split; [exact Hc|]. by left.
    + eexists _, _. split; [exact Hc|]. by right.
Qed.
End files_spec.

Module FilesWitness.
Import DemoObjects VfsWitness TermWitness FdWitness.

(** /motd is 12 bytes: opened twice, read to its end through one of the two, which is then closed. *)
Definition demo_ops : list (Z * fop) :=
  [(1, FOpen "/motd" 0); (1, FOpen "/motd" 0); (1, FRead 1 0x5000 100); (1, FRead 1 0x5000 100); (1, FClose 1); (1, FWrite 1 0x5000 3);
   (1, FOpen "/nothing" 0)].
Definition demo_results : list Z := [0; 1; 12; 0; 0; u64 (- EBADF); u64 (-1)].

Lemma bump_spare (h : bump) l ns : Forall (λ n, 0 ≤ n) ns → oh_live h l [] → oh_live h l ns.
Proof. intros Hns (Hh & Hnd & Hl & _). done. Qed.
Lemma demo_open_served s pid pr o : procs s !! pid = Some pr → global_file_capacity s = 32 → fd_capacity pr = 16 →
  served (H := bump) pid o s.
Proof.
  intros Hpr Hg Hc. exists pr. split; [exact Hpr|]. destruct o; try exact I. rewrite Hg, Hc. split; [lia|]. split; [lia|].
  intros l. apply bump_spare. unfold open_requests, sizeof_file, sizeof_fd. rewrite Hg, Hc. repeat constructor; lia.
Qed.
Fixpoint all_small (ops : list (Z * fop)) (s : fd_state bump) : bool :=
  match ops with
  | [] => true
  | (pid, o) :: ops' =>
      (global_file_capacity s =? 32)
      && match procs s !! pid with Some pr => fd_capacity pr =? 16 | None => false end
      && match run_op pid o s with Done (_, s') => all_small ops' s' | _ => true end
  end.
Lemma all_small_served ops s : all_small ops s = true → all_served ops s.
Proof.
  revert s. induction ops as [|[pid o] ops IH]; intros s; [done|]. cbn [all_small all_served].
  intros [[Hg Hc]%andb_prop Hn]%andb_prop. destruct (procs s !! pid) as [pr|] eqn:Hpr; [|done].
  apply Z.eqb_eq in Hg, Hc. split; [by eapply demo_open_served|]. intros r s' E. rewrite E in Hn. by apply IH.
Qed.
Lemma demo_ops_run : ∃ s', run_ops demo_ops demo_fd = Done (demo_results, s').
Proof. eexists. vm_compute. reflexivity. Qed.

Lemma files_refine_witness : ∃ s' k' V', run_ops demo_ops demo_fd = Done (demo_results, s') ∧ fd_inv s' k' [] ∧ V' ≡ view_of s'.
Proof.
  destruct demo_ops_run as (s1 & Hrun).
  destruct (files_refine demo_fd demo_kinds demo_ops demo_results (view_of s1) (demo_fd_inv [] (Forall_nil_2 _))
    (all_small_served demo_ops demo_fd ltac:(vm_compute; reflexivity))
    (run_ops_steps demo_fd demo_kinds demo_ops demo_results s1 (demo_fd_inv [] (Forall_nil_2 _))
      (all_small_served demo_ops demo_fd ltac:(vm_compute; reflexivity)) Hrun)) as (s' & k' & Hr & Hinv & HV).
  exists s', k', (view_of s1). split; [exact Hr|]. split; [exact Hinv|exact HV].
Defined.

(** Boot, process 1, and its first call. *)
Definition boot_fd : fd_state bump := mk_fd _ (mk_bump 1024) demo_kio ∅ ∅ 0 [] 0 ∅.
Lemma one_process : ∃ s, reachable s ∧ ∃ pr, procs s !! 1 = Some pr ∧ tget (fds pr) 0 ≠ 0.
Proof.
  destruct (fd_init boot_fd) as [[[] s1]| | |] eqn:E1; [|vm_compute in E1; discriminate..].
  assert (reachable s1) as R1.
  { apply (RBoot boot_fd _ []); [done| |exact E1]. split; [by vm_compute|]. split; [constructor|]. split; [constructor|].
    repeat constructor; by vm_compute. }
  destruct (process_fd_init 1 s1) as [[b s2]| | |] eqn:E2.
  2,3,4: injection E1 as <-; vm_compute in E2; discriminate.
  assert (reachable s2) as R2.
  { apply (RProcess 1 s1 b s2 R1); [by injection E1 as <-| |exact E2]. intros l. apply bump_spare. repeat constructor; by vm_compute. }
  destruct (run_op 1 (FOpen "/motd" 0) s2) as [[r s3]| | |] eqn:E3.
  2,3,4: injection E1 as <-; injection E2 as <- <-; vm_compute in E3; discriminate.
  exists s3. split.
  - apply (RCall 1 (FOpen "/motd" 0) s2 r s3 R2); [|exact E3].
    injection E1 as <-. injection E2 as _ <-. eapply demo_open_served; reflexivity.
  - injection E1 as <-. injection E2 as _ <-. vm_compute in E3. injection E3 as _ <-. eexists. split; [reflexivity|]. vm_compute. discriminate.
Qed.

Lemma files_typed_witness : ∃ s pr, procs s !! 1 = Some pr ∧ well_typed s (tget (fds pr) 0)
  ∧ ∃ r s', process_fd_close 1 0 s = Done (r, s').
Proof.
  destruct one_process as (s & Hr & pr & Hpr & Hn). destruct (files_typed s 1 pr Hr Hpr) as (_ & Ht & Hc).
  exists s, pr. split; [exact Hpr|]. split.
  - destruct (Ht 0%nat) as [E|H]; [destruct (Hn E)|exact H].
  - destruct (Hc 0) as (r & s' & H & _). exists r, s'. exact H.
Defined.
End FilesWitness.
