(* ===== verification/Streams.v ===== *)
(** * The first files of a new process

    process_fd_init and process_fd_base of fd.c on tables that have room: a new process gets
    the three standard streams as its descriptors 0, 1 and 2, and its next open is 3. *)
From S2P Require Import Prelude CMem Phys Heap Fb Term Vfs Fd Files.

(** What one open may ask of the heap, while the tables have their first sizes, and what a new
    process asks for with [n] more opens. *)
Definition open_needs : list Z := [sizeof_file; 2 * BASE_FILE_LIST_SIZE * 8; sizeof_fd; 2 * BASE_FD_LIST_SIZE * 8].
Fixpoint needs (n : nat) (ns : list Z) : list Z :=
  match n with O => ns | S n => open_needs ++ needs n ns end.

Section streams.
Context `{OHL : ObjectHeapLaws H} `{UA : Uart} `{AB : Abi}.
Abbreviation D := (fd_state H).
Implicit Types (s : D).

(** Process [pid] has exactly the descriptors below [n] open, and the table of open files is
    free from [g] on. *)
Record few s (pid : Z) (g n : nat) : Prop := {
  few_gc : global_file_capacity s = BASE_FILE_LIST_SIZE;
  few_gt : ∀ j, (g ≤ j)%nat → tget (global_file_table s) j = 0;
  few_proc : ∃ pr, procs s !! pid = Some pr ∧ fd_capacity pr = BASE_FD_LIST_SIZE
    ∧ (∀ j, (n ≤ j)%nat → tget (fds pr) j = 0) ∧ (∀ j, (j < n)%nat → tget (fds pr) j ≠ 0);
}.

Lemma free_slot_below c t g : Z.of_nat (length t) = c → (g < length t)%nat → tget t g = 0 →
  ∃ i, free_slot c t = Some i ∧ (i ≤ g)%nat ∧ (i < length t)%nat ∧ tget t i = 0.
Proof.
  intros Hc Hg H0. pose proof (free_slot_spec c t Hc) as Hs. destruct (free_slot c t) as [i|]; [|by destruct (Hs g Hg)].
  destruct Hs as (Hi & Hi0 & Hlow). exists i. split; [done|]. split; [|done].
  destruct (decide (g < i)%nat) as [Hlt|]; [by destruct (Hlow g Hlt)|lia].
Qed.
Lemma tget_insert_above t i p g : (i < length t)%nat → (i ≤ g)%nat → (∀ j, (g ≤ j)%nat → tget t j = 0) →
  ∀ j, (S g ≤ j)%nat → tget (<[i := p]> t) j = 0.
Proof. intros Hi Hg Ht j Hj. rewrite tget_insert, decide_False by (done || lia). apply Ht. lia. Qed.

Lemma vfs_open_found path flags v (io : kio) : is_Some (root_mount (io_fs io)) → vfs_find_vnode path (io_fs io) = Done (Some v) →
  Z.land flags O_TRUNC = 0 → vfs_open path flags io = Done (Some (mk_file v 0 0 flags), io).
Proof. intros [m Hm] Hv Hf. unfold vfs_open. rewrite Hm, Hv. cbn. by rewrite Hf. Qed.

Lemma open_next s k ns pid g n path flags v : fd_inv s k (open_needs ++ ns) → few s pid g n → (g < 32)%nat → (n < 16)%nat →
  vfs_open path flags (fd_io s) = Done (Some (mk_file v 0 0 flags), fd_io s) →
  ∃ s' k', process_fd_open pid path flags s = Done (Z.of_nat n, s') ∧ fd_inv s' k' ns ∧ fd_io s' = fd_io s
    ∧ few s' pid (S g) (S n)
    ∧ ∀ pid' j, open_file s' pid' j = fset (open_file s) pid n (Some (mk_file v 0 1 flags)) pid' j.
Proof.
  intros Hinv [Hgc Hgt (pr & Hpr & Hcap & Hz & Hnz)] Hg Hn Hopen.
  destruct (fi_gft _ _ _ Hinv) as (Hgl & _ & _). destruct (fi_proc _ _ _ Hinv pid pr Hpr) as (Hpl & _ & _).
  unfold BASE_FILE_LIST_SIZE, BASE_FD_LIST_SIZE in Hgc, Hcap.
  destruct (free_slot_below _ _ g Hgl ltac:(lia) (Hgt g ltac:(lia))) as (gi & Hgi & Hgig & Hgil & _).
  destruct (free_slot_below _ _ n Hpl ltac:(lia) (Hz n ltac:(lia))) as (pi & Hpi & Hpin & Hpil & Hpi0).
  assert (pi = n) as -> by (destruct (decide (pi < n)%nat) as [Hlt|]; [by destruct (Hnz pi Hlt)|lia]).
  destruct (process_fd_open_ok s k ns pid pr path flags (mk_file v 0 0 flags) (fd_io s)) as (s' & k' & i & Hr & Hinv' & Hio & Hi0 & Hlow & Hop & Hroom);
    [by rewrite Hgc, Hcap|done|lia|lia|done|done|].
  assert (i = n) as -> by (destruct (lt_eq_lt_dec i n) as [[Hlt| ->]|Hlt]; [by destruct (Hnz i Hlt)|done|by destruct (Hlow n Hlt (Hz n ltac:(lia)))]).
  exists s', k'. split; [done|]. split; [done|]. split; [done|]. split; [|exact Hop].
  destruct (Hroom gi n Hgi Hpi) as (p & q & Hq & Egt & Egc & Ep). split.
  - by rewrite Egc.
  - rewrite Egt. by apply tget_insert_above.
  - rewrite Ep. eexists. split; [apply lookup_insert_eq|]. split; [done|]. cbn [fds]. split; [by apply tget_insert_above|].
    intros j Hj. rewrite tget_insert by done. case_decide; [done|]. apply Hnz. lia.
Qed.

Definition with_new_proc (pid p : Z) (h : H) s : D :=
  set_procs (<[pid := mk_proc p (null_table BASE_FD_LIST_SIZE) BASE_FD_LIST_SIZE]> (procs s)) (with_heap h s).
Lemma few_new s pid p h g : global_file_capacity s = BASE_FILE_LIST_SIZE →
  (∀ j, (g ≤ j)%nat → tget (global_file_table s) j = 0) → few (with_new_proc pid p h s) pid g 0.
Proof.
  intros Hc Hg. split; [exact Hc|exact Hg|]. eexists. split; [apply lookup_insert_eq|]. split; [done|].
  split; [intros j _; apply tget_nulls|lia].
Qed.

(** The standard streams of the devices [vi], [vo] and [ve]. *)
Record streams_at (io : kio) (vi vo ve : vptr) : Prop := {
  sa_root : is_Some (root_mount (io_fs io));
  sa_in : vfs_find_vnode "/dev/stdin" (io_fs io) = Done (Some vi);
  sa_out : vfs_find_vnode "/dev/stdout" (io_fs io) = Done (Some vo);
  sa_err : vfs_find_vnode "/dev/stderr" (io_fs io) = Done (Some ve);
}.

Lemma process_fd_base_ok s k ns pid g vi vo ve : fd_inv s k (needs 3 ns) → few s pid g 0 → (g + 3 ≤ 32)%nat →
  streams_at (fd_io s) vi vo ve →
  ∃ s' k', process_fd_base pid s = Done (0, s') ∧ fd_inv s' k' ns ∧ fd_io s' = fd_io s ∧ few s' pid (3 + g) 3
    ∧ ∀ pid' j, open_file s' pid' j = fset (fset (fset (open_file s) pid 0 (Some (mk_file vi 0 1 O_RDONLY)))
        pid 1 (Some (mk_file vo 0 1 O_WRONLY))) pid 2 (Some (mk_file ve 0 1 O_WRONLY)) pid' j.
Proof.
  intros Hinv Hfew Hg [Hm Hi Ho He].
  destruct (open_next s k (needs 2 ns) pid g 0 "/dev/stdin" O_RDONLY vi Hinv Hfew) as (a & ka & Ea & Ia & Fa & Wa & Oa);
    [lia|lia|by apply vfs_open_found|].
  destruct (open_next a ka (needs 1 ns) pid (S g) 1 "/dev/stdout" O_WRONLY vo Ia Wa) as (b & kb & Eb & Ib & Fb & Wb & Ob);
    [lia|lia|rewrite Fa; by apply vfs_open_found|].
  destruct (open_next b kb ns pid (S (S g)) 2 "/dev/stderr" O_WRONLY ve Ib Wb) as (c & kc & Ec & Ic & Fc & Wc & Oc);
    [lia|lia|rewrite Fb, Fa; by apply vfs_open_found|].
  exists c, kc. split; [|split; [done|split; [congruence|split; [done|]]]].
  - unfold process_fd_base. rewrite (bind_Done _ _ _ _ _ Ea). cbv beta. change (Z.of_nat 0 <? 0) with false. cbv iota.
    rewrite (bind_Done _ _ _ _ _ Eb). cbv beta. change (Z.of_nat 1 <? 0) with false. cbv iota. by rewrite (bind_Done _ _ _ _ _ Ec).
  - intros pid' j. rewrite Oc. unfold fset. rewrite Ob. unfold fset. by rewrite Oa.
Qed.

(** A new process starts with three open files, the standard streams, as descriptors 0, 1 and 2:
    process_fd_init and process_fd_base succeed on tables with room, the next descriptor of the
    process is 3, and no other process sees a difference. *)
Theorem new_process_streams s k ns pid g vi vo ve : fd_inv s k (BASE_FD_LIST_SIZE * 8 :: needs 3 ns) → procs s !! pid = None →
  global_file_capacity s = BASE_FILE_LIST_SIZE → (∀ j, (g ≤ j)%nat → tget (global_file_table s) j = 0) → (g + 3 ≤ 32)%nat →
  streams_at (fd_io s) vi vo ve →
  ∃ s' k', (ok ← process_fd_init pid; r ← process_fd_base pid; mret (ok, r)) s = Done ((true, 0), s')
    ∧ fd_inv s' k' ns ∧ fd_io s' = fd_io s ∧ few s' pid (3 + g) 3
    ∧ open_file s' pid 0 = Some (mk_file vi 0 1 O_RDONLY)
    ∧ open_file s' pid 1 = Some (mk_file vo 0 1 O_WRONLY)
    ∧ open_file s' pid 2 = Some (mk_file ve 0 1 O_WRONLY)
    ∧ ∀ pid' j, pid' ≠ pid → open_file s' pid' j = open_file s pid' j.
Proof.
  intros Hinv Hnew Hc Hg Hg3 Hst. destruct (process_fd_init_ok pid s k _ Hinv Hnew) as (p & h & k1 & Ei & Hinv1).
  destruct (process_fd_base_ok (with_new_proc pid p h s) k1 ns pid g vi vo ve Hinv1 (few_new s pid p h g Hc Hg) Hg3 Hst)
    as (s' & k' & Eb & Hinv' & Hio & Hfew & Hop).
  exists s', k'. split; [by rewrite (bind_Done _ _ _ _ _ Ei), (bind_Done _ _ _ _ _ Eb)|]. split; [done|].
  split; [exact Hio|]. split; [done|]. repeat split; try (rewrite Hop; unfold fset; repeat case_decide; (done || naive_solver)).
  intros pid' j Hne. rewrite Hop. unfold fset. repeat case_decide; [naive_solver..|]. unfold open_file. cbn [procs with_new_proc set_procs].
  by rewrite lookup_insert_ne.
Qed.
End streams.
