(* ===== verification/Bstree.v ===== *)
(** * The interface of the binary search trees of external/ftrees

    The tree library is a submodule whose code is not part of the repository;
    vma.c reaches it through bstree_insert, bstree_remove, bstree_search,
    bstree_minimum and bstree_successor, and walks the left and right links of
    the nodes itself. A tree is the shape of its nodes; the operations are
    parameters, whose laws say what they do to the in-order sequence of nodes.
    [DemoBst] is an instance to evaluate clients on. *)
From S2P Require Import Prelude.
From Stdlib Require Export Sorted.

(** Nodes are embedded in the objects of the tree, and named by their address. *)
Inductive bst := Leaf | Node (left : bst) (node : Z) (right : bst).

Fixpoint inorder (t : bst) : list Z :=
  match t with
  | Leaf => []
  | Node l p r => inorder l ++ p :: inorder r
  end.

(** The keys of a list of nodes increase. *)
Definition ordered (key : Z → Z) (l : list Z) : Prop := StronglySorted (λ p q, key p < key q) l.

(** Keys that may be equal: removal goes by the node, not by its key. *)
Definition weakly_ordered (key : Z → Z) (l : list Z) : Prop := StronglySorted (λ p q, key p ≤ key q) l.

(** [key] is the tree's value_of_node callback. *)
Class Bstree := {
  bst_node_size : Z;
  bst_node_size_ok : 0 ≤ bst_node_size < 2 ^ 16;
  bst_insert : (Z → Z) → bst → Z → option bst;
  bst_remove : (Z → Z) → bst → Z → bst;
  bst_search_lte : (Z → Z) → bst → Z → option Z;
  bst_minimum : bst → option Z;
  bst_successor : bst → Z → option Z;
}.

Class BstreeLaws `{Bstree} := {
  bl_insert : ∀ key t p, ordered key (inorder t) → (∀ q, q ∈ inorder t → key q ≠ key p) →
    ∃ t', bst_insert key t p = Some t' ∧ inorder t' ≡ₚ p :: inorder t ∧ ordered key (inorder t');
  bl_remove : ∀ key t p, weakly_ordered key (inorder t) → NoDup (inorder t) →
    inorder (bst_remove key t p) = filter (λ q, q ≠ p) (inorder t);
  bl_search : ∀ key t k, ordered key (inorder t) →
    bst_search_lte key t k = last (filter (λ q, key q ≤ k) (inorder t));
  bl_minimum : ∀ t, bst_minimum t = head (inorder t);
  bl_successor : ∀ t l1 p l2, inorder t = l1 ++ p :: l2 → NoDup (inorder t) →
    bst_successor t p = head l2;
}.

(** ** Ordered lists *)

Lemma ordered_NoDup key l : ordered key l → NoDup l.
Proof.
  induction 1 as [|p l _ IH Hp]; [constructor|]. apply NoDup_cons. split; [|done].
  intros Hin. rewrite Forall_forall in Hp. specialize (Hp p Hin). lia.
Qed.

Lemma ordered_app key l1 p l2 : ordered key (l1 ++ p :: l2) →
  (∀ q, q ∈ l1 → key q < key p) ∧ (∀ q, q ∈ l2 → key p < key q).
Proof.
  induction l1 as [|x l1 IH]; intros Hs; apply StronglySorted_inv in Hs as [Hs Hx];
    rewrite Forall_forall in Hx.
  - split; [by intros q ?%not_elem_of_nil|exact Hx].
  - destruct (IH Hs) as [Hl Hr]. split; [|done]. intros q [->|Hq]%elem_of_cons; [|auto].
    apply Hx, elem_of_app. right. left.
Qed.

(** The part of an ordered list with keys up to [k] is a prefix. *)
Lemma ordered_split key l k : ordered key l →
  ∃ l1 l2, l = l1 ++ l2 ∧ filter (λ q, key q ≤ k) l = l1 ∧ Forall (λ q, k < key q) l2.
Proof.
  induction 1 as [|p l Hs (l1 & l2 & -> & Hf & Hl2) Hp].
  - exists [], []. split; [done|]. split; [done|constructor].
  - destruct (decide (key p ≤ k)).
    + exists (p :: l1), l2. split; [done|]. rewrite filter_cons_True by done. by rewrite Hf.
    + exists [], (p :: l1 ++ l2). rewrite filter_cons_False by done. split; [done|].
      assert (Forall (λ q, k < key q) (l1 ++ l2)) as Hall.
      { eapply Forall_impl; [exact Hp|]. simpl. lia. }
      split; [|apply Forall_cons; split; [lia|done]]. rewrite Hf.
      apply Forall_app in Hall as [Hall _]. destruct l1 as [|x l1]; [done|]. exfalso.
      apply Forall_cons in Hall as [Hx _].
      assert (x ∈ filter (λ q, key q ≤ k) ((x :: l1) ++ l2)) as Hin by (rewrite Hf; left).
      apply list_elem_of_filter in Hin as [? _]. lia.
Qed.

(** Raising one key, not past the next, keeps the order weakly. *)
Lemma weakly_ordered_raise key key' l1 p l2 : ordered key (l1 ++ p :: l2) →
  (∀ q, q ≠ p → key' q = key q) → key p ≤ key' p → (∀ q, q ∈ l2 → key' p ≤ key q) →
  weakly_ordered key' (l1 ++ p :: l2).
Proof.
  intros Ho Hk Hp Hl2. induction l1 as [|x l1 IH]; simpl in *.
  - apply StronglySorted_inv in Ho as [Ho Hpl]. rewrite Forall_forall in Hpl.
    assert (∀ q, q ∈ l2 → q ≠ p) as Hne by (intros q Hq ->; specialize (Hpl p Hq); lia).
    constructor.
    + clear Hpl Hl2. induction Ho as [|y l Hl IH Hy]; [constructor|]. rewrite Forall_forall in Hy.
      constructor; [apply IH; intros; apply Hne; by right|]. apply Forall_forall. intros q Hq.
      rewrite !Hk by (apply Hne; by (left || right)). specialize (Hy q Hq). lia.
    + apply Forall_forall. intros q Hq. rewrite (Hk q) by auto. auto.
  - apply StronglySorted_inv in Ho as [Ho Hx]. constructor; [by apply IH|].
    rewrite Forall_forall in Hx. apply Forall_forall. intros q Hq.
    assert (x ≠ p) as Hxp by (intros ->; specialize (Hx p ltac:(apply elem_of_app; right; left)); lia).
    specialize (Hx q Hq).
    rewrite (Hk x Hxp). destruct (decide (q = p)) as [->|]; [lia|]. rewrite Hk by done. lia.
Qed.

(** ** An instance: trees that are right spines *)
Module DemoBst.
Fixpoint spine (l : list Z) : bst :=
  match l with
  | [] => Leaf
  | p :: l' => Node Leaf p (spine l')
  end.

Fixpoint insert_ordered (key : Z → Z) (p : Z) (l : list Z) : list Z :=
  match l with
  | [] => [p]
  | q :: l' => if key p <? key q then p :: l else q :: insert_ordered key p l'
  end.

Fixpoint next_of (l : list Z) (p : Z) : option Z :=
  match l with
  | [] => None
  | q :: l' => if q =? p then head l' else next_of l' p
  end.

#[export, program] Instance demo_bstree : Bstree := {|
  bst_node_size := 48;
  bst_insert key t p := Some (spine (insert_ordered key p (inorder t)));
  bst_remove key t p := spine (filter (λ q, q ≠ p) (inorder t));
  bst_search_lte key t k := last (filter (λ q, key q ≤ k) (inorder t));
  bst_minimum t := head (inorder t);
  bst_successor t p := next_of (inorder t) p;
|}.
Next Obligation. lia. Qed.

Lemma inorder_spine l : inorder (spine l) = l.
Proof. induction l as [|p l IH]; [done|]. simpl. by rewrite IH. Qed.

Lemma insert_ordered_perm key p l : insert_ordered key p l ≡ₚ p :: l.
Proof.
  induction l as [|q l IH]; [done|]. simpl. destruct (key p <? key q); [done|].
  rewrite IH. apply Permutation_swap.
Qed.

Lemma insert_ordered_ok key p l : ordered key l → (∀ q, q ∈ l → key q ≠ key p) →
  ordered key (insert_ordered key p l).
Proof.
  induction 1 as [|q l Hs IH Hq]; intros Hne; simpl; [by repeat constructor|].
  destruct (Z.ltb_spec (key p) (key q)).
  - constructor; [by constructor|]. apply Forall_cons. split; [done|].
    eapply Forall_impl; [exact Hq|]. simpl. lia.
  - constructor; [apply IH; intros x Hx; apply Hne; by right|].
    rewrite insert_ordered_perm. apply Forall_cons. split; [|done].
    specialize (Hne q ltac:(left)). lia.
Qed.

#[export] Instance demo_bstree_laws : BstreeLaws (H := demo_bstree).
Proof.
  split.
  - intros key t p Hs Hne. eexists. split; [done|]. rewrite inorder_spine.
    split; [apply insert_ordered_perm|by apply insert_ordered_ok].
  - intros key t p _ _. apply inorder_spine.
  - done.
  - done.
  - intros t l1 p l2 E Hnd. simpl. rewrite E in *. clear E. induction l1 as [|q l1 IH]; simpl.
    + by rewrite Z.eqb_refl.
    + apply NoDup_cons in Hnd as [Hq Hnd]. destruct (Z.eqb_spec q p) as [->|]; [|auto].
      destruct Hq. apply elem_of_app. right. left.
Qed.
End DemoBst.
