(* ===== verification/Vma.v ===== *)
(** * Virtual memory areas: src/memory/vma.c and src/syscalls/memory/memory.c

    A process's areas are heap objects kept in a search tree by their start
    ([Bstree]); the pages faulted in are a linked list per area. [vma_inv] is
    the invariant: the areas in tree order are non-empty, disjoint and above
    VMA_BASE. Against it are proved the lookup, the search for a free region
    (the lowest one), mmap, and munmap's effect on the addresses covered. *)
From S2P Require Import Prelude CMem Phys Vmm Fb Term Vfs Heap Fd Bstree.

Definition VMA_BASE : Z := 0x10000000.
Definition sizeof_phys_page : Z := 24.

Inductive vma_type := VMA_ANON | VMA_FILE.

Record vma_phys_page := mk_page {
  pg_start : Z;
  pg_phys : Z;
  pg_next : Z;
}.

Record vm_area := mk_area {
  a_start : Z;
  a_end : Z;
  a_flags : Z;
  a_type : vma_type;
  a_pages : Z;                 (* phys_pages, 0 for NULL *)
  a_file : Z;
  a_pgoff : Z;
}.

(** The fields of process_t that vma.c uses. *)
Record proc_vm := mk_pvm {
  address_space_of : address_space;
  vma_tree : bst;
}.

Record vma_state {H : Type} := mk_vs {
  vs_fd : fd_state H;          (* heap, files, descriptor tables, devices *)
  areas : gmap Z vm_area;
  ppages : gmap Z vma_phys_page;
  pvms : gmap Z proc_vm;
  cur_process : Z;
}.
Arguments vma_state : clear implicits.

(** What vma.c asks of vmm.c and pmm.c. *)
Class UserMap (H : Type) := {
  um_map : address_space → Z → Z → Z → M H unit;
  um_unmap : address_space → Z → M H unit;
  um_lookup : Z → M H Z;
  um_alloc_page : M H Z;
  um_memset_page : Z → Z → Z → M H unit;   (* memset(VIRT(phys), c, n) *)
}.

#[export] Instance kernel_user_map `{PageAllocator St} : UserMap (heap_state St) := {|
  um_map a virt phys flags := on_vm (vmm_map a virt phys flags);
  um_unmap a virt := on_vm (vmm_unmap a virt);
  um_lookup virt := on_vm (vmm_lookup virt);
  um_alloc_page := on_vm (on_pages pmm_alloc_page);
  um_memset_page phys c n := on_vm (on_pages (memset_ (phys_to_virt phys) c n));
|}.

Section vma.
Context `{OH : ObjectHeap H} `{UM : !UserMap H} `{BT : Bstree} `{Uart} `{Abi}.
Abbreviation S := (vma_state H).

Definition sizeof_vm_area : Z := bst_node_size + 56.

Definition on_fd {A} : M (fd_state H) A → M S A :=
  zoom vs_fd (λ f s, mk_vs H f (areas s) (ppages s) (pvms s) (cur_process s)).
Definition on_kheap {A} (m : M H A) : M S A := on_fd (on_heap m).
Definition say (m : M term_state unit) : M S unit := on_fd (on_io (on_term m)).

Definition set_areas (a : gmap Z vm_area) (s : S) : S := mk_vs H (vs_fd s) a (ppages s) (pvms s) (cur_process s).
Definition set_ppages (p : gmap Z vma_phys_page) (s : S) : S := mk_vs H (vs_fd s) (areas s) p (pvms s) (cur_process s).
Definition set_pvms (p : gmap Z proc_vm) (s : S) : S := mk_vs H (vs_fd s) (areas s) (ppages s) p (cur_process s).

Definition get_area (p : Z) : M S vm_area := λ s,
  match areas s !! p with Some v => Done (v, s) | None => Undef "not a live vm_area_t" end.
Definition put_area (p : Z) (v : vm_area) : M S unit := modify (λ s, set_areas (<[p := v]> (areas s)) s).
Definition get_page (p : Z) : M S vma_phys_page := λ s,
  match ppages s !! p with Some v => Done (v, s) | None => Undef "not a live vma_phys_page_t" end.
Definition put_page (p : Z) (v : vma_phys_page) : M S unit := modify (λ s, set_ppages (<[p := v]> (ppages s)) s).
Definition get_pvm (pid : Z) : M S proc_vm := λ s,
  match pvms s !! pid with Some v => Done (v, s) | None => Undef "not a live process_t" end.
Definition put_tree (pid : Z) (v : proc_vm) (t : bst) : M S unit :=
  modify (λ s, set_pvms (<[pid := mk_pvm (address_space_of v) t]> (pvms s)) s).

(** kfree of an area and of a page entry *)
Definition free_area (p : Z) : M S unit :=
  _ ← on_kheap (oh_free p); modify (λ s, set_areas (delete p (areas s)) s).
Definition free_page (p : Z) : M S unit :=
  _ ← on_kheap (oh_free p); modify (λ s, set_ppages (delete p (ppages s)) s).

(** vma_tree_get_value: the key of a node. *)
Definition vma_tree_get_value (s : S) (p : Z) : Z :=
  match areas s !! p with Some v => a_start v | None => 0 end.

(** *** The pages of an area *)

Definition set_pages_head (v : vm_area) (p : Z) : vm_area :=
  mk_area (a_start v) (a_end v) (a_flags v) (a_type v) p (a_file v) (a_pgoff v).
Definition set_next (q : vma_phys_page) (n : Z) : vma_phys_page := mk_page (pg_start q) (pg_phys q) n.

(** while (page->next) page = page->next; page->next = new_page; *)
Fixpoint append_page (fuel : nat) (page new_page : Z) : M S unit :=
  q ← get_page page;
  if pg_next q =? 0 then put_page page (set_next q new_page)
  else match fuel with O => λ _, OutOfFuel | Datatypes.S k => append_page k (pg_next q) new_page end.

Definition vma_add_page (fuel : nat) (vma start phys : Z) : M S unit :=
  new_page ← on_kheap (oh_alloc sizeof_phys_page);
  if new_page =? 0 then mundef "new_page->start"
  else
    _ ← put_page new_page (mk_page start phys 0);
    v ← get_area vma;
    if a_pages v =? 0 then put_area vma (set_pages_head v new_page)
    else append_page fuel (a_pages v) new_page.

(** The message both loops print about a page. *)
Definition page_message (what mid : string) (page : Z) (v : vm_area) : M S unit :=
  _ ← say (terminal_write what);
  _ ← say (terminal_write_hex_u64 page);
  _ ← say (terminal_write mid);
  _ ← say (terminal_write_hex_u64 (a_start v));
  _ ← say (terminal_write ", ");
  _ ← say (terminal_write_hex_u64 (a_end v));
  _ ← say (terminal_write ")");
  say (terminal_putc 10).

(** if (prev): reading prev before it was assigned is undefined. *)
Definition read_prev (prev : option Z) : M S Z :=
  match prev with Some p => mret p | None => mundef "prev is uninitialised" end.

(** The while (page) of vma_cleanup. *)
Fixpoint cleanup_loop (fuel : nat) (vma page : Z) (prev : option Z) : M S unit :=
  if page =? 0 then mret tt
  else match fuel with
  | O => λ _, OutOfFuel
  | Datatypes.S k =>
      q ← get_page page;
      v ← get_area vma;
      '(page, prev) ←
        (if (pg_start q <? a_start v) || (a_end v <=? pg_start q) then
           _ ← page_message "Cleaning up page at " " which is outside the VMA range [" (pg_start q) v;
           pid ← gets cur_process;
           pv ← get_pvm pid;
           _ ← on_kheap (um_unmap (address_space_of pv) (pg_start q));
           p ← read_prev prev;
           _ ← (if p =? 0 then put_area vma (set_pages_head v (pg_next q))
                else qp ← get_page p; put_page p (set_next qp (pg_next q)));
           _ ← free_page page;
           mret (page, prev)
         else mret (pg_next q, Some page));
      page ← (if page =? 0 then
                p ← read_prev prev;
                if p =? 0 then v ← get_area vma; mret (a_pages v)
                else qp ← get_page p; mret (pg_next qp)
              else mret page);
      cleanup_loop k vma page prev
  end.

Definition vma_cleanup (fuel : nat) (vma : Z) : M S unit :=
  v ← get_area vma;
  if a_pages v =? 0 then mret tt else cleanup_loop fuel vma (a_pages v) None.

Fixpoint destroy_loop (fuel : nat) (vma page : Z) : M S unit :=
  if page =? 0 then mret tt
  else match fuel with
  | O => λ _, OutOfFuel
  | Datatypes.S k =>
      q ← get_page page;
      v ← get_area vma;
      _ ← page_message "Destroying page at " " which is in the VMA range [" (pg_start q) v;
      pid ← gets cur_process;
      pv ← get_pvm pid;
      _ ← on_kheap (um_unmap (address_space_of pv) (pg_start q));
      let next := pg_next q in
      _ ← free_page page;
      destroy_loop k vma next
  end.

Definition vma_destroy (fuel : nat) (vma : Z) : M S unit :=
  v ← get_area vma; destroy_loop fuel vma (a_pages v).

(** *** The tree *)

Definition vma_insert (pid vma : Z) : M S bool :=
  pv ← get_pvm pid;
  key ← gets vma_tree_get_value;
  match bst_insert key (vma_tree pv) vma with
  | Some t => _ ← put_tree pid pv t; mret true
  | None => mret false
  end.

Definition vma_remove (pid vma : Z) : M S unit :=
  pv ← get_pvm pid;
  key ← gets vma_tree_get_value;
  put_tree pid pv (bst_remove key (vma_tree pv) vma).

Definition vma_find (pid addr : Z) : M S Z :=
  pv ← get_pvm pid;
  key ← gets vma_tree_get_value;
  match bst_search_lte key (vma_tree pv) addr with
  | None => mret 0
  | Some p =>
      v ← get_area p;
      if (a_start v <=? addr) && (addr <? a_end v) then mret p else mret 0
  end.

(** while (node) of vma_overlaps: one turn on [v], [again] being the next. *)
Definition overlaps_turn (v : vm_area) (start end_ : Z) (again : M S bool) : M S bool :=
  if end_ <=? a_start v then mret false
  else if (start <? a_end v) && (a_start v <? end_) then mret true
  else again.

Fixpoint overlaps_loop (fuel : nat) (t : bst) (node : option Z) (start end_ : Z) : M S bool :=
  match node with
  | None => mret false
  | Some p =>
      v ← get_area p;
      overlaps_turn v start end_
        (match fuel with
         | O => λ _, OutOfFuel
         | Datatypes.S k => overlaps_loop k t (bst_successor t p) start end_
         end)
  end.

(** The walk visits each node at most once: as many turns as nodes suffice. *)
Definition vma_overlaps (pid start end_ : Z) : M S bool :=
  pv ← get_pvm pid;
  key ← gets vma_tree_get_value;
  let t := vma_tree pv in
  match t with
  | Leaf => mret false
  | Node _ _ _ =>
      let node := match bst_search_lte key t start with
                  | Some p => Some p
                  | None => bst_minimum t
                  end in
      overlaps_loop (length (inorder t)) t node start end_
  end.

(** scan: the pair is ( *last_end, *result). *)
Fixpoint scan (t : bst) (len : Z) (x : Z * Z) : M S (Z * Z) :=
  match t with
  | Leaf => mret x
  | Node l p r =>
      if negb (x.2 =? 0) then mret x
      else
        x ← scan l len x;
        v ← get_area p;
        if len <=? u64 (a_start v - x.1) then mret (x.1, x.1)
        else scan r len (a_end v, x.2)
  end.

Definition vma_find_free_region (pid len : Z) : M S Z :=
  pv ← get_pvm pid;
  '(last_end, result) ← scan (vma_tree pv) len (VMA_BASE, 0);
  o ← vma_overlaps pid last_end (u64 (last_end + len));
  if o : bool then mret 0 else mret (if result =? 0 then last_end else result).

(** *** mmap and munmap *)

(** !file->vnode->ops->vma_fault *)
Definition file_has_fault (file : Z) : M S bool :=
  f ← on_fd (get_file file);
  n ← on_fd (on_io (mderef (f_vnode f)));
  match vn_ops n with
  | None => mundef "file->vnode->ops->vma_fault"
  | Some o => mret (has_vma_fault o)
  end.

Definition mmap_region (file addr len vm_flags pgoff : Z) : M S Z :=
  vma ← on_kheap (oh_calloc 1 sizeof_vm_area);
  if vma =? 0 then mundef "vma->start"
  else
    _ ← put_area vma (mk_area addr (u64 (addr + len)) vm_flags VMA_ANON 0 0 0);
    ok ← (if file =? 0 then mret true else file_has_fault file);
    if negb ok then _ ← free_area vma; mret (u64 (- ENODEV))
    else
      _ ← (if file =? 0 then mret tt
           else put_area vma (mk_area addr (u64 (addr + len)) vm_flags VMA_FILE 0 file pgoff));
      pid ← gets cur_process;
      _ ← vma_insert pid vma;
      v ← get_area vma;
      mret (a_start v).

(** The second half of a split area. *)
Definition split_tail (v : vm_area) (start : Z) : vm_area :=
  match a_type v with
  | VMA_FILE => mk_area start (a_end v) (a_flags v) VMA_FILE 0 (a_file v) (u64 (a_pgoff v + u64 (start - a_start v)))
  | VMA_ANON => mk_area start (a_end v) (a_flags v) VMA_ANON 0 0 0
  end.

Definition shrink (v : vm_area) (addr len : Z) : vm_area :=
  if addr =? a_start v then
    mk_area (u64 (a_start v + len)) (a_end v) (a_flags v) (a_type v) (a_pages v) (a_file v)
      (match a_type v with VMA_FILE => u64 (a_pgoff v + len) | VMA_ANON => a_pgoff v end)
  else mk_area (a_start v) addr (a_flags v) (a_type v) (a_pages v) (a_file v) (a_pgoff v).

Definition munmap_region (fuel : nat) (addr len : Z) : M S Z :=
  pid ← gets cur_process;
  vma ← vma_find pid addr;
  if vma =? 0 then mret (u64 (- EINVAL))
  else
    v ← get_area vma;
    if (addr <? a_start v) || (a_end v <? u64 (addr + len)) then mret (u64 (- EINVAL))
    else
      _ ← (if (a_start v <? addr) && (u64 (addr + len) <? a_end v) then
             new_vma ← on_kheap (oh_calloc 1 sizeof_vm_area);
             if new_vma =? 0 then mundef "new_vma->start"
             else
               _ ← put_area new_vma (split_tail v (u64 (addr + len)));
               _ ← vma_insert pid new_vma;
               mret tt
           else mret tt);
      v ← get_area vma;
      _ ← put_area vma (shrink v addr len);
      v ← get_area vma;
      if a_end v <=? a_start v then
        _ ← vma_remove pid vma;
        _ ← vma_destroy fuel vma;
        _ ← free_area vma;
        mret 0
      else
        _ ← vma_cleanup fuel vma;
        mret 0.

(** *** Page faults *)

(** fb_vma_fault of src/framebuffer/fb.c *)
Definition fb_vma_fault (internal : vinternal) (v : vm_area) (page : Z) : M S bool :=
  fb ← gets (λ s, io_fb (fd_io (vs_fd s)));
  match (match internal with IFb => fb | _ => None end) with
  | None => mret false
  | Some fb =>
      let offset := u64 (u64 (page - a_start v) + a_pgoff v) in
      if fb_size fb <=? offset then mret false
      else
        pid ← gets cur_process;
        pv ← get_pvm pid;
        phys ← on_kheap (um_lookup (u64 (back fb + offset)));
        _ ← on_kheap (um_map (address_space_of pv) page phys (Z.lor PAGE_USER PAGE_WRITABLE));
        mret true
  end.

Definition vma_fault_handler (fuel : nat) (vma addr : Z) : M S bool :=
  v ← get_area vma;
  match a_type v with
  | VMA_ANON =>
      phys_page ← on_kheap um_alloc_page;
      if phys_page =? 0 then mret false
      else
        let virt := ALIGN_DOWN addr PAGE_SIZE in
        pid ← gets cur_process;
        pv ← get_pvm pid;
        _ ← on_kheap (um_map (address_space_of pv) virt phys_page
              (Z.lor (Z.lor PAGE_PRESENT PAGE_USER) PAGE_WRITABLE));
        _ ← vma_add_page fuel vma virt phys_page;
        _ ← on_kheap (um_memset_page phys_page 0 PAGE_SIZE);
        mret true
  | VMA_FILE =>
      f ← on_fd (get_file (a_file v));
      n ← on_fd (on_io (mderef (f_vnode f)));
      match vn_ops n with
      | Some o => if has_vma_fault o then fb_vma_fault (vn_internal n) v (ALIGN_DOWN addr PAGE_SIZE)
                  else mundef "vma_fault"
      | None => mundef "file->vnode->ops->vma_fault"
      end
  end.

(** *** src/syscalls/memory/memory.c *)

Definition do_sys_mmap (addr len_ prot flags fd offset : Z) : M S Z :=
  let len := ALIGN_UP len_ PAGE_SIZE in
  if len =? 0 then mret (u64 (- EINVAL))
  else
    pid ← gets cur_process;
    file ← on_fd (process_unpack_fd pid (i32 fd));
    addr ← vma_find_free_region pid len_;
    if addr =? 0 then
      _ ← say (terminal_write "No suitable region found for mmap");
      _ ← say (terminal_putc 10);
      mret (u64 (- ENOMEM))
    else mmap_region file addr len 0 (u64 offset).

Definition do_sys_munmap (fuel : nat) (addr len_ : Z) : M S Z :=
  let len := ALIGN_UP len_ PAGE_SIZE in
  if len =? 0 then mret (u64 (- EINVAL))
  else munmap_region fuel addr len.
End vma.

(** ** Specification *)

(** The areas of a process in tree order, each with its address. *)
Definition areas_t : Type := list (Z * vm_area).

Definition covers (a : Z) (v : vm_area) : Prop := a_start v ≤ a < a_end v.
Definition covered (xs : areas_t) (a : Z) : Prop := ∃ x, x ∈ xs ∧ covers a x.2.
Definition meets (lo hi : Z) (v : vm_area) : Prop := lo < a_end v ∧ a_start v < hi.

(** Non-empty, in order and disjoint, from [lo] up. *)
Fixpoint chain (lo : Z) (xs : areas_t) : Prop :=
  match xs with
  | [] => True
  | x :: xs' => lo ≤ a_start x.2 ∧ a_start x.2 < a_end x.2 ∧ a_end x.2 < 2 ^ 64 ∧ chain (a_end x.2) xs'
  end.

Fixpoint top (lo : Z) (xs : areas_t) : Z :=
  match xs with
  | [] => lo
  | x :: xs' => top (a_end x.2) xs'
  end.

(** The start of the first gap of [len] bytes before an area. *)
Fixpoint free_gap (len lo : Z) (xs : areas_t) : option Z :=
  match xs with
  | [] => None
  | x :: xs' => if len <=? a_start x.2 - lo then Some lo else free_gap len (a_end x.2) xs'
  end.

Definition spec_free (len lo : Z) (xs : areas_t) : Z := default (top lo xs) (free_gap len lo xs).

(** *** Chains *)

Lemma chain_mono lo lo' xs : lo' ≤ lo → chain lo xs → chain lo' xs.
Proof. destruct xs; simpl; [done|]. intros ? (? & ?). split; [lia|done]. Qed.

Lemma top_app lo xs ys : top lo (xs ++ ys) = top (top lo xs) ys.
Proof. revert lo. induction xs; intros lo; simpl; auto. Qed.

Lemma chain_app lo xs ys : chain lo (xs ++ ys) ↔ chain lo xs ∧ chain (top lo xs) ys.
Proof. revert lo. induction xs as [|x xs IH]; intros lo; simpl; [tauto|]. rewrite IH. tauto. Qed.

Lemma chain_lb lo xs x : chain lo xs → x ∈ xs → lo ≤ a_start x.2 ∧ a_start x.2 < a_end x.2 ∧ a_end x.2 < 2 ^ 64.
Proof.
  revert lo. induction xs as [|y xs IH]; intros lo Hc Hx; [by apply not_elem_of_nil in Hx|].
  destruct Hc as (? & ? & ? & Hc). apply elem_of_cons in Hx as [->|Hx]; [done|].
  destruct (IH _ Hc Hx). lia.
Qed.

Lemma chain_top lo xs : chain lo xs → lo ≤ top lo xs ∧ ∀ x, x ∈ xs → a_end x.2 ≤ top lo xs.
Proof.
  revert lo. induction xs as [|y xs IH]; intros lo Hc; simpl.
  - split; [lia|]. by intros x ?%not_elem_of_nil.
  - destruct Hc as (? & ? & ? & Hc). destruct (IH _ Hc) as [Ht Hx]. split; [lia|].
    intros x [->|?]%elem_of_cons; [lia|auto].
Qed.

(** Areas before a point of the chain end below it, areas after it start above. *)
Lemma chain_around lo xs x ys : chain lo (xs ++ x :: ys) →
  (∀ y, y ∈ xs → a_end y.2 ≤ a_start x.2) ∧ (∀ y, y ∈ ys → a_end x.2 ≤ a_start y.2).
Proof.
  intros [Hc (Hx & _ & _ & Hy)]%chain_app. split; intros y Hin.
  - destruct (chain_top _ _ Hc) as [_ Ht]. specialize (Ht y Hin). lia.
  - by destruct (chain_lb _ _ _ Hy Hin).
Qed.

Lemma free_gap_app len lo xs ys : free_gap len lo (xs ++ ys) =
  match free_gap len lo xs with Some g => Some g | None => free_gap len (top lo xs) ys end.
Proof. revert lo. induction xs as [|x xs IH]; intros lo; simpl; [done|]. by destruct (len <=? _). Qed.

Lemma free_gap_Some len lo xs g : chain lo xs → free_gap len lo xs = Some g →
  lo ≤ g ∧ (∀ x, x ∈ xs → a_end x.2 ≤ g ∨ g + len ≤ a_start x.2)
  ∧ ∃ x, x ∈ xs ∧ g + len ≤ a_start x.2.
Proof.
  revert lo. induction xs as [|y xs IH]; intros lo Hc; simpl; [done|].
  destruct Hc as (H1 & H2 & H3 & Hc). destruct (Z.leb_spec len (a_start y.2 - lo)).
  - intros [= <-]. split; [lia|]. split; [|exists y; split; [left|lia]].
    intros x [->|Hx]%elem_of_cons; [lia|]. destruct (chain_lb _ _ _ Hc Hx). lia.
  - intros Hg. destruct (IH _ Hc Hg) as (? & Hd & x & Hx & ?). split; [lia|]. split.
    + intros z [->|Hz]%elem_of_cons; [lia|auto].
    + exists x. split; [by right|done].
Qed.

(** The region found: free, and the lowest that is. *)
Lemma spec_free_ok len lo xs : 0 < len → chain lo xs →
  lo ≤ spec_free len lo xs
  ∧ (∀ x, x ∈ xs → ¬ meets (spec_free len lo xs) (spec_free len lo xs + len) x.2)
  ∧ (∀ r, lo ≤ r < spec_free len lo xs → ∃ x, x ∈ xs ∧ meets r (r + len) x.2).
Proof.
  intros Hlen Hc. unfold spec_free, meets. split; [|split].
  - destruct (free_gap len lo xs) as [g|] eqn:E; simpl; [by destruct (free_gap_Some _ _ _ _ Hc E)|].
    by destruct (chain_top _ _ Hc).
  - intros x Hx. destruct (free_gap len lo xs) as [g|] eqn:E; simpl.
    + destruct (free_gap_Some _ _ _ _ Hc E) as (_ & Hd & _). destruct (Hd x Hx); lia.
    + destruct (chain_top _ _ Hc) as [_ Ht]. specialize (Ht x Hx). lia.
  - revert lo Hc. induction xs as [|y xs IH]; intros lo (* *) Hc r Hr; simpl in Hr; [lia|].
    destruct Hc as (H1 & H2 & H3 & Hc). destruct (Z.leb_spec len (a_start y.2 - lo)); simpl in Hr; [lia|].
    destruct (decide (r < a_end y.2)).
    + exists y. split; [left|lia].
    + destruct (IH _ Hc r) as (x & Hx & ?); [lia|]. exists x. split; [by right|done].
Qed.

Section vma_spec.
Context `{OHL : ObjectHeapLaws H} `{UM : !UserMap H} `{BL : BstreeLaws} `{Uart} `{Abi}.
Abbreviation S := (vma_state H).
Abbreviation vkey := (vma_tree_get_value (H := H)).

(** [xs] are the areas of process [pid]; [L] the heap objects in use. *)
Record vma_inv (s : S) (pid : Z) (xs : areas_t) (L ns : list Z) : Prop := {
  vi_tree : ∃ pv, pvms s !! pid = Some pv ∧ inorder (vma_tree pv) = xs.*1;
  vi_areas : Forall (λ x, areas s !! x.1 = Some x.2) xs;
  vi_chain : chain VMA_BASE xs;
  vi_nodup : NoDup xs.*1;
  vi_live : oh_live (fd_heap (vs_fd s)) L ns;
  vi_used : ∀ p, p ∈ xs.*1 → p ∈ L;
}.

Lemma vkey_at s xs x : Forall (λ x, areas s !! x.1 = Some x.2) xs → x ∈ xs → vkey s x.1 = a_start x.2.
Proof. intros Ha Hx. rewrite Forall_forall in Ha. unfold vma_tree_get_value. by rewrite (Ha x Hx). Qed.

Lemma xs_ordered s lo xs : Forall (λ x, areas s !! x.1 = Some x.2) xs → chain lo xs → ordered (vkey s) xs.*1.
Proof.
  revert lo. induction xs as [|x xs IH]; intros lo Ha Hc; [constructor|].
  pose proof (vkey_at s _ x Ha ltac:(left)) as Hk. apply Forall_cons in Ha as [_ Ha].
  destruct Hc as (_ & ? & _ & Hc). simpl. constructor; [by eapply IH|].
  apply Forall_forall. intros p (y & -> & Hy)%list_elem_of_fmap.
  rewrite Hk, (vkey_at s xs y Ha Hy). destruct (chain_lb _ _ _ Hc Hy). lia.
Qed.

Lemma get_area_ok (s : S) xs x : Forall (λ x, areas s !! x.1 = Some x.2) xs → x ∈ xs →
  get_area x.1 s = Done (x.2, s).
Proof. intros Ha Hx. rewrite Forall_forall in Ha. unfold get_area. by rewrite (Ha x Hx). Qed.

(** The areas that start at or below an address are a prefix, and the search
    finds the last of them. *)
Lemma search_split (s : S) lo xs t k : Forall (λ x, areas s !! x.1 = Some x.2) xs → chain lo xs →
  inorder t = xs.*1 →
  ∃ xs1 xs2, xs = xs1 ++ xs2 ∧ bst_search_lte (vkey s) t k = fst <$> last xs1
    ∧ (∀ x, x ∈ xs1 → a_start x.2 ≤ k) ∧ (∀ x, x ∈ xs2 → k < a_start x.2).
Proof.
  intros Ha Hc Ht. pose proof (xs_ordered s lo xs Ha Hc) as Ho.
  destruct (ordered_split _ _ k Ho) as (l1 & l2 & E & Hf & Hl2).
  apply fmap_app_inv in E as (xs1 & xs2 & -> & -> & ->). exists xs1, xs2. split; [done|].
  rewrite bl_search by (by rewrite Ht). rewrite Ht, Hf. split; [by rewrite fmap_last|].
  pose proof Ha as [Ha1 Ha2]%Forall_app. split; intros x Hx.
  - assert (x.1 ∈ filter (λ q, vkey s q ≤ k) (xs1 ++ xs2).*1) as Hin.
    { rewrite Hf. apply list_elem_of_fmap. by exists x. }
    apply list_elem_of_filter in Hin as [Hk _]. by rewrite (vkey_at s xs1 x Ha1 Hx) in Hk.
  - rewrite Forall_forall in Hl2. specialize (Hl2 x.1 ltac:(apply list_elem_of_fmap; by exists x)).
    by rewrite (vkey_at s xs2 x Ha2 Hx) in Hl2.
Qed.

Lemma get_pvm_ok (s : S) pid pv : pvms s !! pid = Some pv → get_pvm pid s = Done (pv, s).
Proof. unfold get_pvm. by intros ->. Qed.

(** *** vma_find *)

Lemma vma_find_ok s pid xs L ns a : vma_inv s pid xs L ns →
  ∃ r, vma_find pid a s = Done (r, s) ∧ (∀ x, x ∈ xs → covers a x.2 → r = x.1)
    ∧ (¬ covered xs a → r = 0).
Proof.
  intros [(pv & Hpv & Ht) Ha Hc Hnd _ _]. destruct (search_split s _ xs _ a Ha Hc Ht)
    as (xs1 & xs2 & -> & Hs & Hlo & Hhi).
  unfold vma_find. rewrite (bind_Done _ _ _ _ _ (get_pvm_ok s pid pv Hpv)).
  unfold mbind at 1, M_bind at 1, gets. rewrite Hs.
  destruct (last xs1) as [x|] eqn:Hx; simpl.
  - apply last_Some in Hx as [xs0 ->]. rewrite <- (assoc_L (++)) in *. simpl in *.
    assert (x ∈ xs0 ++ x :: xs2) as Hin by (apply elem_of_app; right; left).
    rewrite (bind_Done _ _ _ _ _ (get_area_ok s _ x Ha Hin)).
    destruct (chain_around _ _ _ _ Hc) as [Hb Hf].
    assert (a_start x.2 ≤ a) as Hax by (apply Hlo, elem_of_app; right; left).
    destruct (Z.leb_spec (a_start x.2) a); [|lia]. simpl. destruct (Z.ltb_spec a (a_end x.2)).
    + exists x.1. split; [done|]. split.
      * intros y Hy Hcy. unfold covers in Hcy. apply elem_of_app in Hy as [Hy|[->|Hy]%elem_of_cons]; [|done|].
        -- specialize (Hb y Hy). lia.
        -- specialize (Hhi y Hy). lia.
      * intros Hn. destruct Hn. exists x. split; [done|]. unfold covers. lia.
    + exists 0. split; [done|]. split; [|done]. intros y Hy Hcy. exfalso. unfold covers in Hcy.
      apply elem_of_app in Hy as [Hy|[->|Hy]%elem_of_cons]; [|lia|].
      * specialize (Hb y Hy). lia.
      * specialize (Hhi y Hy). lia.
  - apply last_None in Hx as ->. exists 0. split; [done|]. split; [|done].
    intros y Hy Hcy. exfalso. unfold covers in Hcy. specialize (Hhi y Hy). lia.
Qed.

(** *** vma_overlaps *)

Lemma overlaps_loop_ok (s : S) xs t start end_ : Forall (λ x, areas s !! x.1 = Some x.2) xs →
  inorder t = xs.*1 → NoDup xs.*1 → ∀ ys xs1 lo fuel, xs = xs1 ++ ys → chain lo ys →
  (length ys ≤ fuel)%nat →
  overlaps_loop fuel t (fst <$> hd_error ys) start end_ s
  = Done (bool_decide (Exists (λ x, meets start end_ x.2) ys), s).
Proof.
  intros Ha Ht Hnd. induction ys as [|y ys IH]; intros xs1 lo fuel E Hc Hfuel.
  { destruct fuel; reflexivity. }
  destruct fuel as [|k]; [simpl in Hfuel; lia|]. simpl in Hfuel.
  assert (y ∈ xs) as Hy by (rewrite E; apply elem_of_app; right; left).
  assert (bst_successor t y.1 = fst <$> hd_error ys) as Hsucc.
  { rewrite (bl_successor t xs1.*1 y.1 ys.*1); [by destruct ys| |].
    - by rewrite Ht, E, fmap_app.
    - by rewrite Ht. }
  simpl. rewrite (bind_Done _ _ _ _ _ (get_area_ok s _ y Ha Hy)), Hsucc.
  destruct Hc as (_ & Hne & _ & Hc). unfold overlaps_turn, meets in *.
  destruct (Z.leb_spec end_ (a_start y.2)).
  { rewrite bool_decide_false; [done|]. rewrite Exists_exists. intros (z & Hz & ?).
    apply elem_of_cons in Hz as [->|Hz]; [lia|]. destruct (chain_lb _ _ _ Hc Hz). lia. }
  destruct ((start <? a_end y.2) && (a_start y.2 <? end_)) eqn:Ed.
  { rewrite bool_decide_true; [done|]. apply Exists_cons_hd. lia. }
  rewrite (IH (xs1 ++ [y]) (a_end y.2)); [|by rewrite <- (assoc_L (++))|done|lia].
  do 2 f_equal. apply bool_decide_ext. rewrite Exists_cons. intuition lia.
Qed.

Lemma vma_overlaps_ok s pid xs L ns start end_ : vma_inv s pid xs L ns →
  vma_overlaps pid start end_ s = Done (bool_decide (Exists (λ x, meets start end_ x.2) xs), s).
Proof.
  intros [(pv & Hpv & Ht) Ha Hc Hnd _ _]. unfold vma_overlaps.
  rewrite (bind_Done _ _ _ _ _ (get_pvm_ok s pid pv Hpv)).
  rewrite (bind_Done _ _ _ (vkey s) s) by reflexivity.
  destruct (vma_tree pv) as [|tl tp tr] eqn:Etree.
  { simpl in Ht. destruct xs; [done|discriminate]. }
  rewrite <- Etree in *. clear Etree tl tp tr.
  destruct (search_split s _ xs _ start Ha Hc Ht) as (xs1 & xs2 & E & Hs & Hlo & Hhi).
  rewrite Hs, bl_minimum. destruct (last xs1) as [x|] eqn:Hx; simpl.
  - apply last_Some in Hx as [xs0 ->]. rewrite <- (assoc_L (++)) in E. simpl in E.
    assert (chain (top VMA_BASE xs0) (x :: xs2)) as Hc2 by (rewrite E in Hc; by apply chain_app in Hc as [_ ?]).
    change (Some x.1) with (fst <$> hd_error (x :: xs2)).
    rewrite (overlaps_loop_ok s xs _ start end_ Ha Ht Hnd (x :: xs2) xs0 _ _ E Hc2).
    + do 2 f_equal. apply bool_decide_ext. rewrite E, Exists_app. split; [auto|]. intros [Hex|?]; [|done]. exfalso.
      apply Exists_exists in Hex as (y & Hy & Hm). rewrite E in Hc.
      destruct (chain_around _ _ _ _ Hc) as [Hb _]. specialize (Hb y Hy).
      specialize (Hlo x ltac:(apply elem_of_app; right; left)). unfold meets in Hm. lia.
    + rewrite Ht, length_fmap, E, length_app. lia.
  - apply last_None in Hx as ->. simpl in E. subst xs2.
    replace (hd_error (inorder (vma_tree pv))) with (fst <$> hd_error xs) by (rewrite Ht; by destruct xs).
    apply (overlaps_loop_ok s xs _ start end_ Ha Ht Hnd xs [] VMA_BASE); [done|done|].
    rewrite Ht, length_fmap. lia.
Qed.
(** *** vma_find_free_region *)

Lemma scan_ok (s : S) t len : ∀ xs lo, Forall (λ x, areas s !! x.1 = Some x.2) xs → inorder t = xs.*1 →
  chain lo xs → 0 < len → 0 < lo →
  scan (H := H) t len (lo, 0) s = Done (match free_gap len lo xs with
                               | Some g => (g, g)
                               | None => (top lo xs, 0)
                               end, s).
Proof.
  induction t as [|l IHl p r IHr]; intros xs lo Ha Ht Hc Hlen Hlo.
  { symmetry in Ht. apply fmap_nil_inv in Ht as ->. done. }
  simpl in Ht. symmetry in Ht. apply fmap_app_inv in Ht as (xs1 & ys & Hl & Hys & ->).
  symmetry in Hys. apply fmap_cons_inv in Hys as (x & xs2 & -> & Hr & ->).
  apply Forall_app in Ha as [Ha1 Ha2]. pose proof Ha2 as [_ Ha3]%Forall_cons.
  apply chain_app in Hc as [Hc1 Hc2]. destruct (chain_top _ _ Hc1) as [Htop _].
  cbn [scan snd]. change (negb (0 =? 0)) with false. cbv iota.
  rewrite (bind_Done _ _ _ _ _ (IHl xs1 lo Ha1 Hl Hc1 Hlen Hlo)).
  rewrite (bind_Done _ _ _ _ _ (get_area_ok s _ x Ha2 ltac:(left))).
  rewrite free_gap_app. destruct (free_gap len lo xs1) as [g|] eqn:Eg; simpl.
  - destruct (free_gap_Some _ _ _ _ Hc1 Eg) as (Hg & _ & z & Hz & Hgz).
    destruct (chain_lb _ _ _ Hc1 Hz) as (? & ? & ?).
    destruct (chain_top _ _ Hc1) as [_ Hz']. specialize (Hz' z Hz). destruct Hc2 as (? & ? & ? & _).
    rewrite u64_small by lia. destruct (Z.leb_spec len (a_start x.2 - g)); [done|lia].
  - destruct Hc2 as (? & ? & ? & Hc2). rewrite u64_small by lia.
    destruct (Z.leb_spec len (a_start x.2 - top lo xs1)); [done|].
    rewrite top_app. simpl. apply IHr; try done. lia.
Qed.

Lemma find_free_ok s pid xs L ns len : vma_inv s pid xs L ns → 0 < len →
  spec_free len VMA_BASE xs + len < 2 ^ 64 →
  vma_find_free_region pid len s = Done (spec_free len VMA_BASE xs, s).
Proof.
  intros Hinv Hlen Hw. pose proof (λ a b, vma_overlaps_ok s pid xs L ns a b Hinv) as Hov.
  destruct Hinv as [(pv & Hpv & Ht) Ha Hc Hnd _ _].
  destruct (spec_free_ok len VMA_BASE xs Hlen Hc) as (Hlb & Hfree & _).
  unfold vma_find_free_region. rewrite (bind_Done _ _ _ _ _ (get_pvm_ok s pid pv Hpv)).
  rewrite (bind_Done _ _ _ _ _ (scan_ok s _ len xs VMA_BASE Ha Ht Hc Hlen ltac:(unfold VMA_BASE; lia))).
  assert (∀ g res, g = spec_free len VMA_BASE xs → (res = 0 ∨ res = g) →
    (o ← vma_overlaps pid g (u64 (g + len));
     if o : bool then mret 0 else mret (if res =? 0 then g else res)) s
    = Done (spec_free len VMA_BASE xs, s)) as Hgo.
  { intros g res -> Hres. unfold VMA_BASE in *. rewrite u64_small by lia. rewrite (bind_Done _ _ _ _ _ (Hov _ _)).
    rewrite bool_decide_false.
    - destruct Hres as [->| ->]; [done|]. by destruct (Z.eqb_spec (spec_free len 0x10000000 xs) 0).
    - rewrite Exists_exists. intros (x & Hx & Hm). by apply (Hfree x Hx). }
  unfold spec_free in Hgo |- *. destruct (free_gap len VMA_BASE xs) as [g|]; apply Hgo; auto.
Qed.

(** *** Adding and changing areas *)

Lemma areas_same (s s' : S) xs : (∀ p, p ∈ xs.*1 → areas s' !! p = areas s !! p) →
  Forall (λ x, areas s !! x.1 = Some x.2) xs → Forall (λ x, areas s' !! x.1 = Some x.2) xs.
Proof.
  intros Hs. rewrite !Forall_forall. intros Ha x Hx. rewrite Hs; [auto|]. apply list_elem_of_fmap. by exists x.
Qed.

(** Two ordered lists of the same nodes are the same list. *)
Lemma ordered_perm_eq key l l' : ordered key l → ordered key l' → l ≡ₚ l' → l = l'.
Proof.
  intros Hl Hl' Hp. unfold ordered in *.
  revert l' Hl' Hp. induction Hl as [|p l Hl IH Hpl]; intros l' Hl' Hp.
  - by apply Permutation_nil_l in Hp.
  - destruct Hl' as [|q l' Hl' Hql']; [by apply Permutation_nil_r in Hp|].
    rewrite Forall_forall in Hpl. rewrite Forall_forall in Hql'.
    assert (p = q) as ->.
    { assert (p ∈ q :: l') as [->|Hp']%elem_of_cons by (rewrite <- Hp; left); [done|].
      assert (q ∈ p :: l) as [->|Hq']%elem_of_cons by (rewrite Hp; left); [done|].
      specialize (Hpl q Hq'). specialize (Hql' p Hp'). lia. }
    f_equal. apply IH; [done|]. by apply (Permutation_cons_inv Hp).
Qed.

(** Inserting the node of an area that fits between two others. *)
Lemma vma_insert_ok (s : S) pid pv (xs1 xs2 : areas_t) x : pvms s !! pid = Some pv →
  inorder (vma_tree pv) = (xs1 ++ xs2).*1 →
  ordered (vkey s) (xs1 ++ x :: xs2).*1 →
  ∃ t, vma_insert pid x.1 s = Done (true, set_pvms (<[pid := mk_pvm (address_space_of pv) t]> (pvms s)) s)
    ∧ inorder t = (xs1 ++ x :: xs2).*1.
Proof.
  intros Hpv Ht Ho'.
  assert (ordered (vkey s) (xs1 ++ xs2).*1) as Ho.
  { rewrite fmap_app in Ho' |- *. simpl in Ho'. clear -Ho'. induction (xs1.*1) as [|q l IH]; simpl in *.
    - by apply StronglySorted_inv in Ho' as [? _].
    - apply StronglySorted_inv in Ho' as [? Hq]. constructor; [by apply IH|].
      apply Forall_app in Hq as [? Hq]. apply Forall_cons in Hq as [_ ?]. by apply Forall_app. }
  destruct (ordered_app (vkey s) xs1.*1 x.1 xs2.*1) as [Hb Hf]; [by rewrite fmap_app in Ho'|].
  destruct (bl_insert (vkey s) (vma_tree pv) x.1) as (t & Hins & Hp & Hot); [by rewrite Ht| |].
  { rewrite Ht, fmap_app. intros q [Hq|Hq]%elem_of_app; [specialize (Hb q Hq)|specialize (Hf q Hq)]; lia. }
  exists t. split.
  - unfold vma_insert. rewrite (bind_Done _ _ _ _ _ (get_pvm_ok s pid pv Hpv)).
    rewrite (bind_Done _ _ _ (vkey s) s) by reflexivity. rewrite Hins. reflexivity.
  - apply (ordered_perm_eq (vkey s)); [done|done|]. rewrite Hp, Ht, !fmap_app. simpl.
    by rewrite Permutation_middle.
Qed.

(** The chain with an area put into the free region. *)
Lemma chain_insert len lo xs p v : 0 < len → chain lo xs → a_start v = spec_free len lo xs →
  a_start v < a_end v → a_end v < 2 ^ 64 → (∀ x, x ∈ xs → ¬ meets (a_start v) (a_end v) x.2) →
  ∃ xs1 xs2, xs = xs1 ++ xs2 ∧ chain lo (xs1 ++ (p, v) :: xs2).
Proof.
  intros Hlen Hc Hs Hne Hw Hd. pose proof (spec_free_ok len lo xs Hlen Hc) as (Hlb & _ & _).
  rewrite <- Hs in Hlb. clear Hs Hlen. revert lo Hc Hlb. induction xs as [|x xs IH]; intros lo Hc Hlb.
  - exists [], []. split; [done|]. simpl. lia.
  - pose proof (Hd x ltac:(left)) as Hx. unfold meets in Hx. destruct Hc as (? & ? & ? & Hc).
    destruct (decide (a_start v < a_end x.2)).
    + exists [], (x :: xs). split; [done|]. simpl. split; [lia|]. split; [lia|]. split; [lia|].
      split; [lia|]. split; [lia|]. split; [lia|done].
    + destruct (IH ltac:(intros y Hy; apply Hd; by right) _ Hc) as (xs1 & xs2 & -> & Hc'); [lia|].
      exists (x :: xs1), xs2. split; [done|]. simpl. split; [lia|]. split; [lia|]. split; [lia|done].
Qed.
(** *** do_sys_mmap *)

Definition vs_heap (h : H) (s : S) : S := mk_vs H (with_heap h (vs_fd s)) (areas s) (ppages s) (pvms s) (cur_process s).

Lemma on_kheap_Done {A} (m : M H A) (s : S) x h : m (fd_heap (vs_fd s)) = Done (x, h) →
  on_kheap m s = Done (x, vs_heap h s).
Proof. intros E. unfold on_kheap, on_fd, zoom at 1. by rewrite (on_heap_Done m (vs_fd s) x h E). Qed.

Lemma sizeof_area_ok : 0 ≤ 1 < 2 ^ 64 ∧ 0 ≤ sizeof_vm_area < 2 ^ 64 ∧ 1 * sizeof_vm_area < 2 ^ 63.
Proof. unfold sizeof_vm_area. pose proof bst_node_size_ok. lia. Qed.

Definition page_aligned (xs : areas_t) : Prop :=
  Forall (λ x, a_start x.2 mod PAGE_SIZE = 0 ∧ a_end x.2 mod PAGE_SIZE = 0) xs.

(** Between aligned areas a gap for [len] bytes is one for [len] rounded up. *)
Lemma free_gap_aligned len lo xs : 0 < len → len + 4095 < 2 ^ 64 → lo mod PAGE_SIZE = 0 → page_aligned xs →
  free_gap (ALIGN_UP len PAGE_SIZE) lo xs = free_gap len lo xs.
Proof.
  intros Hlen Hw. destruct (ALIGN_UP_spec len ltac:(lia) ltac:(lia)) as [Hup Hm].
  revert lo. induction xs as [|x xs IH]; intros lo Hlo Hxs; simpl; [done|].
  apply Forall_cons in Hxs as [[Hs He] Hxs]. rewrite (IH _ He Hxs). unfold PAGE_SIZE in *.
  destruct (Z.leb_spec len (a_start x.2 - lo)), (Z.leb_spec (ALIGN_UP len 4096) (a_start x.2 - lo));
    try done; zdiv.
Qed.

Lemma spec_free_aligned len lo xs : lo mod PAGE_SIZE = 0 → page_aligned xs → spec_free len lo xs mod PAGE_SIZE = 0.
Proof.
  unfold spec_free. revert lo. induction xs as [|x xs IH]; intros lo Hlo Hxs; simpl; [done|].
  apply Forall_cons in Hxs as [[_ He] Hxs]. destruct (len <=? _); [done|]. by apply IH.
Qed.

(** A new object of the heap, filled in as an area of the process. *)
Lemma new_area_ok (s : S) pid xs xs1 xs2 L ns h p v : vma_inv s pid xs L (1 * sizeof_vm_area :: ns) →
  xs = xs1 ++ xs2 → p ∉ L → oh_live h (p :: L) ns → chain VMA_BASE (xs1 ++ (p, v) :: xs2) →
  ∃ s', vma_insert pid p (set_areas (<[p := v]> (areas s)) (vs_heap h s)) = Done (true, s')
    ∧ vma_inv s' pid (xs1 ++ (p, v) :: xs2) (p :: L) ns
    ∧ areas s' = <[p := v]> (areas s) ∧ vs_fd s' = with_heap h (vs_fd s) ∧ cur_process s' = cur_process s
    ∧ ppages s' = ppages s ∧ ∀ pid', pid' ≠ pid → pvms s' !! pid' = pvms s !! pid'.
Proof.
  intros [(pv & Hpv & Ht) Ha Hc Hnd Hl Hu] -> Hp Hl' Hc'.
  set (s1 := set_areas (<[p := v]> (areas s)) (vs_heap h s)).
  assert (p ∉ (xs1 ++ xs2).*1) as Hpx by (intros Hin; by apply Hp, Hu).
  assert (Forall (λ x, areas s1 !! x.1 = Some x.2) (xs1 ++ xs2)) as Ha1.
  { apply (areas_same s); [|done]. intros q Hq. unfold s1. cbn. rewrite lookup_insert_ne; [done|]. congruence. }
  assert (areas s1 !! (p, v).1 = Some (p, v).2) as Hpv1 by apply lookup_insert_eq.
  assert (Forall (λ x, areas s1 !! x.1 = Some x.2) (xs1 ++ (p, v) :: xs2)) as Ha1'.
  { apply Forall_app in Ha1 as [? ?]. apply Forall_app. split; [done|]. by apply Forall_cons. }
  destruct (vma_insert_ok s1 pid pv xs1 xs2 (p, v) Hpv Ht (xs_ordered s1 _ _ Ha1' Hc')) as (t & Hins & Hint).
  exists (set_pvms (<[pid := mk_pvm (address_space_of pv) t]> (pvms s1)) s1). split; [exact Hins|].
  split; [|split; [done|split; [done|split; [done|split; [done|]]]]].
  - split.
    + exists (mk_pvm (address_space_of pv) t). split; [apply lookup_insert_eq|exact Hint].
    + exact Ha1'.
    + exact Hc'.
    + rewrite fmap_app in Hpx, Hnd |- *. simpl. rewrite <- Permutation_middle. by apply NoDup_cons.
    + exact Hl'.
    + rewrite fmap_app. simpl. intros q Hq. rewrite <- Permutation_middle in Hq.
      apply elem_of_cons in Hq as [->|Hq]; [left|]. right. apply Hu. by rewrite fmap_app.
  - intros pid' Hne. cbn. by rewrite lookup_insert_ne.
Qed.

(** What the fd argument designates: nothing, or a file that can be mapped or not. *)
Definition mappable (s : S) (file : Z) (ok : bool) : Prop :=
  file = 0 ∧ ok = true
  ∨ file ≠ 0 ∧ ∃ f n o, files (vs_fd s) !! file = Some f
      ∧ get_vnode (f_vnode f) (io_fs (fd_io (vs_fd s))) = Some n ∧ vn_ops n = Some o ∧ ok = has_vma_fault o.

Lemma file_has_fault_ok (s : S) file f n o : files (vs_fd s) !! file = Some f →
  get_vnode (f_vnode f) (io_fs (fd_io (vs_fd s))) = Some n → vn_ops n = Some o →
  file_has_fault file s = Done (has_vma_fault o, s).
Proof.
  intros Hf Hn Ho. unfold file_has_fault.
  assert (on_fd (get_file file) s = Done (f, s)) as E1.
  { unfold on_fd, zoom, get_file. rewrite Hf. by destruct s. }
  assert (on_fd (on_io (mderef (f_vnode f))) s = Done (n, s)) as E2.
  { unfold on_fd, on_io, zoom, mderef, deref. rewrite Hn. by destruct s as [[] ? ? ? ?]. }
  rewrite (bind_Done _ _ _ _ _ E1), (bind_Done _ _ _ _ _ E2). by rewrite Ho.
Qed.

Lemma mmap_region_ok s pid xs xs1 xs2 L ns file ok addr len flags pgoff :
  vma_inv s pid xs L (1 * sizeof_vm_area :: ns) → cur_process s = pid → xs = xs1 ++ xs2 →
  (∀ p v, a_start v = addr → a_end v = addr + len → chain VMA_BASE (xs1 ++ (p, v) :: xs2)) →
  0 ≤ addr → 0 < len → addr + len < 2 ^ 64 → mappable s file ok →
  if ok then
    ∃ s' p v, mmap_region file addr len flags pgoff s = Done (addr, s')
      ∧ vma_inv s' pid (xs1 ++ (p, v) :: xs2) (p :: L) ns
      ∧ a_start v = addr ∧ a_end v = addr + len ∧ a_pages v = 0
      ∧ a_type v = (if file =? 0 then VMA_ANON else VMA_FILE)
  else ∃ s', mmap_region file addr len flags pgoff s = Done (u64 (- ENODEV), s') ∧ vma_inv s' pid xs L ns.
Proof.
  intros Hinv Hcur E Hch Haddr Hlen Hw Hmap. destruct sizeof_area_ok as (Hsz1 & Hsz2 & Hsz3).
  destruct (oh_calloc_ok _ _ _ _ _ (vi_live _ _ _ _ _ Hinv) Hsz1 Hsz2 Hsz3) as (p & h & Hcalloc & Hp0 & HpL & Hl).
  assert (u64 (addr + len) = addr + len) as Hu by (apply u64_small; lia).
  set (v0 := mk_area addr (addr + len) flags VMA_ANON 0 0 0).
  set (s1 := set_areas (<[p := v0]> (areas s)) (vs_heap h s)).
  assert (∀ rest : M S Z, mmap_region file addr len flags pgoff s =
    (ok ← (if file =? 0 then mret true else file_has_fault file);
     if negb ok then _ ← free_area p; mret (u64 (- ENODEV))
     else _ ← (if file =? 0 then mret tt
               else put_area p (mk_area addr (addr + len) flags VMA_FILE 0 file pgoff));
          pid ← gets cur_process; _ ← vma_insert pid p; v ← get_area p; mret (a_start v)) s1) as Hrun.
  { intros _. unfold mmap_region. rewrite (bind_Done _ _ _ _ _ (on_kheap_Done _ s _ _ Hcalloc)).
    destruct (Z.eqb_spec p 0); [done|]. rewrite Hu. reflexivity. }
  specialize (Hrun (mret 0)).
  assert (∀ v, a_start v = addr → a_end v = addr + len → ∃ s', 
    (pid ← gets cur_process; _ ← vma_insert pid p; v ← get_area p; mret (a_start v))
      (set_areas (<[p := v]> (areas s)) (vs_heap h s)) = Done (addr, s')
    ∧ vma_inv s' pid (xs1 ++ (p, v) :: xs2) (p :: L) ns) as Hfin.
  { intros v Hvs Hve. destruct (new_area_ok s pid xs xs1 xs2 L ns h p v Hinv E HpL Hl (Hch p v Hvs Hve))
      as (s' & Hins & Hinv' & Hareas & _). exists s'. split; [|done].
    rewrite (bind_Done _ _ _ pid (set_areas (<[p := v]> (areas s)) (vs_heap h s))) by (unfold gets; by rewrite <- Hcur).
    rewrite (bind_Done _ _ _ _ _ Hins). rewrite (bind_Done _ _ _ v s'); [by rewrite <- Hvs|].
    unfold get_area. by rewrite Hareas, lookup_insert_eq. }
  rewrite Hrun. destruct Hmap as [[-> ->]|(Hf0 & f & n & o & Hf & Hn & Ho & ->)].
  - destruct (Hfin v0 eq_refl eq_refl) as (s' & Hs' & Hinv'). exists s', p, v0. split; [exact Hs'|done].
  - destruct (Z.eqb_spec file 0); [done|].
    rewrite (bind_Done _ _ _ _ _ (file_has_fault_ok s1 file f n o Hf Hn Ho)).
    destruct (has_vma_fault o); cbn [negb].
    + set (v1 := mk_area addr (addr + len) flags VMA_FILE 0 file pgoff).
      destruct (Hfin v1 eq_refl eq_refl) as (s' & Hs' & Hinv'). exists s', p, v1. split; [|done].
      rewrite (bind_Done _ _ _ tt (set_areas (<[p := v1]> (areas s)) (vs_heap h s))); [exact Hs'|].
      unfold put_area, modify, set_areas, s1. cbn. by rewrite insert_insert_eq.
    + destruct (oh_free_ok h (p :: L) L p ns Hl ltac:(done)) as (h2 & Hfree & Hl2).
      eexists. split.
      * unfold free_area. rewrite (bind_Done _ _ _ tt (set_areas (delete p (areas s1)) (vs_heap h2 s1))); [reflexivity|].
        by rewrite (bind_Done _ _ _ _ _ (on_kheap_Done _ s1 _ _ Hfree)).
      * destruct Hinv as [Ht Ha Hc Hnd _ Huse]. split; try done. apply (areas_same s); [|done].
        intros q Hq. unfold s1. cbn. rewrite delete_insert_eq. rewrite lookup_delete_ne; [done|].
        intros ->. by apply HpL, Huse.
Qed.
(** The area of an address. vma_find returns an area of the process exactly
    when that area covers the address, and NULL when none does. *)
Theorem vma_find_spec s pid xs L ns a : vma_inv s pid xs L ns → 0 ∉ L →
  ∃ r, vma_find pid a s = Done (r, s) ∧ (r = 0 ↔ ¬ covered xs a)
    ∧ ∀ x, x ∈ xs → (r = x.1 ↔ covers a x.2).
Proof.
  intros Hinv H0L. destruct (vma_find_ok s pid xs L ns a Hinv) as (r & Hr & Hc & Hn). exists r. split; [done|].
  assert (∀ x, x ∈ xs → x.1 ≠ 0) as Hx0.
  { intros x Hx E. apply H0L. rewrite <- E. apply (vi_used _ _ _ _ _ Hinv). apply list_elem_of_fmap. by exists x. }
  assert (covered xs a ∨ ¬ covered xs a) as [Hcov|Hcov].
  { destruct (decide (Exists (λ x, a_start x.2 ≤ a ∧ a < a_end x.2) xs)) as [He|He].
    - left. apply Exists_exists in He as (x & Hx & ?). by exists x.
    - right. intros (x & Hx & ?). apply He, Exists_exists. by exists x. }
  - destruct Hcov as (x & Hx & Hax). rewrite (Hc x Hx Hax). split.
    + split; [intros E; by destruct (Hx0 x Hx)|]. intros Hnc. destruct Hnc. by exists x.
    + intros y Hy. split; [|intros Hay; by rewrite <- (Hc y Hy Hay), <- (Hc x Hx Hax)].
      intros E. assert (x.2 = y.2) as <-; [|done].
      pose proof (vi_areas _ _ _ _ _ Hinv) as Ha. rewrite Forall_forall in Ha.
      pose proof (Ha x Hx) as E1. pose proof (Ha y Hy) as E2. rewrite E, E2 in E1. by injection E1.
  - rewrite (Hn Hcov). split; [done|]. intros y Hy. split.
    + intros E. by destruct (Hx0 y Hy).
    + intros Hay. destruct Hcov. by exists y.
Qed.

(** The search for free space is a lowest fit. vma_find_free_region returns the
    lowest address from VMA_BASE up at which [len] bytes meet no area of the
    process: those bytes are free, and at every lower address some are not. *)
Theorem vma_find_free_region_spec s pid xs L ns len : vma_inv s pid xs L ns → 0 < len →
  top VMA_BASE xs + len < 2 ^ 64 →
  ∃ r, vma_find_free_region pid len s = Done (r, s) ∧ VMA_BASE ≤ r
    ∧ (∀ x, x ∈ xs → ¬ meets r (r + len) x.2)
    ∧ (∀ r', VMA_BASE ≤ r' < r → ∃ x, x ∈ xs ∧ meets r' (r' + len) x.2).
Proof.
  intros Hinv Hlen Hw. pose proof (spec_free_ok len _ _ Hlen (vi_chain _ _ _ _ _ Hinv)) as Hsp.
  exists (spec_free len VMA_BASE xs). split; [|exact Hsp]. apply (find_free_ok s pid xs L ns); [done|done|].
  unfold spec_free. destruct (free_gap len VMA_BASE xs) as [g|] eqn:E; simpl; [|done].
  destruct (free_gap_Some _ _ _ _ (vi_chain _ _ _ _ _ Hinv) E) as (_ & _ & x & Hx & ?).
  destruct (chain_lb _ _ _ (vi_chain _ _ _ _ _ Hinv) Hx). lia.
Qed.

(** C9: do_sys_mmap. When the process's areas are page-aligned, the address space does not wrap and the heap
    has room: for no file, or one that can be mapped, the result is the lowest
    address at which the length is free, and exactly the pages of the rounded
    length from there become covered, by a new area, without meeting any other;
    a file whose driver has no fault handler gives -ENODEV and leaves the areas
    as they were. Nothing bounds the address from above. *)
Theorem do_sys_mmap_spec s pid xs L ns addr len_ prot flags fd offset file ok :
  vma_inv s pid xs L (1 * sizeof_vm_area :: ns) → cur_process s = pid → page_aligned xs →
  process_unpack_fd pid (i32 fd) (vs_fd s) = Done (file, vs_fd s) → mappable s file ok →
  0 < len_ → len_ + 4095 < 2 ^ 64 → top VMA_BASE xs + ALIGN_UP len_ PAGE_SIZE < 2 ^ 64 →
  let r := spec_free len_ VMA_BASE xs in
  let len := ALIGN_UP len_ PAGE_SIZE in
  if ok then
    ∃ s' xs' p v, do_sys_mmap addr len_ prot flags fd offset s = Done (r, s')
      ∧ vma_inv s' pid xs' (p :: L) ns ∧ page_aligned xs'
      ∧ (p, v) ∈ xs' ∧ a_start v = r ∧ a_end v = r + len ∧ a_pages v = 0
      ∧ (∀ a, covered xs' a ↔ covered xs a ∨ r ≤ a < r + len)
      ∧ (∀ a, r ≤ a < r + len → ¬ covered xs a)
  else ∃ s', do_sys_mmap addr len_ prot flags fd offset s = Done (u64 (- ENODEV), s') ∧ vma_inv s' pid xs L ns.
Proof.
  intros Hinv Hcur Hal Hfd Hmap Hlen Hw Htop r len.
  pose proof (vi_chain _ _ _ _ _ Hinv) as Hc.
  destruct (ALIGN_UP_spec len_ ltac:(lia) ltac:(lia)) as [Hup Hmod]. fold len in Hup, Hmod, Htop.
  assert (spec_free len VMA_BASE xs = r) as Hr.
  { unfold spec_free, len, r. by rewrite (free_gap_aligned len_ VMA_BASE xs Hlen Hw eq_refl Hal). }
  destruct (spec_free_ok len _ _ ltac:(lia) Hc) as (Hlb & Hfree & _). rewrite Hr in Hlb, Hfree.
  assert (r + len < 2 ^ 64) as Hrl.
  { rewrite <- Hr. unfold spec_free. destruct (free_gap len VMA_BASE xs) as [g|] eqn:E; simpl; [|done].
    destruct (free_gap_Some _ _ _ _ Hc E) as (_ & _ & x & Hx & ?). destruct (chain_lb _ _ _ Hc Hx). lia. }
  unfold VMA_BASE in Hlb.
  destruct (chain_insert len VMA_BASE xs 0 (mk_area r (r + len) 0 VMA_ANON 0 0 0)) as (xs1 & xs2 & E & Hch);
    simpl; try done; try lia.
  assert (∀ p v, a_start v = r → a_end v = r + len → chain VMA_BASE (xs1 ++ (p, v) :: xs2)) as Hch'.
  { intros p v Hvs Hve. apply chain_app in Hch as [? Hch]. apply chain_app. split; [done|].
    simpl in Hch |- *. by rewrite Hvs, Hve. }
  assert (do_sys_mmap addr len_ prot flags fd offset s = mmap_region file r len 0 (u64 offset) s) as ->.
  { unfold do_sys_mmap. fold len. destruct (Z.eqb_spec len 0); [lia|].
    rewrite (bind_Done _ _ _ pid s) by (unfold gets; by rewrite Hcur).
    rewrite (bind_Done _ _ _ file s) by (unfold on_fd, zoom; rewrite Hfd; by destruct s).
    rewrite (bind_Done _ _ _ r s) by (apply (find_free_ok s pid xs L _ len_ Hinv Hlen); fold r; lia).
    destruct (Z.eqb_spec r 0); [lia|done]. }
  pose proof (mmap_region_ok s pid xs xs1 xs2 L ns file ok r len 0 (u64 offset) Hinv Hcur E Hch'
    ltac:(lia) ltac:(lia) Hrl Hmap) as Hok.
  destruct ok; [|exact Hok]. destruct Hok as (s' & p & v & Hrun & Hinv' & Hvs & Hve & Hvp & _).
  exists s', (xs1 ++ (p, v) :: xs2), p, v. split; [exact Hrun|]. split; [exact Hinv'|].
  assert (r mod PAGE_SIZE = 0) as Hrm by (by apply spec_free_aligned).
  split; [|split; [|split; [done|split; [done|split; [done|split]]]]].
  - unfold page_aligned in *. rewrite E in Hal. apply Forall_app in Hal as [? ?]. apply Forall_app.
    split; [done|]. apply Forall_cons. split; [|done]. simpl. rewrite Hvs, Hve. split; [done|].
    unfold PAGE_SIZE in *. zdiv.
  - apply elem_of_app. right. left.
  - intros a. unfold covered. rewrite E. setoid_rewrite elem_of_app. setoid_rewrite elem_of_cons. split.
    + intros (x & [Hx|[->|Hx]] & Ha); [by left; exists x; auto| |by left; exists x; auto].
      right. unfold covers in Ha. simpl in Ha. lia.
    + intros [(x & [Hx|Hx] & Ha)|Ha]; [by exists x; auto|by exists x; auto|].
      exists (p, v). split; [auto|]. unfold covers. simpl. lia.
  - intros a Ha (x & Hx & Hax). apply (Hfree x Hx). unfold meets, covers in *. lia.
Qed.
(** *** The pages of an area *)

(** [qs] is the linked list of page entries from [p]. *)
Fixpoint page_list (m : gmap Z vma_phys_page) (p : Z) (qs : list (Z * vma_phys_page)) : Prop :=
  match qs with
  | [] => p = 0
  | q :: qs' => p = q.1 ∧ p ≠ 0 ∧ m !! p = Some q.2 ∧ page_list m (pg_next q.2) qs'
  end.

Definition within (v : vm_area) (q : Z * vma_phys_page) : Prop := a_start v ≤ pg_start q.2 < a_end v.

(** Only the serial line changed. *)
Definition quiet (s s' : S) : Prop :=
  fd_heap (vs_fd s') = fd_heap (vs_fd s) ∧ areas s' = areas s ∧ ppages s' = ppages s
  ∧ pvms s' = pvms s ∧ cur_process s' = cur_process s.

Lemma say_ok m (s : S) : (∀ t, ∃ t', m t = Done (tt, t')) → ∃ s', say m s = Done (tt, s') ∧ quiet s s'.
Proof.
  intros Hm. destruct (Hm (io_term (fd_io (vs_fd s)))) as [t' Ht'].
  eexists. split; [unfold say, on_fd, on_io, on_term, zoom; by rewrite Ht'|]. done.
Qed.

Lemma puts_total cs t : ∃ t', terminal_puts cs t = Done (tt, t').
Proof. destruct (terminal_puts_ok t cs) as (t' & ? & _). by exists t'. Qed.

Lemma page_message_ok what mid pg v (s : S) : ∃ s', page_message what mid pg v s = Done (tt, s') ∧ quiet s s'.
Proof.
  assert (∀ (m : M term_state unit) (k : M S unit) (s : S), (∀ t, ∃ t', m t = Done (tt, t')) →
    (∀ s', ∃ s'', k s' = Done (tt, s'') ∧ quiet s' s'') →
    ∃ s'', (_ ← say m; k) s = Done (tt, s'') ∧ quiet s s'') as Hseq.
  { intros m k s0 Hm Hk. destruct (say_ok m s0 Hm) as (s1 & E1 & (? & ? & ? & ? & ?)).
    destruct (Hk s1) as (s2 & E2 & (? & ? & ? & ? & ?)). exists s2. rewrite (bind_Done _ _ _ _ _ E1).
    split; [exact E2|]. unfold quiet. by split_and!; congruence. }
  assert (∀ n t, ∃ t', terminal_write_hex_u64 n t = Done (tt, t')) as Hhex.
  { intros n t0. unfold terminal_write_hex_u64. destruct (puts_total (chars "0x") t0) as [t1 E1].
    rewrite (bind_Done _ _ _ tt t1 E1). apply puts_total. }
  unfold page_message. repeat (apply Hseq; [solve [intros; apply puts_total|apply Hhex]|intros ?]).
  apply say_ok. intros t0. destruct (terminal_putc_ok t0 10) as (t' & ? & _). by exists t'.
Qed.

Lemma get_page_ok (s : S) q pg : ppages s !! q = Some pg → get_page q s = Done (pg, s).
Proof. unfold get_page. by intros ->. Qed.

Lemma get_area_at (s : S) p v : areas s !! p = Some v → get_area p s = Done (v, s).
Proof. unfold get_area. by intros ->. Qed.

(** One turn on a page inside the area. *)
Lemma cleanup_turn (s : S) fuel vma v q prev m : areas s !! vma = Some v → ppages s = m → q.1 ≠ 0 →
  m !! q.1 = Some q.2 → within v q →
  cleanup_loop (Datatypes.S fuel) vma q.1 prev s = cleanup_loop fuel vma (pg_next q.2) (Some q.1) s.
Proof.
  intros Hv Hm Hq0 Hq [Hlo Hhi]. simpl. destruct (Z.eqb_spec q.1 0); [done|].
  assert (ppages s !! q.1 = Some q.2) as Hq' by congruence.
  rewrite (bind_Done _ _ _ _ _ (get_page_ok s _ _ Hq')), (bind_Done _ _ _ _ _ (get_area_at s _ _ Hv)).
  destruct (Z.ltb_spec (pg_start q.2) (a_start v)); [lia|].
  destruct (Z.leb_spec (a_end v) (pg_start q.2)); [lia|]. cbn [orb].
  rewrite (bind_Done _ _ _ (pg_next q.2, Some q.1) s) by reflexivity.
  destruct (Z.eqb_spec (pg_next q.2) 0) as [E|].
  - rewrite (bind_Done _ _ _ 0 s); [by rewrite E|]. cbn [read_prev].
    rewrite (bind_Done _ _ _ q.1 s) by reflexivity. destruct (Z.eqb_spec q.1 0); [done|].
    rewrite (bind_Done _ _ _ _ _ (get_page_ok s _ _ Hq')). by rewrite E.
  - by rewrite (bind_Done _ _ _ (pg_next q.2) s) by reflexivity.
Qed.

Lemma cleanup_prefix (s : S) vma v m : areas s !! vma = Some v → ppages s = m → ∀ qs1 qs2 p prev fuel,
  page_list m p (qs1 ++ qs2) → Forall (within v) qs1 →
  ∃ p', page_list m p' qs2 ∧ (∀ q, last qs1 = Some q → m !! q.1 = Some q.2 ∧ q.1 ≠ 0)
    ∧ cleanup_loop (length qs1 + fuel) vma p prev s
      = cleanup_loop fuel vma p' (match last qs1 with Some q => Some q.1 | None => prev end) s.
Proof.
  intros Hv Hm. induction qs1 as [|q qs1 IH]; intros qs2 p prev fuel Hl Hw.
  { exists p. split; [done|]. split; [done|reflexivity]. }
  destruct Hl as (-> & Hq0 & Hq & Hl). apply Forall_cons in Hw as [Hqw Hw].
  destruct (IH qs2 _ (Some q.1) fuel Hl Hw) as (p' & Hl' & Hlast & Hrun). exists p'. split; [done|].
  split.
  - intros z. destruct qs1 as [|y qs1]; [simpl; intros [= <-]; done|]. exact (Hlast z).
  - cbn [length Nat.add]. rewrite (cleanup_turn s _ vma v q prev m Hv Hm Hq0 Hq Hqw), Hrun.
    destruct qs1 as [|y qs1]; [done|]. change (last (q :: y :: qs1)) with (last (y :: qs1)).
    destruct (last (y :: qs1)) eqn:E; [done|by apply last_None in E].
Qed.

(** All pages inside the area: nothing happens. *)
Lemma vma_cleanup_ok (s : S) vma v qs fuel : areas s !! vma = Some v → page_list (ppages s) (a_pages v) qs →
  Forall (within v) qs → (length qs ≤ fuel)%nat → vma_cleanup fuel vma s = Done (tt, s).
Proof.
  intros Hv Hl Hw Hf. unfold vma_cleanup. rewrite (bind_Done _ _ _ _ _ (get_area_at s _ _ Hv)).
  destruct (Z.eqb_spec (a_pages v) 0); [done|].
  destruct (cleanup_prefix s vma v _ Hv eq_refl qs [] (a_pages v) None (fuel - length qs)%nat) as (p' & Hp' & _ & Hrun);
    [by rewrite app_nil_r|done|].
  replace (length qs + (fuel - length qs))%nat with fuel in Hrun by lia. rewrite Hrun.
  simpl in Hp'. subst p'. by destruct (fuel - length qs)%nat.
Qed.

(** Vma_cleanup never removes a page: on an area with a page recorded outside it,
    which is what it exists for, it runs into undefined behaviour. If that page is
    the first of the list, it reads the local variable prev before anything was
    assigned to it; otherwise it unmaps the page, unlinks and frees the entry, and
    the next turn reads the entry just freed, from which it never advances. *)
Theorem vma_cleanup_out_of_range (s : S) vma v qs1 q qs2 pv h1 h2 fuel :
  areas s !! vma = Some v → page_list (ppages s) (a_pages v) (qs1 ++ q :: qs2) →
  Forall (within v) qs1 → ¬ within v q →
  pvms s !! cur_process s = Some pv →
  um_unmap (address_space_of pv) (pg_start q.2) (fd_heap (vs_fd s)) = Done (tt, h1) →
  oh_free q.1 h1 = Done (tt, h2) → (Datatypes.S (Datatypes.S (length qs1)) ≤ fuel)%nat →
  vma_cleanup fuel vma s = Undef (match qs1 with
                                  | [] => "prev is uninitialised"
                                  | _ => "not a live vma_phys_page_t"
                                  end).
Proof.
  intros Hv Hl Hw Hq Hpv Hun Hfree Hf. unfold vma_cleanup. rewrite (bind_Done _ _ _ _ _ (get_area_at s _ _ Hv)).
  assert (a_pages v ≠ 0) as Hp0 by (destruct qs1; by destruct Hl as (? & ? & _)).
  destruct (Z.eqb_spec (a_pages v) 0); [done|].
  destruct (cleanup_prefix s vma v _ Hv eq_refl qs1 (q :: qs2) (a_pages v) None (fuel - length qs1)%nat Hl Hw)
    as (p' & (-> & Hq0 & Hqs & _) & Hlast & Hrun).
  replace (length qs1 + (fuel - length qs1))%nat with fuel in Hrun by lia. rewrite Hrun.
  destruct (fuel - length qs1)%nat as [|[|k]] eqn:Ek; [lia|lia|]. clear Hrun Ek. cbn [cleanup_loop].
  destruct (Z.eqb_spec q.1 0); [done|].
  rewrite (bind_Done _ _ _ _ _ (get_page_ok s _ _ Hqs)), (bind_Done _ _ _ _ _ (get_area_at s _ _ Hv)).
  assert ((pg_start q.2 <? a_start v) || (a_end v <=? pg_start q.2) = true) as ->.
  { unfold within in Hq. destruct (Z.ltb_spec (pg_start q.2) (a_start v)); [done|].
    destruct (Z.leb_spec (a_end v) (pg_start q.2)); [done|]. simpl. lia. }
  destruct (page_message_ok "Cleaning up page at " " which is outside the VMA range [" (pg_start q.2) v s)
    as (s1 & Hmsg & Hheap & Hareas & Hpp & Hpvm & Hcur).
  set (s2 := vs_heap h1 s1).
  assert (∀ (A : Type) (rest : Z → M S A),
    (_ ← page_message "Cleaning up page at " " which is outside the VMA range [" (pg_start q.2) v;
     pid ← gets cur_process; pv ← get_pvm pid;
     _ ← on_kheap (um_unmap (address_space_of pv) (pg_start q.2)); rest pid) s = rest (cur_process s) s2) as Hpre.
  { intros A rest. rewrite (bind_Done _ _ _ _ _ Hmsg). rewrite (bind_Done _ _ _ (cur_process s) s1) by (unfold gets; by rewrite Hcur).
    rewrite (bind_Done _ _ _ pv s1) by (unfold get_pvm; by rewrite Hpvm, Hpv).
    rewrite (bind_Done _ _ _ tt s2); [done|]. apply on_kheap_Done. by rewrite Hheap. }
  destruct (last qs1) as [y|] eqn:Hy.
  - assert (∃ s3, (p ← read_prev (Some y.1);
       _ ← (if p =? 0 then put_area vma (set_pages_head v (pg_next q.2))
            else qp ← get_page p; put_page p (set_next qp (pg_next q.2)));
       _ ← free_page q.1; mret (q.1, Some y.1)) s2 = Done ((q.1, Some y.1), s3) ∧ ppages s3 !! q.1 = None) as (s3 & Hs3 & Hgone).
    { destruct (Hlast y eq_refl) as [Hym Hy0]. cbn [read_prev]. rewrite (bind_Done _ _ _ y.1 s2) by reflexivity.
      destruct (Z.eqb_spec y.1 0); [done|].
      rewrite (bind_Done _ _ _ tt (set_ppages (<[y.1 := set_next y.2 (pg_next q.2)]> (ppages s2)) s2)).
      2:{ rewrite (bind_Done _ _ _ y.2 s2); [reflexivity|]. apply get_page_ok. cbn. by rewrite Hpp. }
      eexists. split.
      - unfold free_page. rewrite (bind_Done _ _ _ tt (set_ppages (delete q.1 (<[y.1 := set_next y.2 (pg_next q.2)]> (ppages s2)))
          (vs_heap h2 s2))); [reflexivity|].
        rewrite (bind_Done _ _ _ tt (vs_heap h2 (set_ppages (<[y.1 := set_next y.2 (pg_next q.2)]> (ppages s2)) s2))); [reflexivity|].
        apply on_kheap_Done. exact Hfree.
      - cbn. apply lookup_delete_eq. }
    destruct qs1 as [|y' qs1]; [done|].
    rewrite (bind_Done _ _ _ (q.1, Some y.1) s3) by (rewrite Hpre; exact Hs3).
    rewrite (bind_Done _ _ _ q.1 s3) by (destruct (Z.eqb_spec q.1 0); done).
    cbn [cleanup_loop]. destruct (Z.eqb_spec q.1 0); [done|].
    unfold mbind at 1, M_bind at 1, get_page. by rewrite Hgone.
  - apply last_None in Hy as ->. unfold mbind at 1, M_bind at 1. rewrite Hpre. reflexivity.
Qed.

(** With a page recorded outside the area vma_cleanup never returns: the turn that
    meets that page unmaps and frees its entry without advancing, so that the
    next one reads it again, if the read of prev did not stop it before. *)
Lemma cleanup_loop_stuck vma v : ∀ qs fuel p prev (s s' : S), areas s !! vma = Some v →
  page_list (ppages s) p qs → ¬ Forall (within v) qs → cleanup_loop fuel vma p prev s ≠ Done (tt, s').
Proof.
  induction qs as [|q qs IH]; intros fuel p prev s s' Hv Hl Hn Hrun; [by apply Hn; constructor|].
  destruct Hl as (-> & Hq0 & Hq & Hl). destruct fuel as [|fuel].
  { simpl in Hrun. by destruct (Z.eqb_spec q.1 0). }
  destruct (decide (within v q)) as [Hw|Hw].
  - rewrite (cleanup_turn s fuel vma v q prev _ Hv eq_refl Hq0 Hq Hw) in Hrun.
    apply (IH fuel (pg_next q.2) (Some q.1) s s'); try done. intros ?. apply Hn. by constructor.
  - cbn [cleanup_loop] in Hrun. destruct (Z.eqb_spec q.1 0); [done|].
    rewrite (bind_Done _ _ _ _ _ (get_page_ok s _ _ Hq)), (bind_Done _ _ _ _ _ (get_area_at s _ _ Hv)) in Hrun.
    apply bind_inv in Hrun as ([p' prev'] & s1 & Hturn & Hrun).
    assert (p' = q.1 ∧ ppages s1 !! q.1 = None) as [-> Hgone].
    { unfold within in Hw. destruct ((pg_start q.2 <? a_start v) || (a_end v <=? pg_start q.2)) eqn:E;
        [|apply orb_false_iff in E as [?%Z.ltb_ge ?%Z.leb_gt]; by destruct Hw].
      do 6 apply bind_inv in Hturn as (? & ? & _ & Hturn).
      apply bind_inv in Hturn as ([] & s2 & Hfree & Hturn). injection Hturn as <- _ <-. split; [done|].
      apply bind_inv in Hfree as ([] & s3 & _ & Hfree). injection Hfree as <-. cbn. apply lookup_delete_eq. }
    rewrite (bind_Done _ _ _ q.1 s1) in Hrun by (destruct (Z.eqb_spec q.1 0); done).
    destruct fuel; cbn [cleanup_loop] in Hrun; destruct (Z.eqb_spec q.1 0); try done.
    apply bind_inv in Hrun as (? & ? & Hget & _). unfold get_page in Hget. by rewrite Hgone in Hget.
Qed.

Lemma vma_cleanup_stuck (s s' : S) vma v qs fuel : areas s !! vma = Some v → page_list (ppages s) (a_pages v) qs →
  ¬ Forall (within v) qs → vma_cleanup fuel vma s ≠ Done (tt, s').
Proof.
  intros Hv Hl Hn. unfold vma_cleanup. rewrite (bind_Done _ _ _ _ _ (get_area_at s _ _ Hv)).
  destruct (Z.eqb_spec (a_pages v) 0) as [E|]; [|by eapply cleanup_loop_stuck].
  exfalso. apply Hn. destruct qs as [|q qs]; [constructor|]. destruct Hl as (? & ? & _). congruence.
Qed.
(** *** munmap *)

(** Replacing the area at one node by another that fits in its place. *)
Lemma chain_replace lo xs1 p v v' xs2 : chain lo (xs1 ++ (p, v) :: xs2) →
  a_start v ≤ a_start v' → a_start v' < a_end v' → a_end v' ≤ a_end v →
  chain lo (xs1 ++ (p, v') :: xs2).
Proof.
  intros [? (? & ? & ? & Hc)]%chain_app ? ? ?. apply chain_app. split; [done|]. simpl in *.
  split; [lia|]. split; [lia|]. split; [lia|]. by apply (chain_mono _ (a_end v')) in Hc.
Qed.

Lemma put_area_inv (s : S) pid xs1 p v v' xs2 L ns : vma_inv s pid (xs1 ++ (p, v) :: xs2) L ns →
  a_start v ≤ a_start v' → a_start v' < a_end v' → a_end v' ≤ a_end v →
  vma_inv (set_areas (<[p := v']> (areas s)) s) pid (xs1 ++ (p, v') :: xs2) L ns.
Proof.
  intros [(pv & Hpv & Ht) Ha Hc Hnd Hl Hu] ? ? ?.
  assert ((xs1 ++ (p, v') :: xs2).*1 = (xs1 ++ (p, v) :: xs2).*1) as E by (by rewrite !fmap_app).
  split.
  - exists pv. split; [done|]. by rewrite E.
  - apply Forall_app in Ha as [Ha1 Ha2]. apply Forall_cons in Ha2 as [_ Ha2].
    rewrite fmap_app in Hnd. simpl in Hnd. rewrite <- Permutation_middle in Hnd. apply NoDup_cons in Hnd as [Hp _].
    assert (∀ q, q ∈ xs1.*1 ++ xs2.*1 → areas (set_areas (<[p := v']> (areas s)) s) !! q = areas s !! q) as Hsame.
    { intros q Hq. cbn. rewrite lookup_insert_ne; [done|]. by intros <-. }
    apply Forall_app. split; [|apply Forall_cons; split; [apply lookup_insert_eq|]];
      (apply (areas_same s); [intros q Hq; apply Hsame, elem_of_app; auto|done]).
  - by eapply chain_replace.
  - by rewrite E.
  - exact Hl.
  - by rewrite E.
Qed.

(** The part of the area that keeps its node when [addr, addr + len) goes. *)
Lemma shrink_range v addr len : a_start v ≤ addr → addr + len ≤ a_end v → 0 < len → 0 ≤ addr → a_end v < 2 ^ 64 →
  a_start (shrink v addr len) = (if addr =? a_start v then addr + len else a_start v)
  ∧ a_end (shrink v addr len) = (if addr =? a_start v then a_end v else addr)
  ∧ a_pages (shrink v addr len) = a_pages v.
Proof.
  intros. unfold shrink. destruct (Z.eqb_spec addr (a_start v)); simpl; [|done].
  split; [|done]. rewrite u64_small by lia. lia.
Qed.

(** What munmap_region does first, up to the test for an empty area. *)
Lemma munmap_found (s : S) pid xs p v L ns addr len fuel : vma_inv s pid xs L ns → cur_process s = pid →
  (p, v) ∈ xs → p ≠ 0 → a_start v ≤ addr → addr + len ≤ a_end v → 0 < len →
  munmap_region fuel addr len s =
    (_ ← (if (a_start v <? addr) && (addr + len <? a_end v) then
             new_vma ← on_kheap (oh_calloc 1 sizeof_vm_area);
             if new_vma =? 0 then mundef "new_vma->start"
             else
               _ ← put_area new_vma (split_tail v (addr + len));
               _ ← vma_insert pid new_vma;
               mret tt
           else mret tt);
      v ← get_area p;
      _ ← put_area p (shrink v addr len);
      v ← get_area p;
      if a_end v <=? a_start v then
        _ ← vma_remove pid p;
        _ ← vma_destroy fuel p;
        _ ← free_area p;
        mret 0
      else
        _ ← vma_cleanup fuel p;
        mret 0) s.
Proof.
  intros Hinv Hcur Hin Hp0 Hs He Hlen.
  destruct (vma_find_ok s pid xs L ns addr Hinv) as (r & Hr & Hc & _).
  rewrite (Hc (p, v) Hin) in Hr by (unfold covers; simpl; lia). cbn [fst] in Hr.
  destruct (chain_lb _ _ _ (vi_chain _ _ _ _ _ Hinv) Hin) as (Hlb & _ & Hub). simpl in Hlb, Hub. unfold VMA_BASE in Hlb.
  assert (u64 (addr + len) = addr + len) as Hu by (apply u64_small; lia).
  unfold munmap_region. rewrite (bind_Done _ _ _ pid s) by (unfold gets; by rewrite Hcur).
  rewrite (bind_Done _ _ _ _ _ Hr). destruct (Z.eqb_spec p 0); [done|].
  rewrite (bind_Done _ _ _ v s) by exact (get_area_ok s xs (p, v) (vi_areas _ _ _ _ _ Hinv) Hin).
  rewrite Hu. destruct (Z.ltb_spec addr (a_start v)); [lia|]. destruct (Z.ltb_spec (a_end v) (addr + len)); [lia|].
  reflexivity.
Qed.

(** ... and once the area was shrunk to a non-empty one. *)
Lemma munmap_shrunk (s : S) pid p v addr len fuel : areas s !! p = Some v →
  0 ≤ a_start v → a_end v < 2 ^ 64 →
  a_start v ≤ addr → addr + len ≤ a_end v → 0 < len → a_start v < addr ∨ addr + len < a_end v →
  (v ← get_area p;
   _ ← put_area p (shrink v addr len);
   v ← get_area p;
   if a_end v <=? a_start v then
     _ ← vma_remove pid p;
     _ ← vma_destroy fuel p;
     _ ← free_area p;
     mret 0
   else
     _ ← vma_cleanup fuel p;
     mret 0) s = (_ ← vma_cleanup fuel p; mret 0) (set_areas (<[p := shrink v addr len]> (areas s)) s).
Proof.
  intros Hv Hlb Hub Hs He Hlen Hne.
  destruct (shrink_range v addr len Hs He Hlen ltac:(lia) Hub) as (Hs' & He' & _).
  set (s1 := set_areas (<[p := shrink v addr len]> (areas s)) s).
  rewrite (bind_Done _ _ _ _ _ (get_area_at s _ _ Hv)). rewrite (bind_Done _ _ _ tt s1) by reflexivity.
  assert (areas s1 !! p = Some (shrink v addr len)) as Hp1 by apply lookup_insert_eq.
  rewrite (bind_Done _ _ _ _ _ (get_area_at s1 _ _ Hp1)).
  destruct (Z.leb_spec (a_end (shrink v addr len)) (a_start (shrink v addr len))) as [Hle|_]; [|done].
  exfalso. rewrite Hs', He' in Hle. destruct (Z.eqb_spec addr (a_start v)); lia.
Qed.

(** It holds all its pages: they stay. It does not: vma_cleanup never returns. *)
Lemma munmap_keep (s : S) pid p v addr len fuel qs : areas s !! p = Some v →
  0 ≤ a_start v → a_end v < 2 ^ 64 →
  a_start v ≤ addr → addr + len ≤ a_end v → 0 < len → a_start v < addr ∨ addr + len < a_end v →
  page_list (ppages s) (a_pages v) qs → Forall (within (shrink v addr len)) qs → (length qs ≤ fuel)%nat →
  (v ← get_area p;
   _ ← put_area p (shrink v addr len);
   v ← get_area p;
   if a_end v <=? a_start v then
     _ ← vma_remove pid p;
     _ ← vma_destroy fuel p;
     _ ← free_area p;
     mret 0
   else
     _ ← vma_cleanup fuel p;
     mret 0) s = Done (0, set_areas (<[p := shrink v addr len]> (areas s)) s).
Proof.
  intros Hv Hlb Hub Hs He Hlen Hne Hl Hw Hf.
  destruct (shrink_range v addr len Hs He Hlen ltac:(lia) Hub) as (_ & _ & Hp').
  rewrite (munmap_shrunk s pid p v addr len fuel) by done.
  set (s1 := set_areas (<[p := shrink v addr len]> (areas s)) s).
  rewrite (bind_Done _ _ _ tt s1); [reflexivity|].
  apply (vma_cleanup_ok s1 p (shrink v addr len) qs); [apply lookup_insert_eq|by rewrite Hp'|done|done].
Qed.

Lemma munmap_stuck (s : S) pid p v addr len qs : areas s !! p = Some v →
  0 ≤ a_start v → a_end v < 2 ^ 64 →
  a_start v ≤ addr → addr + len ≤ a_end v → 0 < len → a_start v < addr ∨ addr + len < a_end v →
  page_list (ppages s) (a_pages v) qs → ¬ Forall (within (shrink v addr len)) qs → ∀ fuel r s',
  (v ← get_area p;
   _ ← put_area p (shrink v addr len);
   v ← get_area p;
   if a_end v <=? a_start v then
     _ ← vma_remove pid p;
     _ ← vma_destroy fuel p;
     _ ← free_area p;
     mret 0
   else
     _ ← vma_cleanup fuel p;
     mret 0) s ≠ Done (r, s').
Proof.
  intros Hv Hlb Hub Hs He Hlen Hne Hl Hn fuel r s'.
  destruct (shrink_range v addr len Hs He Hlen ltac:(lia) Hub) as (_ & _ & Hp').
  rewrite (munmap_shrunk s pid p v addr len fuel) by done.
  intros ([] & s1 & Hc & _)%bind_inv. revert Hc.
  apply (vma_cleanup_stuck _ s1 p (shrink v addr len) qs); [apply lookup_insert_eq|by rewrite Hp'|done].
Qed.

Lemma ordered_ext key key' l : (∀ q, q ∈ l → key q = key' q) → ordered key l → ordered key' l.
Proof.
  intros Hk Ho. induction Ho as [|p l Ho IH Hp]; [constructor|].
  constructor; [apply IH; intros; apply Hk; by right|]. rewrite Forall_forall in Hp. apply Forall_forall.
  intros q Hq. rewrite <- !Hk by (done || by (left || right)). by apply Hp.
Qed.

(** The split: the tail is inserted while the old area still covers it; the
    invariant holds again once the old area is shrunk. *)
Lemma split_ok (s : S) pid xs1 p v xs2 L ns h t v' w : vma_inv s pid (xs1 ++ (p, v) :: xs2) L (1 * sizeof_vm_area :: ns) →
  t ∉ L → oh_live h (t :: L) ns → a_start v' = a_start v → a_start v' < a_end v' → a_end v' ≤ a_start w →
  a_start w < a_end w → a_end w = a_end v →
  ∃ s', vma_insert pid t (set_areas (<[t := w]> (areas s)) (vs_heap h s)) = Done (true, s')
    ∧ areas s' !! p = Some v ∧ ppages s' = ppages s
    ∧ vma_inv (set_areas (<[p := v']> (areas s')) s') pid (xs1 ++ (p, v') :: (t, w) :: xs2) (t :: L) ns.
Proof.
  intros [(pv & Hpv & Ht) Ha Hc Hnd _ Hu] HtL Hlive Hv' Hne' Hvw Hnew Hw.
  set (s1 := set_areas (<[t := w]> (areas s)) (vs_heap h s)).
  set (A := <[p := v']> (<[t := w]> (areas s))).
  assert (t ∉ (xs1 ++ (p, v) :: xs2).*1) as Hnt by (intros Hin; by apply HtL, Hu).
  rewrite fmap_app in Hnt, Hnd. simpl in Hnt, Hnd. apply not_elem_of_app in Hnt as [Hnt1 Hnt2].
  apply not_elem_of_cons in Hnt2 as [Htp Hnt2].
  pose proof Hnd as Hnd'. rewrite <- Permutation_middle in Hnd'. apply NoDup_cons in Hnd' as [Hp _].
  apply not_elem_of_app in Hp as [Hp1 Hp2].
  apply Forall_app in Ha as [Ha1 Ha2]. apply Forall_cons in Ha2 as [Hap Ha2]. simpl in Hap.
  assert (∀ xs, t ∉ xs.*1 → p ∉ xs.*1 → Forall (λ x, areas s !! x.1 = Some x.2) xs → Forall (λ x, A !! x.1 = Some x.2) xs) as Hold.
  { intros xs Htx Hpx Hxs. apply (areas_same s (set_areas A s)); [|done]. intros q Hq. cbn. unfold A.
    rewrite !lookup_insert_ne; [done| |]; by intros ->. }
  assert (Forall (λ x, A !! x.1 = Some x.2) (xs1 ++ (p, v') :: (t, w) :: xs2)) as HA.
  { apply Forall_app. split; [by apply Hold|]. apply Forall_cons. split; [apply lookup_insert_eq|].
    apply Forall_cons. split; [|by apply Hold]. unfold A. simpl. rewrite lookup_insert_ne by done. apply lookup_insert_eq. }
  assert (chain VMA_BASE (xs1 ++ (p, v') :: (t, w) :: xs2)) as Hc'.
  { apply chain_app in Hc as [Hc1 (? & ? & ? & Hc2)]. apply chain_app. split; [done|]. simpl in *.
    rewrite Hw. split; [lia|]. split; [lia|]. split; [lia|]. split; [lia|]. split; [lia|]. split; [lia|done]. }
  assert ((xs1 ++ (p, v') :: (t, w) :: xs2).*1 = ((xs1 ++ [(p, v)]) ++ (t, w) :: xs2).*1) as El.
  { rewrite !fmap_app. simpl. by rewrite <- (assoc_L (++)). }
  assert ((xs1 ++ (p, v') :: (t, w) :: xs2).*1 ≡ₚ t :: (xs1 ++ (p, v) :: xs2).*1) as Hperm.
  { rewrite !fmap_app. simpl. rewrite (Permutation_swap t p). symmetry. apply Permutation_middle. }
  assert (ordered (vkey s1) ((xs1 ++ [(p, v)]) ++ (t, w) :: xs2).*1) as Ho.
  { rewrite <- El. apply (ordered_ext (vkey (set_areas A s))); [|by apply (xs_ordered (set_areas A s) VMA_BASE)].
    intros q _. unfold vma_tree_get_value. cbn. unfold A. destruct (decide (q = p)) as [->|].
    - rewrite lookup_insert_eq, lookup_insert_ne by congruence. by rewrite Hap.
    - by rewrite lookup_insert_ne by congruence. }
  destruct (vma_insert_ok s1 pid pv (xs1 ++ [(p, v)]) xs2 (t, w) Hpv) as (tr & Hins & Hint);
    [by rewrite Ht, <- (assoc_L (++))|exact Ho|].
  eexists. split; [exact Hins|]. split; [cbn; by rewrite lookup_insert_ne|]. split; [done|]. split.
  - exists (mk_pvm (address_space_of pv) tr). split; [apply lookup_insert_eq|]. by rewrite El.
  - exact HA.
  - exact Hc'.
  - rewrite Hperm. apply NoDup_cons. split; [|by rewrite fmap_app].
    rewrite fmap_app. apply not_elem_of_app. split; [done|]. by apply not_elem_of_cons.
  - exact Hlive.
  - intros q Hq. rewrite Hperm in Hq. apply elem_of_cons in Hq as [->|Hq]; [left|]. right. by apply Hu.
Qed.

(** Taking a range out of the middle of a list of areas. *)
Lemma covered_cut (xs1 ys xs2 : areas_t) x addr len a :
  (∀ a x, x ∈ xs1 ∨ x ∈ xs2 → covers a x.2 → ¬ addr ≤ a < addr + len) →
  (covered ys a ↔ covers a x.2 ∧ ¬ addr ≤ a < addr + len) →
  covered (xs1 ++ ys ++ xs2) a ↔ covered (xs1 ++ x :: xs2) a ∧ ¬ addr ≤ a < addr + len.
Proof.
  intros Hout Hys. assert (∀ l l', covered (l ++ l') a ↔ covered l a ∨ covered l' a) as Happ.
  { intros l l'. unfold covered. setoid_rewrite elem_of_app. naive_solver. }
  assert (covered (x :: xs2) a ↔ covers a x.2 ∨ covered xs2 a) as Hcons.
  { unfold covered. setoid_rewrite elem_of_cons. naive_solver. }
  rewrite !Happ, Hcons, Hys. unfold covered. split; [|tauto].
  intros [(y & Hy & Ha)|[?|(y & Hy & Ha)]]; [|tauto|]; (split; [eauto|]); by apply (Hout a y); auto.
Qed.

(** What is left of an area [v] when a range is taken out of it: two areas, or one. *)
Lemma covered_two (p t : Z) (v v' w : vm_area) addr len a : a_start v' = a_start v → a_end v' = addr →
  a_start w = addr + len → a_end w = a_end v → a_start v ≤ addr → 0 < len → addr + len ≤ a_end v →
  covered [(p, v'); (t, w)] a ↔ covers a v ∧ ¬ addr ≤ a < addr + len.
Proof.
  intros Es Ee Fs Fe ? ? ?. unfold covered, covers. setoid_rewrite elem_of_cons. setoid_rewrite elem_of_cons. split.
  - intros (x & [->|[->|[]%elem_of_nil]] & ?); simpl in *; lia.
  - intros [? ?]. destruct (decide (a < addr)); [exists (p, v')|exists (t, w)]; simpl; split; auto; lia.
Qed.
Lemma covered_one (p : Z) (v v' : vm_area) addr len a : a_start v ≤ addr → 0 < len → addr + len ≤ a_end v →
  (addr = a_start v ∧ a_start v' = addr + len ∧ a_end v' = a_end v
   ∨ addr + len = a_end v ∧ a_start v' = a_start v ∧ a_end v' = addr) →
  covered [(p, v')] a ↔ covers a v ∧ ¬ addr ≤ a < addr + len.
Proof.
  intros ? ? ? Hv. unfold covered, covers. setoid_rewrite elem_of_cons. split.
  - intros (x & [->|[]%elem_of_nil] & ?). simpl in *. lia.
  - intros [? ?]. exists (p, v'). split; [auto|]. simpl. lia.
Qed.

(** What the area loses, up to vma_cleanup: a range in its middle splits it first.
    [s1] is the state vma_cleanup starts from. *)
Lemma munmap_cut (s : S) pid xs p v L ns addr len :
  vma_inv s pid xs L (1 * sizeof_vm_area :: ns) → cur_process s = pid → 0 ∉ L → (p, v) ∈ xs →
  a_start v ≤ addr → addr + len ≤ a_end v → 0 < len → a_start v < addr ∨ addr + len < a_end v →
  ∃ s1 xs' L', let s' := set_areas (<[p := shrink v addr len]> (areas s1)) s1 in
    (∀ qs, page_list (ppages s) (a_pages v) qs →
      (Forall (within (shrink v addr len)) qs → ∀ fuel, (length qs ≤ fuel)%nat →
        munmap_region fuel addr len s = Done (0, s'))
      ∧ (¬ Forall (within (shrink v addr len)) qs → ∀ fuel r s2, munmap_region fuel addr len s ≠ Done (r, s2)))
    ∧ vma_inv s' pid xs' L' ns
    ∧ (∀ a, covered xs' a ↔ covered xs a ∧ ¬ addr ≤ a < addr + len)
    ∧ (p, shrink v addr len) ∈ xs'
    ∧ (a_start v < addr → addr + len < a_end v → ∃ t, (t, split_tail v (addr + len)) ∈ xs').
Proof.
  intros Hinv Hcur H0L Hin Hs He Hlen Hne.
  assert (p ≠ 0) as Hp0.
  { intros ->. apply H0L, (vi_used _ _ _ _ _ Hinv). apply list_elem_of_fmap. by exists (0, v). }
  assert (∀ s1, ((if (a_start v <? addr) && (addr + len <? a_end v) then
             new_vma ← on_kheap (oh_calloc 1 sizeof_vm_area);
             if new_vma =? 0 then mundef "new_vma->start"
             else
               _ ← put_area new_vma (split_tail v (addr + len));
               _ ← vma_insert pid new_vma;
               mret tt
           else mret tt) s = Done (tt, s1)) → areas s1 !! p = Some v → ppages s1 = ppages s → ∀ qs,
    page_list (ppages s) (a_pages v) qs →
    (Forall (within (shrink v addr len)) qs → ∀ fuel, (length qs ≤ fuel)%nat →
      munmap_region fuel addr len s = Done (0, set_areas (<[p := shrink v addr len]> (areas s1)) s1))
    ∧ (¬ Forall (within (shrink v addr len)) qs → ∀ fuel r s2, munmap_region fuel addr len s ≠ Done (r, s2))) as Hgo.
  { destruct (chain_lb _ _ _ (vi_chain _ _ _ _ _ Hinv) Hin) as (Hlb & _ & Hub). simpl in Hlb, Hub. unfold VMA_BASE in Hlb.
    intros s1 Hs1 Hp1 Hpp qs Hl. rewrite <- Hpp in Hl. split; intros Hw fuel;
      [intros Hf|intros r s2]; rewrite (munmap_found s pid xs p v L _ addr len fuel Hinv Hcur Hin Hp0 Hs He Hlen);
      rewrite (bind_Done _ _ _ _ _ Hs1);
      [apply (munmap_keep s1 pid p v addr len fuel qs)|apply (munmap_stuck s1 pid p v addr len qs)]; (done || lia). }
  destruct (chain_lb _ _ _ (vi_chain _ _ _ _ _ Hinv) Hin) as (Hlb & _ & Hub). simpl in Hlb, Hub. unfold VMA_BASE in Hlb.
  destruct (shrink_range v addr len Hs He Hlen ltac:(lia) Hub) as (Hss & Hse & _).
  apply list_elem_of_split in Hin as (xs1 & xs2 & ->).
  pose proof (vi_chain _ _ _ _ _ Hinv) as Hc. destruct (chain_around _ _ _ _ Hc) as [Hbefore Hafter].
  simpl in Hbefore, Hafter.
  assert (∀ a x, x ∈ xs1 ∨ x ∈ xs2 → covers a x.2 → ¬ addr ≤ a < addr + len) as Hout.
  { intros a x [Hx|Hx] Hax; unfold covers in Hax; [specialize (Hbefore x Hx)|specialize (Hafter x Hx)]; lia. }
  destruct ((a_start v <? addr) && (addr + len <? a_end v)) eqn:Emid.
  - assert (addr =? a_start v = false) as Eneq by (apply Z.eqb_neq; lia). rewrite Eneq in Hss, Hse.
    destruct sizeof_area_ok as (Hsz1 & Hsz2 & Hsz3).
    destruct (oh_calloc_ok _ _ _ _ _ (vi_live _ _ _ _ _ Hinv) Hsz1 Hsz2 Hsz3) as (t & h & Hcalloc & Ht0 & HtL & Hlh).
    set (w := split_tail v (addr + len)).
    assert (a_start w = addr + len ∧ a_end w = a_end v) as [Hws Hwe].
    { unfold w, split_tail. by destruct (a_type v). }
    destruct (split_ok s pid xs1 p v xs2 L ns h t (shrink v addr len) w Hinv HtL Hlh)
      as (s2 & Hins & Hp2 & Hpp & Hinv'); [congruence|lia|lia|lia|done|].
    exists s2, (xs1 ++ (p, shrink v addr len) :: (t, w) :: xs2), (t :: L). split; [apply Hgo; [|done..]|].
    + rewrite (bind_Done _ _ _ _ _ (on_kheap_Done _ s _ _ Hcalloc)). destruct (Z.eqb_spec t 0); [done|].
      rewrite (bind_Done _ _ _ tt (set_areas (<[t := w]> (areas s)) (vs_heap h s))) by reflexivity.
      by rewrite (bind_Done _ _ _ _ _ Hins).
    + split; [exact Hinv'|split; [|split; [apply elem_of_app; right; left|]]].
      2:{ intros _ _. exists t. apply elem_of_app. right. right. left. }
      intros a. rewrite (covered_cut xs1 [(p, shrink v addr len); (t, w)] xs2 (p, v) addr len a Hout); [done|].
      by apply covered_two.
  - exists s, (xs1 ++ (p, shrink v addr len) :: xs2), L.
    assert (areas s !! p = Some v) as Hv.
    { pose proof (vi_areas _ _ _ _ _ Hinv) as Ha. rewrite Forall_forall in Ha. apply (Ha (p, v)).
      apply elem_of_app. right. left. }
    split; [by apply Hgo|].
    assert (a_start v < addr → addr + len < a_end v → False) as Hnmid by (intros; destruct (Z.ltb_spec (a_start v) addr), (Z.ltb_spec (addr + len) (a_end v)); simpl in Emid; lia || done).
    split; [|split; [|split; [apply elem_of_app; right; left|intros; by exfalso; eauto]]].
    + assert (vma_inv s pid (xs1 ++ (p, v) :: xs2) L ns) as Hinv0.
      { destruct Hinv as [? ? ? ? Hlive ?]. split; try done. by eapply oh_skip. }
      apply (put_area_inv s pid xs1 p v); [done| | |]; rewrite ?Hss, ?Hse; destruct (Z.eqb_spec addr (a_start v)); lia.
    + intros a. rewrite (covered_cut xs1 [(p, shrink v addr len)] xs2 (p, v) addr len a Hout); [done|].
      apply (covered_one p v); [done..|]. rewrite Hss, Hse. destruct (Z.eqb_spec addr (a_start v)); [lia|].
      destruct (Z.lt_ge_cases (addr + len) (a_end v)); [exfalso; apply Hnmid; lia|lia].
Qed.

(** C10: munmap of part of an area, a range inside one area and not all of it.
    When the pages recorded for the area all lie in the part that keeps its node,
    munmap_region returns 0 and the process's areas, valid again, cover exactly
    the addresses they covered before that are not in the range; the area keeps
    its node, shrunk from the front or the back, and a range in the middle splits
    it, the tail becoming a new area of the same file at the offset that matches,
    with no pages of its own. When a page of the removed range, or of the tail of a
    split area, was touched, the call never returns a result, whatever the fuel:
    vma_cleanup reads a variable never assigned, or the entry it has just freed. *)
Theorem munmap_region_spec s pid xs p v L ns addr len qs :
  vma_inv s pid xs L (1 * sizeof_vm_area :: ns) → cur_process s = pid → 0 ∉ L → (p, v) ∈ xs →
  a_start v ≤ addr → addr + len ≤ a_end v → 0 < len → a_start v < addr ∨ addr + len < a_end v →
  page_list (ppages s) (a_pages v) qs →
  (Forall (within (shrink v addr len)) qs → ∀ fuel, (length qs ≤ fuel)%nat →
    ∃ s' xs' L', munmap_region fuel addr len s = Done (0, s') ∧ vma_inv s' pid xs' L' ns
      ∧ (∀ a, covered xs' a ↔ covered xs a ∧ ¬ addr ≤ a < addr + len)
      ∧ (p, shrink v addr len) ∈ xs'
      ∧ (a_start v < addr → addr + len < a_end v → ∃ t, (t, split_tail v (addr + len)) ∈ xs'))
  ∧ (¬ Forall (within (shrink v addr len)) qs → ∀ fuel r s', munmap_region fuel addr len s ≠ Done (r, s')).
Proof.
  intros Hinv Hcur H0L Hin Hs He Hlen Hne Hl.
  destruct (munmap_cut s pid xs p v L ns addr len Hinv Hcur H0L Hin Hs He Hlen Hne)
    as (s1 & xs' & L' & Hrun & Hinv' & Hcov & Hkept & Htail).
  destruct (Hrun qs Hl) as [Hin_range Hout_range]. split; [|exact Hout_range].
  intros Hw fuel Hf. eexists _, xs', L'. split; [exact (Hin_range Hw fuel Hf)|done].
Qed.

(** *** munmap of a whole area *)

(** What vma_destroy does to the page tables and the heap, page by page. *)
Definition destroy_pages (a : address_space) (qs : list (Z * vma_phys_page)) : M H unit :=
  for_each qs (λ q, _ ← um_unmap a (pg_start q.2); oh_free q.1).

Lemma page_list_delete m p q qs : q ∉ qs.*1 → page_list m p qs → page_list (delete q m) p qs.
Proof.
  revert p. induction qs as [|x qs IH]; intros p Hq; simpl; [done|]. intros (-> & ? & Hx & Hl).
  simpl in Hq. apply not_elem_of_cons in Hq as [Hqx Hq]. split; [done|]. split; [done|].
  split; [by rewrite lookup_delete_ne|]. by apply IH.
Qed.

Lemma destroy_loop_ok vma v pv : ∀ qs (s : S) p h fuel, areas s !! vma = Some v →
  pvms s !! cur_process s = Some pv → page_list (ppages s) p qs → NoDup qs.*1 → (length qs ≤ fuel)%nat →
  destroy_pages (address_space_of pv) qs (fd_heap (vs_fd s)) = Done (tt, h) →
  ∃ s', destroy_loop fuel vma p s = Done (tt, s') ∧ fd_heap (vs_fd s') = h
    ∧ areas s' = areas s ∧ pvms s' = pvms s ∧ cur_process s' = cur_process s.
Proof.
  induction qs as [|q qs IH]; intros s p h fuel Hv Hpv Hl Hnd Hf Hd.
  { simpl in Hl. subst p. injection Hd as <-. exists s. split; [by destruct fuel|].
    done. }
  destruct fuel as [|k]; [simpl in Hf; lia|]. simpl in Hf. destruct Hl as (-> & Hq0 & Hq & Hl).
  simpl in Hnd. apply NoDup_cons in Hnd as [Hqn Hnd].
  unfold destroy_pages in Hd. cbn [for_each] in Hd. apply bind_inv in Hd as (u1 & h2 & Hd1 & Hd2).
  apply bind_inv in Hd1 as ([] & h1 & Hun & Hfree).
  destruct (page_message_ok "Destroying page at " " which is in the VMA range [" (pg_start q.2) v s)
    as (s1 & Hmsg & Hheap & Hareas & Hpp & Hpvm & Hcur).
  set (s2 := vs_heap h1 s1). set (s3 := set_ppages (delete q.1 (ppages s2)) (vs_heap h2 s2)).
  destruct (IH s3 (pg_next q.2) h k) as (s' & Hrun & Hh' & Ha' & Hp' & Hc').
  { cbn. by rewrite Hareas. }
  { cbn. by rewrite Hpvm, Hcur. }
  { cbn. rewrite Hpp. by apply page_list_delete. }
  { done. }
  { lia. }
  { exact Hd2. }
  exists s'. split; [|split; [done|split; [by rewrite Ha'|split; [by rewrite Hp'|by rewrite Hc']]]].
  cbn [destroy_loop]. destruct (Z.eqb_spec q.1 0); [done|].
    rewrite (bind_Done _ _ _ _ _ (get_page_ok s _ _ Hq)), (bind_Done _ _ _ _ _ (get_area_at s _ _ Hv)).
    rewrite (bind_Done _ _ _ _ _ Hmsg). rewrite (bind_Done _ _ _ (cur_process s) s1) by (unfold gets; by rewrite Hcur).
    rewrite (bind_Done _ _ _ pv s1) by (unfold get_pvm; by rewrite Hpvm, Hpv).
    rewrite (bind_Done _ _ _ tt s2) by (apply on_kheap_Done; by rewrite Hheap).
    rewrite (bind_Done _ _ _ tt s3); [exact Hrun|]. unfold free_page.
    rewrite (bind_Done _ _ _ tt (vs_heap h2 s2)); [reflexivity|]. apply on_kheap_Done.
    destruct u1. exact Hfree.
Qed.

(** Munmap of a whole area. Once unmapping the pages recorded for it and freeing
    their entries completes, munmap_region returns 0, the area and its node are
    gone, its object is back in the heap, and the process covers exactly the
    addresses it covered before outside the area. *)
Theorem munmap_region_whole s pid pv xs p v L L1 ns fuel qs h :
  vma_inv s pid xs L ns → cur_process s = pid → 0 ∉ L → (p, v) ∈ xs → pvms s !! pid = Some pv →
  page_list (ppages s) (a_pages v) qs → NoDup qs.*1 → (length qs ≤ fuel)%nat →
  destroy_pages (address_space_of pv) qs (fd_heap (vs_fd s)) = Done (tt, h) →
  oh_live h L1 ns → (∀ q, q ∈ xs.*1 → q ∈ L1) →
  ∃ s' xs' L', munmap_region fuel (a_start v) (a_end v - a_start v) s = Done (0, s')
    ∧ vma_inv s' pid xs' L' ns ∧ L1 ≡ₚ p :: L'
    ∧ (∀ a, covered xs' a ↔ covered xs a ∧ ¬ covers a v)
    ∧ p ∉ xs'.*1 ∧ areas s' !! p = None.
Proof.
  intros Hinv Hcur H0L Hin Hpv Hl Hnd Hf Hd Hlive HL1.
  assert (p ≠ 0) as Hp0.
  { intros ->. apply H0L, (vi_used _ _ _ _ _ Hinv). apply list_elem_of_fmap. by exists (0, v). }
  destruct (chain_lb _ _ _ (vi_chain _ _ _ _ _ Hinv) Hin) as (Hlb & Hne & Hub). simpl in Hlb, Hne, Hub.
  unfold VMA_BASE in Hlb.
  rewrite (munmap_found s pid xs p v L _ _ _ fuel Hinv Hcur Hin Hp0) by lia.
  assert ((a_start v <? a_start v) = false) as -> by (apply Z.ltb_irrefl). cbn [andb].
  rewrite (bind_Done _ _ _ tt s) by reflexivity.
  destruct (shrink_range v (a_start v) (a_end v - a_start v)) as (Hss & Hse & Hsp); try lia.
  rewrite Z.eqb_refl in Hss, Hse. replace (a_start v + (a_end v - a_start v)) with (a_end v) in Hss by lia.
  set (v' := shrink v (a_start v) (a_end v - a_start v)) in *.
  apply list_elem_of_split in Hin as (xs1 & xs2 & ->).
  destruct Hinv as [(pv0 & Hpv0 & Ht) Ha Hc Hndx _ Hu]. assert (pv0 = pv) as -> by congruence.
  set (s1 := set_areas (<[p := v']> (areas s)) s).
  rewrite (bind_Done _ _ _ v s) by exact (get_area_ok s _ (p, v) Ha ltac:(apply elem_of_app; right; left)).
  rewrite (bind_Done _ _ _ tt s1) by reflexivity.
  assert (areas s1 !! p = Some v') as Hp1 by apply lookup_insert_eq.
  rewrite (bind_Done _ _ _ _ _ (get_area_at s1 _ _ Hp1)).
  destruct (Z.leb_spec (a_end v') (a_start v')); [|lia].
  destruct (chain_around _ _ _ _ Hc) as [Hbefore Hafter]. simpl in Hbefore, Hafter.
  pose proof Hndx as Hndx'. rewrite fmap_app in Hndx'. simpl in Hndx'. rewrite <- Permutation_middle in Hndx'.
  apply NoDup_cons in Hndx' as [Hpx Hndx2].
  assert (weakly_ordered (vkey s1) (inorder (vma_tree pv))) as Hwo.
  { assert ((xs1 ++ (p, v) :: xs2).*1 = (xs1.*1 ++ p :: xs2.*1)) as El by (by rewrite fmap_app).
    rewrite Ht, El. apply (weakly_ordered_raise (vkey s)).
    - rewrite <- El. by apply (xs_ordered s VMA_BASE).
    - intros q Hq. unfold vma_tree_get_value. cbn. by rewrite lookup_insert_ne by done.
    - change (vkey s (p, v).1 ≤ vkey s1 p). rewrite (vkey_at s _ (p, v) Ha ltac:(apply elem_of_app; right; left)).
      unfold vma_tree_get_value. rewrite Hp1, Hss. simpl. lia.
    - intros q (x & -> & Hx)%list_elem_of_fmap. rewrite (vkey_at s _ x Ha ltac:(apply elem_of_app; right; by right)).
      unfold vma_tree_get_value. rewrite Hp1, Hss. by apply Hafter. }
  set (t := bst_remove (vkey s1) (vma_tree pv) p).
  assert (inorder t = (xs1 ++ xs2).*1) as Htr.
  { unfold t. rewrite (bl_remove (vkey s1) (vma_tree pv) p Hwo); [|rewrite Ht; exact Hndx]. rewrite Ht, !fmap_app.
    change (((p, v) :: xs2).*1) with (p :: xs2.*1).
    apply not_elem_of_app in Hpx as [Hpx1 Hpx2].
    assert (∀ l : list Z, p ∉ l → filter (λ q, q ≠ p) l = l) as Hfl.
    { induction l as [|q l IH]; intros Hpl; [done|]. apply not_elem_of_cons in Hpl as [Hpq Hpl].
      rewrite filter_cons_True by congruence. by rewrite IH. }
    rewrite filter_app, filter_cons_False by (intros Hpp; by apply Hpp). by rewrite !Hfl. }
  set (pv' := mk_pvm (address_space_of pv) t).
  set (s2 := set_pvms (<[pid := pv']> (pvms s1)) s1).
  rewrite (bind_Done _ _ _ tt s2).
  2:{ unfold vma_remove. rewrite (bind_Done _ _ _ _ _ (get_pvm_ok s1 pid pv Hpv)). reflexivity. }
  destruct (destroy_loop_ok p v' pv' qs s2 (a_pages v) h fuel) as (s3 & Hrun & Hh & Ha3 & Hp3 & Hc3); try done.
  { cbn. rewrite Hcur. apply lookup_insert_eq. }
  rewrite (bind_Done _ _ _ tt s3).
  2:{ unfold vma_destroy. rewrite (bind_Done _ _ _ _ _ (get_area_at s2 p v' Hp1)). by rewrite Hsp. }
  assert (p ∈ L1) as HpL1.
  { apply HL1. rewrite fmap_app. apply elem_of_app. right. left. }
  apply elem_of_Permutation in HpL1 as [L' HL'].
  destruct (oh_free_ok h L1 L' p ns Hlive HL') as (h4 & Hfree & Hlive4).
  set (s4 := set_areas (delete p (areas s3)) (vs_heap h4 s3)).
  exists s4, (xs1 ++ xs2), L'. split; [|split; [|split; [done|split; [|split; [|cbn; apply lookup_delete_eq]]]]].
  - rewrite (bind_Done _ _ _ tt s4); [reflexivity|]. unfold free_area.
    rewrite (bind_Done _ _ _ tt (vs_heap h4 s3)); [reflexivity|]. apply on_kheap_Done. by rewrite Hh.
  - assert (p ∉ (xs1 ++ xs2).*1) as Hpn by (by rewrite fmap_app).
    split.
    + exists pv'. split; [|exact Htr]. cbn. rewrite Hp3. apply lookup_insert_eq.
    + apply Forall_app in Ha as [Ha1 Ha2]. apply Forall_cons in Ha2 as [_ Ha2].
      apply (areas_same s); [|by apply Forall_app].
      intros q Hq. cbn. rewrite Ha3. cbn. rewrite lookup_delete_ne, lookup_insert_ne; [done| |]; by intros ->.
    + apply chain_app in Hc as [? (? & ? & ? & ?)]. apply chain_app. split; [done|].
      eapply chain_mono; [|done]. simpl in *. lia.
    + by rewrite fmap_app.
    + exact Hlive4.
    + intros q Hq. assert (q ∈ L1) as HqL.
      { apply HL1. rewrite fmap_app in Hq |- *. simpl. rewrite <- Permutation_middle. by right. }
      rewrite HL' in HqL. apply elem_of_cons in HqL as [->|]; [done|done].
  - intros a. assert (covers a v ↔ a_start v ≤ a < a_start v + (a_end v - a_start v)) as -> by (unfold covers; lia).
    apply (covered_cut xs1 [] xs2 (p, v) (a_start v) (a_end v - a_start v) a).
    + intros b x [Hx|Hx] Hb; unfold covers in Hb; [specialize (Hbefore x Hx)|specialize (Hafter x Hx)]; lia.
    + unfold covered, covers. simpl. split; [by intros (x & ?%not_elem_of_nil & _)|lia].
  - by rewrite fmap_app.
Qed.
(** *** Page faults *)

(** Appending to a list of pages. *)
Lemma append_page_ok new nv : ∀ qs (s : S) p fuel, page_list (ppages s) p qs → NoDup qs.*1 → qs ≠ [] →
  new ∉ qs.*1 → new ≠ 0 → ppages s !! new = Some nv → pg_next nv = 0 → (length qs ≤ fuel)%nat →
  ∃ m qs', append_page fuel p new s = Done (tt, set_ppages m s) ∧ page_list m p (qs' ++ [(new, nv)])
    ∧ (λ q, (q.1, pg_start q.2, pg_phys q.2)) <$> qs' = (λ q, (q.1, pg_start q.2, pg_phys q.2)) <$> qs
    ∧ ∀ r, r ∉ qs.*1 → m !! r = ppages s !! r.
Proof.
  induction qs as [|q qs IH]; intros s p fuel Hl Hnd Hne Hnew Hn0 Hnv Hnn Hf; [done|].
  destruct Hl as (-> & Hq0 & Hq & Hl). simpl in Hnd, Hnew. apply NoDup_cons in Hnd as [Hqn Hnd].
  apply not_elem_of_cons in Hnew as [Hnq Hnew].
  assert (append_page fuel q.1 new s =
    (if pg_next q.2 =? 0 then put_page q.1 (set_next q.2 new)
     else match fuel with O => λ _, OutOfFuel | Datatypes.S k => append_page k (pg_next q.2) new end) s) as ->.
  { destruct fuel; simpl; by rewrite (bind_Done _ _ _ _ _ (get_page_ok s _ _ Hq)). }
  destruct qs as [|q' qs].
  - simpl in Hl. rewrite Hl, Z.eqb_refl.
    exists (<[q.1 := set_next q.2 new]> (ppages s)), [(q.1, set_next q.2 new)]. split; [reflexivity|].
    split; [|split; [done|]].
    + simpl. split; [done|]. split; [done|]. split; [apply lookup_insert_eq|]. split; [done|]. split; [done|].
      split; [|done]. rewrite lookup_insert_ne by congruence. done.
    + intros r Hr. simpl in Hr. apply not_elem_of_cons in Hr as [Hr _]. by rewrite lookup_insert_ne by congruence.
  - destruct fuel as [|k]; [simpl in Hf; lia|]. destruct (Z.eqb_spec (pg_next q.2) 0) as [E|_].
    { destruct Hl as (? & ? & _). by rewrite E in *. }
    destruct (IH s (pg_next q.2) k Hl Hnd ltac:(done) Hnew Hn0 Hnv Hnn ltac:(simpl in *; lia))
      as (m & qs' & Hrun & Hlm & Hfm & Hm).
    exists m, (q :: qs'). split; [exact Hrun|]. split; [|split].
    + simpl. split; [done|]. split; [done|]. split; [|exact Hlm]. by rewrite Hm.
    + cbn [fmap list_fmap]. f_equal. exact Hfm.
    + intros r Hr. simpl in Hr. apply not_elem_of_cons in Hr as [_ Hr]. by apply Hm.
Qed.

(** The pages of an area as the code sees them: entry, virtual and physical page. *)
Definition pages_of (qs : list (Z * vma_phys_page)) : list (Z * Z * Z) :=
  (λ q, (q.1, pg_start q.2, pg_phys q.2)) <$> qs.

Lemma vma_add_page_ok (s : S) vma v qs L ns h q start phys fuel : areas s !! vma = Some v →
  page_list (ppages s) (a_pages v) qs → NoDup qs.*1 → (∀ r, r ∈ qs.*1 → r ∈ L) →
  oh_alloc sizeof_phys_page (fd_heap (vs_fd s)) = Done (q, h) → q ≠ 0 → q ∉ L → oh_live h (q :: L) ns →
  (length qs ≤ fuel)%nat →
  ∃ s' v' qs', vma_add_page fuel vma start phys s = Done (tt, s') ∧ fd_heap (vs_fd s') = h
    ∧ areas s' !! vma = Some v' ∧ a_start v' = a_start v ∧ a_end v' = a_end v
    ∧ page_list (ppages s') (a_pages v') qs' ∧ pages_of qs' = pages_of qs ++ [(q, start, phys)].
Proof.
  intros Hv Hl Hnd HqL Halloc Hq0 HqnL _ Hf.
  assert (q ∉ qs.*1) as Hqn by (intros Hin; by apply HqnL, HqL).
  set (nv := mk_page start phys 0).
  set (s1 := set_ppages (<[q := nv]> (ppages s)) (vs_heap h s)).
  assert (page_list (ppages s1) (a_pages v) qs) as Hl1.
  { cbn. clear -Hl Hqn. revert Hl. generalize (a_pages v). induction qs as [|x qs IH]; intros p; simpl; [done|].
    simpl in Hqn. apply not_elem_of_cons in Hqn as [Hqx Hqn]. intros (-> & ? & ? & ?). split; [done|]. split; [done|].
    split; [by rewrite lookup_insert_ne by congruence|]. by apply IH. }
  unfold vma_add_page. rewrite (bind_Done _ _ _ _ _ (on_kheap_Done _ s _ _ Halloc)).
  destruct (Z.eqb_spec q 0); [done|]. rewrite (bind_Done _ _ _ tt s1) by reflexivity.
  rewrite (bind_Done _ _ _ v s1) by (by apply get_area_at).
  destruct qs as [|x qs].
  - simpl in Hl. rewrite Hl, Z.eqb_refl.
    exists (set_areas (<[vma := set_pages_head v q]> (areas s1)) s1), (set_pages_head v q), [(q, nv)].
    split; [reflexivity|]. split; [done|]. split; [apply lookup_insert_eq|]. split; [done|]. split; [done|].
    split; [|done]. simpl. split; [done|]. split; [done|]. split; [apply lookup_insert_eq|done].
  - assert (a_pages v ≠ 0) as Hp0 by (by destruct Hl as (? & ? & _)).
    destruct (Z.eqb_spec (a_pages v) 0); [done|].
    destruct (append_page_ok q nv (x :: qs) s1 (a_pages v) fuel Hl1 Hnd ltac:(done) Hqn Hq0
      ltac:(apply lookup_insert_eq) eq_refl Hf) as (m & qs' & Hrun & Hlm & Hfm & _).
    exists (set_ppages m s1), v, (qs' ++ [(q, nv)]). split; [exact Hrun|]. split; [done|]. split; [done|].
    split; [done|]. split; [done|]. split; [exact Hlm|]. unfold pages_of. rewrite fmap_app. by rewrite Hfm.
Qed.

(** A fault in an anonymous area. When the allocator has a page, the mapping
    succeeds and the heap has room for the entry, vma_fault_handler maps the page
    at the faulting address rounded down, user-accessible and writable, clears it,
    returns true, and appends exactly this page to those recorded for the area,
    whose bounds stay. *)
Theorem vma_fault_handler_anon s vma v qs L ns addr pv phys h1 h2 h3 q h4 fuel :
  areas s !! vma = Some v → a_type v = VMA_ANON → pvms s !! cur_process s = Some pv →
  page_list (ppages s) (a_pages v) qs → NoDup qs.*1 → (∀ r, r ∈ qs.*1 → r ∈ L) → (length qs ≤ fuel)%nat →
  um_alloc_page (fd_heap (vs_fd s)) = Done (phys, h1) → phys ≠ 0 →
  um_map (address_space_of pv) (ALIGN_DOWN addr PAGE_SIZE) phys
    (Z.lor (Z.lor PAGE_PRESENT PAGE_USER) PAGE_WRITABLE) h1 = Done (tt, h2) →
  oh_live h2 L (sizeof_phys_page :: ns) →
  oh_alloc sizeof_phys_page h2 = Done (q, h3) → um_memset_page phys 0 PAGE_SIZE h3 = Done (tt, h4) →
  ∃ s' v' qs', vma_fault_handler fuel vma addr s = Done (true, s') ∧ fd_heap (vs_fd s') = h4
    ∧ areas s' !! vma = Some v' ∧ a_start v' = a_start v ∧ a_end v' = a_end v
    ∧ page_list (ppages s') (a_pages v') qs'
    ∧ pages_of qs' = pages_of qs ++ [(q, ALIGN_DOWN addr PAGE_SIZE, phys)].
Proof.
  intros Hv Hty Hpv Hl Hnd HqL Hf Halloc Hp0 Hmap Hlive Hq Hms.
  destruct (oh_alloc_ok h2 L sizeof_phys_page ns Hlive) as (q' & h3' & Hq' & Hq0 & HqnL & Hl3);
    [unfold sizeof_phys_page; lia|].
  destruct (Done_fun _ _ _ _ _ _ Hq Hq') as [<- <-].
  set (s2 := vs_heap h2 (vs_heap h1 s)).
  destruct (vma_add_page_ok s2 vma v qs L ns h3 q (ALIGN_DOWN addr PAGE_SIZE) phys fuel)
    as (s3 & v' & qs' & Hadd & Hh3 & Hv' & Hs' & He' & Hl' & Hqs'); try done.
  exists (vs_heap h4 s3), v', qs'. split; [|done].
  unfold vma_fault_handler. rewrite (bind_Done _ _ _ _ _ (get_area_at s _ _ Hv)), Hty.
  rewrite (bind_Done _ _ _ _ _ (on_kheap_Done _ s _ _ Halloc)). destruct (Z.eqb_spec phys 0); [done|].
  rewrite (bind_Done _ _ _ (cur_process s) (vs_heap h1 s)) by reflexivity.
  rewrite (bind_Done _ _ _ pv (vs_heap h1 s)) by (by apply get_pvm_ok).
  rewrite (bind_Done _ _ _ tt s2) by (by apply on_kheap_Done).
  rewrite (bind_Done _ _ _ _ _ Hadd). rewrite (bind_Done _ _ _ tt (vs_heap h4 s3)); [reflexivity|].
  apply on_kheap_Done. by rewrite Hh3.
Qed.
End vma_spec.

Module VmaWitness.
Import DemoObjects DemoBst VfsWitness TermWitness FdWitness.

(** Page tables that accept everything, over the heap that never reuses. *)
#[export] Instance demo_user_map : UserMap bump := {|
  um_map _ _ _ _ h := Done (tt, h);
  um_unmap _ _ h := Done (tt, h);
  um_lookup _ h := Done (0, h);
  um_alloc_page h := Done (0x7000, h);
  um_memset_page _ _ _ h := Done (tt, h);
|}.

Definition area1 : vm_area := mk_area VMA_BASE (VMA_BASE + 0x3000) 0 VMA_ANON 0x400 0 0.
Definition area2 : vm_area := mk_area (VMA_BASE + 0x5000) (VMA_BASE + 0x6000) 0 VMA_ANON 0 0 0.
Definition demo_xs : areas_t := [(0x200, area1); (0x300, area2)].
Definition page1 : vma_phys_page := mk_page VMA_BASE 0x6000 0.
Definition demo_pvm : proc_vm := mk_pvm (mk_as 0 0) (spine [0x200; 0x300]).
Definition demo_vs : vma_state bump := mk_vs _ demo_fd
  {[ 0x200 := area1; 0x300 := area2 ]} {[ 0x400 := page1 ]} {[ 1 := demo_pvm ]} 1.
Definition demo_L : list Z := [0x200; 0x300; 0x400].

Lemma demo_live l ns : Forall (λ n, 0 ≤ n) ns → bool_decide (NoDup l) = true →
  forallb (λ p, (0 <? p) && (p <? 4096) && (p mod 16 =? 0)) l = true → oh_live (fd_heap demo_fd) l ns.
Proof.
  intros Hns Hnd Hl. split; [by vm_compute|]. split; [by apply bool_decide_eq_true in Hnd|]. split; [|done].
  apply Forall_forall. intros p Hp. rewrite forallb_forall in Hl. specialize (Hl p ltac:(by apply list_elem_of_In)).
  simpl. lia.
Qed.

Lemma demo_vs_inv ns : Forall (λ n, 0 ≤ n) ns → vma_inv demo_vs 1 demo_xs demo_L ns.
Proof.
  intros Hns. split.
  - exists demo_pvm. split; reflexivity.
  - repeat constructor.
  - repeat split; simpl; lia.
  - apply (bool_decide_unpack _). by vm_compute.
  - by apply demo_live.
  - intros p Hp. unfold demo_xs, demo_L in *. simpl in Hp. set_solver.
Qed.

Lemma no_request : Forall (λ n, 0 ≤ n) [].
Proof. constructor. Qed.
Lemma area_request : Forall (λ n, 0 ≤ n) [1 * sizeof_vm_area].
Proof. apply Forall_singleton. vm_compute. discriminate. Qed.
Lemma demo_L_nz : 0 ∉ demo_L.
Proof. apply (bool_decide_unpack _). by vm_compute. Qed.
Lemma area1_in : (0x200, area1) ∈ demo_xs.
Proof. left. Qed.

Lemma vma_find_spec_witness : ∃ r, vma_find 1 (VMA_BASE + 0x1000) demo_vs = Done (r, demo_vs) ∧ r = 0x200.
Proof.
  destruct (vma_find_spec demo_vs 1 demo_xs demo_L [] (VMA_BASE + 0x1000) (demo_vs_inv [] no_request) demo_L_nz)
    as (r & Hr & _ & Hx).
  exists r. split; [exact Hr|]. apply (Hx _ area1_in). unfold covers. simpl. lia.
Defined.

Lemma vma_find_free_region_spec_witness :
  ∃ r, vma_find_free_region 1 0x2000 demo_vs = Done (r, demo_vs)
    ∧ ∀ x, x ∈ demo_xs → ¬ meets r (r + 0x2000) x.2.
Proof.
  destruct (vma_find_free_region_spec demo_vs 1 demo_xs demo_L [] 0x2000 (demo_vs_inv [] no_request))
    as (r & Hr & _ & Hfree & _); [lia|vm_compute; reflexivity|].
  exists r. split; [exact Hr|exact Hfree].
Defined.

Lemma do_sys_mmap_spec_witness :
  ∃ s', do_sys_mmap 0 100 3 0 (-1) 0 demo_vs = Done (VMA_BASE + 0x3000, s').
Proof.
  destruct (do_sys_mmap_spec demo_vs 1 demo_xs demo_L [] 0 100 3 0 (-1) 0 0 true
    (demo_vs_inv _ area_request) eq_refl) as (s' & xs' & p & v & Hrun & _).
  - repeat constructor.
  - reflexivity.
  - left. split; reflexivity.
  - lia.
  - lia.
  - vm_compute. reflexivity.
  - exists s'. exact Hrun.
Defined.

(** The area with a page touched at its end, which the range to remove holds. *)
Definition touched_vs : vma_state bump := mk_vs _ demo_fd (areas demo_vs)
  {[ 0x400 := mk_page (VMA_BASE + 0x1000) 0x6000 0 ]} (pvms demo_vs) 1.
Lemma touched_vs_inv ns : Forall (λ n, 0 ≤ n) ns → vma_inv touched_vs 1 demo_xs demo_L ns.
Proof. intros Hns. by destruct (demo_vs_inv ns Hns). Qed.

Lemma munmap_region_spec_witness :
  (∃ s' xs', munmap_region 1 (VMA_BASE + 0x1000) 0x1000 demo_vs = Done (0, s')
    ∧ (∀ a, covered xs' a ↔ covered demo_xs a ∧ ¬ VMA_BASE + 0x1000 ≤ a < VMA_BASE + 0x1000 + 0x1000))
  ∧ (∀ fuel r s', munmap_region fuel (VMA_BASE + 0x1000) 0x1000 touched_vs ≠ Done (r, s')).
Proof.
  split.
  - destruct (munmap_region_spec demo_vs 1 demo_xs 0x200 area1 demo_L [] (VMA_BASE + 0x1000) 0x1000 [(0x400, page1)]
      (demo_vs_inv _ area_request) eq_refl demo_L_nz area1_in) as [Hrun _].
    + simpl. lia.
    + simpl. lia.
    + lia.
    + simpl. lia.
    + simpl. repeat split; lia.
    + destruct Hrun with (fuel := 1%nat) as (s' & xs' & L' & Hrun' & _ & Hcov & _).
      * apply Forall_singleton. unfold within. vm_compute. split; [discriminate|reflexivity].
      * simpl. lia.
      * exists s', xs'. split; [exact Hrun'|exact Hcov].
  - refine (proj2 (munmap_region_spec touched_vs 1 demo_xs 0x200 area1 demo_L [] (VMA_BASE + 0x1000) 0x1000
      [(0x400, mk_page (VMA_BASE + 0x1000) 0x6000 0)] (touched_vs_inv _ area_request) eq_refl demo_L_nz area1_in _ _ _ _ _) _).
    + simpl. lia.
    + simpl. lia.
    + lia.
    + simpl. lia.
    + simpl. repeat split; lia.
    + rewrite Forall_singleton. unfold within. vm_compute. intros [_ H]. discriminate.
Defined.

Lemma munmap_region_whole_witness :
  ∃ s', munmap_region 1 VMA_BASE 0x3000 demo_vs = Done (0, s') ∧ areas s' !! 0x200 = None.
Proof.
  destruct (munmap_region_whole demo_vs 1 demo_pvm demo_xs 0x200 area1 demo_L [0x200; 0x300] [] 1 [(0x400, page1)]
    (mk_bump 4096) (demo_vs_inv [] no_request) eq_refl demo_L_nz area1_in eq_refl) as (s' & xs' & L' & Hrun & _ & _ & _ & _ & Hn).
  - simpl. repeat split; lia.
  - apply NoDup_singleton.
  - simpl. lia.
  - reflexivity.
  - by apply demo_live.
  - intros q Hq. exact Hq.
  - exists s'. split; [exact Hrun|exact Hn].
Defined.

(** An area whose only page is outside it. *)
Definition stray_vs : vma_state bump := mk_vs _ demo_fd
  {[ 0x200 := mk_area (VMA_BASE + 0x1000) (VMA_BASE + 0x3000) 0 VMA_ANON 0x400 0 0 ]} {[ 0x400 := page1 ]}
  {[ 1 := demo_pvm ]} 1.

Lemma vma_cleanup_out_of_range_witness : vma_cleanup 2 0x200 stray_vs = Undef "prev is uninitialised".
Proof.
  apply (vma_cleanup_out_of_range stray_vs 0x200 (mk_area (VMA_BASE + 0x1000) (VMA_BASE + 0x3000) 0 VMA_ANON 0x400 0 0)
    [] (0x400, page1) [] demo_pvm (mk_bump 4096) (mk_bump 4096)); try reflexivity.
  - simpl. repeat split; lia.
  - constructor.
  - unfold within. simpl. lia.
Defined.

Lemma vma_fault_handler_anon_witness :
  ∃ s' v' qs', vma_fault_handler 1 0x200 (VMA_BASE + 0x1234) demo_vs = Done (true, s')
    ∧ page_list (ppages s') (a_pages v') qs'
    ∧ pages_of qs' = [(0x400, VMA_BASE, 0x6000); (4096, VMA_BASE + 0x1000, 0x7000)].
Proof.
  destruct (vma_fault_handler_anon demo_vs 0x200 area1 [(0x400, page1)] demo_L [] (VMA_BASE + 0x1234) demo_pvm 0x7000
    (mk_bump 4096) (mk_bump 4096) (mk_bump 4128) 4096 (mk_bump 4128) 1)
    as (s' & v' & qs' & Hrun & _ & _ & _ & _ & Hl & Hq); try reflexivity.
  - simpl. repeat split; lia.
  - apply NoDup_singleton.
  - intros r Hr. unfold demo_L. set_solver.
  - lia.
  - apply demo_live; [|reflexivity|reflexivity]. apply Forall_singleton. vm_compute. discriminate.
  - exists s', v', qs'. split; [exact Hrun|]. split; [exact Hl|exact Hq].
Defined.
End VmaWitness.
