(* ===== verification/Words.v ===== *)
(** * 64-bit words in memory, and stacks that grow down

    [push_words] is a run of the C statement [*(--sp) = v] over the values of a
    list; [words] says which words memory holds from an address on. Shared by the
    kernel stacks of threads (Sched.v) and the initial stack of processes
    (Proc.v). *)
From S2P Require Import Prelude CMem.

(** Memory holds the words [ws] from [a] on. *)
Fixpoint words (m : mem) (a : Z) (ws : list Z) : Prop :=
  match ws with
  | [] => True
  | w :: ws' => ld64 m a = w ∧ words m (a + 8) ws'
  end.

(** *(--sp) = v; for every [v] of the list: the new stack pointer and memory. *)
Fixpoint push_words (vs : list Z) (x : Z * mem) : Z * mem :=
  match vs with
  | [] => x
  | v :: vs' => let sp := u64 (x.1 - 8) in push_words vs' (sp, st64 sp v x.2)
  end.

(** Two memories agree outside the bytes from [lo] up to [hi]. *)
Definition same_outside (lo hi : Z) (m m' : mem) : Prop :=
  ∀ b, b < lo ∨ hi ≤ b → ldb m' b = ldb m b.

Lemma words_app m a ws ws' :
  words m a (ws ++ ws') ↔ words m a ws ∧ words m (a + 8 * Z.of_nat (length ws)) ws'.
Proof.
  revert a. induction ws as [|w ws IH]; intros a; simpl.
  - rewrite Z.add_0_r. tauto.
  - rewrite IH. replace (a + 8 + 8 * Z.of_nat (length ws)) with (a + 8 * Z.of_nat (S (length ws))) by lia.
    tauto.
Qed.

Lemma words_ext m m' a ws : words m a ws →
  (∀ b, a ≤ b < a + 8 * Z.of_nat (length ws) → ldb m' b = ldb m b) → words m' a ws.
Proof.
  revert a. induction ws as [|w ws IH]; intros a Hw Hm; [done|].
  simpl in Hm. destruct Hw as [Hw Hws]. split.
  - rewrite <- Hw. apply ldn_ext. intros b Hb. apply Hm. lia.
  - apply IH; [done|]. intros b Hb. apply Hm. lia.
Qed.

Lemma words_lookup m a ws i w : words m a ws → ws !! i = Some w → ld64 m (a + 8 * Z.of_nat i) = w.
Proof.
  revert a i. induction ws as [|v ws IH]; intros a i Hw Hi; [done|].
  destruct Hw as [Hw Hws]. destruct i as [|i].
  - simpl in Hi. injection Hi as <-. by rewrite Z.add_0_r.
  - simpl in Hi. rewrite <- (IH _ _ Hws Hi). f_equal. lia.
Qed.

Lemma same_outside_refl lo hi m : same_outside lo hi m m.
Proof. by intros b _. Qed.

Lemma same_outside_trans lo hi m m' m'' :
  same_outside lo hi m m' → same_outside lo hi m' m'' → same_outside lo hi m m''.
Proof. intros H1 H2 b Hb. by rewrite H2, H1. Qed.

Lemma same_outside_weaken lo hi lo' hi' m m' : lo' ≤ lo → hi ≤ hi' →
  same_outside lo hi m m' → same_outside lo' hi' m m'.
Proof. intros Hlo Hhi H b Hb. apply H. lia. Qed.

Lemma same_outside_st64 a v m : same_outside a (a + 8) m (st64 a v m).
Proof. intros b Hb. apply ldb_stn_ne. lia. Qed.

(** What a run of pushes leaves: the words, last pushed first, below the old
    stack pointer, and nothing else changed. *)
Lemma push_words_ok vs sp m :
  0 ≤ sp - 8 * Z.of_nat (length vs) → sp < 2 ^ 64 →
  (push_words vs (sp, m)).1 = sp - 8 * Z.of_nat (length vs)
  ∧ words (push_words vs (sp, m)).2 (sp - 8 * Z.of_nat (length vs)) (reverse (u64 <$> vs))
  ∧ same_outside (sp - 8 * Z.of_nat (length vs)) sp m (push_words vs (sp, m)).2.
Proof.
  revert sp m. induction vs as [|v vs IH]; intros sp m Hsp Hlt.
  - simpl. rewrite Z.sub_0_r. split; [done|]. split; [done|]. by intros b _.
  - simpl length in *. simpl push_words.
    rewrite (u64_small (sp - 8)) by lia.
    destruct (IH (sp - 8) (st64 (sp - 8) v m)) as (E1 & E2 & E3); [lia|lia|].
    replace (sp - 8 * Z.of_nat (S (length vs))) with (sp - 8 - 8 * Z.of_nat (length vs)) by lia.
    split; [done|]. split.
    + rewrite fmap_cons, reverse_cons, words_app. split; [done|]. rewrite length_reverse, length_fmap. split; [|done].
      replace (sp - 8 - 8 * Z.of_nat (length vs) + 8 * Z.of_nat (length vs)) with (sp - 8) by lia.
      rewrite (ldn_ext 8 (st64 (sp - 8) v m)).
      * by rewrite ld64_st64_eq.
      * intros b Hb. apply E3. lia.
    + apply (same_outside_trans _ _ _ (st64 (sp - 8) v m)).
      * apply (same_outside_weaken (sp - 8) (sp - 8 + 8)); [lia|lia|]. apply same_outside_st64.
      * apply (same_outside_weaken (sp - 8 - 8 * Z.of_nat (length vs)) (sp - 8)); [lia|lia|done].
Qed.

Lemma u64_fmap vs : Forall (λ v, 0 ≤ v < 2 ^ 64) vs → u64 <$> vs = vs.
Proof.
  induction 1 as [|v vs Hv _ IH]; [done|]. by rewrite fmap_cons, IH, (u64_small v).
Qed.

Lemma push_words_app vs vs' x : push_words (vs ++ vs') x = push_words vs' (push_words vs x).
Proof. revert x. induction vs as [|v vs IH]; intros x; simpl; [done|apply IH]. Qed.
