(* ===== verification/Chain.v ===== *)
(** * Linked lists of heap objects

    [chain] relates a pointer to the objects of a NULL-terminated list linked by a
    field of a typed object: the scheduler's threads (Sched.v) and the registered
    clocks (Clock.v). *)
From S2P Require Import Prelude.

Section chain.
Context {A : Type} (next : A → Z).
Implicit Types (m : gmap Z A) (l : list Z).

(** The objects of the list that starts at [p]. *)
Fixpoint chain m (p : Z) l : Prop :=
  match l with
  | [] => p = 0
  | q :: l' => p = q ∧ q ≠ 0 ∧ ∃ x, m !! q = Some x ∧ chain m (next x) l'
  end.

Lemma chain_elem m p l q : chain m p l → q ∈ l → q ≠ 0 ∧ ∃ x, m !! q = Some x.
Proof.
  revert p. induction l as [|y l IH]; intros p Hc Hq; [by apply elem_of_nil in Hq|].
  destruct Hc as (-> & Hy & x & Hx & Hc). apply elem_of_cons in Hq as [->|Hq]; [eauto|].
  by apply (IH _ Hc).
Qed.

Lemma chain_lookup m p l i q x : chain m p l → l !! i = Some q → m !! q = Some x →
  next x = default 0 (l !! S i).
Proof.
  revert p i. induction l as [|y l IH]; intros p i Hc Hi Hq; [done|].
  destruct Hc as (-> & Hy & u & Hu & Hc). destruct i as [|i]; [|by apply (IH _ _ Hc)].
  injection Hi as ->. rewrite Hu in Hq. injection Hq as <-.
  simpl. destruct l as [|z l]; [exact Hc|]. by destruct Hc as (-> & _).
Qed.

Lemma chain_head m p l : chain m p l → p = default 0 (hd_error l).
Proof. destruct l as [|y l]; [done|]. by intros (-> & _). Qed.

(** Changes that keep the links keep the list. *)
Lemma chain_ext m m' p l : chain m p l →
  (∀ q x, q ∈ l → m !! q = Some x → ∃ x', m' !! q = Some x' ∧ next x' = next x) →
  chain m' p l.
Proof.
  revert p. induction l as [|y l IH]; intros p Hc Hext; [done|].
  destruct Hc as (-> & Hy & x & Hx & Hc). split; [done|]. split; [done|].
  destruct (Hext y x) as (x' & Hx' & Hn); [apply list_elem_of_here|done|].
  exists x'. split; [done|]. rewrite Hn. apply IH; [done|].
  intros q u Hq. apply Hext. by apply list_elem_of_further.
Qed.

Lemma chain_insert_ne m p l q x : chain m p l → q ∉ l → chain (<[q := x]> m) p l.
Proof.
  intros Hc Hq. apply (chain_ext m); [done|]. intros q' x' Hq' Hx'. exists x'. split; [|done].
  rewrite lookup_insert_ne; [done|]. intros ->. done.
Qed.

Lemma chain_length m p l : chain m p l → NoDup l → (length l ≤ size m)%nat.
Proof.
  intros Hc Hnd. assert (list_to_set l ⊆ dom m) as Hsub.
  { intros q Hq%elem_of_list_to_set. destruct (chain_elem _ _ _ _ Hc Hq) as (_ & x & Hx).
    apply elem_of_dom. eauto. }
  apply subseteq_size in Hsub. rewrite size_list_to_set in Hsub by done.
  by rewrite size_dom in Hsub.
Qed.

Lemma chain_nil m l : chain m 0 l → l = [].
Proof. destruct l as [|y l]; [done|]. intros (<- & ? & _). done. Qed.

(** The loop that finds the last object: [while (x->next) x = x->next], and what
    linking a new object behind it does. *)
Fixpoint find_last (fuel : nat) m (p : Z) : outcome Z :=
  match m !! p with
  | None => Undef "not an object of the list"
  | Some x =>
      if next x =? 0 then Done p
      else match fuel with
      | O => OutOfFuel
      | S k => find_last k m (next x)
      end
  end.

Lemma find_last_ok fuel m p l : chain m p l → l ≠ [] → NoDup l → (length l ≤ S fuel)%nat →
  ∃ q x, find_last fuel m p = Done q ∧ q ∈ l ∧ m !! q = Some x ∧ next x = 0
    ∧ ∀ y (n : Z) z, n ≠ 0 → n ∉ l → m !! n = Some z → next z = 0 → next y = n → chain (<[q := y]> m) p (l ++ [n]).
Proof.
  revert p fuel. induction l as [|q l IH]; intros p fuel Hc Hne Hnd Hlen; [done|]. clear Hne.
  destruct Hc as (-> & Hq & x & Hx & Hc). apply NoDup_cons in Hnd as [Hql Hnd].
  destruct l as [|q' l].
  - exists q, x. split; [destruct fuel; simpl; rewrite Hx, Hc; reflexivity|].
    split; [apply list_elem_of_here|]. split; [done|]. split; [done|].
    intros y n z Hn Hnl Hz Hzn Hy. split; [done|]. split; [done|]. exists y.
    split; [apply lookup_insert_eq|]. rewrite Hy. split; [done|]. split; [done|]. exists z.
    split; [|done]. rewrite lookup_insert_ne; [done|]. intros ->. by destruct Hnl; apply list_elem_of_here.
  - pose proof Hc as (Hq' & Hq0 & _). destruct fuel as [|fuel]; [simpl in Hlen; lia|].
    destruct (IH (next x) fuel Hc) as (r & u & Hr & Hin & Hu & Hun & Hch); [done|done|simpl in *; lia|].
    exists r, u. split; [simpl; rewrite Hx, (proj2 (Z.eqb_neq (next x) 0)) by (by rewrite Hq'); done|].
    split; [by apply list_elem_of_further|]. split; [done|]. split; [done|].
    intros y n z Hn Hnl Hz Hzn Hy. apply not_elem_of_cons in Hnl as [_ Hnl].
    split; [done|]. split; [done|]. exists x. split; [|by eapply Hch].
    rewrite lookup_insert_ne; [done|]. intros ->. done.
Qed.
End chain.
