(* ===== verification/Sched.v ===== *)
(** * Threads and the scheduler: src/scheduler/thread.c, scheduler.c, thread.asm,
    and the arch_prctl system call of src/syscalls/arch/arch.c

    A thread is a heap object; its kernel stack is bytes of the kernel's memory.
    The state has the CPU's registers, so that the context switch of thread.asm
    runs as written: it stores the callee-saved registers on the old stack, the
    FPU image in the old thread, changes stacks and pops the same registers of
    the new thread. The offsets thread.asm uses, 0 and 0x40, are those of the
    fields [rsp] and [fpu_state] of thread_t. *)
From S2P Require Import Prelude CMem Words Chain Phys Vmm Heap.

Definition sizeof_thread : Z := 592.
Definition RFLAGS_IF : Z := 0x200.

(** thread_t *)
Record thread := mk_thread {
  t_rsp : Z;
  t_kernel_stack : Z;
  t_user_stack : Z;
  t_tid : Z;
  t_entry : Z;
  t_process : Z;
  t_next : Z;
  t_fpu_state : list Z;
  t_fs_base : Z;
}.

(** process_t, without the descriptor table and the VMA tree, which Fd.v and
    Vma.v keep *)
Record process := mk_process {
  p_address_space : address_space;
  p_entry_point : Z;
  p_rsp : Z;
  p_user_stack_bottom : Z;
  p_user_stack_bottom_max : Z;
  p_main_thread : Z;
  p_pid : Z;
}.

(** The registers the switch touches. *)
Record cpu := mk_cpu {
  c_rbx : Z; c_rbp : Z; c_r12 : Z; c_r13 : Z; c_r14 : Z; c_r15 : Z;
  c_rsp : Z; c_rip : Z; c_rdi : Z; c_rflags : Z;
  c_fpu : list Z;             (* the FPU state as the image fxsave stores *)
  c_fs_base : Z;              (* the MSR IA32_FS_BASE *)
  c_user : bool;              (* running in ring 3 *)
}.

(** What the scheduler asks of memory and of vmm.c. *)
Class KernelMem (H : Type) := {
  km_mem : H → mem;
  km_set_mem : mem → H → H;
  km_current_cr3 : H → Z;
  km_kernel_cr3 : H → Z;
  km_load_cr3 : Z → H → H;
}.
Class KernelMemLaws `{KM : KernelMem H} := {
  km_get_set : ∀ m h, km_mem (km_set_mem m h) = m;
  km_set_set : ∀ m m' h, km_set_mem m (km_set_mem m' h) = km_set_mem m h;
  km_set_cr3 : ∀ m h, km_current_cr3 (km_set_mem m h) = km_current_cr3 h;
  km_set_kernel : ∀ m h, km_kernel_cr3 (km_set_mem m h) = km_kernel_cr3 h;
  km_load_mem : ∀ c h, km_mem (km_load_cr3 c h) = km_mem h;
  km_load_kernel : ∀ c h, km_kernel_cr3 (km_load_cr3 c h) = km_kernel_cr3 h;
  km_load_current : ∀ c h, 0 ≤ c < 2 ^ 64 → c mod PAGE_SIZE = 0 → km_current_cr3 (km_load_cr3 c h) = c;
}.

(** Addresses the linker gives: the functions a new thread starts in, the
    instruction after the call in schedule, the static [bootstrap_task], and the
    FPU image fpu_init stored. *)
Class ThreadImage := {
  task_bootstrap : Z;
  thread_entry_kernel : Z;
  thread_entry_user : Z;
  schedule_return : Z;
  bootstrap_task : Z;
  fpu_default_state : list Z;
  code_range : 0 ≤ task_bootstrap < 2 ^ 64 ∧ 0 ≤ thread_entry_kernel < 2 ^ 64
    ∧ 0 ≤ thread_entry_user < 2 ^ 64;
}.

Record sched_state {H : Type} := mk_ss {
  ss_heap : H;
  threads : gmap Z thread;
  processes : gmap Z process;
  current_thread : Z;
  thread_list : Z;
  next_tid : Z;
  regs : cpu;
}.
Arguments sched_state : clear implicits.

Section sched.
Context `{OH : ObjectHeap H} `{KM : !KernelMem H} `{TI : ThreadImage}.
Abbreviation S := (sched_state H).

Definition on_ss_heap {A} : M H A → M S A := zoom ss_heap (λ h s,
  mk_ss H h (threads s) (processes s) (current_thread s) (thread_list s) (next_tid s) (regs s)).
Definition set_threads (ts : gmap Z thread) (s : S) : S :=
  mk_ss H (ss_heap s) ts (processes s) (current_thread s) (thread_list s) (next_tid s) (regs s).
Definition set_processes (ps : gmap Z process) (s : S) : S :=
  mk_ss H (ss_heap s) (threads s) ps (current_thread s) (thread_list s) (next_tid s) (regs s).
Definition set_current (p : Z) (s : S) : S :=
  mk_ss H (ss_heap s) (threads s) (processes s) p (thread_list s) (next_tid s) (regs s).
Definition set_thread_list (p : Z) (s : S) : S :=
  mk_ss H (ss_heap s) (threads s) (processes s) (current_thread s) p (next_tid s) (regs s).
Definition set_regs (r : cpu) (s : S) : S :=
  mk_ss H (ss_heap s) (threads s) (processes s) (current_thread s) (thread_list s) (next_tid s) r.
Definition ss_mem (s : S) : mem := km_mem (ss_heap s).
Definition set_ss_mem (m : mem) (s : S) : S :=
  mk_ss H (km_set_mem m (ss_heap s)) (threads s) (processes s) (current_thread s) (thread_list s)
    (next_tid s) (regs s).

Definition get_thread (p : Z) : M S thread := λ s,
  match threads s !! p with Some t => Done (t, s) | None => Undef "not a thread" end.
Definition put_thread (p : Z) (t : thread) : M S unit := modify (λ s, set_threads (<[p := t]> (threads s)) s).
Definition get_process (p : Z) : M S process := λ s,
  match processes s !! p with Some t => Done (t, s) | None => Undef "not a process" end.
Definition put_process (p : Z) (t : process) : M S unit :=
  modify (λ s, set_processes (<[p := t]> (processes s)) s).

Definition set_t_rsp (v : Z) (t : thread) : thread :=
  mk_thread v (t_kernel_stack t) (t_user_stack t) (t_tid t) (t_entry t) (t_process t) (t_next t)
    (t_fpu_state t) (t_fs_base t).
Definition set_t_next (v : Z) (t : thread) : thread :=
  mk_thread (t_rsp t) (t_kernel_stack t) (t_user_stack t) (t_tid t) (t_entry t) (t_process t) v
    (t_fpu_state t) (t_fs_base t).
Definition set_t_fpu (v : list Z) (t : thread) : thread :=
  mk_thread (t_rsp t) (t_kernel_stack t) (t_user_stack t) (t_tid t) (t_entry t) (t_process t) (t_next t)
    v (t_fs_base t).
Definition set_t_fs_base (v : Z) (t : thread) : thread :=
  mk_thread (t_rsp t) (t_kernel_stack t) (t_user_stack t) (t_tid t) (t_entry t) (t_process t) (t_next t)
    (t_fpu_state t) v.

(** ** The CPU *)

Definition set_rsp (v : Z) (r : cpu) : cpu :=
  mk_cpu (c_rbx r) (c_rbp r) (c_r12 r) (c_r13 r) (c_r14 r) (c_r15 r) v (c_rip r) (c_rdi r) (c_rflags r)
    (c_fpu r) (c_fs_base r) (c_user r).

Definition set_fs_base (v : Z) (r : cpu) : cpu :=
  mk_cpu (c_rbx r) (c_rbp r) (c_r12 r) (c_r13 r) (c_r14 r) (c_r15 r) (c_rsp r) (c_rip r) (c_rdi r)
    (c_rflags r) (c_fpu r) v (c_user r).

(** push *)
Definition push (v : Z) : M S unit := modify (λ s,
  let sp := u64 (c_rsp (regs s) - 8) in
  set_regs (set_rsp sp (regs s)) (set_ss_mem (st64 sp v (ss_mem s)) s)).
(** pop *)
Definition pop : M S Z := λ s,
  let sp := c_rsp (regs s) in
  Done (ld64 (ss_mem s) sp, set_regs (set_rsp (u64 (sp + 8)) (regs s)) s).
Definition reg (f : cpu → Z) : M S Z := gets (λ s, f (regs s)).
Definition on_regs (f : cpu → cpu) : M S unit := modify (λ s, set_regs (f (regs s)) s).

(** fxsave and fxrstor fault on an image that is not 16-byte aligned. *)
Definition fx_aligned (thread : Z) : M S unit :=
  if u64 (thread + 0x40) mod 16 =? 0 then mret tt else mundef "general protection: fxsave area".

(** The first half of arch_switch_thread, on the old thread's stack. *)
Definition switch_save (old : Z) : M S unit :=
  (* fxsave [rdi + 0x40] *)
  _ ← fx_aligned old;
  o ← get_thread old;
  fpu ← gets (λ s, c_fpu (regs s));
  _ ← put_thread old (set_t_fpu fpu o);
  _ ← for_each [c_rbx; c_rbp; c_r12; c_r13; c_r14; c_r15] (λ r, v ← reg r; push v);
  (* mov [rdi], rsp *)
  sp ← reg c_rsp;
  o ← get_thread old;
  put_thread old (set_t_rsp sp o).

(** The second half, on the new thread's. *)
Definition switch_load (next : Z) : M S unit :=
  (* mov rsp, [rsi] *)
  n ← get_thread next;
  _ ← on_regs (set_rsp (t_rsp n));
  (* fxrstor [rsi + 0x40] *)
  _ ← fx_aligned next;
  r15 ← pop; r14 ← pop; r13 ← pop; r12 ← pop; rbp ← pop; rbx ← pop;
  rax ← pop;
  (* jmp rax *)
  on_regs (λ r, mk_cpu rbx rbp r12 r13 r14 r15 (c_rsp r) rax (c_rdi r) (c_rflags r)
                  (t_fpu_state n) (c_fs_base r) (c_user r)).

Definition arch_switch_thread (old next : Z) : M S unit :=
  _ ← switch_save old;
  switch_load next.

(** pop rdi; sti; ret *)
Definition run_thread_entry_kernel : M S unit :=
  rdi ← pop;
  rip ← pop;
  on_regs (λ r, mk_cpu (c_rbx r) (c_rbp r) (c_r12 r) (c_r13 r) (c_r14 r) (c_r15 r) (c_rsp r) rip rdi
                  (Z.lor (c_rflags r) RFLAGS_IF) (c_fpu r) (c_fs_base r) (c_user r)).

(** pop rcx; pop rdx; pop r11; or r11, 0x200; mov rsp, rdx; swapgs; o64 sysret.
    sysret takes rip from rcx and rflags from r11, less the reserved bits. *)
Definition run_thread_entry_user : M S unit :=
  rcx ← pop;
  rdx ← pop;
  r11 ← pop;
  on_regs (λ r, mk_cpu (c_rbx r) (c_rbp r) (c_r12 r) (c_r13 r) (c_r14 r) (c_r15 r) rdx rcx (c_rdi r)
                  (Z.lor (Z.land (Z.lor r11 0x200) 0x3C7FD7) 2) (c_fpu r) (c_fs_base r) true).

(** ** thread.c *)

(** The stores through [stack] from the top of the kernel stack down. *)
Definition build_stack (thread : Z) (vs : list Z) : M S unit :=
  t ← get_thread thread;
  m ← gets ss_mem;
  let x := push_words vs (u64 (t_kernel_stack t + PAGE_SIZE), m) in
  _ ← modify (set_ss_mem x.2);
  put_thread thread (set_t_rsp x.1 t).

Definition setup_kernel_stack (thread entry arg : Z) : M S unit :=
  build_stack thread [entry; arg; thread_entry_kernel; 0; 0; 0; 0; 0; 0].

Definition setup_user_stack (thread entry : Z) : M S unit :=
  t ← get_thread thread;
  build_stack thread [0x202; t_user_stack t; entry; thread_entry_user; 0; 0; 0; 0; 0; 0].

Definition fresh_tid : M S Z := λ s,
  Done (next_tid s, mk_ss H (ss_heap s) (threads s) (processes s) (current_thread s) (thread_list s)
                      (u64 (next_tid s + 1)) (regs s)).

Definition thread_create_base (entry : Z) : M S Z :=
  thread ← on_ss_heap (oh_alloc sizeof_thread);
  if thread =? 0 then mret 0
  else
    tid ← fresh_tid;
    stack ← on_ss_heap (oh_alloc PAGE_SIZE);
    if stack =? 0 then
      _ ← on_ss_heap (oh_free thread);
      mret 0
    else
      _ ← put_thread thread (mk_thread 0 stack 0 tid entry 0 0 fpu_default_state 0);
      mret thread.

Definition thread_create (entry : Z) : M S Z :=
  thread ← thread_create_base entry;
  if thread =? 0 then mret 0
  else
    _ ← setup_kernel_stack thread task_bootstrap 0;
    mret thread.

Definition user_thread_create (proc : Z) : M S Z :=
  if proc =? 0 then mret 0
  else
    p ← get_process proc;
    thread ← thread_create_base (p_entry_point p);
    if thread =? 0 then mret 0
    else
      t ← get_thread thread;
      _ ← put_thread thread (mk_thread (t_rsp t) (t_kernel_stack t) (p_rsp p) (t_tid t) (t_entry t) proc
                               (t_next t) (t_fpu_state t) (t_fs_base t));
      _ ← put_process proc (mk_process (p_address_space p) (p_entry_point p) (p_rsp p)
                              (p_user_stack_bottom p) (p_user_stack_bottom_max p) thread (p_pid p));
      _ ← setup_user_stack thread (p_entry_point p);
      mret thread.

Definition switch_thread_fs (thread : Z) : M S unit :=
  t ← get_thread thread;
  on_regs (set_fs_base (t_fs_base t)).

(** task_bootstrap up to its halt loop; [call f arg] is the call of the code at [f]. *)
Definition run_task_bootstrap (call : Z → Z → M S unit) (arg : Z) : M S unit :=
  cur ← gets current_thread;
  t ← get_thread cur;
  if negb (t_entry t =? 0) then call (t_entry t) arg else mret tt.

(** ** scheduler.c *)

Definition scheduler_init : M S unit :=
  modify (set_current bootstrap_task).

(** while (iter->next) iter = iter->next; iter->next = thread; *)
Definition append_thread (fuel : nat) (iter thread : Z) : M S unit :=
  ts ← gets threads;
  last ← lift_o (find_last t_next fuel ts iter);
  t ← get_thread last;
  put_thread last (set_t_next thread t).

Definition scheduler_add (thread : Z) : M S unit := λ s,
  if thread_list s =? 0 then Done (tt, set_thread_list thread s)
  else append_thread (size (threads s)) (thread_list s) thread s.

Definition kassert (b : bool) : M S unit := if b then mret tt else mpanic "Assertion Failed".

(** The thread schedule chooses: the next one, or the first. *)
Definition next_thread (prev : thread) (list : Z) : Z :=
  if negb (t_next prev =? 0) then t_next prev else list.

Definition target_cr3 (next : thread) : M S Z :=
  if negb (t_process next =? 0) then
    p ← get_process (t_process next);
    mret (cr3 (p_address_space p))
  else gets (λ s, km_kernel_cr3 (ss_heap s)).

Definition current_cr3 : M S Z := gets (λ s, km_current_cr3 (ss_heap s)).

(** if (target_cr3 && target_cr3 != paging_current_cr3()) paging_load_cr3(target_cr3); *)
Definition enter_address_space (target c : Z) : M S unit :=
  if negb (target =? 0) && negb (target =? c) then
    on_ss_heap (λ h, Done (tt, km_load_cr3 target h))
  else mret tt.

(** schedule up to the jump of arch_switch_thread: the registers it leaves are
    those with which the chosen thread goes on. The call pushes the address of
    the statement that follows it. *)
Definition schedule : M S unit :=
  cur ← gets current_thread;
  if cur =? 0 then mret tt
  else
    prev ← get_thread cur;
    list ← gets thread_list;
    let next := next_thread prev list in
    if (next =? 0) || (next =? cur) then mret tt
    else
      n ← get_thread next;
      target ← target_cr3 n;
      c ← current_cr3;
      _ ← enter_address_space target c;
      c ← current_cr3;
      _ ← kassert (c =? target);
      _ ← kassert (negb (next =? cur));
      _ ← kassert (negb (next =? 0));
      _ ← kassert (negb (t_rsp n =? 0));
      _ ← kassert (negb (t_entry n =? 0));
      _ ← switch_thread_fs next;
      _ ← modify (set_current next);
      _ ← push schedule_return;
      arch_switch_thread cur next.

(** The statement at [schedule_return], which follows the call. *)
Definition after_switch : M S unit :=
  mpanic "Returned from arch_switch_thread, which should never happen".

(** ** arch.c; the constants are the C library's *)
Definition do_sys_arch_prctl (ARCH_SET_FS EINVAL cmd pointer : Z) : M S Z :=
  if cmd =? ARCH_SET_FS then
    if pointer =? 0 then mret (u64 (- EINVAL))
    else
      cur ← gets current_thread;
      t ← get_thread cur;
      _ ← put_thread cur (set_t_fs_base pointer t);
      _ ← switch_thread_fs cur;
      mret 0
  else mret (u64 (- EINVAL)).
End sched.

#[export] Instance kernel_mem `{PageAllocator St} : KernelMem (heap_state St) := {|
  km_mem := heap_mem;
  km_set_mem := set_heap_mem;
  km_current_cr3 h := Z.land (reg_cr3 (heap_vm h)) (u64 (Z.lnot 0xFFF));
  km_kernel_cr3 h := cr3 (kernel_address_space (heap_vm h));
  km_load_cr3 c h := match on_vm (paging_load_cr3 c) h with Done (_, h') => h' | _ => h end;
|}.

#[export] Instance kernel_mem_laws `{PageAllocatorLaws St} : KernelMemLaws (KM := kernel_mem).
Proof.
  split; intros; try reflexivity.
  - apply pa_mem_set.
  - simpl. unfold set_heap_mem, set_pages. simpl. by rewrite pa_set_set.
  - simpl. change (Z.lnot 0xFFF) with (Z.lnot (2 ^ 12 - 1)). unfold PAGE_SIZE in *.
    rewrite land_clear_low by lia. change (2 ^ 12) with 4096. lia.
Qed.

(** ** Specification *)

(** The threads of the scheduler's list, from [p] on. *)
Abbreviation tchain := (chain t_next).

(** The thread that follows [cur] in turn: the next of the list, the first after
    the last, and the first after the bootstrap task, which is not in the list. *)
Definition is_next (l : list Z) (cur next : Z) : Prop :=
  (∃ i, l !! i = Some cur ∧ l !! (Datatypes.S i mod length l)%nat = Some next)
  ∨ (cur ∉ l ∧ hd_error l = Some next).

Definition FRAME : Z := 56.

(** The registers a frame and a thread give back: what the frame at the thread's
    [rsp] holds, in the order of the pops. *)
Definition resumes (t : thread) (ws : list Z) (r : cpu) : Prop :=
  ws = [c_r15 r; c_r14 r; c_r13 r; c_r12 r; c_rbp r; c_rbx r; c_rip r]
  ∧ c_rsp r = t_rsp t + FRAME ∧ c_fpu r = t_fpu_state t ∧ c_fs_base r = t_fs_base t.

Section sched_spec.
Context `{OHL : ObjectHeapLaws H} `{KML : KernelMemLaws H} `{TI : ThreadImage}.
Abbreviation S := (sched_state H).
Implicit Types (s : S) (l : list Z).

Definition thread_cr3 s (t : thread) : option Z :=
  if t_process t =? 0 then Some (km_kernel_cr3 (ss_heap s))
  else (λ p, cr3 (p_address_space p)) <$> processes s !! t_process t.

(** A thread that schedule can switch to. *)
Record able s (p : Z) (t : thread) : Prop := {
  ab_aligned : p mod 16 = 0;
  ab_entry : t_entry t ≠ 0;
  ab_cr3 : ∃ c, thread_cr3 s t = Some c ∧ 0 < c < 2 ^ 64 ∧ c mod PAGE_SIZE = 0;
}.

(** The scheduler's state: a list of threads without repetitions, a current
    thread (one of the list, or the bootstrap task, which nothing follows), and
    a saved stack pointer in every thread that waits. *)
Record sched_inv s l : Prop := {
  si_list : tchain (threads s) (thread_list s) l;
  si_nodup : NoDup l;
  si_cur : current_thread s ≠ 0 ∧ current_thread s mod 16 = 0
    ∧ ∃ t, threads s !! current_thread s = Some t ∧ (current_thread s ∈ l ∨ t_next t = 0);
  si_able : ∀ p t, p ∈ l → threads s !! p = Some t → able s p t;
  si_frame : ∀ p t, p ∈ l → p ≠ current_thread s → threads s !! p = Some t →
    0 < t_rsp t ∧ t_rsp t + FRAME < 2 ^ 64;
}.

(** What the running thread owes the others: room for a frame below its stack
    pointer, away from the frames of the threads that wait. *)
Record stack_ok s l : Prop := {
  so_room : FRAME < c_rsp (regs s) < 2 ^ 64;
  so_apart : ∀ p t, p ∈ l → p ≠ current_thread s → threads s !! p = Some t →
    t_rsp t + FRAME ≤ c_rsp (regs s) - FRAME ∨ c_rsp (regs s) ≤ t_rsp t;
}.

(** *** The list *)

Lemma next_thread_ok s l t : sched_inv s l → threads s !! current_thread s = Some t →
  if decide (l = []) then next_thread t (thread_list s) = 0
  else is_next l (current_thread s) (next_thread t (thread_list s)) ∧ next_thread t (thread_list s) ∈ l.
Proof.
  intros [Hl Hnd (Hc0 & _ & t' & Ht' & Hcur) _ _] Ht. rewrite Ht in Ht'. injection Ht' as <-.
  unfold next_thread. pose proof (chain_head _ _ _ _ Hl) as Hh.
  destruct (decide (l = [])) as [->|Hne].
  - simpl in Hh. rewrite Hh. destruct Hcur as [Hcur|Hcur]; [by apply elem_of_nil in Hcur|].
    by rewrite Hcur.
  - destruct l as [|x l0]; [done|]. set (l := x :: l0) in *. simpl in Hh.
    destruct (decide (current_thread s ∈ l)) as [Hin|Hnin].
    + apply list_elem_of_lookup in Hin as [i Hi].
      pose proof (chain_lookup _ _ _ _ _ _ _ Hl Hi Ht) as Hnext.
      pose proof (lookup_lt_Some _ _ _ Hi) as Hlt.
      destruct (l !! Datatypes.S i) as [q|] eqn:Hq; simpl in Hnext.
      * destruct (chain_elem _ _ _ _ q Hl) as [Hq0 _]; [by eapply list_elem_of_lookup_2|].
        rewrite Hnext. destruct (Z.eqb_spec q 0) as [|_]; [done|]. simpl.
        split; [|by eapply list_elem_of_lookup_2].
        left. exists i. split; [done|]. rewrite Nat.mod_small; [done|]. by eapply lookup_lt_Some.
      * apply lookup_ge_None in Hq. rewrite Hnext, Hh. simpl.
        split; [|apply list_elem_of_here]. left. exists i. split; [done|].
        assert (Datatypes.S i = length l) as -> by lia. by rewrite Nat.Div0.mod_same.
    + destruct Hcur as [|Hcur]; [done|]. rewrite Hcur, Hh. simpl.
      split; [by right|apply list_elem_of_here].
Qed.
(** *** The context switch *)

(** The state with the registers [r] and the memory [m]. *)
Definition with_cpu (r : cpu) (m : mem) s : S := set_regs r (set_ss_mem m s).

Lemma with_cpu_mem r m s : ss_mem (with_cpu r m s) = m.
Proof. apply km_get_set. Qed.

Lemma push_run v s : push v s =
  Done (tt, with_cpu (set_rsp (u64 (c_rsp (regs s) - 8)) (regs s)) (st64 (u64 (c_rsp (regs s) - 8)) v (ss_mem s)) s).
Proof. reflexivity. Qed.

Lemma with_cpu_twice r m r' m' s : with_cpu r' m' (with_cpu r m s) = with_cpu r' m' s.
Proof. unfold with_cpu, set_regs, set_ss_mem. simpl. by rewrite km_set_set. Qed.

(** A run of pushes of registers is [push_words] of their values. *)
Lemma push_regs_run (f : cpu → Z) fs s : Forall (λ g : cpu → Z, ∀ v r, g (set_rsp v r) = g r) (f :: fs) →
  let x := push_words ((λ g, g (regs s)) <$> f :: fs) (c_rsp (regs s), ss_mem s) in
  for_each (f :: fs) (λ r, v ← reg r; push v) s = Done (tt, with_cpu (set_rsp x.1 (regs s)) x.2 s).
Proof.
  revert f s. induction fs as [|g fs IH]; intros f s Hf; [reflexivity|].
  apply Forall_cons in Hf as [_ Hf]. pose proof Hf as Hg. apply Forall_cons in Hg as [_ Hg].
  change (for_each (f :: g :: fs) (λ r, v ← reg r; push v) s)
    with (for_each (g :: fs) (λ r, v ← reg r; push v)
      (with_cpu (set_rsp (u64 (c_rsp (regs s) - 8)) (regs s))
         (st64 (u64 (c_rsp (regs s) - 8)) (f (regs s)) (ss_mem s)) s)).
  rewrite IH by done. rewrite with_cpu_twice, with_cpu_mem. cbn [regs with_cpu set_regs].
  assert ((λ h : cpu → Z, h (set_rsp (u64 (c_rsp (regs s) - 8)) (regs s))) <$> g :: fs
    = (λ h, h (regs s)) <$> g :: fs) as ->; [|reflexivity].
  apply list_fmap_ext. intros i h Hh. rewrite Forall_forall in Hf. apply Hf.
  by eapply list_elem_of_lookup_2.
Qed.

Lemma fx_aligned_ok p s : p mod 16 = 0 → fx_aligned p s = Done (tt, s).
Proof.
  intros Hp. unfold fx_aligned. assert (u64 (p + 64) mod 16 = 0) as ->; [|done].
  unfold u64. pow2. zdiv.
Qed.

Definition pushed (s : S) : Z * mem :=
  push_words ((λ g : cpu → Z, g (regs s)) <$> [c_rbx; c_rbp; c_r12; c_r13; c_r14; c_r15])
    (c_rsp (regs s), ss_mem s).

(** The registers after the pops: the words at [sp] in [m], and [t]'s FPU image. *)
Definition popped (t : thread) (m : mem) (r : cpu) : cpu :=
  let w i := ld64 m (t_rsp t + 8 * i) in
  mk_cpu (w 5) (w 4) (w 3) (w 2) (w 1) (w 0) (t_rsp t + FRAME) (w 6) (c_rdi r) (c_rflags r)
    (t_fpu_state t) (c_fs_base r) (c_user r).

Lemma pop_run v r s : 0 ≤ v → v + 8 < 2 ^ 64 →
  pop (set_regs (set_rsp v r) s) = Done (ld64 (ss_mem s) v, set_regs (set_rsp (v + 8) r) s).
Proof. intros. unfold pop. cbn [regs set_regs c_rsp set_rsp]. by rewrite u64_small by lia. Qed.

Lemma switch_save_ok s old o : threads s !! old = Some o → old mod 16 = 0 →
  switch_save old s = Done (tt,
    set_threads (<[old := set_t_rsp (pushed s).1 (set_t_fpu (c_fpu (regs s)) o)]> (threads s))
      (with_cpu (set_rsp (pushed s).1 (regs s)) (pushed s).2 s)).
Proof.
  intros Ho Ha. unfold switch_save.
  erewrite bind_Done by (by apply fx_aligned_ok).
  erewrite bind_Done by (unfold get_thread; by rewrite Ho).
  erewrite bind_Done by reflexivity. erewrite bind_Done by reflexivity.
  erewrite bind_Done by (apply push_regs_run; repeat constructor).
  erewrite bind_Done by reflexivity.
  erewrite bind_Done by (unfold get_thread; cbn [threads with_cpu set_regs set_ss_mem set_threads];
    by rewrite lookup_insert_eq).
  unfold put_thread, modify, set_threads, with_cpu, set_regs, set_ss_mem. cbn.
  by rewrite insert_insert_eq.
Qed.

Lemma switch_load_ok s next n : threads s !! next = Some n → next mod 16 = 0 →
  0 < t_rsp n → t_rsp n + FRAME < 2 ^ 64 →
  switch_load next s = Done (tt, set_regs (popped n (ss_mem s) (regs s)) s).
Proof.
  intros Hn Ha Hlo Hhi. unfold popped, FRAME in *. unfold switch_load.
  erewrite bind_Done by (unfold get_thread; by rewrite Hn).
  erewrite bind_Done by reflexivity. erewrite bind_Done by (by apply fx_aligned_ok).
  do 7 (erewrite bind_Done by (apply pop_run; lia)).
  rewrite Z.add_0_r, <- !Z.add_assoc. reflexivity.
Qed.

Lemma arch_switch_ok s old next o n :
  threads s !! old = Some o → threads s !! next = Some n → old ≠ next →
  old mod 16 = 0 → next mod 16 = 0 → 0 < t_rsp n → t_rsp n + FRAME < 2 ^ 64 →
  arch_switch_thread old next s = Done (tt,
    set_threads (<[old := set_t_rsp (pushed s).1 (set_t_fpu (c_fpu (regs s)) o)]> (threads s))
      (with_cpu (popped n (pushed s).2 (regs s)) (pushed s).2 s)).
Proof.
  intros Ho Hn Hne Hao Han Hlo Hhi. unfold arch_switch_thread.
  erewrite bind_Done by (by apply switch_save_ok).
  rewrite (switch_load_ok _ _ n); [|cbn [threads set_threads]; by rewrite lookup_insert_ne|done..].
  change (ss_mem (set_threads _ ?x)) with (ss_mem x). rewrite with_cpu_mem. reflexivity.
Qed.
(** *** schedule *)

Definition with_ss_heap (h : H) s : S :=
  mk_ss H h (threads s) (processes s) (current_thread s) (thread_list s) (next_tid s) (regs s).

Lemma enter_ok c s : 0 < c < 2 ^ 64 → c mod PAGE_SIZE = 0 →
  ∃ h, enter_address_space c (km_current_cr3 (ss_heap s)) s = Done (tt, with_ss_heap h s)
    ∧ km_mem h = ss_mem s ∧ km_current_cr3 h = c ∧ km_kernel_cr3 h = km_kernel_cr3 (ss_heap s).
Proof.
  intros Hc Ha. unfold enter_address_space.
  destruct (Z.eqb_spec c 0) as [|_]; [lia|]. destruct (Z.eqb_spec c (km_current_cr3 (ss_heap s))) as [E|_].
  - exists (ss_heap s). split; [by destruct s|]. by split.
  - exists (km_load_cr3 c (ss_heap s)). split; [reflexivity|].
    split; [apply km_load_mem|]. split; [apply km_load_current; [lia|done]|apply km_load_kernel].
Qed.

Lemma target_cr3_ok t c s : thread_cr3 s t = Some c → target_cr3 t s = Done (c, s).
Proof.
  unfold thread_cr3, target_cr3. destruct (Z.eqb_spec (t_process t) 0); simpl.
  - by intros [= <-].
  - intros (p & Hp & ->)%fmap_Some. erewrite bind_Done by (unfold get_process; by rewrite Hp). done.
Qed.

(** What a switch leaves on the stack of the thread it leaves. *)
Definition frame_of (r : cpu) : list Z :=
  [c_r15 r; c_r14 r; c_r13 r; c_r12 r; c_rbp r; c_rbx r; schedule_return].
Definition saved_mem s : Z * mem := push_words (reverse (frame_of (regs s))) (c_rsp (regs s), ss_mem s).

(** The state after [schedule] leaves thread [cur] ([t]) for [next] ([n]). *)
Record switched s (cur : Z) (t : thread) (next : Z) (n : thread) s' : Prop := {
  sw_current : current_thread s' = next;
  sw_threads : threads s' = <[cur := set_t_rsp (saved_mem s).1 (set_t_fpu (c_fpu (regs s)) t)]> (threads s);
  sw_list : thread_list s' = thread_list s;
  sw_processes : processes s' = processes s;
  sw_tid : next_tid s' = next_tid s;
  sw_cr3 : thread_cr3 s n = Some (km_current_cr3 (ss_heap s'));
  sw_kernel : km_kernel_cr3 (ss_heap s') = km_kernel_cr3 (ss_heap s);
  sw_mem : ss_mem s' = (saved_mem s).2;
  sw_regs : ∀ ws, length ws = 7%nat → words (ss_mem s') (t_rsp n) ws → resumes n ws (regs s');
}.

Lemma popped_resumes n m r ws : length ws = 7%nat → words m (t_rsp n) ws → c_fs_base r = t_fs_base n →
  resumes n ws (popped n m r).
Proof.
  intros Hlen Hw Hfs. do 7 (destruct ws as [|? ws]; [done|]). destruct ws; [|done].
  destruct Hw as (<- & <- & <- & <- & <- & <- & <- & _). split; [|done].
  unfold popped. cbn [c_r15 c_r14 c_r13 c_r12 c_rbp c_rbx c_rip]. rewrite Z.add_0_r, <- !Z.add_assoc. reflexivity.
Qed.

(** The call instruction and arch_switch_thread. *)
Lemma call_switch_ok s cur next t n : threads s !! cur = Some t → threads s !! next = Some n → cur ≠ next →
  cur mod 16 = 0 → next mod 16 = 0 → 0 < t_rsp n → t_rsp n + FRAME < 2 ^ 64 →
  (_ ← push schedule_return; arch_switch_thread cur next) s = Done (tt,
    set_threads (<[cur := set_t_rsp (saved_mem s).1 (set_t_fpu (c_fpu (regs s)) t)]> (threads s))
      (with_cpu (popped n (saved_mem s).2 (regs s)) (saved_mem s).2 s)).
Proof.
  intros Ht Hn Hne Hca Hna Hlo Hhi. erewrite bind_Done by apply push_run.
  rewrite (arch_switch_ok _ cur next t n) by done.
  set (x := push_words (reverse (frame_of (regs s))) (c_rsp (regs s), ss_mem s)).
  assert (pushed (with_cpu (set_rsp (u64 (c_rsp (regs s) - 8)) (regs s))
    (st64 (u64 (c_rsp (regs s) - 8)) schedule_return (ss_mem s)) s) = saved_mem s) as ->.
  { unfold pushed. rewrite with_cpu_mem. reflexivity. }
  rewrite with_cpu_twice. reflexivity.
Qed.

Lemma schedule_switches s l t n : sched_inv s l → threads s !! current_thread s = Some t →
  next_thread t (thread_list s) ∈ l → next_thread t (thread_list s) ≠ current_thread s →
  threads s !! next_thread t (thread_list s) = Some n →
  ∃ s', schedule s = Done (tt, s') ∧ switched s (current_thread s) t (next_thread t (thread_list s)) n s'.
Proof.
  intros Hr Ht Hin Hne Hn. destruct (chain_elem _ _ _ _ _ (si_list _ _ Hr) Hin) as [Hn0 _].
  set (next := next_thread t (thread_list s)) in *. set (cur := current_thread s) in *.
  destruct (si_cur _ _ Hr) as (Hc0 & Hca & _).
  destruct (si_able _ _ Hr next n Hin Hn) as [Hna Hne0 (c & Hc & Hcr & Hcp)].
  destruct (si_frame _ _ Hr next n Hin Hne Hn) as [Hlo Hhi].
  destruct (enter_ok c s Hcr Hcp) as (h & He & Hhm & Hhc & Hhk).
  unfold schedule. erewrite bind_Done by reflexivity. fold cur.
  rewrite (proj2 (Z.eqb_neq cur 0)) by done.
  erewrite bind_Done by (unfold get_thread; by rewrite Ht).
  erewrite bind_Done by reflexivity. fold next.
  rewrite (proj2 (Z.eqb_neq next 0)), (proj2 (Z.eqb_neq next cur)) by done. cbn [orb negb].
  erewrite bind_Done by (unfold get_thread; by rewrite Hn).
  erewrite bind_Done by (by apply target_cr3_ok).
  erewrite bind_Done by reflexivity. erewrite bind_Done by exact He.
  erewrite bind_Done by reflexivity. cbn [ss_heap with_ss_heap]. rewrite Hhc, Z.eqb_refl.
  rewrite (proj2 (Z.eqb_neq (t_rsp n) 0)), (proj2 (Z.eqb_neq (t_entry n) 0)) by (done || lia).
  do 5 (erewrite bind_Done by reflexivity).
  erewrite bind_Done by (unfold switch_thread_fs; erewrite bind_Done by (unfold get_thread;
    cbn [threads with_ss_heap]; by rewrite Hn); reflexivity).
  erewrite bind_Done by reflexivity. cbn [regs with_ss_heap].
  set (s1 := set_current next _).
  assert (saved_mem s1 = saved_mem s) as Hsm.
  { unfold saved_mem. assert (ss_mem s1 = ss_mem s) as -> by exact Hhm. reflexivity. }
  eexists. split; [apply (call_switch_ok s1 cur next t n); done|]. rewrite Hsm.
  split; try reflexivity.
  - rewrite Hc. f_equal. etransitivity; [exact (eq_sym Hhc)|]. symmetry. apply (km_set_cr3 _ h).
  - etransitivity; [apply (km_set_kernel _ h)|done].
  - apply (km_get_set _ h).
  - intros ws Hlen Hw. apply popped_resumes; [done| |done].
    change (ss_mem (set_threads _ ?x)) with (ss_mem x) in Hw. by rewrite with_cpu_mem in Hw.
Qed.

(** The frame pushed is below the old stack pointer; nothing else changes. *)
Lemma saved_mem_ok s : FRAME < c_rsp (regs s) < 2 ^ 64 →
  (saved_mem s).1 = c_rsp (regs s) - FRAME
  ∧ words (saved_mem s).2 (c_rsp (regs s) - FRAME) (u64 <$> frame_of (regs s))
  ∧ same_outside (c_rsp (regs s) - FRAME) (c_rsp (regs s)) (ss_mem s) (saved_mem s).2.
Proof.
  intros Hr. unfold FRAME in *. unfold saved_mem.
  destruct (push_words_ok (reverse (frame_of (regs s))) (c_rsp (regs s)) (ss_mem s)) as (H1 & H2 & H3).
  - rewrite length_reverse. simpl. lia.
  - lia.
  - rewrite length_reverse in *. rewrite fmap_reverse, reverse_involutive in H2. done.
Qed.

(** schedule keeps the invariant. *)
Lemma switched_inv s l t next n s' : sched_inv s l → stack_ok s l →
  threads s !! current_thread s = Some t → next ∈ l → next ≠ current_thread s →
  switched s (current_thread s) t next n s' → sched_inv s' l.
Proof.
  intros Hi [Hroom _] Ht Hin Hne Hsw. destruct (saved_mem_ok s Hroom) as (Hsp & _ & _).
  assert (∀ p u, threads s' !! p = Some u → ∃ u0, threads s !! p = Some u0 ∧ t_next u = t_next u0
    ∧ t_entry u = t_entry u0 ∧ t_process u = t_process u0) as Hback.
  { intros p u. rewrite (sw_threads _ _ _ _ _ _ Hsw). intros [[<- <-]|[? ?]]%lookup_insert_Some; eauto 10. }
  split.
  - rewrite (sw_list _ _ _ _ _ _ Hsw). apply (chain_ext _ (threads s)); [by destruct Hi|].
    intros q u _ Hq. rewrite (sw_threads _ _ _ _ _ _ Hsw).
    destruct (decide (current_thread s = q)) as [<-|Hq0].
    + rewrite lookup_insert_eq. rewrite Ht in Hq. injection Hq as <-. eauto.
    + rewrite lookup_insert_ne by done. eauto.
  - by destruct Hi.
  - rewrite (sw_current _ _ _ _ _ _ Hsw).
    destruct (chain_elem _ _ _ _ _ (si_list _ _ Hi) Hin) as (Hn0 & u & Hu).
    split; [done|]. split; [by apply (si_able _ _ Hi next u)|].
    exists u. rewrite (sw_threads _ _ _ _ _ _ Hsw), lookup_insert_ne by done. auto.
  - intros p u Hp Hu. destruct (Hback p u Hu) as (u0 & Hu0 & _ & He & Hpr).
    destruct (si_able _ _ Hi p u0 Hp Hu0) as [Ha Hentry Hcr]. split; [done|by rewrite He|].
    unfold thread_cr3 in *. by rewrite Hpr, (sw_kernel _ _ _ _ _ _ Hsw), (sw_processes _ _ _ _ _ _ Hsw).
  - intros p u Hp Hpn Hu. rewrite (sw_current _ _ _ _ _ _ Hsw) in Hpn.
    rewrite (sw_threads _ _ _ _ _ _ Hsw) in Hu. apply lookup_insert_Some in Hu as [[<- <-]|[Hpc Hu]].
    + cbn [t_rsp set_t_rsp]. rewrite Hsp. unfold FRAME in *. lia.
    + by apply (si_frame _ _ Hi p u).
Qed.
Lemma schedule_cases s l t : sched_inv s l → threads s !! current_thread s = Some t →
  let next := next_thread t (thread_list s) in
  ((l = [] ∨ next = current_thread s ∧ is_next l next next) ∧ schedule s = Done (tt, s))
  ∨ (is_next l (current_thread s) next ∧ next ∈ l ∧ next ≠ current_thread s
     ∧ ∃ n s', threads s !! next = Some n ∧ schedule s = Done (tt, s')
         ∧ switched s (current_thread s) t next n s').
Proof.
  intros Hi Ht next. pose proof (next_thread_ok s l t Hi Ht) as Hnext. fold next in Hnext.
  destruct (si_cur _ _ Hi) as (Hc0 & _).
  assert (next = 0 ∨ next = current_thread s → schedule s = Done (tt, s)) as Hstay.
  { intros Hz. unfold schedule. erewrite bind_Done by reflexivity. rewrite (proj2 (Z.eqb_neq _ 0)) by done.
    erewrite bind_Done by (unfold get_thread; by rewrite Ht). erewrite bind_Done by reflexivity.
    fold next. destruct Hz as [-> | ->]; [done|]. by rewrite Z.eqb_refl, orb_true_r. }
  destruct (decide (l = [])) as [->|Hne]; [left; auto|]. destruct Hnext as [Hnext Hin].
  destruct (decide (next = current_thread s)) as [E|Hnc].
  - left. split; [|auto]. right. split; [done|]. by rewrite <- E in Hnext.
  - right. destruct (chain_elem _ _ _ _ _ (si_list _ _ Hi) Hin) as (_ & n & Hn).
    destruct (schedule_switches s l t n Hi Ht Hin Hnc Hn) as (s' & Hs & Hsw). eauto 10.
Qed.

(** *** Properties *)

#[local] Opaque saved_mem ldn stn.

(** Schedule, from any state of the scheduler: it returns without effect when
    the list is empty or holds only the running thread; otherwise it switches to
    the thread that is next in turn, with that thread's address space loaded and
    the registers, FPU state and FS base with which it last left, and the
    invariant of the scheduler holds again. No assertion fails. *)
Theorem schedule_spec s l t : sched_inv s l → stack_ok s l → threads s !! current_thread s = Some t →
  ((l = [] ∨ l = [current_thread s]) ∧ schedule s = Done (tt, s))
  ∨ ∃ next n s', is_next l (current_thread s) next ∧ next ≠ current_thread s
      ∧ threads s !! next = Some n ∧ schedule s = Done (tt, s') ∧ sched_inv s' l
      ∧ switched s (current_thread s) t next n s'
      ∧ ∀ ws, length ws = 7%nat → words (ss_mem s) (t_rsp n) ws → resumes n ws (regs s').
Proof.
  intros Hi Hso Ht. destruct (schedule_cases s l t Hi Ht) as [[[->|[E Hnext]] Hs]|
    (Hnext & Hin & Hnc & n & s' & Hn & Hs & Hsw)]; [left; auto| |].
  - left. split; [right|done]. rewrite E in *. destruct Hnext as [(i & Hi1 & Hi2)|[Hnin Hh]].
    + pose proof (NoDup_lookup _ _ _ _ (si_nodup _ _ Hi) Hi1 Hi2) as Hii.
      pose proof (lookup_lt_Some _ _ _ Hi1) as Hlt.
      destruct l as [|x [|y l]]; [done| |].
      * destruct i as [|i]; [by injection Hi1 as ->|simpl in Hlt; lia].
      * exfalso. destruct (decide (Datatypes.S i = length (x :: y :: l))) as [El|Hl].
        -- rewrite El, Nat.Div0.mod_same in Hii. simpl in *. lia.
        -- rewrite Nat.mod_small in Hii by lia. lia.
    + destruct l; [done|]. injection Hh as ->. destruct Hnin. apply list_elem_of_here.
  - right. exists (next_thread t (thread_list s)), n, s'.
    split; [done|]. split; [done|]. split; [done|]. split; [done|].
    split; [by eapply (switched_inv s l t)|]. split; [done|].
    intros ws Hlen Hw. apply (sw_regs _ _ _ _ _ _ Hsw); [done|]. rewrite (sw_mem _ _ _ _ _ _ Hsw).
    apply (words_ext (ss_mem s)); [done|]. intros b Hb. rewrite Hlen in Hb.
    apply saved_mem_ok; [by destruct Hso|].
    pose proof (so_apart _ _ Hso _ _ Hin Hnc Hn). unfold FRAME in *. lia.
Qed.

(** C17: a thread that schedule took the CPU from gets it back as it was: when it is
    switched to again, and neither its thread_t nor the frame on its stack was
    touched meanwhile, the callee-saved registers, the stack pointer, the FPU
    state and the FS base are those of its call of schedule, and it goes on at the
    statement after the call of arch_switch_thread. *)
Theorem schedule_resumes s l t s1 s2 s3 : sched_inv s l → stack_ok s l →
  threads s !! current_thread s = Some t → Forall (λ v, 0 ≤ v < 2 ^ 64) (frame_of (regs s)) →
  schedule s = Done (tt, s1) → current_thread s1 ≠ current_thread s →
  sched_inv s2 l → stack_ok s2 l → current_thread s2 ≠ current_thread s →
  threads s2 !! current_thread s = threads s1 !! current_thread s →
  (∀ b, c_rsp (regs s) - FRAME ≤ b < c_rsp (regs s) → ldb (ss_mem s2) b = ldb (ss_mem s1) b) →
  schedule s2 = Done (tt, s3) → current_thread s3 = current_thread s →
  frame_of (regs s3) = frame_of (regs s) ∧ c_rsp (regs s3) = c_rsp (regs s)
  ∧ c_rip (regs s3) = schedule_return
  ∧ c_fpu (regs s3) = c_fpu (regs s) ∧ c_fs_base (regs s3) = t_fs_base t.
Proof.
  intros Hi Hso Ht Hf Hs Hne Hi2 Hso2 Hne2 Hth Hmem Hs2 Hc3.
  destruct (schedule_cases s l t Hi Ht) as [[_ Hs']|(_ & _ & _ & n & s' & _ & Hs' & Hsw)];
    rewrite Hs' in Hs; injection Hs as <-; [done|].
  destruct (si_cur _ _ Hi2) as (_ & _ & u & Hu & _).
  destruct (schedule_cases s2 l u Hi2 Hu) as [[_ Hs2']|(_ & Hin2 & _ & n2 & s4 & Hn2 & Hs2' & Hsw2)];
    rewrite Hs2' in Hs2; injection Hs2 as ->; [done|].
  rewrite (sw_current _ _ _ _ _ _ Hsw2) in Hc3. rewrite Hc3 in *.
  rewrite Hth, (sw_threads _ _ _ _ _ _ Hsw), lookup_insert_eq in Hn2. apply (inj Some) in Hn2 as <-.
  destruct (saved_mem_ok s (so_room _ _ Hso)) as (Hsp & Hw & _). rewrite u64_fmap in Hw by done.
  destruct (saved_mem_ok s2 (so_room _ _ Hso2)) as (_ & _ & Hout).
  assert (current_thread s ∈ l) as Hinl by done.
  pose proof (so_apart _ _ Hso2 (current_thread s) _ Hinl ltac:(auto)
    ltac:(rewrite Hth, (sw_threads _ _ _ _ _ _ Hsw); apply lookup_insert_eq)) as Hap.
  cbn [t_rsp set_t_rsp] in Hap. rewrite Hsp in Hap.
  destruct (sw_regs _ _ _ _ _ _ Hsw2 (frame_of (regs s)) eq_refl) as (Hfr & Hrsp & Hfpu & Hfs).
  - cbn [t_rsp set_t_rsp]. rewrite Hsp. apply (words_ext (saved_mem s).2); [done|].
    intros b Hb. simpl length in Hb. rewrite (sw_mem _ _ _ _ _ _ Hsw2), Hout by (unfold FRAME in *; lia).
    rewrite Hmem by (unfold FRAME in *; lia). by rewrite (sw_mem _ _ _ _ _ _ Hsw).
  - cbn [t_rsp set_t_rsp set_t_fpu t_fpu_state t_fs_base] in *. unfold frame_of in *.
    injection Hfr as <- <- <- <- <- <- E. rewrite Hsp in Hrsp. unfold FRAME in *.
    split; [done|]. split; [lia|]. by split.
Qed.

(** Whatever the running thread does between two calls of schedule, it leaves the
    other threads, the list and the address spaces as they are. *)
Record runs s s' : Prop := {
  ru_current : current_thread s' = current_thread s;
  ru_list : thread_list s' = thread_list s;
  ru_processes : processes s' = processes s;
  ru_kernel : km_kernel_cr3 (ss_heap s') = km_kernel_cr3 (ss_heap s);
  ru_others : ∀ p, p ≠ current_thread s → threads s' !! p = threads s !! p;
  ru_self : ∀ t, threads s !! current_thread s = Some t → ∃ t', threads s' !! current_thread s = Some t'
    ∧ t_next t' = t_next t ∧ t_entry t' = t_entry t ∧ t_process t' = t_process t;
}.

Lemma runs_inv s s' l : runs s s' → sched_inv s l → sched_inv s' l.
Proof.
  intros Hr [Hl Hnd (Hc0 & Hca & t & Ht & Hcl) Hab Hfr].
  destruct (ru_self _ _ Hr t Ht) as (t' & Ht' & Hn & He & Hp).
  assert (∀ p u', threads s' !! p = Some u' → ∃ u, threads s !! p = Some u ∧ t_next u' = t_next u
    ∧ t_entry u' = t_entry u ∧ t_process u' = t_process u) as Hback.
  { intros p u' Hu'. destruct (decide (p = current_thread s)) as [->|Hpc].
    - rewrite Ht' in Hu'. injection Hu' as <-. eauto.
    - rewrite (ru_others _ _ Hr p Hpc) in Hu'. eauto. }
  split.
  - rewrite (ru_list _ _ Hr). apply (chain_ext _ (threads s)); [done|]. intros q u _ Hu.
    destruct (decide (q = current_thread s)) as [->|Hqc].
    + rewrite Ht in Hu. injection Hu as <-. eauto.
    + rewrite (ru_others _ _ Hr q Hqc). eauto.
  - done.
  - rewrite (ru_current _ _ Hr). split; [done|]. split; [done|]. exists t'. split; [done|].
    by rewrite Hn.
  - intros p u' Hp' Hu'. destruct (Hback p u' Hu') as (u & Hu & _ & E1 & E2).
    destruct (Hab p u Hp' Hu) as [Ha Hentry Hcr]. split; [done|by rewrite E1|].
    unfold thread_cr3 in *. by rewrite E2, (ru_kernel _ _ Hr), (ru_processes _ _ Hr).
  - intros p u' Hp' Hpc Hu'. rewrite (ru_current _ _ Hr) in Hpc.
    rewrite (ru_others _ _ Hr p Hpc) in Hu'. by apply (Hfr p u').
Qed.

(** [k] turns: threads run and are switched, [k] times. *)
Inductive turns l : nat → S → S → Prop :=
  | turns_start s : turns l 0 s s
  | turns_more k s s1 s2 s3 : turns l k s s1 → runs s1 s2 → stack_ok s2 l →
      schedule s2 = Done (tt, s3) → turns l (Datatypes.S k) s s3.

Lemma succ_mod i k n : (0 < n)%nat → (Datatypes.S ((i + k) mod n) mod n = (i + Datatypes.S k) mod n)%nat.
Proof. intros Hn. rewrite <- Nat.add_1_r, Nat.Div0.add_mod_idemp_l. f_equal. lia. Qed.

(** C16: the scheduler is round robin: [k] switches after the [i]th thread of the
    list ran, the thread at position i + k, counted around the list, runs. So
    every thread of the list runs once in each round, whatever the threads do
    meanwhile. *)
Theorem schedule_round_robin l k s s' i : sched_inv s l → l !! i = Some (current_thread s) →
  turns l k s s' → sched_inv s' l ∧ l !! ((i + k) mod length l)%nat = Some (current_thread s').
Proof.
  intros Hi Hc Ht. pose proof (lookup_lt_Some _ _ _ Hc) as Hlt.
  induction Ht as [s|k s s1 s2 s3 Ht IH Hr Hso Hs].
  - split; [done|]. by rewrite Nat.add_0_r, Nat.mod_small.
  - destruct (IH Hi Hc) as [Hi1 Hc1]. pose proof (runs_inv _ _ _ Hr Hi1) as Hi2.
    rewrite <- (ru_current _ _ Hr) in Hc1.
    destruct (si_cur _ _ Hi2) as (Hc0 & _ & t & Hct & _).
    assert (∀ next, is_next l (current_thread s2) next →
      l !! ((i + Datatypes.S k) mod length l)%nat = Some next) as Hgoal.
    { intros next [(j & Hj & Hj')|[Hnin _]].
      - pose proof (NoDup_lookup _ _ _ _ (si_nodup _ _ Hi2) Hj Hc1) as ->.
        by rewrite succ_mod in Hj' by lia.
      - destruct Hnin. by eapply list_elem_of_lookup_2. }
    destruct (schedule_cases s2 l t Hi2 Hct) as [[[->|[E Hnext]] Hs']|
      (Hnext & Hin & Hnc & n & s4 & Hn & Hs' & Hsw)]; [done| |];
      rewrite Hs' in Hs; injection Hs as <-.
    + split; [done|]. rewrite E in Hnext. by apply Hgoal.
    + split; [by eapply (switched_inv s2 l t)|]. rewrite (sw_current _ _ _ _ _ _ Hsw). by apply Hgoal.
Qed.
(** *** Adding and creating threads *)

(** Scheduler_add appends: after it the list is the old one followed by the
    thread, no other field of any thread changes, and nothing else of the state. *)
Theorem scheduler_add_spec s l p t : tchain (threads s) (thread_list s) l → NoDup l → p ∉ l → p ≠ 0 →
  threads s !! p = Some t → t_next t = 0 →
  ∃ s', scheduler_add p s = Done (tt, s') ∧ tchain (threads s') (thread_list s') (l ++ [p])
    ∧ (∀ q, q ∉ l → threads s' !! q = threads s !! q)
    ∧ (∀ q u, threads s !! q = Some u → ∃ v, set_t_next v u = default u (threads s' !! q))
    ∧ s' = set_thread_list (thread_list s') (set_threads (threads s') s).
Proof.
  intros Hc Hnd Hp Hp0 Ht Hn. unfold scheduler_add.
  assert (∀ u, set_t_next (t_next u) u = u) as Heta by (by intros []).
  destruct (Z.eqb_spec (thread_list s) 0) as [E|E].
  - exists (set_thread_list p s). split; [done|].
    assert (l = []) as -> by (destruct l as [|x l]; [done|destruct Hc as (? & ? & _); congruence]).
    split; [split; [done|]; split; [done|]; exists t; by split|]. split; [done|]. split; [|by destruct s].
    intros q u Hq. exists (t_next u). change (threads (set_thread_list p s)) with (threads s).
    rewrite Hq. apply Heta.
  - assert (l ≠ []) as Hne by (intros ->; done).
    destruct (find_last_ok t_next (size (threads s)) (threads s) (thread_list s) l Hc Hne Hnd)
      as (last & u & Hrun & Hin & Hu & Hun & Hch); [pose proof (chain_length _ _ _ _ Hc Hnd); lia|].
    exists (set_threads (<[last := set_t_next p u]> (threads s)) s).
    split. { unfold append_thread. erewrite bind_Done by reflexivity.
      erewrite bind_Done by (unfold lift_o; by rewrite Hrun).
      erewrite bind_Done by (unfold get_thread; by rewrite Hu). reflexivity. }
    split; [by apply (Hch _ p t)|]. cbn [threads set_threads]. split; [|split; [|by destruct s]].
    + intros q Hq. rewrite lookup_insert_ne; [done|]. intros ->. done.
    + intros q v Hq. destruct (decide (last = q)) as [->|Hlq].
      * rewrite lookup_insert_eq. rewrite Hu in Hq. injection Hq as ->. by exists p.
      * rewrite lookup_insert_ne, Hq by done. exists (t_next v). apply Heta.
Qed.

Lemma thread_create_base_ok s L ns entry :
  oh_live (ss_heap s) L (sizeof_thread :: PAGE_SIZE :: ns) →
  ∃ p k h, thread_create_base entry s = Done (p,
      mk_ss H h (<[p := mk_thread 0 k 0 (next_tid s) entry 0 0 fpu_default_state 0]> (threads s))
        (processes s) (current_thread s) (thread_list s) (u64 (next_tid s + 1)) (regs s))
    ∧ p ≠ 0 ∧ p ∉ L ∧ p mod 16 = 0 ∧ k ∉ p :: L ∧ oh_live h (k :: p :: L) ns.
Proof.
  intros Hl. destruct (oh_alloc_ok _ _ _ _ Hl) as (p & h & Ha & Hp & Hpl & Hl1); [by vm_compute|].
  destruct (oh_alloc_ok _ _ _ _ Hl1) as (k & h' & Hk & Hk0 & Hkl & Hl2); [by vm_compute|].
  exists p, k, h'. split.
  - unfold thread_create_base. erewrite bind_Done by (by apply zoom_Done).
    rewrite (proj2 (Z.eqb_neq p 0)) by done. erewrite bind_Done by reflexivity.
    erewrite bind_Done by (by apply zoom_Done). rewrite (proj2 (Z.eqb_neq k 0)) by done. reflexivity.
  - split; [done|]. split; [done|]. split; [|done].
    eapply (oh_aligned _ _ _ _ Hl1). apply list_elem_of_here.
Qed.

Definition built (vs : list Z) (t : thread) (m : mem) : Z * mem :=
  push_words vs (u64 (t_kernel_stack t + PAGE_SIZE), m).

Lemma build_stack_run s p t vs : threads s !! p = Some t →
  build_stack p vs s = Done (tt, set_threads (<[p := set_t_rsp (built vs t (ss_mem s)).1 t]> (threads s))
    (set_ss_mem (built vs t (ss_mem s)).2 s)).
Proof.
  intros Ht. unfold build_stack. erewrite bind_Done by (unfold get_thread; by rewrite Ht). reflexivity.
Qed.

Lemma built_ok vs t m : 0 ≤ t_kernel_stack t → t_kernel_stack t + PAGE_SIZE < 2 ^ 64 →
  8 * Z.of_nat (length vs) ≤ PAGE_SIZE → Forall (λ v, 0 ≤ v < 2 ^ 64) vs →
  (built vs t m).1 = t_kernel_stack t + PAGE_SIZE - 8 * Z.of_nat (length vs)
  ∧ words (built vs t m).2 (built vs t m).1 (reverse vs).
Proof.
  intros Hk Hk' Hlen Hvs. unfold built. rewrite u64_small by (unfold PAGE_SIZE in *; lia).
  destruct (push_words_ok vs (t_kernel_stack t + PAGE_SIZE) m) as (H1 & H2 & _);
    [unfold PAGE_SIZE in *; lia|done|].
  rewrite u64_fmap in H2 by done. split; [done|]. by rewrite H1.
Qed.

(** The first switch to a thread whose stack was built with six zeros and [stub]. *)
Lemma first_switch s p t stub rest : threads s !! p = Some t → p mod 16 = 0 →
  0 < t_rsp t → t_rsp t + FRAME < 2 ^ 64 →
  words (ss_mem s) (t_rsp t) (0 :: 0 :: 0 :: 0 :: 0 :: 0 :: stub :: rest) →
  switch_load p s = Done (tt, set_regs
    (set_rsp (t_rsp t + FRAME) (mk_cpu 0 0 0 0 0 0 0 stub (c_rdi (regs s)) (c_rflags (regs s))
      (t_fpu_state t) (c_fs_base (regs s)) (c_user (regs s)))) s)
  ∧ words (ss_mem s) (t_rsp t + FRAME) rest.
Proof.
  intros Ht Ha Hlo Hhi (H1 & H2 & H3 & H4 & H5 & H6 & H7 & Hrest).
  rewrite (switch_load_ok _ _ t) by done. split.
  - assert (∀ i a w, ld64 (ss_mem s) a = w → a = t_rsp t + 8 * i → ld64 (ss_mem s) (t_rsp t + 8 * i) = w)
      as Hw by (by intros i a w <- ->).
    unfold popped. by rewrite (Hw 0 _ _ H1), (Hw 1 _ _ H2), (Hw 2 _ _ H3), (Hw 3 _ _ H4), (Hw 4 _ _ H5),
      (Hw 5 _ _ H6), (Hw 6 _ _ H7) by lia.
  - unfold FRAME. replace (t_rsp t + 56) with (t_rsp t + 8 + 8 + 8 + 8 + 8 + 8 + 8) by lia. done.
Qed.
#[local] Opaque built push_words.

(** Thread_create gives a new thread with the next thread id, and the first
    switch to it, with the stub thread_entry_kernel it jumps to, runs
    task_bootstrap(NULL) with interrupts on, a stack that is empty up to the top of
    its page, and the FPU state of fpu_init. *)
Theorem thread_create_starts s L ns entry :
  oh_live (ss_heap s) L (sizeof_thread :: PAGE_SIZE :: ns) →
  ∃ p k s' t, thread_create entry s = Done (p, s') ∧ p ≠ 0 ∧ p ∉ L
    ∧ threads s' = <[p := t]> (threads s) ∧ t_kernel_stack t = k ∧ t_tid t = next_tid s ∧ t_entry t = entry
    ∧ t_process t = 0 ∧ t_next t = 0 ∧ next_tid s' = u64 (next_tid s + 1)
    ∧ current_thread s' = current_thread s ∧ thread_list s' = thread_list s
    ∧ (0 ≤ k → k + PAGE_SIZE < 2 ^ 64 → ∀ s2, threads s2 !! p = Some t →
       (∀ b, k ≤ b < k + PAGE_SIZE → ldb (ss_mem s2) b = ldb (ss_mem s') b) →
       ∃ r, (_ ← switch_load p; run_thread_entry_kernel) s2 = Done (tt, set_regs r s2)
         ∧ c_rip r = task_bootstrap ∧ c_rdi r = 0 ∧ c_rsp r = k + PAGE_SIZE
         ∧ c_rflags r = Z.lor (c_rflags (regs s2)) RFLAGS_IF ∧ c_fpu r = fpu_default_state).
Proof.
  intros Hl. destruct (thread_create_base_ok s L ns entry Hl) as (p & k & h & Hb & Hp & HpL & Hpa & _).
  set (vs := [task_bootstrap; 0; thread_entry_kernel; 0; 0; 0; 0; 0; 0]).
  set (t0 := mk_thread 0 k 0 (next_tid s) entry 0 0 fpu_default_state 0) in *.
  set (s1 := mk_ss H h _ _ _ _ _ _) in Hb.
  set (x := built vs t0 (ss_mem s1)).
  assert (threads s1 !! p = Some t0) as Hs1 by (apply lookup_insert_eq).
  exists p, k, (set_threads (<[p := set_t_rsp x.1 t0]> (threads s1)) (set_ss_mem x.2 s1)), (set_t_rsp x.1 t0).
  split. { unfold thread_create. erewrite bind_Done by exact Hb. rewrite (proj2 (Z.eqb_neq p 0)) by done.
    unfold setup_kernel_stack. by erewrite bind_Done by (by apply build_stack_run). }
  split; [done|]. split; [done|]. split; [unfold s1; cbn [threads set_threads]; by rewrite insert_insert_eq|].
  do 8 (split; [reflexivity|]). intros Hk Hk' s2 Hs2 Hm.
  destruct (built_ok vs t0 (ss_mem s1) Hk Hk') as (Hsp & Hw);
    [by vm_compute|pose proof code_range; unfold vs; repeat constructor; lia|].
  fold x in Hsp, Hw.
  assert (ss_mem (set_threads (<[p := set_t_rsp x.1 t0]> (threads s1)) (set_ss_mem x.2 s1)) = x.2) as Ex
    by apply km_get_set.
  rewrite Ex in Hm. cbn [t_kernel_stack t0 length vs] in Hsp. unfold PAGE_SIZE in *.
  destruct (first_switch s2 p (set_t_rsp x.1 t0) thread_entry_kernel [0; task_bootstrap]) as (Hrun & H1 & H2 & _).
  - done.
  - done.
  - cbn [t_rsp set_t_rsp]. lia.
  - cbn [t_rsp set_t_rsp]. unfold FRAME. lia.
  - cbn [t_rsp set_t_rsp]. apply (words_ext x.2); [done|]. intros b Hb0. simpl length in Hb0. apply Hm. lia.
  - cbn [t_rsp set_t_rsp] in *. unfold FRAME in *.
    eexists. split.
    + erewrite bind_Done by exact Hrun. unfold run_thread_entry_kernel.
      do 2 (erewrite bind_Done by (apply pop_run; lia)). reflexivity.
    + cbn [c_rip c_rdi c_rsp c_rflags c_fpu set_rsp regs set_regs]. split; [done|]. split; [done|]. split; [lia|]. done.
Qed.
(** User_thread_create makes the process's main thread, and the first switch to
    it, with the stub thread_entry_user it jumps to, enters ring 3 at the process's
    entry point, on the process's stack, with interrupts on. *)
Theorem user_thread_starts s L ns proc pr :
  oh_live (ss_heap s) L (sizeof_thread :: PAGE_SIZE :: ns) → proc ≠ 0 → processes s !! proc = Some pr →
  0 ≤ p_entry_point pr < 2 ^ 64 → 0 ≤ p_rsp pr < 2 ^ 64 →
  ∃ p k s' t, user_thread_create proc s = Done (p, s') ∧ p ≠ 0 ∧ p ∉ L
    ∧ threads s' = <[p := t]> (threads s) ∧ t_kernel_stack t = k ∧ t_process t = proc
    ∧ t_entry t = p_entry_point pr ∧ t_next t = 0
    ∧ p_main_thread <$> processes s' !! proc = Some p
    ∧ (0 ≤ k → k + PAGE_SIZE < 2 ^ 64 → ∀ s2, threads s2 !! p = Some t →
       (∀ b, k ≤ b < k + PAGE_SIZE → ldb (ss_mem s2) b = ldb (ss_mem s') b) →
       ∃ r, (_ ← switch_load p; run_thread_entry_user) s2 = Done (tt, set_regs r s2)
         ∧ c_rip r = p_entry_point pr ∧ c_rsp r = p_rsp pr ∧ c_user r = true
         ∧ c_rflags r = 0x202 ∧ c_fpu r = fpu_default_state).
Proof.
  intros Hl Hproc Hpr Hentry Hrsp.
  destruct (thread_create_base_ok s L ns (p_entry_point pr) Hl) as (p & k & h & Hb & Hp & HpL & Hpa & _).
  set (t0 := mk_thread 0 k (p_rsp pr) (next_tid s) (p_entry_point pr) proc 0 fpu_default_state 0).
  set (vs := [0x202; p_rsp pr; p_entry_point pr; thread_entry_user; 0; 0; 0; 0; 0; 0]).
  set (pr' := mk_process (p_address_space pr) (p_entry_point pr) (p_rsp pr) (p_user_stack_bottom pr)
    (p_user_stack_bottom_max pr) p (p_pid pr)).
  set (s0 := mk_ss H h _ _ _ _ _ _) in Hb.
  set (s1 := set_processes (<[proc := pr']> (processes s0)) (set_threads (<[p := t0]> (threads s0)) s0)).
  set (x := built vs t0 (ss_mem s1)).
  assert (threads s1 !! p = Some t0) as Hs1 by (apply lookup_insert_eq).
  exists p, k, (set_threads (<[p := set_t_rsp x.1 t0]> (threads s1)) (set_ss_mem x.2 s1)), (set_t_rsp x.1 t0).
  split.
  { unfold user_thread_create. rewrite (proj2 (Z.eqb_neq proc 0)) by done.
    erewrite bind_Done by (unfold get_process; by rewrite Hpr).
    erewrite bind_Done by exact Hb. rewrite (proj2 (Z.eqb_neq p 0)) by done.
    erewrite bind_Done by (unfold get_thread; cbn [threads s0]; by rewrite lookup_insert_eq).
    erewrite bind_Done by reflexivity. erewrite bind_Done by reflexivity.
    unfold setup_user_stack. erewrite (bind_Done _ _ _ tt); [reflexivity|].
    fold s1. change (set_processes _ _) with s1.
    erewrite bind_Done by (unfold get_thread; by rewrite Hs1). by apply (build_stack_run s1). }
  split; [done|]. split; [done|].
  split; [unfold s1, s0; cbn [threads set_threads set_processes]; by rewrite !insert_insert_eq|].
  do 4 (split; [reflexivity|]).
  split; [cbn [processes set_threads set_ss_mem s1 set_processes]; by rewrite lookup_insert_eq|].
  intros Hk Hk' s2 Hs2 Hm.
  destruct (built_ok vs t0 (ss_mem s1) Hk Hk') as (Hsp & Hw);
    [by vm_compute|pose proof code_range; unfold vs; repeat constructor; lia|].
  fold x in Hsp, Hw.
  assert (ss_mem (set_threads (<[p := set_t_rsp x.1 t0]> (threads s1)) (set_ss_mem x.2 s1)) = x.2) as Ex
    by apply km_get_set.
  rewrite Ex in Hm. cbn [t_kernel_stack t0 length vs] in Hsp. unfold PAGE_SIZE in *.
  destruct (first_switch s2 p (set_t_rsp x.1 t0) thread_entry_user [p_entry_point pr; p_rsp pr; 0x202])
    as (Hrun & H1 & H2 & H3 & _).
  - done.
  - done.
  - cbn [t_rsp set_t_rsp]. lia.
  - cbn [t_rsp set_t_rsp]. unfold FRAME. lia.
  - cbn [t_rsp set_t_rsp]. apply (words_ext x.2); [done|]. intros b Hb0. simpl length in Hb0. apply Hm. lia.
  - cbn [t_rsp set_t_rsp] in *. unfold FRAME in *.
    eexists. split.
    + erewrite bind_Done by exact Hrun. unfold run_thread_entry_user.
      do 3 (erewrite bind_Done by (apply pop_run; lia)). reflexivity.
    + cbn [c_rip c_rdi c_rsp c_rflags c_fpu c_user set_rsp regs set_regs]. split; [exact H1|].
      split; [exact H2|]. split; [reflexivity|]. split; [by rewrite H3|reflexivity].
Qed.
End sched_spec.

Module SchedWitness.
Import DemoObjects.

(** A heap with memory and a CR3, over the heap that never reuses. *)
Record demo_h := mk_dh { d_objects : bump; d_mem : mem; d_cr3 : Z }.
Definition put_objects (b : bump) (h : demo_h) : demo_h := mk_dh b (d_mem h) (d_cr3 h).
#[export] Instance demo_objects : ObjectHeap demo_h := {|
  oh_alloc n := zoom d_objects put_objects (oh_alloc n);
  oh_calloc c n := zoom d_objects put_objects (oh_calloc c n);
  oh_free p := zoom d_objects put_objects (oh_free p);
  oh_live h := oh_live (d_objects h);
|}.
#[export] Instance demo_objects_laws : ObjectHeapLaws (OH := demo_objects).
Proof.
  split.
  - intros h l n ns Hl Hn. destruct (oh_alloc_ok (d_objects h) l n ns Hl Hn) as (p & b & Ha & ? & ? & ?).
    exists p, (mk_dh b (d_mem h) (d_cr3 h)). split; [by apply (zoom_Done d_objects put_objects)|done].
  - intros h l c n ns Hl Hc Hn Hcn. destruct (oh_calloc_ok (d_objects h) l c n ns Hl Hc Hn Hcn) as (p & b & Ha & ? & ? & ?).
    exists p, (mk_dh b (d_mem h) (d_cr3 h)). split; [by apply (zoom_Done d_objects put_objects)|done].
  - intros h l l' p ns Hl Hp. destruct (oh_free_ok (d_objects h) l l' p ns Hl Hp) as (b & Ha & ?).
    exists (mk_dh b (d_mem h) (d_cr3 h)). split; [by apply (zoom_Done d_objects put_objects)|done].
  - intros h l n ns. apply (oh_skip (d_objects h)).
  - intros h l l' ns. apply (oh_live_perm (d_objects h)).
  - intros h l ns. apply (oh_live_ok (d_objects h)).
  - intros h l ns p. apply (oh_aligned (d_objects h)).
Qed.
#[export] Instance demo_kmem : KernelMem demo_h := {|
  km_mem := d_mem;
  km_set_mem m h := mk_dh (d_objects h) m (d_cr3 h);
  km_current_cr3 := d_cr3;
  km_kernel_cr3 _ := 0x5000;
  km_load_cr3 c h := mk_dh (d_objects h) (d_mem h) c;
|}.
#[export] Instance demo_kmem_laws : KernelMemLaws (KM := demo_kmem).
Proof. by split. Qed.
#[export] Program Instance demo_image : ThreadImage := {|
  task_bootstrap := 0x100; thread_entry_kernel := 0x200; thread_entry_user := 0x300;
  schedule_return := 0x400; bootstrap_task := 0x500; fpu_default_state := [1; 2];
|}.
Next Obligation. lia. Qed.

(** Thread 0x1000 runs, thread 0x2000 of process 7 waits, both in the list. *)
Definition thread_a : thread := mk_thread 0 0x7000 0 1 0x600 0 0x2000 [] 11.
Definition thread_b : thread := mk_thread 0x9000 0x8800 0 2 0x700 7 0 [3] 22.
Definition demo_process : process := mk_process (mk_as 0 0x6000) 0x400000 0xf0000000 0 0 0 1.
Definition demo_regs : cpu := mk_cpu 1 2 3 4 5 6 0x8000 0 0 0x202 [9] 11 false.
Definition demo_ss : sched_state demo_h := mk_ss _ (mk_dh (mk_bump 4096) (st64 0x9030 0x777 ∅) 0x5000)
  {[ 0x1000 := thread_a; 0x2000 := thread_b ]} {[ 7 := demo_process ]} 0x1000 0x1000 3 demo_regs.
Definition demo_list : list Z := [0x1000; 0x2000].

Lemma demo_lookup (p : Z) t : threads demo_ss !! p = Some t →
  p = 0x1000 ∧ t = thread_a ∨ p = 0x2000 ∧ t = thread_b.
Proof.
  intros Ht. cbn [threads demo_ss] in Ht. apply lookup_insert_Some in Ht as [[<- <-]|[_ Ht]]; [auto|]. apply lookup_singleton_Some in Ht as [<- <-]. auto.
Qed.

Lemma demo_sched_inv : sched_inv demo_ss demo_list.
Proof.
  split.
  - split; [done|]. split; [done|]. exists thread_a. split; [done|].
    split; [done|]. split; [done|]. by exists thread_b.
  - apply (bool_decide_unpack _). by vm_compute.
  - split; [done|]. split; [done|]. exists thread_a. split; [done|]. left. apply list_elem_of_here.
  - intros p t _ [[-> ->]|[-> ->]]%demo_lookup; (split; [done|done|]).
    + by exists 0x5000.
    + by exists 0x6000.
  - intros p t _ Hp [[-> ->]|[-> ->]]%demo_lookup; [done|]. unfold FRAME. simpl. lia.
Qed.

Lemma demo_stack : stack_ok demo_ss demo_list.
Proof.
  split; [unfold FRAME; simpl; lia|].
  intros p t _ Hp [[-> ->]|[-> ->]]%demo_lookup; [done|]. unfold FRAME. simpl. lia.
Qed.

Lemma schedule_spec_witness : ∃ s', schedule demo_ss = Done (tt, s') ∧ current_thread s' = 0x2000
  ∧ km_current_cr3 (ss_heap s') = 0x6000 ∧ c_rip (regs s') = 0x777 ∧ c_fs_base (regs s') = 22.
Proof.
  destruct (schedule_spec demo_ss demo_list thread_a demo_sched_inv demo_stack eq_refl)
    as [[[E|E] _]|(next & n & s' & Hnext & Hne & Hn & Hs & _ & [Hcur _ _ _ _ Hcr _ _ _] & Hw)];
    [discriminate E|discriminate E|].
  exists s'. apply demo_lookup in Hn as [[-> ->]|[-> ->]]; [destruct Hne; reflexivity|].
  split; [exact Hs|]. split; [exact Hcur|].
  destruct (Hw [0; 0; 0; 0; 0; 0; 0x777] eq_refl) as (E & _ & _ & Hfs).
  - repeat split; vm_compute; reflexivity.
  - split; [apply (inj Some) in Hcr; symmetry; exact Hcr|]. split; [|exact Hfs]. injection E as _ _ _ _ _ _ E. symmetry. exact E.
Defined.

(** The two states after one and two calls of schedule. *)
Definition demo_ss1 : sched_state demo_h := state_of demo_ss (schedule demo_ss).
Definition demo_ss2 : sched_state demo_h := state_of demo_ss1 (schedule demo_ss1).

Lemma demo_run1 : schedule demo_ss = Done (tt, demo_ss1).
Proof. apply (result_of_Done (St := sched_state demo_h)). by vm_compute. Qed.
Lemma demo_run2 : schedule demo_ss1 = Done (tt, demo_ss2).
Proof. apply (result_of_Done (St := sched_state demo_h)). by vm_compute. Qed.

Lemma demo_inv1 : sched_inv demo_ss1 demo_list.
Proof.
  destruct (schedule_cases demo_ss demo_list thread_a demo_sched_inv eq_refl)
    as [[[E|[E _]] _]|(_ & Hin & Hne & n & s' & _ & Hs & Hsw)]; [discriminate E|discriminate E|].
  destruct (Done_fun _ _ _ _ _ _ demo_run1 Hs) as [_ E]. rewrite E.
  exact (switched_inv _ _ _ _ _ _ demo_sched_inv demo_stack eq_refl Hin Hne Hsw).
Qed.

Lemma demo_stack1 : stack_ok demo_ss1 demo_list.
Proof.
  split; [by vm_compute|]. intros p t Hp Hpc Ht.
  apply elem_of_cons in Hp as [->|Hp]; [|apply list_elem_of_singleton in Hp as ->; by destruct Hpc].
  assert (t_rsp t = 0x8000 - 56) as ->; [|left; vm_compute; discriminate].
  vm_compute in Ht. injection Ht as <-. done.
Qed.

Lemma schedule_resumes_witness : c_rip (regs demo_ss2) = 0x400 ∧ c_rsp (regs demo_ss2) = 0x8000
  ∧ c_fpu (regs demo_ss2) = [9].
Proof.
  destruct (schedule_resumes demo_ss demo_list thread_a demo_ss1 demo_ss1 demo_ss2 demo_sched_inv demo_stack eq_refl)
    as (_ & Hsp & Hip & Hfpu & _).
  - repeat (apply Forall_cons_2; [vm_compute; split; [discriminate|reflexivity]|]). apply Forall_nil_2.
  - exact demo_run1.
  - vm_compute. discriminate.
  - exact demo_inv1.
  - exact demo_stack1.
  - vm_compute. discriminate.
  - reflexivity.
  - reflexivity.
  - exact demo_run2.
  - vm_compute. reflexivity.
  - split; [exact Hip|]. split; [exact Hsp|exact Hfpu].
Defined.

Lemma schedule_round_robin_witness : current_thread demo_ss2 = 0x1000.
Proof.
  assert (∀ s : sched_state demo_h, runs s s) as Hr by (intros s; split; eauto).
  destruct (schedule_round_robin demo_list 2 demo_ss demo_ss2 0 demo_sched_inv eq_refl) as [_ H].
  - eapply turns_more; [|apply Hr|exact demo_stack1|exact demo_run2].
    eapply turns_more; [apply turns_start|apply Hr|exact demo_stack|exact demo_run1].
  - change (Some 0x1000 = Some (current_thread demo_ss2)) in H. apply (inj Some) in H. symmetry. exact H.
Defined.

Lemma scheduler_add_spec_witness : ∃ s', scheduler_add 0x3000
  (set_threads (<[0x3000 := set_t_next 0 thread_a]> (threads demo_ss)) demo_ss) = Done (tt, s')
  ∧ tchain (threads s') (thread_list s') [0x1000; 0x2000; 0x3000].
Proof.
  destruct (scheduler_add_spec (set_threads (<[0x3000 := set_t_next 0 thread_a]> (threads demo_ss)) demo_ss)
    demo_list 0x3000 (set_t_next 0 thread_a)) as (s' & Hs & Hc & _).
  - split; [reflexivity|]. split; [discriminate|]. exists thread_a. split; [reflexivity|].
    split; [reflexivity|]. split; [discriminate|]. exists thread_b. split; reflexivity.
  - apply (bool_decide_unpack _). vm_compute. exact I.
  - apply (bool_decide_unpack _). vm_compute. exact I.
  - discriminate.
  - reflexivity.
  - reflexivity.
  - exists s'. split; [exact Hs|exact Hc].
Defined.

Lemma demo_create_live : oh_live (ss_heap demo_ss) [0x100] [sizeof_thread; PAGE_SIZE].
Proof.
  split; [by vm_compute|]. split; [apply NoDup_singleton|]. split; [apply Forall_singleton; by vm_compute|].
  repeat constructor; by vm_compute.
Qed.

Lemma thread_create_starts_witness : ∃ p s', thread_create 0x600 demo_ss = Done (p, s') ∧ p ≠ 0.
Proof.
  destruct (thread_create_starts demo_ss [0x100] [] 0x600 demo_create_live) as (p & k & s' & t & Hr & Hp & _).
  exists p, s'. split; [exact Hr|exact Hp].
Defined.

Lemma user_thread_starts_witness : ∃ p s', user_thread_create 7 demo_ss = Done (p, s')
  ∧ p_main_thread <$> processes s' !! 7 = Some p.
Proof.
  destruct (user_thread_starts demo_ss [0x100] [] 7 demo_process demo_create_live)
    as (p & k & s' & t & Hr & _ & _ & _ & _ & _ & _ & _ & Hm & _).
  - discriminate.
  - reflexivity.
  - vm_compute. split; [discriminate|reflexivity].
  - vm_compute. split; [discriminate|reflexivity].
  - exists p, s'. split; [exact Hr|exact Hm].
Defined.
End SchedWitness.
