(* ===== verification/Cpuid.v ===== *)
(** * What the processor says of itself: headers/kernel_common/c_generic/cpuid.h

    The instruction is a function of the leaf and the subleaf to the four registers. *)
From S2P Require Import Prelude.

Record cpuid_regs := mk_cpuid { c_eax : Z; c_ebx : Z; c_ecx : Z; c_edx : Z }.

Section cpuid.
Variable cpuid : Z → Z → cpuid_regs.

Definition cpuid_leaf (leaf : Z) : cpuid_regs := cpuid leaf 0.
Definition cpuid_max_basic_leaf : Z := c_eax (cpuid 0 0).
Definition cpuid_max_ext_leaf : Z := c_eax (cpuid 0x80000000 0).

(** 1u << bit: the shift of an unsigned by its width or more has no meaning in C. *)
Definition has_bit (v bit : Z) : outcome bool :=
  if 32 <=? bit then Undef "shift by the width of the type or more"
  else Done (negb (Z.land v (Z.shiftl 1 bit) =? 0)).

Definition cpu_has_edx (leaf bit : Z) : outcome bool :=
  if (cpuid_max_basic_leaf <? leaf) && (leaf <? 0x80000000) then Done false
  else if (0x80000000 <=? leaf) && (cpuid_max_ext_leaf <? leaf) then Done false
  else has_bit (c_edx (cpuid_leaf leaf)) bit.
Definition cpu_has_ecx (leaf bit : Z) : outcome bool :=
  if (cpuid_max_basic_leaf <? leaf) && (leaf <? 0x80000000) then Done false
  else if (0x80000000 <=? leaf) && (cpuid_max_ext_leaf <? leaf) then Done false
  else has_bit (c_ecx (cpuid_leaf leaf)) bit.

(** tsc.c *)
Definition tsc_available : outcome bool := cpu_has_edx 0x1 4.
Definition invariant_tsc : outcome bool := cpu_has_edx 0x80000007 8.

(** ** Specification *)

(** The last leaf of the range a leaf is in, basic or extended. *)
Definition last_leaf (leaf : Z) : Z := if leaf <? 0x80000000 then cpuid_max_basic_leaf else cpuid_max_ext_leaf.

Lemma has_bit_ok v bit : 0 ≤ bit < 32 → has_bit v bit = Done (Z.testbit v bit).
Proof.
  intros Hb. unfold has_bit. destruct (Z.leb_spec 32 bit); [lia|]. f_equal. rewrite Z.shiftl_1_l.
  destruct (Z.testbit v bit) eqn:E.
  - apply negb_true_iff, Z.eqb_neq. intros Hz. apply (f_equal (λ x, Z.testbit x bit)) in Hz.
    by rewrite Z.land_spec, Z.pow2_bits_true, E, Z.bits_0 in Hz by lia.
  - apply negb_false_iff, Z.eqb_eq, Z.bits_inj'. intros i Hi. rewrite Z.land_spec, Z.bits_0.
    destruct (decide (i = bit)) as [->|]; [by rewrite E|]. by rewrite Z.pow2_bits_false, andb_false_r by lia.
Qed.
Lemma leaf_guards {A} leaf (x y : A) :
  (if (cpuid_max_basic_leaf <? leaf) && (leaf <? 0x80000000) then x
   else if (0x80000000 <=? leaf) && (cpuid_max_ext_leaf <? leaf) then x else y) = if leaf <=? last_leaf leaf then y else x.
Proof.
  unfold last_leaf. destruct (Z.ltb_spec leaf 0x80000000), (Z.leb_spec 0x80000000 leaf); try lia;
    destruct (Z.ltb_spec cpuid_max_basic_leaf leaf), (Z.ltb_spec cpuid_max_ext_leaf leaf); cbn [andb]; zcases; (done || lia).
Qed.

(** A feature is there exactly if the leaf that would say so is, in its own range of leaves, and
    has its bit set; leaves the processor does not have are never read as features. *)
Theorem cpu_has_spec leaf bit : 0 ≤ bit < 32 →
  cpu_has_edx leaf bit = Done ((leaf <=? last_leaf leaf) && Z.testbit (c_edx (cpuid leaf 0)) bit)
  ∧ cpu_has_ecx leaf bit = Done ((leaf <=? last_leaf leaf) && Z.testbit (c_ecx (cpuid leaf 0)) bit).
Proof.
  intros Hb. unfold cpu_has_edx, cpu_has_ecx. rewrite !leaf_guards, !has_bit_ok by done. by destruct (leaf <=? _).
Qed.
End cpuid.
