(* ===== verification/Clock.v ===== *)
(** * Clocks: src/time/clocks.c, time/clocks/tsc.c, hpet.c, pm_timer.c, rtc.c,
    headers/time/helpers_time.h, acpi/fadt.c and syscalls/time

    The hardware counters are functions of a time that every read advances. The
    registered clock sources are a linked list of heap objects; their [now] and
    [real] function pointers name the functions the code registers. *)
From S2P Require Import Prelude Cpuid CMem Chain Phys Vmm Heap Term.

Definition CLOCK_TSC : Z := 0.
Definition CLOCK_HPET : Z := 1.
Definition CLOCK_PM_TIMER : Z := 2.
Definition CLOCK_RTC : Z := 3.
Definition CLOCK_MASK (clock : Z) : Z := Z.shiftl 1 clock.
Definition PM_TIMER_FREQ : Z := 3579545.
Definition NS_PER_S : Z := 1000000000.
Definition HPET_REG_CAPS : Z := 0.
Definition HPET_REG_CONFIG : Z := 0x10.
Definition HPET_REG_COUNTER : Z := 0xF0.

(** The functions clock sources point to. *)
Inductive now_fn := TscRead | HpetRead | PmTimerRead.
Inductive real_fn := RtcReal.

(** clock_source_t; None is a NULL function pointer *)
Record clock_source := mk_source {
  cs_id : Z;
  cs_now : option now_fn;
  cs_real : option real_fn;
  cs_freq : Z;
  cs_next : Z;
}.
Definition sizeof_clock_source : Z := 40.

Record timespec := mk_ts { tv_sec : Z; tv_nsec : Z }.

(** What pm_timer_init and rtc_init read in the FADT. *)
Record acpi_fadt := mk_fadt {
  x_pm_tmr_blk : Z;
  pm_tmr_blk : Z;
  fadt_flags : Z;
  fadt_century : Z;
}.

(** The machine: its counters and CMOS at each time, its processor's features,
    and the ACPI tables uACPI finds. *)
Class ClockHw := {
  hw_tsc : nat → Z;
  hw_hpet : nat → Z;
  hw_pm_timer : nat → Z;
  hw_cmos : nat → Z → Z;
  hw_cpuid : Z → Z → cpuid_regs;
  hw_hpet_caps : Z;
  hw_hpet_config : Z;
  acpi_hpet : option Z;        (* the address the HPET table gives *)
  acpi_fadt_table : option acpi_fadt;
}.

(** map_page of vmm.c, for device registers. *)
Class Mmio (H : Type) := { mmio_map_page : Z → Z → Z → M H unit }.
#[export] Instance kernel_mmio `{PageAllocator St} : Mmio (heap_state St) := {|
  mmio_map_page virt phys flags := on_vm (map_page virt phys flags);
|}.
Definition PAGE_MMIO : Z := Z.lor (Z.lor PAGE_PRESENT PAGE_WRITABLE) PAGE_NOCACHE.

Record clock_state {H : Type} := mk_ck {
  ck_heap : H;
  ck_time : nat;
  ck_term : term_state;
  sources : gmap Z clock_source;
  clock_list : Z;
  available_clocks : Z;
  boot_clock : Z;
  boot_clock_base : Z;
  tsc_base : Z;
  pm_timer : option (Z * bool);     (* port, is_32bit *)
  pm_accumulated : Z;
  pm_last : Z;
  base_rtc : option timespec;
  hpet_writes : list (Z * Z);
}.
Arguments clock_state : clear implicits.

(** ** helpers_time.h *)

Definition IS_LEAP (y : Z) : bool :=
  (Z.rem y 4 =? 0) && negb (Z.rem y 100 =? 0) || (Z.rem y 400 =? 0).
Definition days_in_month : list Z := [31; 28; 31; 30; 31; 30; 31; 31; 30; 31; 30; 31].
Definition month_days (year m : Z) : Z :=
  if (m =? 2) && IS_LEAP year then 29 else default 0 (days_in_month !! Z.to_nat (m - 1)).

(** Adding [f i] for i = lo, lo + 1, ..., hi - 1. *)
Definition sum_to (f : Z → Z) (lo hi : Z) (days : Z) : Z :=
  fold_left (λ days i, i64 (days + f i)) (seqZ lo (hi - lo)) days.

(** A month after 13 makes the second loop read past [days_in_month]. *)
Definition days_since_epoch (year month day : Z) : outcome Z :=
  let days := sum_to (λ y, if IS_LEAP y then 366 else 365) 1970 year 0 in
  if 13 <? month then Undef "days_in_month: out of bounds"
  else
    let days := sum_to (month_days year) 1 month days in
    Done (i64 (days + (day - 1))).

Definition timespec_normalize (ts : timespec) : timespec :=
  let sec := i64 (tv_sec ts + Z.quot (tv_nsec ts) NS_PER_S) in
  let nsec := Z.rem (tv_nsec ts) NS_PER_S in
  if nsec <? 0 then mk_ts (i64 (sec - 1)) (nsec + NS_PER_S) else mk_ts sec nsec.

Definition timespec_to_nsec (ts : timespec) : Z := u64 (tv_sec ts * NS_PER_S + tv_nsec ts).

(** ** fadt.c *)

Definition get_pm_timer_address `{ClockHw} : Z :=
  match acpi_fadt_table with
  | None => 0
  | Some f => if negb (x_pm_tmr_blk f =? 0) then u32 (x_pm_tmr_blk f) else pm_tmr_blk f
  end.
Definition get_century_register `{ClockHw} : Z :=
  match acpi_fadt_table with None => 0 | Some f => fadt_century f end.
Definition fadt_is_32bit `{ClockHw} : bool :=
  match acpi_fadt_table with
  | None => false
  | Some f => negb (Z.land (fadt_flags f) (Z.shiftl 1 8) =? 0)
  end.

(** ** pm_timer.c, as a function of the raw counter: accumulated and last *)
Definition pm_timer_step (is_32bit : bool) (current : Z) (x : Z * Z) : Z * Z :=
  let mask := if is_32bit then 0xFFFFFFFF else 0x00FFFFFF in
  let delta := Z.land (u32 (current - x.2)) mask in
  (u64 (x.1 + delta), current).

Section clock.
Context `{OH : ObjectHeap H} `{MM : !Mmio H} `{HH : Hhdm} `{HW : ClockHw} `{UA : Uart}.
Abbreviation S := (clock_state H).

Definition on_ck_heap {A} : M H A → M S A := zoom ck_heap (λ h s,
  mk_ck H h (ck_time s) (ck_term s) (sources s) (clock_list s) (available_clocks s) (boot_clock s)
    (boot_clock_base s) (tsc_base s) (pm_timer s) (pm_accumulated s) (pm_last s) (base_rtc s) (hpet_writes s)).
Definition on_ck_term {A} : M term_state A → M S A := zoom ck_term (λ t s,
  mk_ck H (ck_heap s) (ck_time s) t (sources s) (clock_list s) (available_clocks s) (boot_clock s)
    (boot_clock_base s) (tsc_base s) (pm_timer s) (pm_accumulated s) (pm_last s) (base_rtc s) (hpet_writes s)).
Definition set_sources (m : gmap Z clock_source) (l avail : Z) (s : S) : S :=
  mk_ck H (ck_heap s) (ck_time s) (ck_term s) m l avail (boot_clock s) (boot_clock_base s) (tsc_base s)
    (pm_timer s) (pm_accumulated s) (pm_last s) (base_rtc s) (hpet_writes s).
Definition set_boot (c base : Z) (s : S) : S :=
  mk_ck H (ck_heap s) (ck_time s) (ck_term s) (sources s) (clock_list s) (available_clocks s) c base
    (tsc_base s) (pm_timer s) (pm_accumulated s) (pm_last s) (base_rtc s) (hpet_writes s).
Definition set_tsc_base (v : Z) (s : S) : S :=
  mk_ck H (ck_heap s) (ck_time s) (ck_term s) (sources s) (clock_list s) (available_clocks s) (boot_clock s)
    (boot_clock_base s) v (pm_timer s) (pm_accumulated s) (pm_last s) (base_rtc s) (hpet_writes s).
Definition set_pm (p : option (Z * bool)) (acc last : Z) (s : S) : S :=
  mk_ck H (ck_heap s) (ck_time s) (ck_term s) (sources s) (clock_list s) (available_clocks s) (boot_clock s)
    (boot_clock_base s) (tsc_base s) p acc last (base_rtc s) (hpet_writes s).
Definition set_base_rtc (ts : option timespec) (s : S) : S :=
  mk_ck H (ck_heap s) (ck_time s) (ck_term s) (sources s) (clock_list s) (available_clocks s) (boot_clock s)
    (boot_clock_base s) (tsc_base s) (pm_timer s) (pm_accumulated s) (pm_last s) ts (hpet_writes s).
Definition log_hpet (reg v : Z) (s : S) : S :=
  mk_ck H (ck_heap s) (ck_time s) (ck_term s) (sources s) (clock_list s) (available_clocks s) (boot_clock s)
    (boot_clock_base s) (tsc_base s) (pm_timer s) (pm_accumulated s) (pm_last s) (base_rtc s)
    (hpet_writes s ++ [(reg, v)]).

(** A read of the hardware takes time. *)
Definition sample (f : nat → Z) : M S Z := λ s,
  Done (f (ck_time s), mk_ck H (ck_heap s) (Datatypes.S (ck_time s)) (ck_term s) (sources s) (clock_list s)
    (available_clocks s) (boot_clock s) (boot_clock_base s) (tsc_base s) (pm_timer s) (pm_accumulated s)
    (pm_last s) (base_rtc s) (hpet_writes s)).

Definition rdtsc : M S Z := sample hw_tsc.
Definition rcmos (index : Z) : M S Z := sample (λ t, hw_cmos t index).

Definition get_source (p : Z) : M S clock_source := λ s,
  match sources s !! p with Some c => Done (c, s) | None => Undef "not a clock source" end.

(** ** The counters *)

Definition tsc_read : M S Z := t ← rdtsc; base ← gets tsc_base; mret (u64 (t - base)).
Definition hpet_read : M S Z := sample hw_hpet.
Definition pm_timer_read : M S Z :=
  pm ← gets pm_timer;
  match pm with
  | None => mundef "NULL pm_timer"
  | Some (port, is_32bit) =>
      current ← sample hw_pm_timer;
      x ← gets (λ s, (pm_accumulated s, pm_last s));
      let x' := pm_timer_step is_32bit current x in
      _ ← modify (set_pm pm x'.1 x'.2);
      mret x'.1
  end.

(** clock->now() *)
Definition call_now (c : clock_source) : M S Z :=
  match cs_now c with
  | Some TscRead => tsc_read
  | Some HpetRead => hpet_read
  | Some PmTimerRead => pm_timer_read
  | None => mundef "call of NULL: now"
  end.

(** ** clocks.c *)

Definition is_clock_available (source_id : Z) : M S bool :=
  gets (λ s, negb (Z.land (available_clocks s) (CLOCK_MASK source_id) =? 0)).

(** while (current) { if (current->id == source_id) return current; current = current->next; } *)
Fixpoint find_clock (fuel : nat) (m : gmap Z clock_source) (source_id current : Z) : outcome Z :=
  if current =? 0 then Done 0
  else match m !! current with
  | None => Undef "not a clock source"
  | Some c =>
      if cs_id c =? source_id then Done current
      else match fuel with
      | O => OutOfFuel
      | Datatypes.S k => find_clock k m source_id (cs_next c)
      end
  end.

Definition get_clock (source_id : Z) : M S Z :=
  a ← is_clock_available source_id;
  if negb a then mret 0
  else
    s ← gets id;
    lift_o (find_clock (size (sources s)) (sources s) source_id (clock_list s)).

Definition get_best_clock : M S Z :=
  tsc ← is_clock_available CLOCK_TSC;
  if tsc : bool then get_clock CLOCK_TSC
  else
    hpet ← is_clock_available CLOCK_HPET;
    if hpet : bool then get_clock CLOCK_HPET
    else
      pm ← is_clock_available CLOCK_PM_TIMER;
      if pm : bool then get_clock CLOCK_PM_TIMER else mret 0.

Definition get_clock_source_tail (m : gmap Z clock_source) (current : Z) : outcome Z :=
  if current =? 0 then Done 0 else find_last cs_next (size m) m current.

(** register_clock_source and register_time_source, which differ in the fields
    they fill. *)
Definition register_source (fail : string) (source_id : Z) (now : option now_fn) (real : option real_fn) (freq : Z) : M S Z :=
  new_source ← on_ck_heap (oh_alloc sizeof_clock_source);
  if new_source =? 0 then mpanic fail
  else
    s ← gets id;
    let avail := u8 (Z.lor (available_clocks s) (CLOCK_MASK source_id)) in
    let m := <[new_source := mk_source (u8 source_id) now real freq 0]> (sources s) in
    if clock_list s =? 0 then
      _ ← modify (set_sources m new_source avail);
      mret new_source
    else
      tail ← lift_o (get_clock_source_tail m (clock_list s));
      match m !! tail with
      | None => mundef "not a clock source"
      | Some t =>
          let t' := mk_source (cs_id t) (cs_now t) (cs_real t) (cs_freq t) new_source in
          _ ← modify (set_sources (<[tail := t']> m) (clock_list s) avail);
          mret new_source
      end.

Definition register_clock_source (source_id : Z) (now : now_fn) (freq : Z) : M S Z :=
  register_source "Failed to allocate memory for clock source" source_id (Some now) None freq.
Definition register_time_source (source_id : Z) (real : real_fn) : M S Z :=
  register_source "Failed to allocate memory for time source" source_id None (Some real) 0.

(** CLOCK_NS: (now() * 1000000000) / freq in 64 bits *)
Definition ticks_ns (ticks freq : Z) : Z := u64 (ticks * NS_PER_S) / freq.

Definition clock_get_ns (clock : Z) : M S Z :=
  c ← get_source clock;
  ticks ← call_now c;
  if cs_freq c =? 0 then mundef "divide error" else mret (ticks_ns ticks (cs_freq c)).

Definition ns_since_boot : M S Z :=
  b ← gets boot_clock;
  if b =? 0 then mpanic "No boot clock!"
  else
    ns ← clock_get_ns b;
    base ← gets boot_clock_base;
    mret (u64 (ns - base)).

Definition clock_get_best_ns : M S Z :=
  best ← get_best_clock;
  if best =? 0 then mpanic "No clock sources available" else clock_get_ns best.

(** while ((clock->now() - start) < ticks) pause; *)
Definition sleep_turn (c : clock_source) (start ticks : Z) (again : M S unit) : M S unit :=
  t ← call_now c;
  if u64 (t - start) <? ticks then again else mret tt.
Fixpoint sleep_loop (fuel : nat) (c : clock_source) (start ticks : Z) : M S unit :=
  sleep_turn c start ticks
    match fuel with
    | O => λ _, OutOfFuel
    | Datatypes.S k => sleep_loop k c start ticks
    end.

Definition busy_sleep_ticks (fuel : nat) (clock ticks : Z) : M S unit :=
  c ← get_source clock;
  start ← call_now c;
  sleep_loop fuel c start ticks.

Definition ns_ticks (ns freq : Z) : Z := u64 (ns * freq) / NS_PER_S.

Definition busy_sleep_ns (fuel : nat) (clock ns : Z) : M S unit :=
  c ← get_source clock;
  busy_sleep_ticks fuel clock (ns_ticks ns (cs_freq c)).

Definition busy_sleep_best_ns (fuel : nat) (ns : Z) : M S unit :=
  best ← get_best_clock;
  if best =? 0 then mpanic "No clock sources available" else busy_sleep_ns fuel best ns.

Definition setup_boot_clock : M S unit :=
  best ← get_best_clock;
  if best =? 0 then mpanic "No clock sources available"
  else
    base ← gets boot_clock_base;
    _ ← modify (set_boot best base);
    ns ← clock_get_ns best;
    modify (set_boot best ns).

(** ** hpet.c *)

Definition hpet_init : M S unit :=
  match acpi_hpet with
  | None => mret tt
  | Some phys =>
      _ ← on_ck_heap (mmio_map_page (phys_to_virt phys) phys PAGE_MMIO);
      let period := Z.shiftr hw_hpet_caps 32 in
      if period =? 0 then mpanic "Broken HPET period"
      else
        let config := Z.land hw_hpet_config (u64 (Z.lnot 1)) in
        _ ← modify (log_hpet HPET_REG_CONFIG config);
        _ ← modify (log_hpet HPET_REG_COUNTER 0);
        _ ← modify (log_hpet HPET_REG_CONFIG (Z.lor config 1));
        _ ← register_clock_source CLOCK_HPET HpetRead (1000000000000000 / period);
        mret tt
  end.

(** ** pm_timer.c *)

Definition sizeof_pm_timer : Z := 4.

Definition pm_timer_init : M S unit :=
  if get_pm_timer_address =? 0 then mret tt
  else
    p ← on_ck_heap (oh_alloc sizeof_pm_timer);
    if p =? 0 then mpanic "Failed to allocate memory for PM timer"
    else
      s ← gets id;
      _ ← modify (set_pm (Some (u16 get_pm_timer_address, fadt_is_32bit)) (pm_accumulated s) (pm_last s));
      _ ← register_clock_source CLOCK_PM_TIMER PmTimerRead PM_TIMER_FREQ;
      mret tt.

(** ** tsc.c *)

Definition calibrate_tsc (fuel : nat) : M S Z :=
  start_tsc ← rdtsc;
  _ ← busy_sleep_best_ns fuel 100000000;
  end_tsc ← rdtsc;
  mret (u64 (u64 (end_tsc - start_tsc) * 10)).

Definition tsc_init (fuel : nat) : M S unit :=
  tsc ← lift_o (tsc_available hw_cpuid);
  if negb tsc then on_ck_term (terminal_write "WARNING: TSC not available
")
  else
    freq ← calibrate_tsc fuel;
    base ← rdtsc;
    _ ← modify (set_tsc_base base);
    if freq =? 0 then mret tt
    else
      _ ← register_clock_source CLOCK_TSC TscRead freq;
      mret tt.

(** ** rtc.c *)

Definition rtc_real (ts : timespec) : M S timespec :=
  b ← gets base_rtc;
  match b with
  | None => mundef "NULL base_rtc"
  | Some b =>
      ns ← ns_since_boot;
      mret (timespec_normalize (mk_ts (tv_sec b) (i64 (tv_nsec b + ns))))
  end.

Definition get_update_flag : M S bool :=
  v ← rcmos 0x0A; mret (negb (Z.land v 0x80 =? 0)).

Record rtc_regs := mk_rtc {
  r_second : Z; r_minute : Z; r_hour : Z; r_day : Z; r_month : Z; r_year : Z; r_century : Z;
}.
#[export] Instance rtc_regs_eq : EqDecision rtc_regs.
Proof. solve_decision. Defined.

Definition read_rtc (century_reg : Z) : M S rtc_regs :=
  second ← rcmos 0x00;
  minute ← rcmos 0x02;
  hour ← rcmos 0x04;
  day ← rcmos 0x07;
  month ← rcmos 0x08;
  year ← rcmos 0x09;
  century ← (if negb (century_reg =? 0) then rcmos century_reg else mret 20);
  mret (mk_rtc second minute hour day month year century).

(** while (!get_update_flag()) pause; *)
Definition update_turn (again : M S unit) : M S unit :=
  f ← get_update_flag;
  if negb f then again else mret tt.
Fixpoint wait_update (fuel : nat) : M S unit :=
  update_turn match fuel with O => λ _, OutOfFuel | Datatypes.S k => wait_update k end.

(** The loop of rtc_init: two reads that agree. *)
Definition rtc_turn (fuel : nat) (century_reg : Z) (again : M S rtc_regs) : M S rtc_regs :=
  _ ← wait_update fuel;
  a ← read_rtc century_reg;
  b ← read_rtc century_reg;
  if decide (a = b) then mret a else again.
Fixpoint rtc_loop (tries fuel : nat) (century_reg : Z) : M S rtc_regs :=
  rtc_turn fuel century_reg
    match tries with O => λ _, OutOfFuel | Datatypes.S k => rtc_loop k fuel century_reg end.

Definition bcd (x : Z) : Z := u32 (Z.land x 0x0F + x / 16 * 10).
Definition bcd_hour (x : Z) : Z :=
  Z.lor (Z.land x 0x0F + Z.land x 0x70 / 16 * 10) (Z.land x 0x80).

(** The conversions of rtc_init, for the value of register B. *)
Definition rtc_decode (century_reg reg_b : Z) (r : rtc_regs) : rtc_regs :=
  let r :=
    if Z.land reg_b 0x04 =? 0 then
      mk_rtc (bcd (r_second r)) (bcd (r_minute r)) (bcd_hour (r_hour r)) (bcd (r_day r)) (bcd (r_month r))
        (bcd (r_year r)) (if negb (century_reg =? 0) then bcd (r_century r) else r_century r)
    else r in
  if (Z.land reg_b 0x02 =? 0) && negb (Z.land (r_hour r) 0x80 =? 0) then
    mk_rtc (r_second r) (r_minute r) ((Z.land (r_hour r) 0x7F + 12) mod 24) (r_day r) (r_month r)
      (r_year r) (r_century r)
  else r.

Definition rtc_seconds (r : rtc_regs) : outcome Z :=
  let full_year := i32 (r_year r + i32 (r_century r * 100)) in
  days ← days_since_epoch full_year (r_month r) (r_day r);
  Done (i64 (days * 86400 + r_hour r * 3600 + r_minute r * 60 + r_second r)).

Definition rtc_to_timespec (r : rtc_regs) : M S timespec :=
  ts ← on_ck_heap (oh_alloc 16);
  sec ← lift_o (rtc_seconds r);
  if ts =? 0 then mundef "NULL timespec" else mret (mk_ts sec 0).

Definition rtc_init (tries fuel : nat) : M S unit :=
  let century_reg := get_century_register in
  r ← rtc_loop tries fuel century_reg;
  b1 ← rcmos 0x0B;
  b2 ← rcmos 0x0B;
  let r := rtc_decode century_reg (Z.lor (Z.land b1 0x04) (Z.land b2 0x02)) r in
  ts ← rtc_to_timespec r;
  _ ← modify (set_base_rtc (Some ts));
  _ ← register_time_source CLOCK_RTC RtcReal;
  mret tt.

Definition clocks_init (tries fuel : nat) : M S unit :=
  _ ← hpet_init;
  _ ← pm_timer_init;
  a ← gets available_clocks;
  if a =? 0 then mpanic "No clock sources available for initial calibration"
  else
    _ ← tsc_init fuel;
    _ ← rtc_init tries fuel;
    setup_boot_clock.

(** ** syscalls/time; CLOCK_REALTIME, CLOCK_MONOTONIC and EINVAL are the C
    library's. [ts] is the caller's timespec before the call. *)
Definition do_sys_clock_gettime (CLOCK_REALTIME CLOCK_MONOTONIC EINVAL clock : Z) (ts : timespec)
    : M S (Z * timespec) :=
  if clock =? CLOCK_REALTIME then
    rtc ← get_clock CLOCK_REALTIME;
    c ← get_source rtc;
    match cs_real c with
    | None => mundef "call of NULL: real"
    | Some RtcReal => ts' ← rtc_real ts; mret (0, ts')
    end
  else if clock =? CLOCK_MONOTONIC then
    ns ← clock_get_best_ns;
    mret (0, timespec_normalize (mk_ts (tv_sec ts) (i64 ns)))
  else mret (u64 (- EINVAL), ts).

Definition do_sys_nanosleep (fuel : nat) (duration : timespec) : M S Z :=
  _ ← busy_sleep_best_ns fuel (timespec_to_nsec duration);
  mret 0.
End clock.

(** ** Specification *)

(** *** The calendar *)

(** The Gregorian calendar: the length of a month, and the day after a day. *)
Definition leap (y : Z) : Prop := y mod 400 = 0 ∨ y mod 4 = 0 ∧ y mod 100 ≠ 0.
#[export] Instance leap_dec y : Decision (leap y) := _.
Definition month_length (y m : Z) : Z :=
  if decide (m = 2) then (if decide (leap y) then 29 else 28)
  else if decide (m ∈ [4; 6; 9; 11]) then 30 else 31.
Definition next_day (d : Z * Z * Z) : Z * Z * Z :=
  let '(y, m, d) := d in
  if d <? month_length y m then (y, m, d + 1)
  else if m <? 12 then (y, m + 1, 1) else (y + 1, 1, 1).

Lemma IS_LEAP_ok y : 0 ≤ y → IS_LEAP y = bool_decide (leap y).
Proof.
  intros Hy. unfold IS_LEAP. rewrite !Z.rem_mod_nonneg by lia. unfold leap.
  destruct (Z.eqb_spec (y mod 4) 0), (Z.eqb_spec (y mod 100) 0), (Z.eqb_spec (y mod 400) 0); simpl;
    symmetry; (apply bool_decide_eq_true || apply bool_decide_eq_false); zdiv.
Qed.

Lemma month_days_ok y m : 0 ≤ y → 1 ≤ m ≤ 12 → month_days y m = month_length y m.
Proof.
  intros Hy Hm. unfold month_days, month_length. rewrite IS_LEAP_ok by done.
  assert (m = 1 ∨ m = 2 ∨ m = 3 ∨ m = 4 ∨ m = 5 ∨ m = 6 ∨ m = 7 ∨ m = 8 ∨ m = 9 ∨ m = 10 ∨ m = 11 ∨ m = 12)
    as Hc by lia.
  destruct Hc as [->|[->|[->|[->|[->|[->|[->|[->|[->|[->|[->| ->]]]]]]]]]]]; try reflexivity.
  simpl. case_bool_decide; by destruct (decide (leap y)).
Qed.

Lemma month_length_range y m : 28 ≤ month_length y m ≤ 31.
Proof. unfold month_length. repeat case_decide; lia. Qed.

(** The loops as sums that do not wrap. *)
Fixpoint plain_sum (f : Z → Z) (lo : Z) (n : nat) : Z :=
  match n with O => 0 | S k => plain_sum f lo k + f (lo + Z.of_nat k) end.

Lemma plain_sum_range f lo n : (∀ i, 0 ≤ f i ≤ 366) → 0 ≤ plain_sum f lo n ≤ 366 * Z.of_nat n.
Proof. intros Hf. induction n as [|n IH]; simpl plain_sum; [lia|]. pose proof (Hf (lo + Z.of_nat n)). lia. Qed.

Lemma sum_to_ok f lo hi d : (∀ i, 0 ≤ f i ≤ 366) → 0 ≤ d → d + 366 * Z.of_nat (Z.to_nat (hi - lo)) < 2 ^ 63 →
  sum_to f lo hi d = d + plain_sum f lo (Z.to_nat (hi - lo)).
Proof.
  intros Hf Hd Hb. unfold sum_to.
  assert (seqZ lo (hi - lo) = seqZ lo (Z.of_nat (Z.to_nat (hi - lo)))) as ->.
  { destruct (decide (0 ≤ hi - lo)); [by rewrite Z2Nat.id by lia|]. by rewrite !seqZ_nil by lia. }
  revert Hb. generalize (Z.to_nat (hi - lo)) as n. induction n as [|n IH]; intros Hb; [simpl; lia|].
  rewrite seqZ_S, fold_left_app. simpl fold_left. rewrite IH by lia.
  simpl plain_sum. pose proof (plain_sum_range f lo n Hf). pose proof (Hf (lo + Z.of_nat n)).
  rewrite i64_small; lia.
Qed.

Definition year_days (y : Z) : Z := if IS_LEAP y then 366 else 365.
Definition months_before (y : Z) (m : Z) : Z := plain_sum (month_days y) 1 (Z.to_nat (m - 1)).

Lemma month_days_range y m : 0 ≤ month_days y m ≤ 366.
Proof.
  unfold month_days. destruct (_ && _); [lia|]. destruct (days_in_month !! _) eqn:E; simpl; [|lia].
  apply list_elem_of_lookup_2 in E. unfold days_in_month in E.
  repeat (apply elem_of_cons in E as [->|E]; [lia|]). by apply elem_of_nil in E.
Qed.

Lemma days_since_epoch_sums y m d : 1970 ≤ y < 2 ^ 31 → 1 ≤ m ≤ 12 → 1 ≤ d ≤ 31 →
  days_since_epoch y m d =
    Done (plain_sum year_days 1970 (Z.to_nat (y - 1970)) + months_before y m + (d - 1)).
Proof.
  intros Hy Hm Hd. unfold days_since_epoch.
  assert (∀ i, 0 ≤ year_days i ≤ 366) as Hyd by (intros i; unfold year_days; destruct (IS_LEAP i); lia).
  change (λ y0, if IS_LEAP y0 then 366 else 365) with year_days.
  pose proof (plain_sum_range year_days 1970 (Z.to_nat (y - 1970)) Hyd).
  pose proof (plain_sum_range (month_days y) 1 (Z.to_nat (m - 1)) (month_days_range y)).
  rewrite (sum_to_ok year_days) by (done || lia). rewrite Z.add_0_l.
  destruct (Z.ltb_spec 13 m); [lia|]. rewrite sum_to_ok by (apply month_days_range || lia).
  unfold months_before. rewrite i64_small by lia. done.
Qed.

Lemma months_before_S y m : 1 ≤ m → months_before y (m + 1) = months_before y m + month_days y m.
Proof.
  intros Hm. unfold months_before. replace (Z.to_nat (m + 1 - 1)) with (S (Z.to_nat (m - 1))) by lia.
  simpl. do 2 f_equal. lia.
Qed.

Lemma months_before_year y : 0 ≤ y → months_before y 13 = year_days y.
Proof.
  intros Hy. unfold months_before. change (Z.to_nat (13 - 1)) with 12%nat. cbn [plain_sum].
  unfold year_days, month_days. destruct (IS_LEAP y); reflexivity.
Qed.

(** C18: days_since_epoch counts days: 1970-01-01 is day 0, and the day after a date
    of the Gregorian calendar has the next number. *)
Theorem days_since_epoch_counts :
  days_since_epoch 1970 1 1 = Done 0
  ∧ ∀ y m d, 1970 ≤ y < 2 ^ 31 - 1 → 1 ≤ m ≤ 12 → 1 ≤ d ≤ month_length y m →
    ∃ n, days_since_epoch y m d = Done n
      ∧ (let '(y', m', d') := next_day (y, m, d) in days_since_epoch y' m' d') = Done (n + 1).
Proof.
  split; [reflexivity|]. intros y m d Hy Hm Hd. pose proof (month_length_range y m) as Hml.
  eexists. split; [apply days_since_epoch_sums; lia|].
  pose proof (month_days_ok y m ltac:(lia) Hm) as Hmd. unfold next_day.
  destruct (Z.ltb_spec d (month_length y m)).
  - rewrite days_since_epoch_sums by lia. f_equal. lia.
  - assert (d = month_length y m) as -> by lia. destruct (Z.ltb_spec m 12).
    + rewrite days_since_epoch_sums by lia. rewrite months_before_S by lia. f_equal. lia.
    + assert (m = 12) as -> by lia. rewrite days_since_epoch_sums by lia.
      replace (Z.to_nat (y + 1 - 1970)) with (S (Z.to_nat (y - 1970))) by lia. cbn [plain_sum].
      replace (1970 + Z.of_nat (Z.to_nat (y - 1970))) with y by lia.
      pose proof (months_before_year y ltac:(lia)). pose proof (months_before_S y 12 ltac:(lia)).
      change (12 + 1) with 13 in *. change (months_before (y + 1) 1) with 0. f_equal. lia.
Qed.

(** *** Timespecs *)

(** Timespec_normalize keeps the time and leaves 0 <= tv_nsec < 10^9, for
    every pair of 64-bit fields whose sum fits. *)
Theorem timespec_normalize_spec ts : - 2 ^ 63 ≤ tv_nsec ts < 2 ^ 63 →
  - 2 ^ 63 + 10 ^ 10 ≤ tv_sec ts < 2 ^ 63 - 10 ^ 10 →
  0 ≤ tv_nsec (timespec_normalize ts) < NS_PER_S
  ∧ tv_sec (timespec_normalize ts) * NS_PER_S + tv_nsec (timespec_normalize ts)
    = tv_sec ts * NS_PER_S + tv_nsec ts.
Proof.
  intros Hn Hs. unfold timespec_normalize, NS_PER_S in *.
  pose proof (Z.quot_rem (tv_nsec ts) 1000000000 ltac:(lia)) as E.
  pose proof (Z.rem_bound_abs (tv_nsec ts) 1000000000 ltac:(lia)) as Hr.
  set (q := Z.quot (tv_nsec ts) 1000000000) in *. set (r := Z.rem (tv_nsec ts) 1000000000) in *.
  rewrite (i64_small (tv_sec ts + q)) by lia.
  destruct (Z.ltb_spec r 0); simpl; [rewrite i64_small by lia|]; lia.
Qed.

(** *** Counters *)

(** CLOCK_NS is the exact conversion for the first 18446744073 ticks, and is
    wrong from then on: the multiplication by 10^9 wraps, and the next tick takes
    the clock back almost to 0, at every frequency. *)
Theorem ticks_ns_wraps ticks freq : 1 ≤ freq < 2 ^ 63 →
  (0 ≤ ticks ≤ 18446744073 → ticks_ns ticks freq = ticks * NS_PER_S / freq)
  ∧ ticks_ns 18446744074 freq = 290448384 / freq
  ∧ ticks_ns 18446744074 freq < ticks_ns 18446744073 freq.
Proof.
  intros Hf. unfold ticks_ns, NS_PER_S. split; [|split].
  - intros Ht. by rewrite u64_small by lia.
  - reflexivity.
  - change (u64 (18446744074 * 1000000000)) with 290448384.
    change (u64 (18446744073 * 1000000000)) with 18446744073000000000.
    apply Z.div_lt_upper_bound; [lia|].
    pose proof (Z.mod_pos_bound 18446744073000000000 freq ltac:(lia)).
    pose proof (Z.div_mod 18446744073000000000 freq ltac:(lia)). lia.
Qed.

(** busy_sleep_ns: the same, with the multiplication by the frequency. *)
Lemma ns_ticks_exact ns freq : 0 ≤ ns * freq < 2 ^ 64 → ns_ticks ns freq = ns * freq / NS_PER_S.
Proof. intros H. unfold ns_ticks. by rewrite u64_small. Qed.

(** Seven seconds at 3 GHz are 21 000 000 000 ticks. *)
Lemma ns_ticks_short : ns_ticks 7000000000 3000000000 = 2553255926.
Proof. reflexivity. Qed.

(** *** The real-time clock *)

Definition to_bcd (n : Z) : Z := n / 10 * 16 + n mod 10.

Definition check_range (f : Z → bool) (lo len : Z) : bool := forallb f (seqZ lo len).
Lemma check_range_ok f lo len x : check_range f lo len = true → lo ≤ x < lo + len → f x = true.
Proof.
  unfold check_range. rewrite forallb_forall. intros Hf Hx. apply Hf. apply list_elem_of_In, elem_of_seqZ. lia.
Qed.

Lemma bcd_ok n : 0 ≤ n < 100 → bcd (to_bcd n) = n.
Proof.
  intros Hn. apply Z.eqb_eq.
  apply (check_range_ok (λ n, bcd (to_bcd n) =? n) 0 100); [by vm_compute|lia].
Qed.

(** An hour in BCD, with the PM flag. *)
Lemma bcd_hour_ok n pm : 0 ≤ n < 24 → bcd_hour (to_bcd n + (if pm : bool then 128 else 0)) = n + (if pm then 128 else 0).
Proof.
  intros Hn. apply Z.eqb_eq. destruct pm.
  - apply (check_range_ok (λ n, bcd_hour (to_bcd n + 128) =? n + 128) 0 24); [by vm_compute|lia].
  - apply (check_range_ok (λ n, bcd_hour (to_bcd n + 0) =? n + 0) 0 24); [by vm_compute|lia].
Qed.

Lemma hour_flags n pm : 0 ≤ n < 24 → (Z.land (n + (if pm : bool then 128 else 0)) 0x80 =? 0) = negb pm
  ∧ Z.land (n + (if pm then 128 else 0)) 0x7F = n.
Proof.
  intros Hn. rewrite <- (Z.eqb_eq (Z.land _ 0x7F)), <- (eqb_true_iff (_ =? 0)).
  rewrite <- andb_true_iff. destruct pm.
  - apply (check_range_ok (λ n, eqb (Z.land (n + 128) 0x80 =? 0) (negb true) && (Z.land (n + 128) 0x7F =? n)) 0 24);
      [by vm_compute|lia].
  - apply (check_range_ok (λ n, eqb (Z.land (n + 0) 0x80 =? 0) (negb false) && (Z.land (n + 0) 0x7F =? n)) 0 24);
      [by vm_compute|lia].
Qed.

(** The registers of a clock in BCD, with an hour in [0, 24) and the PM flag. *)
Definition bcd_regs (r : rtc_regs) (pm : bool) : rtc_regs :=
  mk_rtc (to_bcd (r_second r)) (to_bcd (r_minute r)) (to_bcd (r_hour r) + (if pm then 128 else 0))
    (to_bcd (r_day r)) (to_bcd (r_month r)) (to_bcd (r_year r)) (to_bcd (r_century r)).
Definition with_hour (h : Z) (r : rtc_regs) : rtc_regs :=
  mk_rtc (r_second r) (r_minute r) h (r_day r) (r_month r) (r_year r) (r_century r).
Definition two_digits (r : rtc_regs) : Prop :=
  0 ≤ r_second r < 100 ∧ 0 ≤ r_minute r < 100 ∧ 0 ≤ r_hour r < 24 ∧ 0 ≤ r_day r < 100 ∧ 0 ≤ r_month r < 100
  ∧ 0 ≤ r_year r < 100 ∧ 0 ≤ r_century r < 100.

(** What rtc_init makes of a clock that counts in BCD: the fields of a 24-hour
    clock come back as they are; on a 12-hour clock an hour after noon gets 12
    added modulo 24, so that 12 PM becomes hour 0 and 12 AM stays hour 12. *)
Theorem rtc_decode_bcd century_reg reg_b r pm : two_digits r → century_reg ≠ 0 → Z.land reg_b 0x04 = 0 →
  rtc_decode century_reg reg_b (bcd_regs r pm) =
    (if Z.land reg_b 0x02 =? 0
     then (if pm then with_hour ((r_hour r + 12) mod 24) r else r)
     else with_hour (r_hour r + (if pm then 128 else 0)) r).
Proof.
  intros (H1 & H2 & H3 & H4 & H5 & H6 & H7) Hc Hb. unfold rtc_decode. rewrite Hb. cbn [Z.eqb].
  rewrite (proj2 (Z.eqb_neq century_reg 0)) by done. cbn [negb].
  cbn [bcd_regs r_second r_minute r_hour r_day r_month r_year r_century].
  rewrite !bcd_ok, bcd_hour_ok by done. destruct (hour_flags (r_hour r) pm H3) as [E1 E2].
  rewrite E1, E2, negb_involutive.
  destruct (Z.land reg_b 2 =? 0), pm; cbn [andb]; rewrite ?Z.add_0_r; try reflexivity; by destruct r.
Qed.

(** The reading of noon and midnight. *)
Lemma rtc_noon_is_midnight r : two_digits r → r_hour r = 12 →
  r_hour (rtc_decode 1 0 (bcd_regs r true)) = 0 ∧ r_hour (rtc_decode 1 0 (bcd_regs r false)) = 12.
Proof.
  intros (H1 & H2 & H3 & H4 & H5 & H6 & H7) Hr. unfold rtc_decode. cbn [Z.land Z.eqb negb].
  cbn [bcd_regs r_second r_minute r_hour r_day r_month r_year r_century]. rewrite Hr. done.
Qed.

Section clock_spec.
Context `{OHL : ObjectHeapLaws H} `{MM : !Mmio H} `{HH : Hhdm} `{HW : ClockHw} `{UA : Uart}.
Abbreviation S := (clock_state H).
Implicit Types (s : S).

Definition pm_width (is_32bit : bool) : Z := if is_32bit then 2 ^ 32 else 2 ^ 24.

(** C19: the PM timer's counter never loses a wrap: when the hardware counter, of 24
    or 32 bits, goes from a true tick count T0 to T1 in less than one period,
    pm_timer_read advances by T1 - T0, and the next read starts from there. *)
Theorem pm_timer_read_elapsed s port is_32bit T0 T1 base :
  pm_timer s = Some (port, is_32bit) → pm_accumulated s = T0 - base →
  pm_last s mod pm_width is_32bit = T0 mod pm_width is_32bit →
  T0 ≤ T1 < T0 + pm_width is_32bit → 0 ≤ T1 - base < 2 ^ 64 →
  hw_pm_timer (ck_time s) mod pm_width is_32bit = T1 mod pm_width is_32bit →
  ∃ s', pm_timer_read s = Done (T1 - base, s') ∧ pm_timer s' = pm_timer s
    ∧ pm_accumulated s' = T1 - base ∧ pm_last s' mod pm_width is_32bit = T1 mod pm_width is_32bit.
Proof.
  intros Hpm Hacc Hlast HT Hb Hraw.
  set (r := hw_pm_timer (ck_time s)) in *.
  assert ((pm_timer_step is_32bit r (pm_accumulated s, pm_last s)).1 = T1 - base) as E.
  { unfold pm_timer_step. simpl. rewrite Hacc.
    assert (Z.land (u32 (r - pm_last s)) (if is_32bit then 0xFFFFFFFF else 0x00FFFFFF)
      = (r - pm_last s) mod pm_width is_32bit) as ->.
    { unfold u32, pm_width. destruct is_32bit.
      - change 0xFFFFFFFF with (Z.ones 32). rewrite Z.land_ones by lia. by rewrite Z.mod_mod by lia.
      - change 0x00FFFFFF with (Z.ones 24). rewrite Z.land_ones by lia.
        change (2 ^ 24) with 16777216. pow2. zdiv. }
    assert ((r - pm_last s) mod pm_width is_32bit = T1 - T0) as ->.
    { assert (0 < pm_width is_32bit) by (by destruct is_32bit).
      rewrite Zminus_mod, Hraw, Hlast, <- Zminus_mod. apply Z.mod_small. lia. }
    rewrite u64_small; lia. }
  eexists. split.
  - unfold pm_timer_read. erewrite bind_Done by reflexivity. rewrite Hpm.
    erewrite bind_Done by reflexivity. erewrite bind_Done by reflexivity.
    cbn [pm_accumulated pm_last]. fold r. erewrite bind_Done by reflexivity.
    rewrite E. reflexivity.
  - cbn [pm_timer pm_accumulated pm_last set_pm]. by rewrite Hpm.
Qed.

(** *** Sleeping *)

Definition at_time (t : nat) s : S :=
  mk_ck H (ck_heap s) t (ck_term s) (sources s) (clock_list s) (available_clocks s) (boot_clock s)
    (boot_clock_base s) (tsc_base s) (pm_timer s) (pm_accumulated s) (pm_last s) (base_rtc s) (hpet_writes s).

(** The counters that a read leaves as they are: what the read at a time returns. *)
Definition counter s (c : clock_source) : option (nat → Z) :=
  match cs_now c with
  | Some TscRead => Some (λ t, u64 (hw_tsc t - tsc_base s))
  | Some HpetRead => Some hw_hpet
  | _ => None
  end.

Lemma counter_run s c f k : counter s c = Some f → call_now c (at_time k s) = Done (f k, at_time (Datatypes.S k) s).
Proof.
  unfold counter, call_now. intros Hf. destruct (cs_now c) as [[]|]; try discriminate; apply (inj Some) in Hf as <-; reflexivity.
Qed.

Lemma sleep_done fuel c f start ticks k s : counter s c = Some f → ticks ≤ u64 (f k - start) →
  sleep_loop fuel c start ticks (at_time k s) = Done (tt, at_time (Datatypes.S k) s).
Proof.
  intros Hc Hle.
  assert (∀ again : M S unit, sleep_turn c start ticks again (at_time k s) = Done (tt, at_time (Datatypes.S k) s)) as Ht.
  { intros again. unfold sleep_turn. erewrite bind_Done by (by apply counter_run).
    destruct (Z.ltb_spec (u64 (f k - start)) ticks); [lia|]. reflexivity. }
  destruct fuel; apply Ht.
Qed.

Lemma sleep_more fuel c f start ticks k s : counter s c = Some f → u64 (f k - start) < ticks →
  sleep_loop (Datatypes.S fuel) c start ticks (at_time k s) = sleep_loop fuel c start ticks (at_time (Datatypes.S k) s).
Proof.
  intros Hc Hlt. cbn [sleep_loop]. unfold sleep_turn. erewrite bind_Done by (by apply counter_run).
  destruct (Z.ltb_spec (u64 (f k - start)) ticks); [|lia]. reflexivity.
Qed.

(** The loop, after [k] readings that were not enough. *)
Lemma sleep_loop_ok c f start ticks (E : nat → Z) j t s : counter s c = Some f →
  (∀ i, (i ≤ j)%nat → u64 (f (t + i)%nat - start) = E i) → ticks ≤ E j →
  ∀ d k fuel, (k + d = j)%nat → (d ≤ fuel)%nat → (∀ i', (i' < k)%nat → E i' < ticks) →
  ∃ i, (i ≤ j)%nat ∧ sleep_loop fuel c start ticks (at_time (t + k) s) = Done (tt, at_time (t + i + 1) s)
    ∧ ticks ≤ E i ∧ ∀ i', (i' < i)%nat → E i' < ticks.
Proof.
  intros Hc HE Hj. induction d as [|d IH]; intros k fuel Hk Hfuel Hbefore.
  all: destruct (decide (ticks ≤ E k)) as [Hge|Hlt].
  1,3: exists k; split; [lia|]; split; [|by split]; rewrite (sleep_done _ _ f); [|done|by rewrite HE by lia];
    by rewrite Nat.add_1_r.
  { assert (k = j) as -> by lia. lia. }
  destruct fuel as [|fuel]; [lia|].
  destruct (IH (k + 1)%nat fuel ltac:(lia) ltac:(lia)) as (i & Hi & Hrun & Hrest).
  { intros i' Hi'. destruct (decide (i' = k)) as [->|]; [lia|]. apply Hbefore. lia. }
  exists i. split; [done|]. split; [|done]. rewrite (sleep_more _ _ f); [|done|rewrite HE by lia; lia].
  by replace (Datatypes.S (t + k)) with (t + (k + 1))%nat by lia.
Qed.

Lemma busy_sleep_ok fuel p c f ticks (T : nat → Z) b j s :
  sources s !! p = Some c → counter s c = Some f →
  (∀ i, f i = u64 (T i - b)) → (∀ i, (i ≤ j)%nat → T (ck_time s) ≤ T (ck_time s + 1 + i)%nat < T (ck_time s) + 2 ^ 64) →
  (j ≤ fuel)%nat → ticks ≤ T (ck_time s + 1 + j)%nat - T (ck_time s) →
  ∃ i, (i ≤ j)%nat ∧ busy_sleep_ticks fuel p ticks s = Done (tt, at_time (ck_time s + 2 + i) s)
    ∧ ticks ≤ T (ck_time s + 1 + i)%nat - T (ck_time s)
    ∧ ∀ i', (i' < i)%nat → T (ck_time s + 1 + i')%nat - T (ck_time s) < ticks.
Proof.
  intros Hp Hc HT Hmono Hj Hticks.
  unfold busy_sleep_ticks. erewrite bind_Done by (unfold get_source; by rewrite Hp).
  assert (s = at_time (ck_time s) s) as Hs by (by destruct s).
  assert (call_now c s = Done (f (ck_time s), at_time (Datatypes.S (ck_time s)) s)) as Hnow.
  { rewrite Hs at 1. by apply counter_run. }
  rewrite (bind_Done _ _ _ _ _ Hnow). set (t := ck_time s) in *. clear Hs Hnow.
  destruct (sleep_loop_ok c f (f t) ticks (λ i, T (t + 1 + i)%nat - T t) j (t + 1) s Hc) with (d := j) (k := 0%nat) (fuel := fuel)
    as (i & Hi & Hrun & Hrest); [|done|lia|done|lia|].
  - intros i Hij. cbv beta. rewrite !HT. unfold u64. rewrite <- Zminus_mod.
    replace (T (t + 1 + i)%nat - b - (T t - b)) with (T (t + 1 + i)%nat - T t) by lia.
    apply Z.mod_small. specialize (Hmono i Hij). lia.
  - exists i. split; [done|]. split; [|done]. rewrite Nat.add_0_r in Hrun.
    replace (t + 1 + i + 1)%nat with (t + 2 + i)%nat in Hrun by lia. rewrite Nat.add_1_r in Hrun. exact Hrun.
Qed.

(** C20: busy_sleep_ticks on the TSC or the HPET ends as soon as the counter has advanced
    by the ticks asked for, and not before, when it does so within the fuel. *)
Theorem busy_sleep_ticks_sleeps fuel p c f ticks (T : nat → Z) b j s :
  sources s !! p = Some c → counter s c = Some f →
  (∀ i, f i = u64 (T i - b)) → (∀ i, (i ≤ j)%nat → T (ck_time s) ≤ T (ck_time s + 1 + i)%nat < T (ck_time s) + 2 ^ 64) →
  (j ≤ fuel)%nat → ticks ≤ T (ck_time s + 1 + j)%nat - T (ck_time s) →
  ∃ i, (i ≤ j)%nat ∧ busy_sleep_ticks fuel p ticks s = Done (tt, at_time (ck_time s + 2 + i) s)
    ∧ ticks ≤ T (ck_time s + 1 + i)%nat - T (ck_time s)
    ∧ ∀ i', (i' < i)%nat → T (ck_time s + 1 + i')%nat - T (ck_time s) < ticks.
Proof. apply busy_sleep_ok. Qed.

(** *** The list of sources *)

(** The first source of the list with an id. *)
Definition first_with (m : gmap Z clock_source) (id : Z) (l : list Z) : Z :=
  match list_find (λ p, cs_id <$> m !! p = Some id) l with Some (_, p) => p | None => 0 end.

(** The list of registered sources, the objects of which are in use, and the mask
    of the ids that are there. *)
Record clocks_inv s (l L ns : list Z) : Prop := {
  ci_chain : chain cs_next (sources s) (clock_list s) l;
  ci_nodup : NoDup l;
  ci_mask : ∀ id, 0 ≤ id < 8 → Z.testbit (available_clocks s) id = true
    ↔ ∃ p c, p ∈ l ∧ sources s !! p = Some c ∧ cs_id c = id;
  ci_live : oh_live (ck_heap s) L ns;
  ci_null : sources s !! 0 = None;
  ci_sub : l ⊆ L;
}.

Lemma land_mask a id : 0 ≤ id → (Z.land a (CLOCK_MASK id) =? 0) = negb (Z.testbit a id).
Proof.
  intros Hid. unfold CLOCK_MASK. rewrite Z.shiftl_1_l. destruct (Z.testbit a id) eqn:E; simpl.
  - apply Z.eqb_neq. intros Hz. apply (f_equal (λ x, Z.testbit x id)) in Hz.
    rewrite Z.land_spec, Z.pow2_bits_true, E, Z.bits_0 in Hz by lia. done.
  - apply Z.eqb_eq. apply Z.bits_inj'. intros i Hi. rewrite Z.land_spec, Z.bits_0.
    destruct (decide (i = id)) as [->|]; [by rewrite E|]. by rewrite Z.pow2_bits_false, andb_false_r by lia.
Qed.

Lemma find_clock_ok fuel m id p l : chain cs_next m p l → (length l ≤ fuel)%nat →
  find_clock fuel m id p = Done (first_with m id l).
Proof.
  revert p fuel. induction l as [|q l IH]; intros p fuel Hc Hlen.
  - simpl in Hc. subst p. by destruct fuel.
  - destruct Hc as (-> & Hq & c & Hm & Hc). unfold first_with. simpl list_find.
    assert (∀ k, find_clock k m id q = if cs_id c =? id then Done q else
      match k with O => OutOfFuel | Datatypes.S k => find_clock k m id (cs_next c) end) as ->.
    { intros k. destruct k; simpl; rewrite (proj2 (Z.eqb_neq q 0)), Hm by done; reflexivity. }
    destruct (Z.eqb_spec (cs_id c) id) as [E|E].
    + rewrite decide_True by (rewrite Hm; simpl; by rewrite E). done.
    + rewrite decide_False by (rewrite Hm; simpl; intros [=]; done).
      destruct fuel as [|fuel]; [simpl in Hlen; lia|]. rewrite (IH _ fuel Hc) by (simpl in Hlen; lia).
      unfold first_with. by destruct (list_find _ l) as [[? ?]|].
Qed.

Lemma first_with_none m id l : first_with m id l = 0 ∨ ∃ c, first_with m id l ∈ l ∧ m !! first_with m id l = Some c ∧ cs_id c = id.
Proof.
  unfold first_with. destruct (list_find _ l) as [[i p]|] eqn:E; [|by left].
  apply list_find_Some in E as (Hi & (c & Hc & Hid)%fmap_Some & _). right. exists c.
  split; [by eapply list_elem_of_lookup_2|]. done.
Qed.

Lemma get_clock_ok s l L ns id : clocks_inv s l L ns → 0 ≤ id < 8 →
  get_clock id s = Done (first_with (sources s) id l, s).
Proof.
  intros [Hc Hnd Hm _ _ _] Hid. unfold get_clock. erewrite bind_Done by reflexivity.
  rewrite land_mask, negb_involutive by lia. destruct (Z.testbit (available_clocks s) id) eqn:E; cbn [negb].
  - rewrite (bind_Done _ _ s s s) by reflexivity. unfold lift_o.
    rewrite (find_clock_ok _ _ _ _ l Hc); [done|]. by apply (chain_length cs_next _ _ _ Hc).
  - assert (first_with (sources s) id l = 0) as ->; [|reflexivity].
    destruct (first_with_none (sources s) id l) as [|(c & Hin & Hp & Hcid)]; [done|].
    assert (Z.testbit (available_clocks s) id = true); [|congruence].
    apply Hm; [done|]. eauto.
Qed.
Lemma mask_add a id i : 0 ≤ id < 8 → 0 ≤ i < 8 →
  Z.testbit (u8 (Z.lor a (CLOCK_MASK id))) i = Z.testbit a i || (i =? id).
Proof.
  intros Hid Hi. unfold u8, CLOCK_MASK. rewrite <- Z.land_ones, Z.land_spec, Z.ones_spec_low, andb_true_r by lia.
  rewrite Z.lor_spec, Z.shiftl_1_l. f_equal. destruct (Z.eqb_spec i id) as [->|].
  - by rewrite Z.pow2_bits_true by lia.
  - by rewrite Z.pow2_bits_false by lia.
Qed.

Lemma list_find_snoc {A} (P : A → Prop) `{∀ x, Decision (P x)} l x :
  snd <$> list_find P (l ++ [x]) =
    match list_find P l with Some (_, y) => Some y | None => if decide (P x) then Some x else None end.
Proof.
  induction l as [|y l IH]; simpl; [by destruct (decide (P x))|].
  destruct (decide (P y)); [done|].
  destruct (list_find P (l ++ [x])) as [[? ?]|], (list_find P l) as [[? ?]|]; simpl in *; done.
Qed.

Lemma first_with_snoc m m' id l p c : (∀ q, q ∈ l → cs_id <$> m' !! q = cs_id <$> m !! q) → m' !! p = Some c →
  (∀ q, q ∈ l → q ≠ 0) →
  first_with m' id (l ++ [p]) =
    if (first_with m id l =? 0) && (cs_id c =? id) then p else first_with m id l.
Proof.
  intros Hext Hp H0. unfold first_with.
  pose proof (list_find_snoc (λ q, cs_id <$> m' !! q = Some id) l p) as E.
  assert (list_find (λ q, cs_id <$> m' !! q = Some id) l = list_find (λ q, cs_id <$> m !! q = Some id) l) as Hl.
  { clear E H0 Hp. induction l as [|q l IH]; [done|]. cbn [list_find].
    rewrite IH by (intros ? ?; apply Hext; by apply list_elem_of_further).
    rewrite (decide_ext _ (cs_id <$> m !! q = Some id)) by (by rewrite Hext by apply list_elem_of_here). done. }
  rewrite Hl in E. destruct (list_find (λ q, cs_id <$> m !! q = Some id) l) as [[i q]|] eqn:Ef.
  - apply list_find_Some in Ef as (Hi & _). pose proof (H0 q ltac:(by eapply list_elem_of_lookup_2)) as Hq.
    destruct (list_find _ (l ++ [p])) as [[? ?]|]; [|done]. injection E as ->.
    rewrite (proj2 (Z.eqb_neq q 0)) by done. done.
  - rewrite Hp in E. simpl in E |- *. destruct (Z.eqb_spec (cs_id c) id) as [Hid|Hid].
    + rewrite decide_True in E by (by rewrite Hid). destruct (list_find _ (l ++ [p])) as [[? ?]|]; [|done].
      by injection E as ->.
    + rewrite decide_False in E by (intros [=]; done). by destruct (list_find _ (l ++ [p])) as [[? ?]|].
Qed.

Lemma register_source_ok fail s l L ns id now real freq :
  clocks_inv s l L (sizeof_clock_source :: ns) → 0 ≤ id < 8 →
  ∃ p s', register_source fail id now real freq s = Done (p, s') ∧ p ≠ 0 ∧ p ∉ L
    ∧ clocks_inv s' (l ++ [p]) (p :: L) ns
    ∧ sources s' !! p = Some (mk_source id now real freq 0)
    ∧ (∀ q, q ∈ l → cs_id <$> sources s' !! q = cs_id <$> sources s !! q).
Proof.
  intros [Hc Hnd Hm Hl Hnull Hsub] Hid.
  destruct (oh_alloc_ok _ _ _ _ Hl) as (p & h & Ha & Hp0 & HpL & Hl'); [by vm_compute|].
  assert (p ∉ l) as Hpl by set_solver.
  set (s1 := mk_ck H h (ck_time s) (ck_term s) (sources s) (clock_list s) (available_clocks s) (boot_clock s)
    (boot_clock_base s) (tsc_base s) (pm_timer s) (pm_accumulated s) (pm_last s) (base_rtc s) (hpet_writes s)).
  set (c0 := mk_source id now real freq 0).
  set (avail := u8 (Z.lor (available_clocks s) (CLOCK_MASK id))).
  set (m := <[p := c0]> (sources s)).
  assert (chain cs_next m (clock_list s) l) as Hcm by (by apply chain_insert_ne).
  assert (m !! p = Some c0) as Hmp by apply lookup_insert_eq.
  assert (∀ m' x, (∀ q, q ∈ l → cs_id <$> m' !! q = cs_id <$> sources s !! q) →
    (∃ c, m' !! p = Some c ∧ cs_id c = id) → chain cs_next m' x (l ++ [p]) → m' !! 0 = None →
    clocks_inv (set_sources m' x avail s1) (l ++ [p]) (p :: L) ns) as Hinv.
  { intros m' x Hsame (cp & Hcp & Hcpid) Hch Hz. split; cbn [sources set_sources clock_list available_clocks ck_heap]; try done.
    - apply NoDup_app. split; [done|]. split; [set_solver|apply NoDup_singleton].
    - intros i Hi. unfold avail. rewrite mask_add, orb_true_iff, Hm, Z.eqb_eq by done. split.
      + intros [(q & c & Hq & Hqc & Hci)| ->].
        * pose proof (Hsame q Hq) as E. rewrite Hqc in E. apply fmap_Some in E as (c' & Hc' & E).
          exists q, c'. split; [set_solver|]. split; [done|]. by rewrite <- E.
        * exists p, cp. split; [set_solver|done].
      + intros (q & c & [Hq|Hq%list_elem_of_singleton]%elem_of_app & Hqc & Hci).
        * left. pose proof (Hsame q Hq) as E. rewrite Hqc in E. symmetry in E.
          apply fmap_Some in E as (c' & Hc' & E). exists q, c'. split; [done|]. split; [done|]. by rewrite <- E.
        * right. subst q. rewrite Hcp in Hqc. injection Hqc as <-. congruence.
    - set_solver. }
  assert (u8 id = id) as Eid by (unfold u8; apply Z.mod_small; lia).
  unfold register_source. rewrite (bind_Done _ _ s p s1) by (unfold on_ck_heap, zoom; rewrite Ha; reflexivity).
  rewrite (proj2 (Z.eqb_neq p 0)) by done. rewrite (bind_Done _ _ s1 s1 s1) by reflexivity.
  rewrite Eid. change (sources s1) with (sources s). change (clock_list s1) with (clock_list s).
  change (available_clocks s1) with (available_clocks s). fold c0 m avail.
  assert (∀ q, q ∈ l → cs_id <$> m !! q = cs_id <$> sources s !! q) as Hms.
  { intros q Hq. unfold m. rewrite lookup_insert_ne; [done|]. intros ->. done. }
  destruct (Z.eqb_spec (clock_list s) 0) as [E|E].
  - rewrite E in Hc. apply chain_nil in Hc. subst l.
    exists p, (set_sources m p avail s1). split; [reflexivity|]. split; [done|]. split; [done|].
    split; [|split; [exact Hmp|exact Hms]]. assert (m !! 0 = None) as Hz by (unfold m; by rewrite lookup_insert_ne by done).
    apply (Hinv m p Hms); [by exists c0| |exact Hz].
    split; [done|]. split; [done|]. by exists c0.
  - assert (l ≠ []) as Hne by (intros ->; done).
    destruct (find_last_ok cs_next (size m) m (clock_list s) l Hcm Hne Hnd) as (q & x & Hlast & Hql & Hqx & _ & Hch).
    { pose proof (chain_length cs_next _ _ _ Hcm Hnd). lia. }
    set (x' := mk_source (cs_id x) (cs_now x) (cs_real x) (cs_freq x) p).
    rewrite (bind_Done _ _ s1 q s1) by (unfold lift_o, get_clock_source_tail; by rewrite (proj2 (Z.eqb_neq _ 0) E), Hlast). rewrite Hqx.
    exists p, (set_sources (<[q := x']> m) (clock_list s) avail s1). split; [reflexivity|].
    split; [done|]. split; [done|].
    assert (p ≠ q) as Hpq by (intros ->; done).
    assert (<[q := x']> m !! p = Some c0) as Hp' by (by rewrite lookup_insert_ne by done).
    assert (∀ r, r ∈ l → cs_id <$> <[q := x']> m !! r = cs_id <$> sources s !! r) as Hsame.
    { intros r Hr. destruct (decide (q = r)) as [<-|Hqr].
      - rewrite lookup_insert_eq, <- (Hms q Hql), Hqx. done.
      - by rewrite lookup_insert_ne, Hms by done. }
    split; [|split; [exact Hp'|exact Hsame]].
    destruct (chain_elem cs_next _ _ _ q Hc Hql) as [Hq0 _].
    apply Hinv; [exact Hsame|by exists c0|by apply (Hch x' p c0)|].
    unfold m. by rewrite !lookup_insert_ne by done.
Qed.

(** Registering a clock source appends it: get_clock of its id then finds it,
    unless a source with that id was there before, which keeps being the one
    found; get_clock of any other id finds what it found before. *)
Theorem register_then_get fail s l L ns id now real freq :
  clocks_inv s l L (sizeof_clock_source :: ns) → 0 ≤ id < 8 →
  ∃ p s', register_source fail id now real freq s = Done (p, s') ∧ p ≠ 0
    ∧ clocks_inv s' (l ++ [p]) (p :: L) ns
    ∧ sources s' !! p = Some (mk_source id now real freq 0)
    ∧ ∀ i, 0 ≤ i < 8 → ∃ r, get_clock i s = Done (r, s)
        ∧ get_clock i s' = Done (if (r =? 0) && (id =? i) then p else r, s').
Proof.
  intros Hi Hid. destruct (register_source_ok fail s l L ns id now real freq Hi Hid)
    as (p & s' & Hr & Hp0 & HpL & Hi' & Hp & Hsame).
  exists p, s'. split; [done|]. split; [done|]. split; [done|]. split; [done|].
  intros i Hii. exists (first_with (sources s) i l). split; [by eapply get_clock_ok|].
  rewrite (get_clock_ok _ _ _ _ _ Hi' Hii). do 2 f_equal.
  apply (first_with_snoc _ _ i l p (mk_source id now real freq 0)); [done|done|].
  intros q Hq. by destruct (chain_elem cs_next _ _ _ q (ci_chain _ _ _ _ Hi) Hq).
Qed.
(** *** The system calls *)

(** Clock_gettime(CLOCK_REALTIME) looks for the source whose id is the C
    library's CLOCK_REALTIME, which is not the RTC's: it calls a NULL function, or
    dereferences a NULL source, in every state of the clocks. *)
Theorem clock_gettime_realtime_undefined s l L ns CLOCK_REALTIME CLOCK_MONOTONIC EINVAL ts :
  clocks_inv s l L ns → 0 ≤ CLOCK_REALTIME < 8 → CLOCK_REALTIME ≠ CLOCK_RTC →
  (∀ p c, sources s !! p = Some c → cs_id c ≠ CLOCK_RTC → cs_real c = None) →
  ∃ msg, do_sys_clock_gettime CLOCK_REALTIME CLOCK_MONOTONIC EINVAL CLOCK_REALTIME ts s = Undef msg.
Proof.
  intros Hi Hr Hne Hreal. unfold do_sys_clock_gettime. rewrite Z.eqb_refl.
  erewrite bind_Done by (by eapply get_clock_ok).
  destruct (first_with_none (sources s) CLOCK_REALTIME l) as [->|(c & _ & Hc & Hid)].
  - eexists. unfold get_source, mbind, M_bind. by rewrite (ci_null _ _ _ _ Hi).
  - erewrite bind_Done by (unfold get_source; by rewrite Hc).
    rewrite (Hreal _ c Hc) by congruence. by eexists.
Qed.

(** clock_gettime(CLOCK_MONOTONIC) adds the seconds to whatever the caller's
    tv_sec was. *)
Lemma clock_monotonic_adds CLOCK_REALTIME CLOCK_MONOTONIC EINVAL ts s ns s' :
  CLOCK_MONOTONIC ≠ CLOCK_REALTIME → clock_get_best_ns s = Done (ns, s') → 0 ≤ ns < 2 ^ 63 →
  do_sys_clock_gettime CLOCK_REALTIME CLOCK_MONOTONIC EINVAL CLOCK_MONOTONIC ts s =
    Done ((0, mk_ts (i64 (tv_sec ts + ns / NS_PER_S)) (ns mod NS_PER_S)), s').
Proof.
  intros Hne Hns Hr. unfold do_sys_clock_gettime. rewrite (proj2 (Z.eqb_neq _ _) Hne), Z.eqb_refl.
  erewrite bind_Done by exact Hns. rewrite i64_small by lia. unfold timespec_normalize, NS_PER_S. simpl tv_nsec.
  rewrite Z.quot_div_nonneg, Z.rem_mod_nonneg by lia.
  destruct (Z.ltb_spec (ns mod 1000000000) 0); [|done].
  pose proof (Z.mod_pos_bound ns 1000000000). lia.
Qed.

(** rtc_init starts to read when the RTC reports an update in progress. *)
Lemma wait_update_in_progress fuel s s' : wait_update fuel s = Done (tt, s') →
  (0 < ck_time s')%nat ∧ Z.land (hw_cmos (ck_time s' - 1) 0x0A) 0x80 ≠ 0.
Proof.
  revert s. induction fuel as [|fuel IH]; intros s; cbn [wait_update]; unfold update_turn;
    erewrite bind_Done by reflexivity; rewrite negb_involutive;
    destruct (Z.eqb_spec (Z.land (hw_cmos (ck_time s) 10) 128) 0) as [E|E]; try discriminate.
  - intros [= <-]. cbn [ck_time]. split; [lia|]. by rewrite Nat.sub_1_r.
  - apply IH.
  - intros [= <-]. cbn [ck_time]. split; [lia|]. by rewrite Nat.sub_1_r.
Qed.
End clock_spec.

Module ClockWitness.
Import DemoObjects TermWitness.

#[export] Instance demo_mmio : Mmio bump := {| mmio_map_page _ _ _ h := Done (tt, h) |}.
(** A TSC that ticks by 100 at every read. *)
#[export] Instance demo_hw : ClockHw := {|
  hw_tsc t := u64 (100 * Z.of_nat t); hw_hpet t := u64 (Z.of_nat t); hw_pm_timer _ := 5; hw_cmos _ _ := 0;
  hw_cpuid _ _ := mk_cpuid 1 0 0 0x10; hw_hpet_caps := 0; hw_hpet_config := 0; acpi_hpet := None; acpi_fadt_table := None;
|}.
Definition tsc_source : clock_source := mk_source CLOCK_TSC (Some TscRead) None 1000 0.
Definition demo_ck : clock_state bump := mk_ck _ (mk_bump 4096) 0 (mk_term true 0 []) {[ 0x200 := tsc_source ]}
  0x200 1 0 0 0 (Some (0x408, false)) 1000 (2 ^ 24 - 3) None [].

Lemma demo_ck_inv : clocks_inv demo_ck [0x200] [0x200] [sizeof_clock_source].
Proof.
  split.
  - split; [done|]. split; [done|]. by exists tsc_source.
  - apply NoDup_singleton.
  - intros id Hid. cbn [demo_ck available_clocks sources]. split.
    + intros Ht. exists 0x200, tsc_source. split; [apply list_elem_of_here|]. split; [done|].
      destruct (decide (id = 0)) as [->|]; [done|]. rewrite <- (Z.pow_0_r 2), Z.pow2_bits_false in Ht by lia. done.
    + intros (p & c & _ & [<- <-]%lookup_singleton_Some & <-). done.
  - split; [by vm_compute|]. split; [apply NoDup_singleton|]. split; [apply Forall_singleton; by vm_compute|].
    apply Forall_singleton. by vm_compute.
  - done.
  - done.
Qed.

Lemma days_since_epoch_counts_witness : days_since_epoch 2000 2 29 = Done 11016 ∧ days_since_epoch 2000 3 1 = Done 11017.
Proof.
  destruct (proj2 days_since_epoch_counts 2000 2 29) as (n & E & E'); [lia|lia|vm_compute; split; discriminate|].
  assert (days_since_epoch 2000 2 29 = Done 11016) as E0 by (vm_compute; reflexivity).
  rewrite E0 in E. injection E as <-. split; [exact E0|exact E'].
Defined.

Lemma timespec_normalize_spec_witness : timespec_normalize (mk_ts 5 (-1)) = mk_ts 4 999999999
  ∧ 0 ≤ tv_nsec (timespec_normalize (mk_ts 5 (-1))) < NS_PER_S.
Proof.
  destruct (timespec_normalize_spec (mk_ts 5 (-1))) as [H _]; [simpl; lia|simpl; lia|].
  split; [reflexivity|exact H].
Defined.

Lemma ticks_ns_wraps_witness : ticks_ns 18446744074 1000 < ticks_ns 18446744073 1000.
Proof. destruct (ticks_ns_wraps 0 1000) as (_ & _ & H); [lia|exact H]. Defined.

(** The 24-bit counter went from 2^24 - 3 to 5. *)
Lemma pm_timer_read_elapsed_witness : ∃ s', pm_timer_read demo_ck = Done (1008, s') ∧ pm_accumulated s' = 1008.
Proof.
  destruct (pm_timer_read_elapsed demo_ck 0x408 false (2 ^ 24 - 3) (2 ^ 24 + 5) (2 ^ 24 - 1003)) as (s' & Hr & _ & Ha & _);
    try reflexivity; [vm_compute; split; [discriminate|reflexivity]|vm_compute; split; [discriminate|reflexivity]|].
  exists s'. split; [exact Hr|exact Ha].
Defined.

Lemma busy_sleep_ticks_sleeps_witness : ∃ i, (i ≤ 2)%nat ∧ 250 ≤ 100 * Z.of_nat (1 + i)
  ∧ busy_sleep_ticks 5 0x200 250 demo_ck = Done (tt, at_time (2 + i) demo_ck).
Proof.
  destruct (busy_sleep_ticks_sleeps 5 0x200 tsc_source (λ t, u64 (u64 (100 * Z.of_nat t) - 0)) 250 (λ t, 100 * Z.of_nat t) 0 2 demo_ck)
    as (i & Hi & Hr & He & _).
  - reflexivity.
  - reflexivity.
  - intros i. apply u64_sub_l.
  - intros i Hi. cbn [demo_ck ck_time]. lia.
  - lia.
  - cbn [demo_ck ck_time]. lia.
  - exists i. split; [exact Hi|]. split; [cbn [demo_ck ck_time] in He; lia|exact Hr].
Defined.

Lemma register_then_get_witness : ∃ p s', register_clock_source CLOCK_HPET HpetRead 100 demo_ck = Done (p, s')
  ∧ get_clock CLOCK_HPET s' = Done (p, s').
Proof.
  destruct (register_then_get "Failed to allocate memory for clock source" demo_ck [0x200] [0x200] [] CLOCK_HPET (Some HpetRead) None 100 demo_ck_inv)
    as (p & s' & Hr & _ & _ & _ & Hg); [vm_compute; split; [discriminate|reflexivity]|].
  exists p, s'. split; [exact Hr|].
  destruct (Hg CLOCK_HPET) as (r & Hr0 & Hr1); [vm_compute; split; [discriminate|reflexivity]|].
  assert (get_clock CLOCK_HPET demo_ck = Done (0, demo_ck)) as E by (vm_compute; reflexivity).
  rewrite E in Hr0. injection Hr0 as <-. exact Hr1.
Defined.

Lemma rtc_decode_bcd_witness : rtc_decode 0x32 0 (bcd_regs (mk_rtc 59 30 23 31 12 99 19) false) = mk_rtc 59 30 23 31 12 99 19.
Proof.
  apply (rtc_decode_bcd 0x32 0 (mk_rtc 59 30 23 31 12 99 19) false); [unfold two_digits; simpl; lia|discriminate|reflexivity].
Defined.

Lemma clock_gettime_realtime_undefined_witness : ∃ msg, do_sys_clock_gettime 0 1 22 0 (mk_ts 0 0) demo_ck = Undef msg.
Proof.
  apply (clock_gettime_realtime_undefined demo_ck [0x200] [0x200] [sizeof_clock_source] 0 1 22 (mk_ts 0 0) demo_ck_inv).
  - lia.
  - discriminate.
  - intros p c Hp _. cbn [demo_ck sources] in Hp. apply lookup_singleton_Some in Hp as [<- <-]. reflexivity.
Defined.
End ClockWitness.
