(* ===== verification/Elf.v ===== *)
(** * The ELF loader: src/kernel_common/elf.c

    Headers are read from a file into local variables of the loader, whose
    addresses are [ElfFrame]; their fields are loads at the offsets of the packed
    structures of elf.h. A file_t is a local variable of process_create and is
    passed by value here. The user pages are written through the direct map. *)
From S2P Require Import Prelude CMem Phys Vmm Heap Term Vfs Fd Vma.

Definition PT_LOAD : Z := 1.
Definition PF_X : Z := 1.
Definition PF_W : Z := 2.
Definition sizeof_elf_header : Z := 64.
Definition sizeof_elf_phdr : Z := 56.

(** The fields of elf_header_t and elf_phdr_t that the loader uses. *)
Record elf_header := mk_ehdr {
  e_magic : list Z;
  e_class : Z; e_data : Z; e_version : Z;
  e_machine : Z; e_version2 : Z;
  e_entry : Z; e_phoff : Z;
  e_phentsize : Z; e_phnum : Z;
}.
Record elf_phdr := mk_phdr {
  ph_type : Z; ph_flags : Z; ph_offset : Z; ph_vaddr : Z; ph_filesz : Z; ph_memsz : Z;
}.
Record elf_info := mk_info {
  i_entry : Z; i_base : Z; i_phdr : Z; i_phnum : Z; i_phentsize : Z;
}.

Definition header_at (m : mem) (a : Z) : elf_header :=
  mk_ehdr [ldb m a; ldb m (a + 1); ldb m (a + 2); ldb m (a + 3)] (ldb m (a + 4)) (ldb m (a + 5)) (ldb m (a + 6))
    (ldn 2 m (a + 18)) (ldn 4 m (a + 20)) (ldn 8 m (a + 24)) (ldn 8 m (a + 32)) (ldn 2 m (a + 54)) (ldn 2 m (a + 56)).
Definition phdr_at (m : mem) (a : Z) : elf_phdr :=
  mk_phdr (ldn 4 m a) (ldn 4 m (a + 4)) (ldn 8 m (a + 8)) (ldn 8 m (a + 16)) (ldn 8 m (a + 32)) (ldn 8 m (a + 40)).

Definition valid_header (h : elf_header) : bool :=
  bool_decide (e_magic h = [0x7F; 69; 76; 70])
  && (e_class h =? 2) && (e_data h =? 1) && (e_version h =? 1) && (e_version2 h =? 1) && (e_machine h =? 62)
  && (e_phentsize h =? sizeof_elf_phdr).

Definition align_down (value : Z) : Z := Z.land value (u64 (Z.lnot 0xFFF)).
Definition align_up (value : Z) : Z := Z.land (u64 (value + 0xFFF)) (u64 (Z.lnot 0xFFF)).

Definition segment_flags (elf_flags : Z) : Z :=
  let flags := Z.lor PAGE_USER PAGE_PRESENT in
  let flags := if negb (Z.land elf_flags PF_W =? 0) then Z.lor flags PAGE_WRITABLE else flags in
  if Z.land elf_flags PF_X =? 0 then Z.lor flags PAGE_NOEXEC else flags.

(** The local variables [header] and [ph]. *)
Class ElfFrame := { header_buf : Z; ph_buf : Z }.

(** What the loader and process.c ask of vmm.c and pmm.c besides [UserMap]. *)
Class AddrSpaces (H : Type) := {
  as_free_page : Z → M H unit;
  as_lookup : address_space → Z → H → Z;      (* vmm_lookup_ap *)
  as_create : M H address_space;
  as_destroy : address_space → M H unit;
}.
#[export] Instance kernel_addr_spaces `{PageAllocator St} : AddrSpaces (heap_state St) := {|
  as_free_page p := on_vm (on_pages (pmm_free_page p));
  as_lookup a virt h := vmm_lookup_ap a virt (heap_mem h);
  as_create := on_vm paging_create_address_space;
  as_destroy a := on_vm (on_pages (paging_destroy_address_space a));
|}.

Section elf.
Context `{OH : ObjectHeap H} `{UM : !UserMap H} `{AS : !AddrSpaces H} `{EF : ElfFrame} `{Uart} `{Abi}.
Abbreviation S := (fd_state H).

Definition set_offset (f : file) (o : Z) : file := mk_file (f_vnode f) o (f_refcount f) (f_flags f).

(** while (size > 0) { read = vfs_read(file, out, size); if (read <= 0) return -1; ... } *)
Definition read_turn (f : file) (out size : Z) (again : file → Z → Z → M S (Z * file)) : M S (Z * file) :=
  if size =? 0 then mret (0, f)
  else
    r ← on_io (vfs_read f out size);
    let read := i32 r.1 in
    if read <=? 0 then mret (-1, r.2) else again r.2 (u64 (out + read)) (u64 (size - read)).
Fixpoint read_loop (fuel : nat) (f : file) (out size : Z) : M S (Z * file) :=
  read_turn f out size (λ f out size,
    match fuel with
    | O => λ _, OutOfFuel
    | Datatypes.S k => read_loop k f out size
    end).

(** Each turn reads at least a byte. *)
Definition read_exact (f : file) (buffer size : Z) : M S (Z * file) :=
  if buffer =? 0 then mret (-1, f) else read_loop (Z.to_nat size) f buffer size.

Definition io_memory : M S mem := gets (λ s, io_mem (fd_io s)).

(** None is the result -1. *)
Definition read_elf_header (f : file) : M S (option elf_header * file) :=
  r ← read_exact (set_offset f 0) header_buf sizeof_elf_header;
  if r.1 <? 0 then mret (None, r.2)
  else
    m ← io_memory;
    let h := header_at m header_buf in
    mret (if valid_header h then Some h else None, r.2).

(** Reading program header [i]. *)
Definition read_phdr (h : elf_header) (f : file) (i : Z) : M S (option elf_phdr * file) :=
  r ← read_exact (set_offset f (u64 (e_phoff h + i * e_phentsize h))) ph_buf sizeof_elf_phdr;
  if r.1 <? 0 then mret (None, r.2)
  else
    m ← io_memory;
    mret (Some (phdr_at m ph_buf), r.2).

(** Where the segment [ph] puts the program headers, when it has them. *)
Definition phdr_address (h : elf_header) (ph : elf_phdr) : option Z :=
  if (ph_offset ph <=? e_phoff h) && (e_phoff h <? u64 (ph_offset ph + ph_filesz ph)) then
    Some (u64 (ph_vaddr ph + (e_phoff h - ph_offset ph)))
  else if ph_offset ph =? 0 then Some (u64 (ph_vaddr ph + e_phoff h))
  else None.

(** The loop of elf_read_info over the headers [todo]; None is the return of -1. *)
Definition scan_turn (h : elf_header) (f : file) (i : Z) (again : file → M S (option Z * file))
    : M S (option Z * file) :=
  r ← read_phdr h f i;
  match r.1 with
  | None => mret (None, r.2)
  | Some ph =>
      if negb (ph_type ph =? PT_LOAD) then again r.2
      else match phdr_address h ph with
           | Some v => mret (Some v, r.2)
           | None => again r.2
           end
  end.
Fixpoint scan_phdrs (h : elf_header) (f : file) (todo : list Z) : M S (option Z * file) :=
  match todo with
  | [] => mret (Some 0, f)
  | i :: todo' => scan_turn h f i (λ f, scan_phdrs h f todo')
  end.

Definition elf_read_info (f : file) : M S (option elf_info * file) :=
  r ← read_elf_header f;
  match r.1 with
  | None => mret (None, r.2)
  | Some h =>
      r' ← scan_phdrs h r.2 (seqZ 0 (e_phnum h));
      match r'.1 with
      | None => mret (None, r'.2)
      | Some v => mret (Some (mk_info (e_entry h) 0 v (e_phnum h) (e_phentsize h)), r'.2)
      end
  end.

(** phys_pages[page] = pmm_alloc_page() for each page; None: no page was left, and
    those taken were freed. *)
Fixpoint alloc_pages (n : nat) (taken : list Z) : M S (option (list Z)) :=
  match n with
  | O => mret (Some taken)
  | Datatypes.S k =>
      p ← on_heap um_alloc_page;
      if p =? 0 then
        _ ← for_each taken (λ q, on_heap (as_free_page q));
        mret None
      else alloc_pages k (taken ++ [p])
  end.

(** The mapping loop; false is its [goto fail]. *)
Fixpoint map_pages (a : address_space) (map_start flags : Z) (page : Z) (pages : list Z) : M S bool :=
  match pages with
  | [] => mret true
  | p :: pages' =>
      if p =? 0 then mret false
      else
        _ ← on_heap (um_map a (u64 (map_start + Z.shiftl page 12)) p flags);
        map_pages a map_start flags (page + 1) pages'
  end.

Definition lookup_ap (a : address_space) (virt : Z) : M S Z := gets (λ s, as_lookup a virt (fd_heap s)).

(** while (offset < ph.filesz) { read_exact(file, vmm_lookup_ap(as, ph.vaddr + offset), to_read) } *)
Definition copy_turn (a : address_space) (f : file) (vaddr filesz offset : Z)
    (again : file → Z → M S (bool * file)) : M S (bool * file) :=
  if offset <? filesz then
    let to_read := if PAGE_SIZE <? filesz - offset then PAGE_SIZE else filesz - offset in
    dest ← lookup_ap a (u64 (vaddr + offset));
    r ← read_exact f dest to_read;
    if r.1 <? 0 then mret (false, r.2) else again r.2 (offset + to_read)
  else mret (true, f).
Fixpoint copy_loop (fuel : nat) (a : address_space) (f : file) (vaddr filesz offset : Z) : M S (bool * file) :=
  copy_turn a f vaddr filesz offset (λ f offset,
    match fuel with
    | O => λ _, OutOfFuel
    | Datatypes.S k => copy_loop k a f vaddr filesz offset
    end).

Definition io_memset (dest n : Z) : M S unit := on_io (λ io,
  m ← memset dest 0 n (io_mem io); Done (tt, mk_kio (io_fs io) m (io_fb io) (io_term io))).

(** The same loop for the bytes after the file's, which are zeroed. *)
Definition zero_turn (a : address_space) (vaddr extra offset : Z) (again : Z → M S unit) : M S unit :=
  if offset <? extra then
    let to_null := if PAGE_SIZE <? extra - offset then PAGE_SIZE else extra - offset in
    dest ← lookup_ap a (u64 (vaddr + offset));
    _ ← io_memset dest to_null;
    again (offset + to_null)
  else mret tt.
Fixpoint zero_loop (fuel : nat) (a : address_space) (vaddr extra offset : Z) : M S unit :=
  zero_turn a vaddr extra offset (λ offset,
    match fuel with
    | O => λ _, OutOfFuel
    | Datatypes.S k => zero_loop k a vaddr extra offset
    end).

(** Steps of a page are enough for either loop. *)
Definition page_steps (n : Z) : nat := Z.to_nat (n / PAGE_SIZE + 1).

(** The last part of the loop body, on mapped pages. *)
Definition fill_segment (a : address_space) (f : file) (ph : elf_phdr) : M S (bool * file) :=
  r ← copy_loop (page_steps (ph_filesz ph)) a (set_offset f (ph_offset ph)) (ph_vaddr ph) (ph_filesz ph) 0;
  if negb r.1 then mret (false, r.2)
  else if ph_filesz ph <? ph_memsz ph then
    let extra := ph_memsz ph - ph_filesz ph in
    _ ← zero_loop (page_steps extra) a (u64 (ph_vaddr ph + ph_filesz ph)) extra 0;
    mret (true, r.2)
  else mret (true, r.2).

(** One PT_LOAD segment; false is [goto fail]. The array phys_pages is not freed
    on success. *)
Definition load_segment (a : address_space) (f : file) (ph : elf_phdr) : M S (bool * file) :=
  if ph_memsz ph <? ph_filesz ph then mret (false, f)
  else
    let map_start := align_down (ph_vaddr ph) in
    let map_end := align_up (u64 (ph_vaddr ph + ph_memsz ph)) in
    let page_count := Z.shiftr (u64 (map_end - map_start)) 12 in
    if page_count =? 0 then mret (true, f)
    else
      phys_pages ← on_heap (oh_alloc (u64 (8 * page_count)));
      if phys_pages =? 0 then mundef "store through NULL: phys_pages"
      else
        pages ← alloc_pages (Z.to_nat page_count) [];
        match pages with
        | None => _ ← on_heap (oh_free phys_pages); mret (false, f)
        | Some pages =>
            ok ← map_pages a map_start (segment_flags (ph_flags ph)) 0 pages;
            if negb ok then mret (false, f)
            else fill_segment a f ph
        end.

Definition load_turn (a : address_space) (h : elf_header) (f : file) (i : Z)
    (again : file → M S (bool * file)) : M S (bool * file) :=
  r ← read_phdr h f i;
  match r.1 with
  | None => mret (false, r.2)
  | Some ph =>
      if negb (ph_type ph =? PT_LOAD) then again r.2
      else
        r' ← load_segment a r.2 ph;
        if negb r'.1 then mret (false, r'.2) else again r'.2
  end.
Fixpoint load_phdrs (a : address_space) (h : elf_header) (f : file) (todo : list Z) : M S (bool * file) :=
  match todo with
  | [] => mret (true, f)
  | i :: todo' => load_turn a h f i (λ f, load_phdrs a h f todo')
  end.

Definition elf_load_into_address_space (a : address_space) (f : file) (info : elf_info) : M S (Z * file) :=
  r ← read_elf_header f;
  match r.1 with
  | None => mret (-1, r.2)
  | Some h =>
      if negb (i_entry info =? e_entry h) then mret (-1, r.2)
      else
        r' ← load_phdrs a h r.2 (seqZ 0 (e_phnum h));
        mret ((if (r'.1 : bool) then 0 else -1), r'.2)
  end.
End elf.

(** ** Specification *)

Lemma ldn_shift n m m' a a' : (∀ i, 0 ≤ i < Z.of_nat n → ldb m' (a' + i) = ldb m (a + i)) → ldn n m' a' = ldn n m a.
Proof.
  revert a a'. induction n as [|n IH]; intros a a' Hb; [done|].
  change (ldb m' a' + 256 * ldn n m' (a' + 1) = ldb m a + 256 * ldn n m (a + 1)).
  pose proof (Hb 0 ltac:(lia)) as H0. rewrite !Z.add_0_r in H0. rewrite H0. do 2 f_equal.
  apply IH. intros i Hi. rewrite <- !Z.add_assoc. apply Hb. lia.
Qed.

Lemma header_at_shift m m' a a' : (∀ i, 0 ≤ i < sizeof_elf_header → ldb m' (a' + i) = ldb m (a + i)) →
  header_at m' a' = header_at m a.
Proof.
  intros Hb. unfold header_at, sizeof_elf_header in *.
  assert (∀ i, 0 ≤ i < 64 → ldb m' (a' + i) = ldb m (a + i)) as Hb' by done.
  pose proof (Hb 0 ltac:(lia)) as H0. rewrite !Z.add_0_r in H0. rewrite H0, !Hb by lia.
  f_equal; apply ldn_shift; intros i Hi; rewrite <- !Z.add_assoc; apply Hb'; lia.
Qed.

Lemma phdr_at_shift m m' a a' : (∀ i, 0 ≤ i < sizeof_elf_phdr → ldb m' (a' + i) = ldb m (a + i)) →
  phdr_at m' a' = phdr_at m a.
Proof.
  intros Hb. unfold phdr_at, sizeof_elf_phdr in *.
  f_equal; apply ldn_shift; intros i Hi; rewrite <- ?Z.add_assoc; apply Hb; lia.
Qed.

(** The program headers of a file whose data is at [data]. *)
Definition file_phdr (m : mem) (data : Z) (h : elf_header) (i : Z) : elf_phdr :=
  phdr_at m (data + e_phoff h + i * sizeof_elf_phdr).

(** The scan of the program headers and the whole of elf_read_info, as functions of
    the bytes of the file. *)
Fixpoint scan_result (m : mem) (data size : Z) (h : elf_header) (todo : list Z) : option Z :=
  match todo with
  | [] => Some 0
  | i :: todo' =>
      let ph := file_phdr m data h i in
      if size <? e_phoff h + i * sizeof_elf_phdr + sizeof_elf_phdr then None
      else match (if ph_type ph =? PT_LOAD then phdr_address h ph else None) with
           | Some v => Some v
           | None => scan_result m data size h todo'
           end
  end.
Definition info_result (m : mem) (data size : Z) : option elf_info :=
  let h := header_at m data in
  if (size <? sizeof_elf_header) || negb (valid_header h) then None
  else v ← scan_result m data size h (seqZ 0 (e_phnum h));
       Some (mk_info (e_entry h) 0 v (e_phnum h) (e_phentsize h)).

(** *** What the ELF-64 format says

    Nothing here comes from the loader: the offsets and values are those of the
    format. The file starts with 0x7F "ELF", class 2 (64 bits), data 1 (little
    endian), version 1; e_machine (at 18) is 62 (x86-64), e_version (at 20) is 1
    and e_phentsize (at 54) is 56. *)
Definition elf64_x86 (m : mem) (data size : Z) : bool :=
  (64 <=? size) && bool_decide (bytes m data 7 = [0x7F; 0x45; 0x4C; 0x46; 2; 1; 1])
  && (ldn 2 m (data + 18) =? 62) && (ldn 4 m (data + 20) =? 1) && (ldn 2 m (data + 54) =? 56).

(** The address of the program header table, which is at file offset [phoff]: the
    first loadable segment (p_type, at 0, is 1) whose bytes in the file, from p_offset
    (at 8) on, p_filesz (at 32) of them, include the table's first, puts it as far
    from p_vaddr (at 16) as it is from p_offset; a segment from the beginning of the
    file does so even when it ends before the table. Some 0 when no segment has the
    table, None when the entry of a segment looked at is not all in the file. *)
Fixpoint spec_phdr (m : mem) (data size phoff : Z) (segments : list Z) : option Z :=
  match segments with
  | [] => Some 0
  | i :: rest =>
      let p := phoff + 56 * i in
      let p_offset := ldn 8 m (data + p + 8) in
      let p_vaddr := ldn 8 m (data + p + 16) in
      let p_filesz := ldn 8 m (data + p + 32) in
      if bool_decide (size < p + 56) then None
      else if bool_decide (ldn 4 m (data + p) = 1
          ∧ (p_offset ≤ phoff < (p_offset + p_filesz) mod 2 ^ 64 ∨ p_offset = 0))
      then Some ((p_vaddr + (phoff - p_offset)) mod 2 ^ 64)
      else spec_phdr m data size phoff rest
  end.

(** What elf_read_info is to answer for a file of [size] bytes at [data]: e_entry is at
    24, e_phoff at 32, e_phnum at 56. *)
Definition spec_info (m : mem) (data size : Z) : option elf_info :=
  if elf64_x86 m data size then
    let phnum := ldn 2 m (data + 56) in
    v ← spec_phdr m data size (ldn 8 m (data + 32)) (seqZ 0 phnum);
    Some (mk_info (ldn 8 m (data + 24)) 0 v phnum 56)
  else None.

Lemma scan_result_spec m data size h todo :
  scan_result m data size h todo = spec_phdr m data size (e_phoff h) todo.
Proof.
  induction todo as [|i todo IH]; [done|]. cbn [scan_result spec_phdr]. rewrite IH. clear IH.
  unfold file_phdr, sizeof_elf_phdr, PT_LOAD.
  replace (data + e_phoff h + i * 56) with (data + (e_phoff h + 56 * i)) by lia.
  replace (e_phoff h + i * 56 + 56) with (e_phoff h + 56 * i + 56) by lia. set (p := e_phoff h + 56 * i).
  destruct (Z.ltb_spec size (p + 56)); [by rewrite bool_decide_true by done|].
  rewrite (bool_decide_false (size < _)) by lia. unfold phdr_address, phdr_at, u64. simpl ph_type.
  cbn [ph_offset ph_vaddr ph_filesz].
  destruct (Z.eqb_spec (ldn 4 m (data + p)) 1); [|by rewrite bool_decide_false by tauto].
  destruct (Z.leb_spec (ldn 8 m (data + p + 8)) (e_phoff h)),
    (Z.ltb_spec (e_phoff h) ((ldn 8 m (data + p + 8) + ldn 8 m (data + p + 32)) mod 2 ^ 64)),
    (Z.eqb_spec (ldn 8 m (data + p + 8)) 0) as [E|]; cbn [andb];
    first [rewrite bool_decide_true by lia|rewrite bool_decide_false by lia]; rewrite ?E, ?Z.sub_0_r; done.
Qed.

Lemma info_result_spec m data size : info_result m data size = spec_info m data size.
Proof.
  unfold info_result, spec_info. rewrite (scan_result_spec m data size (header_at m data)).
  assert ((size <? sizeof_elf_header) || negb (valid_header (header_at m data)) = negb (elf64_x86 m data size)) as ->.
  { unfold valid_header, elf64_x86, header_at, sizeof_elf_header, sizeof_elf_phdr.
    cbn [e_magic e_class e_data e_version e_version2 e_machine e_phentsize].
    replace (bytes m data 7) with [ldb m data; ldb m (data + 1); ldb m (data + 2); ldb m (data + 3); ldb m (data + 4);
      ldb m (data + 5); ldb m (data + 6)] by (unfold bytes; simpl; by rewrite Z.add_0_r).
    rewrite Z.ltb_antisym. destruct (64 <=? size); [|done]. cbn [negb orb andb]. f_equal. apply eq_true_iff_eq.
    rewrite !andb_true_iff, !bool_decide_eq_true, !Z.eqb_eq.
    split; [intros (((((([= -> -> -> ->] & ->) & ->) & ->) & ?) & ?) & ?)
      |intros ((([= -> -> -> -> -> -> ->] & ?) & ?) & ?)]; done. }
  destruct (elf64_x86 m data size) eqn:E; [|done]. cbn [negb]. unfold elf64_x86 in E.
  apply andb_prop in E as [_ E%Z.eqb_eq]. unfold header_at. cbn [e_phoff e_phnum e_entry e_phentsize]. by rewrite E.
Qed.

(** [f] is open on a file of tarfs with [size] bytes at [data]. *)
Record tar_file (io : kio) (f : file) (data size : Z) : Prop := {
  tf_vnode : ∃ n, get_vnode (f_vnode f) (io_fs io) = Some n ∧ vn_ops n = Some tar_ops
    ∧ vn_internal n = IData data ∧ vn_size n = size;
  tf_size : 0 ≤ size < 2 ^ 31;
  tf_data : 0 < data ∧ data + size < 2 ^ 64;
}.

(** A buffer of [n] bytes that does not meet the file. *)
Definition buffer_ok (data size b n : Z) : Prop :=
  0 < b ∧ b + n < 2 ^ 64 ∧ (b + n ≤ data ∨ data + size ≤ b).

Definition same_bytes (data size : Z) (m m' : mem) : Prop := ∀ b, data ≤ b < data + size → ldb m' b = ldb m b.

Section elf_spec.
Context `{OH : ObjectHeap H} `{UM : !UserMap H} `{AS : !AddrSpaces H} `{EF : ElfFrame} `{Uart} `{Abi}.
Abbreviation S := (fd_state H).
Implicit Types (s : S).

Definition with_io_mem (m : mem) s : S :=
  mk_fd H (fd_heap s) (mk_kio (io_fs (fd_io s)) m (io_fb (fd_io s)) (io_term (fd_io s))) (files s) (fd_objs s)
    (gft_ptr s) (global_file_table s) (global_file_capacity s) (procs s).
Definition s_mem s : mem := io_mem (fd_io s).

Lemma with_io_mem_twice m m' s : with_io_mem m' (with_io_mem m s) = with_io_mem m' s.
Proof. done. Qed.

Lemma tar_file_mem f data size m s o : tar_file (fd_io s) f data size →
  tar_file (fd_io (with_io_mem m s)) (set_offset f o) data size.
Proof. by intros [? ? ?]. Qed.

(** One call of vfs_read. *)
Lemma read_once f data size out n s : tar_file (fd_io s) f data size →
  0 ≤ f_offset f → f_offset f + n < 2 ^ 64 → 0 < n → buffer_ok data size out n →
  let k := Z.max 0 (Z.min n (size - f_offset f)) in
  ∃ m, on_io (vfs_read f out n) s = Done ((k, set_offset f (f_offset f + k)), with_io_mem m s)
    ∧ (∀ i, 0 ≤ i < k → ldb m (out + i) = ldb (s_mem s) (data + f_offset f + i))
    ∧ (∀ b, b < out ∨ out + k ≤ b → ldb m b = ldb (s_mem s) b).
Proof.
  intros [(nd & Hn & Hops & Hint & <-) Hsize [Hd0 Hd]] Ho Hw Hn0 (Hb0 & Hb1 & Hb) k.
  destruct (vfs_read_tar (fd_io s) f nd data out n Hn Hops Hint) as (m & Hr & Hbytes & Hother);
    try lia.
  fold k in Hr, Hbytes, Hother. exists m. split; [unfold on_io, zoom; rewrite Hr; reflexivity|]. split; [|done].
  intros i Hi. pose proof (f_equal (λ l, l !! Z.to_nat i) Hbytes) as E. simpl in E.
  rewrite !lookup_bytes in E by lia. rewrite !Z2Nat.id in E by lia. apply (inj Some) in E. exact E.
Qed.
Lemma with_io_mem_id s : with_io_mem (s_mem s) s = s.
Proof. by destruct s as [? [] ? ? ? ? ? ?]. Qed.

(** read_exact reads all of [n] bytes, in one call of vfs_read. *)
Lemma read_exact_full f data size out n s : tar_file (fd_io s) f data size →
  0 ≤ f_offset f → 0 ≤ n → f_offset f + n ≤ size → buffer_ok data size out n →
  ∃ m, read_exact f out n s = Done ((0, set_offset f (f_offset f + n)), with_io_mem m s)
    ∧ (∀ i, 0 ≤ i < n → ldb m (out + i) = ldb (s_mem s) (data + f_offset f + i))
    ∧ (∀ b, b < out ∨ out + n ≤ b → ldb m b = ldb (s_mem s) b).
Proof.
  intros Hf Ho Hn Hin Hb. pose proof (tf_size _ _ _ _ Hf). unfold read_exact.
  pose proof Hb as (Hb0 & _ & _). destruct (Z.eqb_spec out 0); [lia|]. clear Hb0.
  destruct (Z.eq_dec n 0) as [->|Hn0].
  - exists (s_mem s). rewrite with_io_mem_id, Z.add_0_r. split; [|split; [lia|done]].
    by destruct f.
  - destruct (read_once f data size out n s Hf Ho ltac:(lia) ltac:(lia) Hb) as (m & Hr & Hread & Hother).
    replace (Z.max 0 (Z.min n (size - f_offset f))) with n in * by lia.
    exists m. split; [|done]. destruct (Z.to_nat n) as [|k] eqn:Hk; [lia|]. simpl read_loop. unfold read_turn at 1.
    destruct (Z.eqb_spec n 0); [done|]. rewrite (bind_Done _ _ _ _ _ Hr). cbn [fst snd].
    rewrite i32_small by lia. destruct (Z.leb_spec n 0); [lia|].
    replace (u64 (n - n)) with 0 by (rewrite Z.sub_diag; reflexivity). by destruct k.
Qed.

Lemma read_loop_eof fuel f data size out n s : tar_file (fd_io s) f data size →
  size ≤ f_offset f → f_offset f + n < 2 ^ 64 → 0 < n → buffer_ok data size out n →
  ∃ m, read_loop fuel f out n s = Done ((-1, set_offset f (f_offset f)), with_io_mem m s)
    ∧ (∀ b, ldb m b = ldb (s_mem s) b).
Proof.
  intros Hf Ho Hw Hn Hb. pose proof (tf_size _ _ _ _ Hf).
  destruct (read_once f data size out n s Hf ltac:(lia) Hw Hn Hb) as (m & Hr & _ & Hother).
  replace (Z.max 0 (Z.min n (size - f_offset f))) with 0 in * by lia. rewrite Z.add_0_r in Hr.
  exists m. split; [|intros b; apply Hother; lia].
  assert (∀ again, read_turn f out n again s = Done ((-1, set_offset f (f_offset f)), with_io_mem m s)) as E.
  { intros again. unfold read_turn. destruct (Z.eqb_spec n 0); [lia|]. by rewrite (bind_Done _ _ _ _ _ Hr). }
  destruct fuel; apply E.
Qed.

(** It fails when the file ends before. *)
Lemma read_exact_short f data size out n s : tar_file (fd_io s) f data size →
  0 ≤ f_offset f → 0 < n → size < f_offset f + n < 2 ^ 64 → buffer_ok data size out n →
  ∃ m o, read_exact f out n s = Done ((-1, set_offset f o), with_io_mem m s)
    ∧ (∀ b, b < out ∨ out + n ≤ b → ldb m b = ldb (s_mem s) b).
Proof.
  intros Hf Ho Hn Hin Hb. pose proof (tf_size _ _ _ _ Hf). unfold read_exact.
  pose proof Hb as (Hb0 & Hb1 & Hb2). destruct (Z.eqb_spec out 0); [lia|].
  destruct (Z.to_nat n) as [|k] eqn:Hk; [lia|].
  destruct (Z.leb_spec size (f_offset f)).
  { destruct (read_loop_eof (Datatypes.S k) f data size out n s) as (m & Hr & Hm); [done|lia..|done|]. exists m. eauto. }
  destruct (read_once f data size out n s Hf Ho ltac:(lia) Hn Hb) as (m & Hr & _ & Hother).
  replace (Z.max 0 (Z.min n (size - f_offset f))) with (size - f_offset f) in * by lia.
  replace (f_offset f + (size - f_offset f)) with size in Hr by lia.
  destruct (read_loop_eof k (set_offset f size) data size (out + (size - f_offset f)) (n - (size - f_offset f))
    (with_io_mem m s)) as (m' & Hr' & Hm'); [by apply tar_file_mem|simpl; lia..|split; [lia|split; lia]|].
  exists m', size. split.
  - simpl read_loop. unfold read_turn at 1. destruct (Z.eqb_spec n 0); [lia|].
    rewrite (bind_Done _ _ _ _ _ Hr). cbn [fst snd]. rewrite i32_small by lia.
    destruct (Z.leb_spec (size - f_offset f) 0); [lia|]. rewrite !u64_small by lia. exact Hr'.
  - intros b Hb'. rewrite Hm'. apply Hother. lia.
Qed.

(** *** Headers *)

Definition frame_ok (data size : Z) : Prop :=
  buffer_ok data size header_buf sizeof_elf_header ∧ buffer_ok data size ph_buf sizeof_elf_phdr.

(** The loader was run on [f] in [s]: its answer, the same file at some offset, and
    the state with the bytes of the file unchanged. *)
Definition answers {A} (data size : Z) (f : file) s (a : A) (r : outcome (A * file * S)) : Prop :=
  ∃ m o, r = Done ((a, set_offset f o), with_io_mem m s) ∧ same_bytes data size (s_mem s) m.

Lemma same_bytes_outside data size out n m m' : buffer_ok data size out n →
  (∀ b, b < out ∨ out + n ≤ b → ldb m' b = ldb m b) → same_bytes data size m m'.
Proof. intros (_ & _ & Hb) Hm b Hb'. apply Hm. lia. Qed.

Lemma read_elf_header_spec f data size s : tar_file (fd_io s) f data size → frame_ok data size →
  let h := header_at (s_mem s) data in
  answers data size f s (if (size <? sizeof_elf_header) || negb (valid_header h) then None else Some h)
    (read_elf_header f s).
Proof.
  intros Hf [Hfr _] h. unfold read_elf_header.
  assert (tar_file (fd_io s) (set_offset f 0) data size) as Hf0 by (destruct Hf; by split).
  destruct (Z.ltb_spec size sizeof_elf_header) as [Hs|Hs].
  - destruct (read_exact_short (set_offset f 0) data size header_buf sizeof_elf_header s Hf0) as (m & o & Hr & Hm);
      [simpl; unfold sizeof_elf_header in *; lia..|done|].
    rewrite (bind_Done _ _ _ _ _ Hr). exists m, o. split; [done|]. by eapply same_bytes_outside.
  - destruct (read_exact_full (set_offset f 0) data size header_buf sizeof_elf_header s Hf0) as (m & Hr & Hread & Hm);
      [simpl; unfold sizeof_elf_header in *; lia..|done|].
    rewrite (bind_Done _ _ _ _ _ Hr). cbn [fst snd]. change (0 <? 0) with false. cbn iota.
    exists m, sizeof_elf_header. split; [|by eapply same_bytes_outside].
    assert (header_at m header_buf = h) as <-.
    { apply header_at_shift. intros i Hi. rewrite (Hread i Hi). simpl. f_equal. lia. }
    simpl orb. unfold io_memory, gets, mbind, M_bind, mret, M_ret. by destruct (valid_header _).
Qed.
Lemma file_phdr_same m m' data size h i : same_bytes data size m m' →
  0 ≤ e_phoff h + i * sizeof_elf_phdr → e_phoff h + i * sizeof_elf_phdr + sizeof_elf_phdr ≤ size →
  file_phdr m' data h i = file_phdr m data h i.
Proof. intros Hm ??. apply phdr_at_shift. intros k Hk. apply Hm. unfold sizeof_elf_phdr in *. lia. Qed.

Lemma read_phdr_spec h f data size i s : tar_file (fd_io s) f data size → frame_ok data size →
  e_phentsize h = sizeof_elf_phdr → 0 ≤ e_phoff h → 0 ≤ i →
  e_phoff h + i * sizeof_elf_phdr + sizeof_elf_phdr < 2 ^ 64 →
  answers data size f s
    (if size <? e_phoff h + i * sizeof_elf_phdr + sizeof_elf_phdr then None
     else Some (file_phdr (s_mem s) data h i))
    (read_phdr h f i s).
Proof.
  intros Hf [_ Hfr] He Ho Hi Hw. unfold read_phdr. rewrite He. unfold sizeof_elf_phdr at 1 in Hfr.
  rewrite (u64_small (e_phoff h + _)) by (unfold sizeof_elf_phdr in *; lia).
  set (o := e_phoff h + i * sizeof_elf_phdr) in *.
  assert (tar_file (fd_io s) (set_offset f o) data size) as Hf0 by (destruct Hf; by split).
  assert (0 ≤ o) by (unfold o, sizeof_elf_phdr; lia).
  destruct (Z.ltb_spec size (o + sizeof_elf_phdr)) as [Hs|Hs].
  - destruct (read_exact_short (set_offset f o) data size ph_buf sizeof_elf_phdr s Hf0) as (m & o' & Hr & Hm);
      [simpl; unfold sizeof_elf_phdr in *; lia..|done|].
    rewrite (bind_Done _ _ _ _ _ Hr). exists m, o'. split; [done|]. by eapply same_bytes_outside.
  - destruct (read_exact_full (set_offset f o) data size ph_buf sizeof_elf_phdr s Hf0) as (m & Hr & Hread & Hm);
      [simpl; unfold sizeof_elf_phdr in *; lia..|done|].
    rewrite (bind_Done _ _ _ _ _ Hr). cbn [fst snd]. change (0 <? 0) with false. cbn iota.
    exists m, (o + sizeof_elf_phdr). split; [|by eapply same_bytes_outside].
    unfold file_phdr. fold o. replace (data + e_phoff h + i * sizeof_elf_phdr) with (data + o) by (unfold o; lia).
    rewrite <- (phdr_at_shift (s_mem s) m (data + o) ph_buf); [reflexivity|]. intros k Hk. exact (Hread k Hk).
Qed.

(** Running on after a call that answered. *)
Lemma answers_after {A} data size f s (a : A) (r : outcome (A * file * S)) m :
  same_bytes data size (s_mem s) m → answers data size f (with_io_mem m s) a r → answers data size f s a r.
Proof.
  intros Hm (m' & o & -> & Hm'). exists m', o. split; [done|]. intros b Hb. rewrite (Hm' b Hb). by apply Hm.
Qed.

Lemma scan_result_same m m' data size h todo : same_bytes data size m m' → 0 ≤ e_phoff h →
  Forall (λ i, 0 ≤ i) todo → scan_result m' data size h todo = scan_result m data size h todo.
Proof.
  intros Hm Ho. induction 1 as [|i todo Hi _ IH]; [done|]. cbn [scan_result]. rewrite IH.
  destruct (Z.ltb_spec size (e_phoff h + i * sizeof_elf_phdr + sizeof_elf_phdr)); [done|].
  by rewrite (file_phdr_same m m' data size) by (unfold sizeof_elf_phdr in *; (done || lia)).
Qed.

Lemma scan_phdrs_spec h data size todo : frame_ok data size → e_phentsize h = sizeof_elf_phdr → 0 ≤ e_phoff h →
  Forall (λ i, 0 ≤ i ∧ e_phoff h + i * sizeof_elf_phdr + sizeof_elf_phdr < 2 ^ 64) todo →
  ∀ f s, tar_file (fd_io s) f data size →
  answers data size f s (scan_result (s_mem s) data size h todo) (scan_phdrs h f todo s).
Proof.
  intros Hfr He Ho. induction 1 as [|i todo [Hi Hw] Htodo IH]; intros f s Hf.
  { exists (s_mem s), (f_offset f). rewrite with_io_mem_id. split; [by destruct f|done]. }
  cbn [scan_phdrs scan_result]. unfold scan_turn.
  destruct (read_phdr_spec h f data size i s Hf Hfr He Ho Hi Hw) as (m & o & Hr & Hm).
  rewrite (bind_Done _ _ _ _ _ Hr). clear Hr. cbn [fst snd].
  destruct (size <? _) eqn:Hin.
  { exists m, o. done. }
  pose proof (IH (set_offset f o) (with_io_mem m s) (tar_file_mem _ _ _ _ _ _ Hf)) as IH'.
  assert (answers data size f s (scan_result (s_mem s) data size h todo)
    (scan_phdrs h (set_offset f o) todo (with_io_mem m s))) as Hagain.
  { apply (answers_after _ _ _ _ _ _ m Hm). cbn in IH'.
    rewrite (scan_result_same (s_mem s) m) in IH' by (done || (eapply Forall_impl; [exact Htodo|by intros ? []])).
    exact IH'. }
  destruct (ph_type _ =? PT_LOAD); [|exact Hagain]. cbn [negb].
  destruct (phdr_address _ _) as [v|]; [|exact Hagain]. exists m, o. done.
Qed.
(** *** Segments *)

(** Where the chunk [j] of a segment goes, and how much of [n] bytes it holds. *)
Definition chunk_dest (a : address_space) (vaddr j : Z) s : Z := as_lookup a (u64 (vaddr + j * PAGE_SIZE)) (fd_heap s).
Definition chunk_len (n j : Z) : Z := Z.min PAGE_SIZE (n - j * PAGE_SIZE).

(** The chunks [k], k + 1, ... of [n] bytes go to places that meet neither each
    other nor the file. *)
Definition chunks_ok (data size n k : Z) (dest : Z → Z) : Prop :=
  (∀ j, k ≤ j → j * PAGE_SIZE < n → buffer_ok data size (dest j) (chunk_len n j))
  ∧ (∀ j j', k ≤ j < j' → j' * PAGE_SIZE < n →
      dest j + chunk_len n j ≤ dest j' ∨ dest j' + chunk_len n j' ≤ dest j).

(** [m'] has byte [i] of chunk [j] equal to [byte j i] for all chunks from [k],
    and elsewhere the bytes of [m]. *)
Definition chunks_hold (n k : Z) (dest : Z → Z) (byte : Z → Z) (m m' : mem) : Prop :=
  (∀ j i, k ≤ j → 0 ≤ i < chunk_len n j → ldb m' (dest j + i) = byte (j * PAGE_SIZE + i))
  ∧ (∀ b, (∀ j, k ≤ j → j * PAGE_SIZE < n → b < dest j ∨ dest j + chunk_len n j ≤ b) → ldb m' b = ldb m b).

Lemma chunks_ok_next data size n k dest : chunks_ok data size n k dest → chunks_ok data size n (k + 1) dest.
Proof. intros [Hb Hd]. split; intros; [apply Hb|apply Hd]; lia. Qed.

Lemma chunks_hold_done n k dest byte m : n ≤ k * PAGE_SIZE → chunks_hold n k dest byte m m.
Proof. intros Hn. split; [|done]. unfold chunk_len, PAGE_SIZE in *. lia. Qed.

(** A chunk, then the others. *)
Lemma chunks_hold_step data size n k dest byte m m1 m' : chunks_ok data size n k dest →
  0 ≤ k → k * PAGE_SIZE < n →
  (∀ i, 0 ≤ i < chunk_len n k → ldb m1 (dest k + i) = byte (k * PAGE_SIZE + i)) →
  (∀ b, b < dest k ∨ dest k + chunk_len n k ≤ b → ldb m1 b = ldb m b) →
  chunks_hold n (k + 1) dest byte m1 m' → chunks_hold n k dest byte m m'.
Proof.
  intros [_ Hdis] Hk Hn Hin Hout [Hrest Hother]. split.
  - intros j i Hj Hi. destruct (Z.eq_dec j k) as [->|]; [|apply Hrest; lia].
    rewrite Hother; [by apply Hin|]. intros j' Hj' Hn'. specialize (Hdis k j' ltac:(lia) Hn'). lia.
  - intros b Hb. rewrite Hother by (intros; apply Hb; lia). apply Hout, Hb; lia.
Qed.

Lemma copy_loop_ok a data size vaddr filesz foff dest : 0 ≤ foff → foff + filesz ≤ size →
  ∀ fuel k f s, let offset := Z.min (k * PAGE_SIZE) filesz in
  tar_file (fd_io s) f data size → f_offset f = foff + offset → 0 ≤ k →
  (∀ j, chunk_dest a vaddr j s = dest j) → chunks_ok data size filesz k dest →
  filesz - k * PAGE_SIZE ≤ PAGE_SIZE * Z.of_nat fuel →
  ∃ m o, copy_loop fuel a f vaddr filesz offset s = Done ((true, set_offset f o), with_io_mem m s)
    ∧ chunks_hold filesz k dest (λ i, ldb (s_mem s) (data + foff + i)) (s_mem s) m.
Proof.
  intros Hfoff Hsize. induction fuel as [|fuel IH]; intros k f s offset Hf Ho Hk Hd Hok Hfuel.
  { exists (s_mem s), (f_offset f). rewrite with_io_mem_id. split; [|apply chunks_hold_done; lia].
    cbn [copy_loop]. unfold copy_turn. destruct (Z.ltb_spec offset filesz); [lia|]. by destruct f. }
  cbn [copy_loop]. unfold copy_turn. destruct (Z.ltb_spec offset filesz) as [Hlt|].
  2:{ exists (s_mem s), (f_offset f). rewrite with_io_mem_id. split; [by destruct f|apply chunks_hold_done; lia]. }
  assert (offset = k * PAGE_SIZE) as Eo by (unfold offset in *; lia).
  replace (if PAGE_SIZE <? filesz - offset then PAGE_SIZE else filesz - offset) with (chunk_len filesz k)
    by (unfold chunk_len; destruct (Z.ltb_spec PAGE_SIZE (filesz - offset)); lia).
  unfold lookup_ap, gets, mbind at 1, M_bind at 1. rewrite Eo.
  change (as_lookup a (u64 (vaddr + k * PAGE_SIZE)) (fd_heap s)) with (chunk_dest a vaddr k s). rewrite Hd.
  assert (0 < chunk_len filesz k) by (unfold chunk_len, PAGE_SIZE in *; lia).
  destruct (read_exact_full f data size (dest k) (chunk_len filesz k) s Hf) as (m & Hr & Hread & Hm);
    [unfold chunk_len, PAGE_SIZE in *; lia..|apply (proj1 Hok); lia|].
  rewrite (bind_Done _ _ _ _ _ Hr). cbn [fst snd]. change (0 <? 0) with false. cbn iota.
  assert (k * PAGE_SIZE + chunk_len filesz k = Z.min ((k + 1) * PAGE_SIZE) filesz) as Enext
    by (unfold chunk_len, PAGE_SIZE in *; lia).
  destruct (IH (k + 1) (set_offset f (f_offset f + chunk_len filesz k)) (with_io_mem m s)) as (m' & o & Hr' & Hhold).
  { by apply tar_file_mem. } { simpl. lia. } { lia. } { exact Hd. } { by apply (chunks_ok_next data size). } { lia. }
  exists m', o. split; [rewrite Enext; exact Hr'|].
  apply (chunks_hold_step data size filesz k dest _ _ m); [done|lia..| |exact Hm|].
  - intros i Hi. rewrite (Hread i Hi). f_equal. lia.
  - destruct Hhold as [Hin Hout]. split; [|exact Hout]. intros j i Hj Hi. rewrite (Hin j i Hj Hi).
    apply (same_bytes_outside data size (dest k) (chunk_len filesz k)); [apply (proj1 Hok); lia|exact Hm|].
    unfold chunk_len, PAGE_SIZE in *. lia.
Qed.
Lemma zero_loop_ok a data size vaddr extra dest : ∀ fuel k s, let offset := Z.min (k * PAGE_SIZE) extra in
  0 ≤ k → (∀ j, chunk_dest a vaddr j s = dest j) → chunks_ok data size extra k dest →
  extra - k * PAGE_SIZE ≤ PAGE_SIZE * Z.of_nat fuel →
  ∃ m, zero_loop fuel a vaddr extra offset s = Done (tt, with_io_mem m s)
    ∧ chunks_hold extra k dest (λ _, 0) (s_mem s) m.
Proof.
  induction fuel as [|fuel IH]; intros k s offset Hk Hd Hok Hfuel.
  { exists (s_mem s). rewrite with_io_mem_id. split; [|apply chunks_hold_done; lia].
    cbn [zero_loop]. unfold zero_turn. by destruct (Z.ltb_spec offset extra); [lia|]. }
  cbn [zero_loop]. unfold zero_turn. destruct (Z.ltb_spec offset extra) as [Hlt|].
  2:{ exists (s_mem s). rewrite with_io_mem_id. split; [done|apply chunks_hold_done; lia]. }
  assert (offset = k * PAGE_SIZE) as Eo by (unfold offset in *; lia).
  replace (if PAGE_SIZE <? extra - offset then PAGE_SIZE else extra - offset) with (chunk_len extra k)
    by (unfold chunk_len; destruct (Z.ltb_spec PAGE_SIZE (extra - offset)); lia).
  unfold lookup_ap, gets, mbind at 1, M_bind at 1. rewrite Eo.
  change (as_lookup a (u64 (vaddr + k * PAGE_SIZE)) (fd_heap s)) with (chunk_dest a vaddr k s). rewrite Hd.
  assert (0 < chunk_len extra k) by (unfold chunk_len, PAGE_SIZE in *; lia).
  pose proof (proj1 Hok k ltac:(lia) ltac:(lia)) as (Hd0 & _ & _).
  set (m := fill_up (Z.to_nat (chunk_len extra k)) 0 (dest k) 0 (s_mem s)).
  assert (io_memset (dest k) (chunk_len extra k) s = Done (tt, with_io_mem m s)) as Hr.
  { unfold io_memset, on_io, zoom. rewrite (memset_Done (dest k)) by lia. reflexivity. }
  assert (∀ b, ldb m b = if decide (dest k ≤ b < dest k + chunk_len extra k) then 0 else ldb (s_mem s) b) as Hm.
  { intros b. unfold m. rewrite ldb_fill_up. repeat case_decide; done || lia. }
  rewrite (bind_Done _ _ _ _ _ Hr).
  assert (k * PAGE_SIZE + chunk_len extra k = Z.min ((k + 1) * PAGE_SIZE) extra) as Enext
    by (unfold chunk_len, PAGE_SIZE in *; lia).
  destruct (IH (k + 1) (with_io_mem m s)) as (m' & Hr' & Hhold);
    [lia|exact Hd|by apply (chunks_ok_next data size)|lia|].
  exists m'. split; [rewrite Enext; exact Hr'|].
  apply (chunks_hold_step data size extra k dest _ _ m); [done|lia..| | |done].
  - intros i Hi. rewrite Hm, decide_True; [done|lia].
  - intros b Hb. rewrite Hm, decide_False; [done|lia].
Qed.
(** [a] maps the pages of [n] bytes at [v]: page [p] to [frame p], seen through the
    direct map; frames meet neither each other nor the file. *)
Definition page_of (v n p : Z) : Prop := v / PAGE_SIZE ≤ p ≤ (v + n - 1) / PAGE_SIZE.
Record mapped (a : address_space) (v n : Z) (frame : Z → Z) (data size : Z) s : Prop := {
  mp_range : 0 ≤ v ∧ v + n < 2 ^ 64;
  mp_lookup : ∀ w, v ≤ w < v + n → as_lookup a w (fd_heap s) = frame (w / PAGE_SIZE) + w mod PAGE_SIZE;
  mp_frame : ∀ p, page_of v n p → buffer_ok data size (frame p) PAGE_SIZE;
  mp_disjoint : ∀ p q, page_of v n p → page_of v n q → p ≠ q →
    frame p + PAGE_SIZE ≤ frame q ∨ frame q + PAGE_SIZE ≤ frame p;
}.

Lemma page_of_sub v n v' n' p : v ≤ v' → v' + n' ≤ v + n → page_of v' n' p → page_of v n p.
Proof.
  unfold page_of, PAGE_SIZE. intros Hv Hn [Hp Hp'].
  pose proof (Z.div_le_mono v v' 4096). pose proof (Z.div_le_mono (v' + n' - 1) (v + n - 1) 4096). lia.
Qed.

Lemma mapped_sub a v n frame data size s v' n' : mapped a v n frame data size s →
  v ≤ v' → v' + n' ≤ v + n → mapped a v' n' frame data size s.
Proof.
  intros [Hr Hl Hf Hd] Hv Hn. pose proof (λ p, page_of_sub v n v' n' p Hv Hn) as Hp. split.
  - lia.
  - intros w Hw. apply Hl. lia.
  - eauto.
  - eauto.
Qed.

(** Chunks that stay inside their page. *)
Definition chunks_fit (v n : Z) : Prop := ∀ j, 0 ≤ j → j * PAGE_SIZE < n → v mod PAGE_SIZE + chunk_len n j ≤ PAGE_SIZE.

Lemma mapped_chunk a v n frame data size s j : mapped a v n frame data size s → 0 ≤ j → j * PAGE_SIZE < n →
  chunk_dest a v j s = frame (v / PAGE_SIZE + j) + v mod PAGE_SIZE.
Proof.
  intros [Hr Hl _ _] Hj Hn. unfold chunk_dest. rewrite u64_small, Hl by (unfold PAGE_SIZE in *; lia).
  by rewrite Z.div_add, Z.mod_add.
Qed.

Lemma chunk_page v n j : chunks_fit v n → 0 ≤ j → j * PAGE_SIZE < n → page_of v n (v / PAGE_SIZE + j).
Proof.
  intros Hfit Hj Hn. specialize (Hfit j Hj Hn). unfold page_of. split; [lia|].
  apply Z.div_le_lower_bound; [done|]. unfold chunk_len, PAGE_SIZE in *.
  pose proof (Z.div_mod v 4096 ltac:(lia)). pose proof (Z.mod_pos_bound v 4096 ltac:(lia)). lia.
Qed.

Lemma mapped_chunks_ok a v n frame data size s : mapped a v n frame data size s → chunks_fit v n →
  chunks_ok data size n 0 (λ j, chunk_dest a v j s).
Proof.
  intros Hm Hfit. pose proof (Z.mod_pos_bound v PAGE_SIZE ltac:(done)) as Hmod. split.
  - intros j Hj Hn. rewrite (mapped_chunk a v n frame data size s j Hm Hj Hn). specialize (Hfit j Hj Hn) as Hf.
    destruct (mp_frame _ _ _ _ _ _ _ Hm _ (chunk_page v n j Hfit Hj Hn)) as (? & ? & ?).
    unfold buffer_ok, chunk_len, PAGE_SIZE in *. lia.
  - intros j j' Hj Hn. 
    rewrite !(mapped_chunk a v n frame data size s) by (done || (unfold PAGE_SIZE in *; lia)).
    assert (j * PAGE_SIZE < n) by (unfold PAGE_SIZE in *; lia).
    pose proof (Hfit j ltac:(lia) ltac:(lia)). pose proof (Hfit j' ltac:(lia) Hn).
    pose proof (mp_disjoint _ _ _ _ _ _ _ Hm _ _ (chunk_page v n j Hfit ltac:(lia) ltac:(lia))
      (chunk_page v n j' Hfit ltac:(lia) Hn) ltac:(lia)). unfold chunk_len, PAGE_SIZE in *. lia.
Qed.

Lemma mapped_byte a v n frame data size s i : mapped a v n frame data size s → chunks_fit v n → 0 ≤ i < n →
  0 ≤ i mod PAGE_SIZE < chunk_len n (i / PAGE_SIZE) ∧
  as_lookup a (v + i) (fd_heap s) = chunk_dest a v (i / PAGE_SIZE) s + i mod PAGE_SIZE.
Proof.
  intros Hm Hfit Hi. pose proof (Z.div_mod i PAGE_SIZE ltac:(done)) as Hdm.
  pose proof (Z.mod_pos_bound i PAGE_SIZE ltac:(done)). pose proof (Z.mod_pos_bound v PAGE_SIZE ltac:(done)).
  assert (0 ≤ i / PAGE_SIZE) by (apply Z.div_pos; [lia|done]).
  assert (0 ≤ i mod PAGE_SIZE < chunk_len n (i / PAGE_SIZE)) as Hin by (unfold chunk_len, PAGE_SIZE in *; lia).
  split; [done|]. rewrite (mapped_chunk a v n frame data size s) by (done || unfold PAGE_SIZE in *; lia).
  rewrite (mp_lookup _ _ _ _ _ _ _ Hm) by lia.
  pose proof (Hfit (i / PAGE_SIZE) ltac:(lia) ltac:(unfold PAGE_SIZE in *; lia)) as Hf.
  assert (v + i = (v / PAGE_SIZE + i / PAGE_SIZE) * PAGE_SIZE + (v mod PAGE_SIZE + i mod PAGE_SIZE)) as ->.
  { pose proof (Z.div_mod v PAGE_SIZE ltac:(done)). lia. }
  rewrite Z.div_add_l, (Z.add_comm (_ * _)), Z.mod_add by done.
  rewrite (Z.div_small (_ + _ mod _)), (Z.mod_small (_ + _)), Z.add_0_r by lia. lia.
Qed.
Lemma mapped_hold a v n frame data size s byte m m' : mapped a v n frame data size s → chunks_fit v n →
  chunks_hold n 0 (λ j, chunk_dest a v j s) byte m m' →
  (∀ i, 0 ≤ i < n → ldb m' (as_lookup a (v + i) (fd_heap s)) = byte i)
  ∧ (∀ b, (∀ i, 0 ≤ i < n → b ≠ as_lookup a (v + i) (fd_heap s)) → ldb m' b = ldb m b).
Proof.
  intros Hm Hfit [Hin Hout]. split.
  - intros i Hi. destruct (mapped_byte a v n frame data size s i Hm Hfit Hi) as [Hc ->].
    rewrite Hin; [|apply Z.div_pos; [lia|done]|done].
    f_equal. pose proof (Z.div_mod i PAGE_SIZE ltac:(done)). lia.
  - intros b Hb. apply Hout. intros j Hj Hn. destruct (decide (chunk_dest a v j s ≤ b < chunk_dest a v j s + chunk_len n j))
      as [Hbad|]; [|lia]. exfalso. 
    set (i := j * PAGE_SIZE + (b - chunk_dest a v j s)).
    assert (0 ≤ i < n) as Hi by (unfold i, chunk_len, PAGE_SIZE in *; lia).
    apply (Hb i Hi). destruct (mapped_byte a v n frame data size s i Hm Hfit Hi) as [_ ->].
    assert (0 ≤ b - chunk_dest a v j s < PAGE_SIZE) by (unfold chunk_len, PAGE_SIZE in *; lia).
    unfold i. rewrite Z.div_add_l, (Z.add_comm (_ * _)), Z.mod_add, (Z.div_small (_ - _)), (Z.mod_small (_ - _)) by done.
    rewrite Z.add_0_r. lia.
Qed.

Lemma aligned_fit v n : v mod PAGE_SIZE = 0 → chunks_fit v n.
Proof. intros Hv j _ _. rewrite Hv. unfold chunk_len. lia. Qed.

Lemma single_fit v n : v mod PAGE_SIZE + n ≤ PAGE_SIZE → chunks_fit v n.
Proof.
  intros Hv j Hj Hn. pose proof (Z.mod_pos_bound v PAGE_SIZE ltac:(done)). unfold chunk_len, PAGE_SIZE in *. lia.
Qed.

Lemma page_steps_enough n : n ≤ PAGE_SIZE * Z.of_nat (page_steps n).
Proof.
  unfold page_steps. pose proof (Z.div_mod n PAGE_SIZE ltac:(done)).
  pose proof (Z.mod_pos_bound n PAGE_SIZE ltac:(done)). unfold PAGE_SIZE in *. lia.
Qed.

Lemma mapped_same_heap a v n frame data size s m : mapped a v n frame data size s →
  mapped a v n frame data size (with_io_mem m s).
Proof. by intros []. Qed.
(** The two loops of a segment, on mapped pages. *)
Lemma copy_mapped a f vaddr filesz data size foff frame s : tar_file (fd_io s) f data size →
  0 ≤ foff → 0 ≤ filesz → foff + filesz ≤ size → mapped a vaddr filesz frame data size s → vaddr mod PAGE_SIZE = 0 →
  ∃ m o, copy_loop (page_steps filesz) a (set_offset f foff) vaddr filesz 0 s
      = Done ((true, set_offset f o), with_io_mem m s)
    ∧ (∀ i, 0 ≤ i < filesz → ldb m (as_lookup a (vaddr + i) (fd_heap s)) = ldb (s_mem s) (data + foff + i))
    ∧ (∀ b, (∀ i, 0 ≤ i < filesz → b ≠ as_lookup a (vaddr + i) (fd_heap s)) → ldb m b = ldb (s_mem s) b).
Proof.
  intros Hf Hfoff Hfz Hin Hm Hal. pose proof (aligned_fit vaddr filesz Hal) as Hfit.
  destruct (copy_loop_ok a data size vaddr filesz foff (λ j, chunk_dest a vaddr j s) Hfoff Hin (page_steps filesz) 0
    (set_offset f foff) s) as (m & o & Hr & Hhold).
  - destruct Hf. by split.
  - simpl. lia.
  - done.
  - done.
  - by apply (mapped_chunks_ok a vaddr filesz frame).
  - pose proof (page_steps_enough filesz). lia.
  - exists m, o. rewrite Z.min_l in Hr by lia. split; [exact Hr|]. by apply (mapped_hold a vaddr filesz frame data size).
Qed.

Lemma zero_mapped a vaddr extra data size frame s : 0 ≤ extra → mapped a vaddr extra frame data size s →
  chunks_fit vaddr extra →
  ∃ m, zero_loop (page_steps extra) a vaddr extra 0 s = Done (tt, with_io_mem m s)
    ∧ (∀ i, 0 ≤ i < extra → ldb m (as_lookup a (vaddr + i) (fd_heap s)) = 0)
    ∧ (∀ b, (∀ i, 0 ≤ i < extra → b ≠ as_lookup a (vaddr + i) (fd_heap s)) → ldb m b = ldb (s_mem s) b).
Proof.
  intros Hex Hm Hfit.
  destruct (zero_loop_ok a data size vaddr extra (λ j, chunk_dest a vaddr j s) (page_steps extra) 0 s) as (m & Hr & Hhold).
  - done.
  - done.
  - by apply (mapped_chunks_ok a vaddr extra frame).
  - pose proof (page_steps_enough extra). lia.
  - exists m. rewrite Z.min_l in Hr by lia. split; [exact Hr|]. by apply (mapped_hold a vaddr extra frame data size).
Qed.

(** Different addresses of a mapped range are different bytes of memory. *)
Lemma mapped_inj a v n frame data size s i j : mapped a v n frame data size s → 0 ≤ i < n → 0 ≤ j < n → i ≠ j →
  as_lookup a (v + i) (fd_heap s) ≠ as_lookup a (v + j) (fd_heap s).
Proof.
  intros Hm Hi Hj Hne. rewrite !(mp_lookup _ _ _ _ _ _ _ Hm) by lia.
  pose proof (Z.div_mod (v + i) PAGE_SIZE ltac:(done)). pose proof (Z.div_mod (v + j) PAGE_SIZE ltac:(done)).
  pose proof (Z.mod_pos_bound (v + i) PAGE_SIZE ltac:(done)). pose proof (Z.mod_pos_bound (v + j) PAGE_SIZE ltac:(done)).
  destruct (Z.eq_dec ((v + i) / PAGE_SIZE) ((v + j) / PAGE_SIZE)) as [E|Hp]; [rewrite E in *; lia|].
  assert (∀ k, 0 ≤ k < n → page_of v n ((v + k) / PAGE_SIZE)) as Hpg.
  { intros k Hk. split; apply Z.div_le_mono; done || lia. }
  pose proof (mp_disjoint _ _ _ _ _ _ _ Hm _ _ (Hpg i Hi) (Hpg j Hj) Hp). lia.
Qed.

Lemma elf_read_info_ok f data size s : tar_file (fd_io s) f data size → frame_ok data size →
  ldn 8 (s_mem s) (data + 32) + ldn 2 (s_mem s) (data + 56) * 56 < 2 ^ 64 →
  answers data size f s (spec_info (s_mem s) data size) (elf_read_info f s).
Proof.
  intros Hf Hfr Hw. rewrite <- info_result_spec. unfold elf_read_info, info_result. set (h := header_at (s_mem s) data).
  change (e_phoff h + e_phnum h * sizeof_elf_phdr < 2 ^ 64) in Hw.
  destruct (read_elf_header_spec f data size s Hf Hfr) as (m & o & Hr & Hm). fold h in Hr.
  rewrite (bind_Done _ _ _ _ _ Hr). clear Hr. cbn [fst snd].
  destruct ((size <? sizeof_elf_header) || negb (valid_header h)) eqn:Hv; [by exists m, o|].
  apply orb_false_elim in Hv as [_ Hv]. apply negb_false_iff in Hv.
  assert (e_phentsize h = sizeof_elf_phdr) as He.
  { unfold valid_header in Hv. apply andb_prop in Hv as [_ Hv]. by apply Z.eqb_eq in Hv. }
  assert (0 ≤ e_phoff h) as Ho by apply ldn_range.
  destruct (scan_phdrs_spec h data size (seqZ 0 (e_phnum h)) Hfr He Ho) with (f := set_offset f o)
    (s := with_io_mem m s) as (m' & o' & Hr & Hm').
  { apply Forall_seqZ. unfold sizeof_elf_phdr in *. lia. } { by apply tar_file_mem. }
  rewrite (bind_Done _ _ _ _ _ Hr). cbn [fst snd].
  change (s_mem (with_io_mem m s)) with m in *.
  rewrite (scan_result_same (s_mem s) m data size) by (done || (apply Forall_seqZ; lia)).
  assert (same_bytes data size (s_mem s) m') by (intros b Hb; rewrite Hm', Hm; done).
  clear Hr. destruct (scan_result (s_mem s) data size h (seqZ 0 (e_phnum h))) as [v|]; by exists m', o'.
Qed.

(** C24: elf_read_info answers what [spec_info] reads off the bytes of the file with the
    offsets and values of the ELF-64 format. It accepts exactly the files of at least
    64 bytes that start as an x86-64 little-endian ELF of version 1 with 56-byte program
    headers, none of whose program headers that it looks at lies past the end of the
    file; it answers their entry point, the number and size of the program headers and
    the address of their table in memory, from the first PT_LOAD segment that has it
    or starts at offset 0 (0 when none does); the bytes of the file stay as they are. *)
Theorem elf_read_info_spec f data size s : tar_file (fd_io s) f data size → frame_ok data size →
  ldn 8 (s_mem s) (data + 32) + ldn 2 (s_mem s) (data + 56) * 56 < 2 ^ 64 →
  answers data size f s (spec_info (s_mem s) data size) (elf_read_info f s).
Proof. apply elf_read_info_ok. Qed.

(** On mapped pages, a segment whose zeroed part is written inside its pages. *)
Lemma fill_segment_fits a f ph data size frame s : tar_file (fd_io s) f data size →
  0 ≤ ph_offset ph → 0 ≤ ph_filesz ph ≤ ph_memsz ph → ph_offset ph + ph_filesz ph ≤ size →
  mapped a (ph_vaddr ph) (ph_memsz ph) frame data size s → ph_vaddr ph mod PAGE_SIZE = 0 →
  chunks_fit (ph_vaddr ph + ph_filesz ph) (ph_memsz ph - ph_filesz ph) →
  ∃ m o, fill_segment a f ph s = Done ((true, set_offset f o), with_io_mem m s)
    ∧ (∀ i, 0 ≤ i < ph_memsz ph → ldb m (as_lookup a (ph_vaddr ph + i) (fd_heap s))
        = if i <? ph_filesz ph then ldb (s_mem s) (data + ph_offset ph + i) else 0)
    ∧ (∀ b, (∀ i, 0 ≤ i < ph_memsz ph → b ≠ as_lookup a (ph_vaddr ph + i) (fd_heap s)) → ldb m b = ldb (s_mem s) b).
Proof.
  intros Hf Hoff Hsz Hin Hm Hal Hfit. unfold fill_segment.
  pose proof (mp_range _ _ _ _ _ _ _ Hm) as Hrange.
  destruct (copy_mapped a f (ph_vaddr ph) (ph_filesz ph) data size (ph_offset ph) frame s)
    as (m & o & Hr & Hcopy & Hother); [done|lia..|eapply mapped_sub; [done|lia..]|done|].
  rewrite (bind_Done _ _ _ _ _ Hr). clear Hr. cbn [fst snd negb].
  destruct (Z.ltb_spec (ph_filesz ph) (ph_memsz ph)) as [Hlt|].
  - rewrite u64_small by lia.
    destruct (zero_mapped a (ph_vaddr ph + ph_filesz ph) (ph_memsz ph - ph_filesz ph) data size frame
      (with_io_mem m s)) as (m' & Hr & Hzero & Hother');
      [lia|apply mapped_same_heap; eapply mapped_sub; [done|lia..]|done|].
    rewrite (bind_Done _ _ _ _ _ Hr). exists m', o. split; [done|]. cbn [fd_heap with_io_mem] in *. split.
    + intros i Hi. destruct (Z.ltb_spec i (ph_filesz ph)).
      * rewrite Hother', <- Hcopy; [done|lia|]. intros j Hj. rewrite <- Z.add_assoc.
        apply (mapped_inj a (ph_vaddr ph) (ph_memsz ph) frame data size s); [done|lia..].
      * rewrite <- (Hzero (i - ph_filesz ph)) by lia. do 2 f_equal. lia.
    + intros b Hb. rewrite Hother'; [apply Hother; intros; apply Hb; lia|].
      intros i Hi. rewrite <- Z.add_assoc. apply Hb. lia.
  - exists m, o. split; [done|]. split.
    + intros i Hi. destruct (Z.ltb_spec i (ph_filesz ph)); [|lia]. apply Hcopy. lia.
    + intros b Hb. apply Hother. intros i Hi. apply Hb. lia.
Qed.

(** Any segment, by the runs of bytes that are zeroed. *)
Lemma fill_segment_runs a f ph data size frame s : tar_file (fd_io s) f data size →
  0 ≤ ph_offset ph → 0 ≤ ph_filesz ph < ph_memsz ph → ph_offset ph + ph_filesz ph ≤ size →
  mapped a (ph_vaddr ph) (ph_memsz ph) frame data size s → ph_vaddr ph mod PAGE_SIZE = 0 →
  let extra := ph_memsz ph - ph_filesz ph in
  let run j := chunk_dest a (ph_vaddr ph + ph_filesz ph) j s in
  chunks_ok data size extra 0 run →
  ∃ m1 m o, fill_segment a f ph s = Done ((true, set_offset f o), with_io_mem m s)
    ∧ (∀ i, 0 ≤ i < ph_filesz ph → ldb m1 (as_lookup a (ph_vaddr ph + i) (fd_heap s)) = ldb (s_mem s) (data + ph_offset ph + i))
    ∧ (∀ b, (∀ i, 0 ≤ i < ph_filesz ph → b ≠ as_lookup a (ph_vaddr ph + i) (fd_heap s)) → ldb m1 b = ldb (s_mem s) b)
    ∧ chunks_hold extra 0 run (λ _, 0) m1 m.
Proof.
  intros Hf Hoff Hsz Hin Hm Hal extra run Hok. unfold fill_segment.
  pose proof (mp_range _ _ _ _ _ _ _ Hm) as Hrange.
  destruct (copy_mapped a f (ph_vaddr ph) (ph_filesz ph) data size (ph_offset ph) frame s)
    as (m1 & o & Hr & Hcopy & Hother); [done|lia..|eapply mapped_sub; [done|lia..]|done|].
  rewrite (bind_Done _ _ _ _ _ Hr). clear Hr. cbn [fst snd negb].
  destruct (Z.ltb_spec (ph_filesz ph) (ph_memsz ph)) as [Hlt|]; [|lia]. rewrite u64_small by lia.
  destruct (zero_loop_ok a data size (ph_vaddr ph + ph_filesz ph) extra run (page_steps extra) 0 (with_io_mem m1 s))
    as (m & Hr & Hhold); [done|done|exact Hok|pose proof (page_steps_enough extra); lia|].
  rewrite Z.min_l in Hr by (unfold extra; lia). fold extra. rewrite (bind_Done _ _ _ _ _ Hr).
  by exists m1, m, o.
Qed.

(** C23: on pages the address space maps, the last part of the loop of
    elf_load_into_address_space completes for a segment that starts at a page. When the
    zeroed tail starts at a page, or ends in the page it starts in, the segment's memory
    is its bytes in the file followed by zeros, and no other byte changes. Otherwise
    the tail is zeroed a page's worth at a time from addresses inside a page: each
    such run of bytes of the direct map (they must meet neither each other nor the
    file) is zero; past the end of the
    first frame it lies in the physical page that follows, whatever that is used
    for; outside the runs the segment has its bytes of the file, and every other
    byte, those of the segment's next pages that no run meets included, is as it
    was. *)
Theorem fill_segment_spec a f ph data size frame s : tar_file (fd_io s) f data size →
  0 ≤ ph_offset ph → 0 ≤ ph_filesz ph ≤ ph_memsz ph → ph_offset ph + ph_filesz ph ≤ size →
  mapped a (ph_vaddr ph) (ph_memsz ph) frame data size s → ph_vaddr ph mod PAGE_SIZE = 0 →
  let tail := ph_vaddr ph + ph_filesz ph in
  let extra := ph_memsz ph - ph_filesz ph in
  let run j := as_lookup a (u64 (tail + j * PAGE_SIZE)) (fd_heap s) in
  let in_run b := ∃ j, 0 ≤ j ∧ j * PAGE_SIZE < extra ∧ run j ≤ b < run j + Z.min PAGE_SIZE (extra - j * PAGE_SIZE) in
  (tail mod PAGE_SIZE = 0 ∨ tail mod PAGE_SIZE + extra ≤ PAGE_SIZE →
    ∃ m o, fill_segment a f ph s = Done ((true, set_offset f o), with_io_mem m s)
      ∧ (∀ i, 0 ≤ i < ph_memsz ph → ldb m (as_lookup a (ph_vaddr ph + i) (fd_heap s))
          = if i <? ph_filesz ph then ldb (s_mem s) (data + ph_offset ph + i) else 0)
      ∧ (∀ b, (∀ i, 0 ≤ i < ph_memsz ph → b ≠ as_lookup a (ph_vaddr ph + i) (fd_heap s)) → ldb m b = ldb (s_mem s) b))
  ∧ (tail mod PAGE_SIZE ≠ 0 → PAGE_SIZE < tail mod PAGE_SIZE + extra → chunks_ok data size extra 0 run →
    ∃ m o, fill_segment a f ph s = Done ((true, set_offset f o), with_io_mem m s)
      ∧ (∀ b, in_run b → ldb m b = 0)
      ∧ (∀ k, 0 ≤ k < tail mod PAGE_SIZE → k < tail mod PAGE_SIZE + extra - PAGE_SIZE →
          in_run (frame (tail / PAGE_SIZE) + PAGE_SIZE + k))
      ∧ (∀ b, ¬ in_run b → ∀ i, 0 ≤ i < ph_filesz ph → b = as_lookup a (ph_vaddr ph + i) (fd_heap s) →
          ldb m b = ldb (s_mem s) (data + ph_offset ph + i))
      ∧ (∀ b, ¬ in_run b → (∀ i, 0 ≤ i < ph_filesz ph → b ≠ as_lookup a (ph_vaddr ph + i) (fd_heap s)) →
          ldb m b = ldb (s_mem s) b)).
Proof.
  intros Hf Hoff Hsz Hin Hm Hal tail extra run in_run. split.
  - intros Hfit. apply (fill_segment_fits a f ph data size frame s); try done.
    destruct Hfit as [?|?]; [by apply aligned_fit|by apply single_fit].
  - intros Hmod Hcross Hok.
    assert (0 < extra) by (pose proof (Z.mod_pos_bound tail PAGE_SIZE ltac:(done)); lia).
    destruct (fill_segment_runs a f ph data size frame s Hf Hoff ltac:(unfold extra in *; lia) Hin Hm Hal Hok)
      as (m1 & m & o & Hr & Hcopy & Hother & Hzero & Hrest).
    assert (∀ b, ¬ in_run b → ldb m b = ldb m1 b) as Hout.
    { intros b Hb. apply Hrest. intros j Hj Hn. unfold chunk_dest, chunk_len.
      destruct (decide (run j ≤ b < run j + Z.min PAGE_SIZE (extra - j * PAGE_SIZE))); [|unfold run, tail in *; lia].
      exfalso. apply Hb. by exists j. }
    exists m, o. split; [exact Hr|]. split; [|split; [|split]].
    + intros b (j & Hj & _ & Hb). replace b with (run j + (b - run j)) by lia.
      apply (Hzero j (b - run j) Hj). unfold chunk_len. fold extra. lia.
    + intros k Hk Hkx. pose proof (Z.mod_pos_bound tail PAGE_SIZE ltac:(done)).
      exists 0. split; [done|]. split; [lia|]. rewrite !Z.mul_0_l, Z.sub_0_r.
      assert (run 0 = frame (tail / PAGE_SIZE) + tail mod PAGE_SIZE) as ->; [|lia].
      pose proof (mp_range _ _ _ _ _ _ _ Hm). unfold run. rewrite Z.mul_0_l, Z.add_0_r.
      rewrite u64_small by (unfold tail in *; lia). apply (mp_lookup _ _ _ _ _ _ _ Hm). unfold tail, extra in *. lia.
    + intros b Hb i Hi ->. rewrite (Hout _ Hb). by apply Hcopy.
    + intros b Hb Hi. rewrite (Hout _ Hb). by apply Hother.
Qed.

(** Where the zeroed part of a segment starts inside a page and is longer than
    the rest of it, the loop zeroes a page's worth of bytes from there through the
    direct map: past the end of the frame it writes zeros over whatever the next
    physical page holds, in whichever address space, and not over the segment's
    next page. *)
Theorem bss_zero_crosses a vaddr extra data size p s i :
  0 ≤ vaddr → vaddr + extra < 2 ^ 64 → PAGE_SIZE < vaddr mod PAGE_SIZE + extra → vaddr mod PAGE_SIZE ≠ 0 →
  as_lookup a vaddr (fd_heap s) = p + vaddr mod PAGE_SIZE →
  chunks_ok data size extra 0 (λ j, chunk_dest a vaddr j s) →
  0 ≤ i < vaddr mod PAGE_SIZE → vaddr mod PAGE_SIZE + extra - PAGE_SIZE > i →
  ∃ m, zero_loop (page_steps extra) a vaddr extra 0 s = Done (tt, with_io_mem m s)
    ∧ ldb m (p + PAGE_SIZE + i) = 0.
Proof.
  intros Hv Hw Hcross Hmod Hl Hok Hi Hex. pose proof (Z.mod_pos_bound vaddr PAGE_SIZE ltac:(done)).
  destruct (zero_loop_ok a data size vaddr extra (λ j, chunk_dest a vaddr j s) (page_steps extra) 0 s) as (m & Hr & Hin & _);
    [done|done|done|pose proof (page_steps_enough extra); lia|].
  rewrite Z.min_l in Hr by lia. exists m. split; [exact Hr|].
  assert (chunk_dest a vaddr 0 s = p + vaddr mod PAGE_SIZE) as Hd.
  { unfold chunk_dest. rewrite Z.mul_0_l, Z.add_0_r, u64_small by lia. exact Hl. }
  specialize (Hin 0 (PAGE_SIZE + i - vaddr mod PAGE_SIZE) ltac:(lia)). cbv beta in Hin. rewrite Hd in Hin.
  rewrite <- Hin by (unfold chunk_len; lia). f_equal. lia.
Qed.
End elf_spec.

(** ** Concrete instances *)

Module ElfWitness.
Import DemoObjects VfsWitness TermWitness FdWitness VmaWitness.

#[export] Instance demo_frame : ElfFrame := {| header_buf := 0x8000; ph_buf := 0x8040 |}.

(** The frames of consecutive pages are 16 KiB apart. *)
Definition frame_of (p : Z) : Z := 0x10000000 + (p - 0x400) * 0x4000.
#[export] Instance demo_spaces : AddrSpaces bump := {|
  as_free_page _ h := Done (tt, h);
  as_lookup _ w _ := frame_of (w / PAGE_SIZE) + w mod PAGE_SIZE;
  as_create h := Done (mk_as 0 0, h);
  as_destroy _ h := Done (tt, h);
|}.

(** A file of a header and one program header, which loads the whole of it at
    0x400000 and has 80 bytes of bss. *)
Definition demo_ph : elf_phdr := mk_phdr 1 5 0 0x400000 120 200.
Definition demo_image : list Z :=
  [0x7F; 69; 76; 70; 2; 1; 1; 0] ++ replicate 8 0 ++ [2; 0; 62; 0; 1; 0; 0; 0]
  ++ [0x78; 0; 0x40; 0; 0; 0; 0; 0] ++ [64; 0; 0; 0; 0; 0; 0; 0] ++ replicate 12 0 ++ [64; 0; 56; 0; 1; 0]
  ++ replicate 6 0
  ++ [1; 0; 0; 0; 5; 0; 0; 0] ++ replicate 8 0 ++ [0; 0; 0x40; 0; 0; 0; 0; 0] ++ replicate 8 0
  ++ [120; 0; 0; 0; 0; 0; 0; 0] ++ [200; 0; 0; 0; 0; 0; 0; 0] ++ replicate 8 0.
Fixpoint place (bs : list Z) (a : Z) (m : mem) : mem :=
  match bs with [] => m | b :: bs' => stb a b (place bs' (a + 1) m) end.

Definition elf_fs : fs_state := mk_fs
  (mk_vnode "bin/init" 120 (Some tar_ops) (IData 0x30000) :: replicate 63 vnode_zero)
  (mk_vnode "/" 0 None (IChildren TarChildren)) (slots [TarNode 0]) [] vnode_zero (slots [])
  (Some ("tarfs"%string, TarRoot)).
Definition elf_s : fd_state bump := mk_fd _ (mk_bump 4096)
  (mk_kio elf_fs (place demo_image 0x30000 ∅) None (mk_term false 0 [])) ∅ ∅ 1024 (null_table 32) 32 ∅.
Definition elf_f : file := mk_file (TarNode 0) 0 1 0.
Definition demo_as : address_space := mk_as 0 0.

Lemma elf_f_tar : tar_file (fd_io elf_s) elf_f 0x30000 120.
Proof. split; [by eexists|lia..]. Qed.

Lemma elf_read_info_spec_witness :
  answers 0x30000 120 elf_f elf_s (Some (mk_info 0x400078 0 0x400040 1 56)) (elf_read_info elf_f elf_s).
Proof.
  assert (spec_info (s_mem elf_s) 0x30000 120 = Some (mk_info 0x400078 0 0x400040 1 56)) as <- by (vm_compute; reflexivity).
  apply elf_read_info_spec.
  - apply elf_f_tar.
  - unfold frame_ok, buffer_ok, sizeof_elf_header, sizeof_elf_phdr. simpl. lia.
  - vm_compute. reflexivity.
Defined.

Lemma demo_mapped : mapped demo_as 0x400000 200 frame_of 0x30000 120 elf_s.
Proof.
  assert (∀ p, page_of 0x400000 200 p → p = 0x400) as Hp.
  { intros p [Hp Hp']. change (0x400 ≤ p) in Hp. change (p ≤ 0x400) in Hp'. lia. }
  split; [lia|done| |].
  - intros p ->%Hp. unfold buffer_ok, frame_of, PAGE_SIZE. lia.
  - intros p q ->%Hp ->%Hp. done.
Qed.

(** The same segment with a page more of bss, which starts inside the first page. *)
Definition cross_ph : elf_phdr := mk_phdr 1 5 0 0x400000 120 (120 + 0x1000).

Lemma cross_mapped : mapped demo_as 0x400000 (120 + 0x1000) frame_of 0x30000 120 elf_s.
Proof.
  assert (∀ p, page_of 0x400000 (120 + 0x1000) p → 0x400 ≤ p ≤ 0x401) as Hp.
  { intros p [Hp Hp']. change (0x400 ≤ p) in Hp. change (p ≤ 0x401) in Hp'. lia. }
  split; [lia|done| |].
  - intros p ?%Hp. unfold buffer_ok, frame_of, PAGE_SIZE. lia.
  - intros p q ?%Hp ?%Hp. unfold frame_of, PAGE_SIZE. lia.
Qed.

Lemma fill_segment_spec_witness :
  (∃ m o, fill_segment demo_as elf_f demo_ph elf_s = Done ((true, set_offset elf_f o), with_io_mem m elf_s)
    ∧ ldb m (0x10000000 + 24) = 0x78 ∧ ldb m (0x10000000 + 199) = 0)
  ∧ (∃ m o, fill_segment demo_as elf_f cross_ph elf_s = Done ((true, set_offset elf_f o), with_io_mem m elf_s)
    ∧ ldb m (0x10000000 + 24) = 0x78 ∧ ldb m (0x10000000 + PAGE_SIZE + 3) = 0
    ∧ ldb m (0x10000000 + 0x4000 + 3) = ldb (s_mem elf_s) (0x10000000 + 0x4000 + 3)).
Proof.
  split.
  - destruct (fill_segment_spec demo_as elf_f demo_ph 0x30000 120 frame_of elf_s elf_f_tar ltac:(done)
      ltac:(simpl; lia) ltac:(simpl; lia) demo_mapped eq_refl) as [Hfill _].
    destruct Hfill as (m & o & Hr & Hb & _).
    + right. vm_compute. discriminate.
    + exists m, o. split; [exact Hr|]. split.
      * apply (Hb 24). simpl. lia.
      * apply (Hb 199). simpl. lia.
  - destruct (fill_segment_spec demo_as elf_f cross_ph 0x30000 120 frame_of elf_s elf_f_tar ltac:(done)
      ltac:(simpl; lia) ltac:(simpl; lia) cross_mapped eq_refl) as [_ Hfill].
    assert (∀ j, 0 ≤ j → j * 4096 < 4096 → j = 0) as Hj0 by lia.
    destruct Hfill as (m & o & Hr & Hzero & Hcross & Hfile & Hother).
    + vm_compute. discriminate.
    + vm_compute. reflexivity.
    + split; [|intros j j' ? Hn; change (j' * 4096 < 4096) in Hn; lia].
      intros j Hj Hn. rewrite (Hj0 j Hj Hn). vm_compute. repeat split; try reflexivity. right. discriminate.
    + exists m, o. split; [exact Hr|]. split; [|split].
      * apply (Hfile (0x10000000 + 24)) with (i := 24); [|simpl; lia|reflexivity].
        intros (j & Hj & Hn & Hb & _). rewrite (Hj0 j Hj Hn) in Hb. vm_compute in Hb. by apply Hb.
      * apply Hzero, Hcross; vm_compute; [split; [discriminate|reflexivity]|reflexivity].
      * apply Hother.
        -- intros (j & Hj & Hn & _ & Hb). rewrite (Hj0 j Hj Hn) in Hb. vm_compute in Hb. discriminate Hb.
        -- intros i Hi. change (0 ≤ i < 120) in Hi.
           rewrite (mp_lookup _ _ _ _ _ _ _ cross_mapped) by (simpl; lia). cbn [ph_vaddr cross_ph].
           rewrite <- (Z.mod_unique (0x400000 + i) PAGE_SIZE 0x400 i), <- (Z.div_unique (0x400000 + i) PAGE_SIZE 0x400 i)
             by (unfold PAGE_SIZE; lia).
           unfold frame_of. lia.
Defined.

Lemma bss_zero_crosses_witness :
  ∃ m, zero_loop (page_steps 0x20) demo_as 0x400FF0 0x20 0 elf_s = Done (tt, with_io_mem m elf_s)
    ∧ ldb m (0x10000000 + PAGE_SIZE + 3) = 0.
Proof.
  apply (bss_zero_crosses demo_as 0x400FF0 0x20 0x30000 120 0x10000000 elf_s 3).
  - lia.
  - lia.
  - vm_compute. reflexivity.
  - vm_compute. discriminate.
  - vm_compute. reflexivity.
  - unfold chunks_ok, chunk_len, PAGE_SIZE, buffer_ok. split; [|lia].
    intros j Hj Hn. assert (j = 0) as -> by lia. vm_compute. repeat split; try reflexivity. right. discriminate.
  - vm_compute. split; [discriminate|reflexivity].
  - vm_compute. reflexivity.
Defined.
End ElfWitness.
