(* ===== verification/Stack.v ===== *)
(** * The initial stack of a process: headers/scheduler/process_stack.h and
    setup_process_stack of src/scheduler/process.c

    The stack is written through the page tables of the process: a store goes to
    the frame [as_lookup] gives for its address. [shows] relates what the address
    space shows of a range to a flat memory, on which the pushes are those of
    Words.v; [initial_stack] says what a program finds there. *)
From S2P Require Import Prelude CMem Words Phys Vmm Heap CString Term Vfs Fd Vma Elf.

Definition AT_NULL : Z := 0.
Definition AT_PHDR : Z := 3.
Definition AT_PHENT : Z := 4.
Definition AT_PHNUM : Z := 5.
Definition AT_PAGESZ : Z := 6.
Definition AT_ENTRY : Z := 9.
Definition AT_RANDOM : Z := 25.
Definition AT_EXECFN : Z := 31.

Definition process_default_env : list string :=
  ["PATH=/bin:/usr/bin:/usr/local/bin"; "HOME=/"; "PWD=/"; "TERM=linux"; "USER=root"]%string.

(** The bytes of a C string. *)
Fixpoint string_bytes (s : string) : list Z :=
  match s with
  | EmptyString => [0]
  | String c s' => code c :: string_bytes s'
  end.

Definition xorshift (rnd : Z) : Z :=
  let rnd := Z.lxor rnd (u64 (Z.shiftl rnd 13)) in
  let rnd := Z.lxor rnd (Z.shiftr rnd 7) in
  Z.lxor rnd (u64 (Z.shiftl rnd 17)).
Definition first_random (uptime pid entry top : Z) : Z :=
  let seed := Z.lxor (Z.lxor (Z.lxor uptime pid) entry) top in
  if seed =? 0 then 0xdeadbeefcafebabe else seed.

Section user_stack.
Context `{OH : ObjectHeap H} `{AS : !AddrSpaces H}.
Abbreviation S := (fd_state H).

(** A store of a byte to address [v] of address space [a], which is loaded. *)
Definition ustore (a : address_space) (v b : Z) : M S unit := λ s,
  let d := as_lookup a v (fd_heap s) in
  if d =? 0 then Undef "page fault in the kernel"
  else Done (tt, with_io_mem (stb d b (s_mem s)) s).
Fixpoint ustoren (n : nat) (a : address_space) (v w : Z) : M S unit :=
  match n with
  | O => mret tt
  | Datatypes.S k => _ ← ustore a v w; ustoren k a (v + 1) (w / 256)
  end.
Fixpoint ustore_bytes (a : address_space) (v : Z) (bs : list Z) : M S unit :=
  match bs with
  | [] => mret tt
  | b :: bs' => _ ← ustore a v b; ustore_bytes a (v + 1) bs'
  end.

(** The stack pointer is passed and returned. *)
Definition push_u64 (a : address_space) (sp value : Z) : M S Z :=
  let sp := u64 (sp - 8) in
  _ ← ustoren 8 a sp value;
  mret sp.
Fixpoint push_all (a : address_space) (vs : list Z) (sp : Z) : M S Z :=
  match vs with
  | [] => mret sp
  | v :: vs' => sp ← push_u64 a sp v; push_all a vs' sp
  end.
Definition push_auxv (l : list (Z * Z)) : list Z := flat_map (λ x, [x.2; x.1]) l.

Definition push_string (a : address_space) (sp : Z) (str : string) : M S Z :=
  let bytes := u64 (sp - (Z.of_nat (String.length str) + 1)) in
  _ ← ustore_bytes a bytes (string_bytes str);
  mret bytes.

(** The pointers, and the stack pointer. *)
Fixpoint push_default_env_strings (a : address_space) (sp : Z) (env : list string) : M S (list Z * Z) :=
  match env with
  | [] => mret ([], sp)
  | str :: env' =>
      p ← push_string a sp str;
      r ← push_default_env_strings a p env';
      mret (p :: r.1, r.2)
  end.

(** The entries of the auxiliary vector in the order they are pushed. *)
Definition auxv_pushes (info : elf_info) (entry prog random : Z) : list (Z * Z) :=
  [(AT_NULL, 0); (AT_EXECFN, prog); (AT_RANDOM, random); (AT_ENTRY, entry); (AT_PAGESZ, PAGE_SIZE);
   (AT_PHNUM, i_phnum info); (AT_PHENT, i_phentsize info); (AT_PHDR, i_phdr info)].

(** setup_process_stack between the two changes of CR3, from [stack_top] on. *)
Definition fill_process_stack (a : address_space) (filename : string) (info : elf_info)
    (uptime pid entry stack_top : Z) : M S Z :=
  prog_name_ptr ← push_string a stack_top filename;
  r ← push_default_env_strings a prog_name_ptr process_default_env;
  let env_ptrs := r.1 in
  let sp := Z.land r.2 (u64 (Z.lnot 0xF)) in
  sp ← push_all a [0; 0] sp;
  let random_ptr := sp in
  let rnd := xorshift (first_random uptime pid entry stack_top) in
  _ ← ustoren 8 a random_ptr rnd;
  _ ← ustoren 8 a (random_ptr + 8) (xorshift rnd);
  sp ← push_all a (push_auxv (auxv_pushes info entry prog_name_ptr random_ptr)) sp;
  let remaining_pointer_pushes := 4 + Z.of_nat (length env_ptrs) in
  sp ← push_all a (if Z.odd remaining_pointer_pushes then [0] else []) sp;
  sp ← push_all a [0] sp;
  sp ← push_all a (reverse env_ptrs) sp;
  sp ← push_all a [0; prog_name_ptr] sp;
  push_all a [1] sp.
End user_stack.

(** ** Specification of the initial stack *)

Section stack_spec.
Context `{OH : ObjectHeap H} `{AS : !AddrSpaces H}.
Abbreviation S := (fd_state H).
Implicit Types (s : S).

(** [fm] is what address space [a] shows of [n] bytes from [lo]. *)
Definition shows (a : address_space) (lo n : Z) s (fm : mem) : Prop :=
  ∀ v, lo ≤ v < lo + n → ldb (s_mem s) (as_lookup a v (fd_heap s)) = ldb fm v.

(** A run that only writes the range of [a]: its result, the flat memory after it,
    and nothing else of memory changed. *)
Definition writes {A} (a : address_space) (lo n : Z) s (r : outcome (A * S)) (x : A) (fm' : mem) : Prop :=
  ∃ m, r = Done (x, with_io_mem m s) ∧ shows a lo n (with_io_mem m s) fm'
    ∧ (∀ b, (∀ v, lo ≤ v < lo + n → b ≠ as_lookup a v (fd_heap s)) → ldb m b = ldb (s_mem s) b).

Context (a : address_space) (lo n : Z) (frame : Z → Z).
Definition stack_mapped s : Prop := mapped a lo n frame 0 0 s.

Lemma writes_ret {A} s fm (x : A) : shows a lo n s fm → writes a lo n s ((mret x : M S A) s) x fm.
Proof. intros Hs. exists (s_mem s). by rewrite with_io_mem_id. Qed.

Lemma writes_bind {A B} s (m : M S A) (k : A → M S B) x y fm fm' : writes a lo n s (m s) x fm →
  (∀ m1, shows a lo n (with_io_mem m1 s) fm → writes a lo n (with_io_mem m1 s) (k x (with_io_mem m1 s)) y fm') →
  writes a lo n s ((m ≫= k) s) y fm'.
Proof.
  intros (m1 & Hr & Hs & Hm) Hk. destruct (Hk m1 Hs) as (m2 & Hr2 & Hs2 & Hm2).
  exists m2. split; [by rewrite (bind_Done _ _ _ _ _ Hr)|]. split; [done|].
  intros b Hb. rewrite Hm2 by exact Hb. by apply Hm.
Qed.

Lemma stack_lookup s v : stack_mapped s → lo ≤ v < lo + n → as_lookup a v (fd_heap s) ≠ 0.
Proof.
  intros Hm Hv. rewrite (mp_lookup _ _ _ _ _ _ _ Hm) by done.
  destruct (mp_frame _ _ _ _ _ _ _ Hm (v / PAGE_SIZE)) as (? & _).
  { split; apply Z.div_le_mono; done || lia. }
  pose proof (Z.mod_pos_bound v PAGE_SIZE ltac:(done)). lia.
Qed.

Lemma ustore_ok s fm v b : stack_mapped s → shows a lo n s fm → lo ≤ v < lo + n →
  writes a lo n s (ustore a v b s) tt (stb v b fm).
Proof.
  intros Hm Hs Hv. unfold ustore. destruct (Z.eqb_spec (as_lookup a v (fd_heap s)) 0) as [E|_].
  { by destruct (stack_lookup s v Hm Hv). }
  eexists. split; [reflexivity|]. split.
  - intros w Hw. change (ldb (stb (as_lookup a v (fd_heap s)) b (s_mem s)) (as_lookup a w (fd_heap s)) = ldb (stb v b fm) w).
    rewrite !ldb_stb. destruct (decide (w = v)) as [->|Hne].
    + by rewrite !decide_True.
    + rewrite !decide_False; [by apply Hs|done|].
      replace w with (lo + (w - lo)) by lia. replace v with (lo + (v - lo)) by lia.
      apply (mapped_inj a lo n frame 0 0 s); [done|lia..].
  - intros c Hc. rewrite ldb_stb, decide_False; [done|]. intros E. by apply (Hc v Hv).
Qed.

Lemma stack_mapped_io s m : stack_mapped s → stack_mapped (with_io_mem m s).
Proof. apply mapped_same_heap. Qed.

Lemma ustoren_ok k : ∀ s fm v w, stack_mapped s → shows a lo n s fm → lo ≤ v → v + Z.of_nat k ≤ lo + n →
  writes a lo n s (ustoren k a v w s) tt (stn k v w fm).
Proof.
  induction k as [|k IH]; intros s fm v w Hm Hs Hlo Hhi; [by apply writes_ret|].
  change (stn (Datatypes.S k) v w fm) with (stn k (v + 1) (w / 256) (stb v w fm)). cbn [ustoren].
  eapply writes_bind; [apply ustore_ok; [done..|lia]|]. intros m Hs'. apply IH; [by apply stack_mapped_io|done|lia..].
Qed.

Fixpoint store_bytes (v : Z) (bs : list Z) (m : mem) : mem :=
  match bs with [] => m | b :: bs' => store_bytes (v + 1) bs' (stb v b m) end.

Lemma ustore_bytes_ok bs : ∀ s fm v, stack_mapped s → shows a lo n s fm → lo ≤ v → v + Z.of_nat (length bs) ≤ lo + n →
  writes a lo n s (ustore_bytes a v bs s) tt (store_bytes v bs fm).
Proof.
  induction bs as [|b bs IH]; intros s fm v Hm Hs Hlo Hhi; [by apply writes_ret|].
  simpl length in Hhi. cbn [ustore_bytes store_bytes].
  eapply writes_bind; [apply ustore_ok; [done..|lia]|]. intros m Hs'. apply IH; [by apply stack_mapped_io|done|lia..].
Qed.

Lemma push_all_ok vs : ∀ s fm sp, stack_mapped s → shows a lo n s fm →
  lo + 8 * Z.of_nat (length vs) ≤ sp → sp ≤ lo + n →
  writes a lo n s (push_all a vs sp s) (push_words vs (sp, fm)).1 (push_words vs (sp, fm)).2.
Proof.
  induction vs as [|v vs IH]; intros s fm sp Hm Hs Hlo Hhi; [by apply writes_ret|].
  pose proof (mp_range _ _ _ _ _ _ _ Hm). simpl length in Hlo. cbn [push_all push_words].
  unfold push_u64. cbn [fst snd]. rewrite (u64_small (sp - 8)) by lia.
  apply (writes_bind _ _ _ (sp - 8) _ (st64 (sp - 8) v fm)).
  - eapply writes_bind; [apply ustoren_ok; [done..|lia|lia]|]. intros m Hs'. by apply writes_ret.
  - intros m Hs'. apply (IH _ (st64 (sp - 8) v fm)); [by apply stack_mapped_io|done|lia..].
Qed.
Lemma store_bytes_outside bs : ∀ v m b, b < v ∨ v + Z.of_nat (length bs) ≤ b →
  ldb (store_bytes v bs m) b = ldb m b.
Proof.
  induction bs as [|c bs IH]; intros v m b Hb; [done|]. cbn [store_bytes]. simpl length in Hb.
  rewrite IH by lia. apply ldb_stb_ne. lia.
Qed.

Lemma length_string_bytes str : Z.of_nat (length (string_bytes str)) = Z.of_nat (String.length str) + 1.
Proof. induction str as [|c str IH]; simpl in *; lia. Qed.

Lemma store_string str : ∀ v m, nul_free str → cstr (store_bytes v (string_bytes str) m) v str.
Proof.
  induction str as [|c str IH]; intros v m Hn.
  - simpl. by rewrite ldb_stb_eq.
  - destruct Hn as [Hc Hn]. cbn [string_bytes store_bytes cstr]. split; [|split; [done|by apply IH]].
    rewrite store_bytes_outside by lia. rewrite ldb_stb_eq. apply Z.mod_small, CString.code_range.
Qed.

Definition string_size (str : string) : Z := Z.of_nat (String.length str) + 1.
Fixpoint env_size (env : list string) : Z :=
  match env with [] => 0 | str :: env' => string_size str + env_size env' end.
Fixpoint env_addrs (sp : Z) (env : list string) : list Z :=
  match env with [] => [] | str :: env' => (sp - string_size str) :: env_addrs (sp - string_size str) env' end.

Lemma env_size_nonneg env : 0 ≤ env_size env.
Proof. induction env as [|str env IH]; simpl; [done|]. unfold string_size. lia. Qed.

(** The same on flat memory. *)
Definition flat_string (sp : Z) (str : string) (fm : mem) : mem := store_bytes (sp - string_size str) (string_bytes str) fm.
Fixpoint flat_env (sp : Z) (env : list string) (fm : mem) : mem :=
  match env with [] => fm | str :: env' => flat_env (sp - string_size str) env' (flat_string sp str fm) end.

Lemma flat_string_outside sp str fm : same_outside (sp - string_size str) sp fm (flat_string sp str fm).
Proof.
  pose proof (length_string_bytes str). unfold string_size, flat_string. intros b Hb. apply store_bytes_outside.
  unfold string_size. lia.
Qed.

Lemma flat_env_ok env : ∀ sp fm, Forall nul_free env →
  Forall2 (cstr (flat_env sp env fm)) (env_addrs sp env) env ∧ same_outside (sp - env_size env) sp fm (flat_env sp env fm).
Proof.
  induction env as [|str env IH]; intros sp fm Hn; cbn [env_size env_addrs flat_env].
  { split; [constructor|apply same_outside_refl]. }
  apply Forall_cons in Hn as [Hstr Hn]. pose proof (env_size_nonneg env).
  assert (0 < string_size str) by (unfold string_size; lia).
  destruct (IH (sp - string_size str) (flat_string sp str fm) Hn) as [Hc Hout]. split.
  - constructor; [|done]. eapply cstr_ext; [|by apply store_string].
    intros b Hb. apply Hout. unfold string_size in *. lia.
  - apply (same_outside_trans _ _ _ (flat_string sp str fm)).
    + apply (same_outside_weaken (sp - string_size str) sp); [lia|lia|]. apply flat_string_outside.
    + apply (same_outside_weaken (sp - string_size str - env_size env) (sp - string_size str)); [lia|lia|done].
Qed.

Lemma push_string_ok s fm sp str : stack_mapped s → shows a lo n s fm →
  lo ≤ sp - string_size str → sp ≤ lo + n →
  writes a lo n s (push_string a sp str s) (sp - string_size str) (flat_string sp str fm).
Proof.
  intros Hm Hs Hlo Hhi. pose proof (mp_range _ _ _ _ _ _ _ Hm). pose proof (length_string_bytes str) as Hlen.
  unfold push_string, flat_string, string_size in *. rewrite u64_small by lia.
  eapply writes_bind; [apply ustore_bytes_ok; [done..|lia|lia]|]. intros m Hs'. by apply writes_ret.
Qed.

Lemma push_env_ok env : ∀ s fm sp, stack_mapped s → shows a lo n s fm →
  lo ≤ sp - env_size env → sp ≤ lo + n →
  writes a lo n s (push_default_env_strings a sp env s) (env_addrs sp env, sp - env_size env) (flat_env sp env fm).
Proof.
  induction env as [|str env IH]; intros s fm sp Hm Hs Hlo Hhi; cbn [env_size env_addrs flat_env] in *.
  { rewrite Z.sub_0_r. by apply writes_ret. }
  pose proof (env_size_nonneg env). assert (0 < string_size str) by (unfold string_size; lia).
  cbn [push_default_env_strings].
  eapply writes_bind; [apply push_string_ok; [done..|lia|lia]|]. intros m1 Hs1.
  eapply writes_bind; [apply IH; [by apply stack_mapped_io|done|lia|lia]|]. intros m2 Hs2. cbn [fst snd].
  replace (sp - (string_size str + env_size env)) with (sp - string_size str - env_size env) by lia. by apply writes_ret.
Qed.

Definition flat_push (vs : list Z) (sp : Z) (fm : mem) : mem := (push_words vs (sp, fm)).2.

Lemma flat_push_app vs vs' sp fm : 0 ≤ sp - 8 * Z.of_nat (length vs) → sp < 2 ^ 64 →
  flat_push vs' (sp - 8 * Z.of_nat (length vs)) (flat_push vs sp fm) = flat_push (vs ++ vs') sp fm.
Proof.
  intros Hlo Hhi. unfold flat_push. rewrite push_words_app.
  destruct (push_words_ok vs sp fm Hlo Hhi) as [<- _]. by rewrite <- surjective_pairing.
Qed.

Lemma push_all_then vs l (k : Z → M S Z) sp s : (∀ sp s, k sp s = push_all a l sp s) →
  (push_all a vs sp ≫= k) s = push_all a (vs ++ l) sp s.
Proof.
  intros Hk. revert sp s. induction vs as [|v vs IH]; intros sp s; [apply Hk|]. cbn [push_all app].
  unfold mbind, M_bind in *. destruct (push_u64 a sp v s) as [[sp' s']|?|?|]; [|done..]. apply (IH sp' s').
Qed.

Lemma flat_push_ok vs sp fm k : Z.of_nat (length vs) = k → 0 ≤ sp - 8 * k → sp < 2 ^ 64 →
  words (flat_push vs sp fm) (sp - 8 * k) (reverse (u64 <$> vs)) ∧ same_outside (sp - 8 * k) sp fm (flat_push vs sp fm).
Proof. intros <- Hlo Hhi. by destruct (push_words_ok vs sp fm Hlo Hhi) as (_ & ? & ?). Qed.

(** A run of pushes, then the rest. *)
Lemma push_all_bind {B} vs (k : Z → M S B) s fm sp y fm' : stack_mapped s → shows a lo n s fm →
  lo + 8 * Z.of_nat (length vs) ≤ sp → sp ≤ lo + n →
  (∀ m, shows a lo n (with_io_mem m s) (flat_push vs sp fm) →
    writes a lo n (with_io_mem m s) (k (sp - 8 * Z.of_nat (length vs)) (with_io_mem m s)) y fm') →
  writes a lo n s ((push_all a vs sp ≫= k) s) y fm'.
Proof.
  intros Hm Hs Hlo Hhi Hk. pose proof (mp_range _ _ _ _ _ _ _ Hm).
  eapply writes_bind; [|exact Hk].
  destruct (push_words_ok vs sp fm) as [E _]; [lia|lia|]. rewrite <- E. by apply push_all_ok.
Qed.
End stack_spec.

(** The words of the initial stack, from the stack pointer up. *)
Definition stack_words (prog : Z) (envs : list Z) (info : elf_info) (entry random : Z) : list Z :=
  [1; prog; 0] ++ envs ++ [0; 0] ++
  [AT_PHDR; i_phdr info; AT_PHENT; i_phentsize info; AT_PHNUM; i_phnum info; AT_PAGESZ; PAGE_SIZE;
   AT_ENTRY; entry; AT_RANDOM; random; AT_EXECFN; prog; AT_NULL; 0].

(** How the System V ABI has a program read them: argc, the arguments up to a
    NULL, the environment up to a NULL, and pairs up to one of type AT_NULL. *)
Fixpoint until_null (ws : list Z) : list Z * list Z :=
  match ws with
  | [] => ([], [])
  | w :: ws' => if w =? 0 then ([], ws') else (w :: (until_null ws').1, (until_null ws').2)
  end.
Fixpoint pairs_until_null (ws : list Z) : list (Z * Z) :=
  match ws with
  | t :: v :: ws' => if t =? AT_NULL then [] else (t, v) :: pairs_until_null ws'
  | _ => []
  end.
Definition abi_argv (ws : list Z) : list Z := (until_null (tail ws)).1.
Definition abi_envp (ws : list Z) : list Z := (until_null (until_null (tail ws)).2).1.
Definition abi_auxv (ws : list Z) : list (Z * Z) := pairs_until_null (until_null (until_null (tail ws)).2).2.

Record info_range (info : elf_info) (entry : Z) : Prop := {
  ir_entry : 0 ≤ entry < 2 ^ 64;
  ir_phdr : 0 ≤ i_phdr info < 2 ^ 64;
  ir_phnum : 0 ≤ i_phnum info < 2 ^ 64;
  ir_phentsize : 0 ≤ i_phentsize info < 2 ^ 64;
}.

(** [fm] holds the initial stack of a program from [sp] to [top]: the words, and the
    strings and the 16 random bytes they point to, all above the words. *)
Definition initial_stack (fm : mem) (filename : string) (info : elf_info) (uptime pid entry top sp : Z) : Prop :=
  ∃ prog envs random, words fm sp (stack_words prog envs info entry random)
    ∧ cstr fm prog filename ∧ Forall2 (cstr fm) envs process_default_env
    ∧ (let rnd := xorshift (first_random uptime pid entry top) in words fm random [u64 rnd; u64 (xorshift rnd)])
    ∧ Forall (λ p, sp + 8 * Z.of_nat (length (stack_words prog envs info entry random)) ≤ p < top) (random :: prog :: envs).

Ltac mapped_io := repeat apply stack_mapped_io; assumption.

Section fill_spec.
Context `{OH : ObjectHeap H} `{AS : !AddrSpaces H}.
Context (filename : string) (info : elf_info) (uptime pid entry top : Z).

Definition prog_ptr : Z := top - string_size filename.
Definition env_ptrs : list Z := env_addrs prog_ptr process_default_env.
Definition strings_end : Z := prog_ptr - env_size process_default_env.
Definition random_ptr : Z := strings_end - strings_end mod 16 - 16.
Definition tail_pushes : list Z :=
  push_auxv (auxv_pushes info entry prog_ptr random_ptr) ++ [0] ++ [0] ++ reverse env_ptrs ++ [0; prog_ptr] ++ [1].
Definition flat_stack (fm : mem) : mem :=
  let rnd := xorshift (first_random uptime pid entry top) in
  flat_push tail_pushes random_ptr
    (stn 8 (random_ptr + 8) (xorshift rnd) (stn 8 random_ptr rnd
       (flat_push [0; 0] (random_ptr + 16) (flat_env prog_ptr process_default_env (flat_string top filename fm))))).

Lemma length_envs : length env_ptrs = 5%nat.
Proof. reflexivity. Qed.

Lemma strings_end_aligned : 0 ≤ strings_end < 2 ^ 64 → Z.land strings_end (u64 (Z.lnot 0xF)) = random_ptr + 16.
Proof. intros Hr. unfold random_ptr. change 0xF with (2 ^ 4 - 1).
  rewrite (land_clear_low strings_end 4) by lia. change (2 ^ 4) with 16. lia. Qed.

Lemma fill_process_stack_ok a lo n frame (s : fd_state H) fm : stack_mapped a lo n frame s → shows a lo n s fm →
  top = lo + n → string_size filename + env_size process_default_env + 256 ≤ n →
  writes a lo n s (fill_process_stack a filename info uptime pid entry top s) (random_ptr - 208) (flat_stack fm).
Proof.
  intros Hm Hs Htop Hn. pose proof (mp_range _ _ _ _ _ _ _ Hm).
  assert (lo + 240 ≤ strings_end ≤ top) as Hend.
  { unfold strings_end, prog_ptr, string_size in *. pose proof (env_size_nonneg process_default_env). lia. }
  assert (lo + 208 ≤ random_ptr ≤ top - 16) as Hrand.
  { unfold random_ptr. pose proof (Z.mod_pos_bound strings_end 16 ltac:(lia)). lia. }
  assert (lo ≤ prog_ptr ≤ top) as Hprog.
  { unfold strings_end in *. unfold prog_ptr, string_size in *. pose proof (env_size_nonneg process_default_env). lia. }
  pose proof strings_end_aligned as Hal. unfold fill_process_stack.
  eapply writes_bind; [apply (push_string_ok a lo n frame); [done|exact Hs|fold prog_ptr; lia|lia]|].
  intros m1 Hs1. fold prog_ptr in *.
  eapply writes_bind; [apply (push_env_ok a lo n frame); [mapped_io|exact Hs1|fold strings_end; lia|lia]|].
  intros m2 Hs2. cbn [fst snd]. fold strings_end env_ptrs. rewrite Hal by lia. clear Hal.
  eapply (push_all_bind a lo n frame); [mapped_io|exact Hs2|simpl; lia|lia|].
  intros m3 Hs3. replace (random_ptr + 16 - 8 * Z.of_nat (length [0; 0])) with random_ptr by (simpl; lia).
  eapply writes_bind; [apply (ustoren_ok a lo n frame); [mapped_io|exact Hs3|lia|lia]|]. intros m4 Hs4.
  eapply writes_bind; [apply (ustoren_ok a lo n frame); [mapped_io|exact Hs4|lia|lia]|]. intros m5 Hs5.
  change (Z.odd (4 + Z.of_nat (length env_ptrs))) with true. cbn iota.
  set (fm5 := stn 8 (random_ptr + 8) _ _) in *.
  match goal with |- writes _ _ _ ?st ?r _ _ => assert (r = push_all a tail_pushes random_ptr st) as -> end.
  { unfold tail_pushes. repeat (apply push_all_then; intros). reflexivity. }
  unfold flat_stack. fold fm5. destruct (push_words_ok tail_pushes random_ptr fm5) as [E _].
  { change (length tail_pushes) with 26%nat. lia. } { lia. }
  change (8 * Z.of_nat (length tail_pushes)) with 208 in E. rewrite <- E at 1.
  apply (push_all_ok a lo n frame); [mapped_io|exact Hs5|change (length tail_pushes) with 26%nat; lia|lia].
Qed.

Lemma env_addrs_range env : ∀ sp, Forall (λ p, sp - env_size env ≤ p < sp) (env_addrs sp env).
Proof.
  induction env as [|str env IH]; intros sp; cbn [env_addrs env_size]; [constructor|].
  pose proof (env_size_nonneg env). assert (0 < string_size str) by (unfold string_size; lia). constructor; [lia|].
  eapply Forall_impl; [apply IH|]. cbv beta. lia.
Qed.

Lemma Forall2_with {A B} (P : A → Prop) (R R' : A → B → Prop) l k : (∀ x y, P x → R x y → R' x y) →
  Forall P l → Forall2 R l k → Forall2 R' l k.
Proof. intros HR HP. induction 1; [constructor|]. apply Forall_cons in HP as []. constructor; eauto. Qed.

Lemma tail_pushes_words : reverse tail_pushes = stack_words prog_ptr env_ptrs info entry random_ptr.
Proof.
  unfold tail_pushes, env_ptrs, process_default_env. cbn [env_addrs]. 
  generalize prog_ptr random_ptr. intros p r. reflexivity.
Qed.

Lemma stack_words_range prog envs random : info_range info entry → 0 ≤ prog < 2 ^ 64 → 0 ≤ random < 2 ^ 64 →
  Forall (λ v, 0 ≤ v < 2 ^ 64) envs → Forall (λ v, 0 ≤ v < 2 ^ 64) (stack_words prog envs info entry random).
Proof.
  intros [? ? ? ?] Hp Hr He. unfold stack_words. repeat (apply Forall_app; split); [|done| |];
    repeat (apply Forall_cons; split); try apply Forall_nil_2; try lia;
    unfold PAGE_SIZE, AT_PHDR, AT_PHENT, AT_PHNUM, AT_PAGESZ, AT_ENTRY, AT_RANDOM, AT_EXECFN, AT_NULL; lia.
Qed.

Lemma flat_stack_ok fm : nul_free filename → info_range info entry → top < 2 ^ 64 →
  string_size filename + env_size process_default_env + 256 ≤ top →
  initial_stack (flat_stack fm) filename info uptime pid entry top (random_ptr - 208).
Proof.
  intros Hnf [He Hp1 Hp2 Hp3] Htop Hn.
  pose proof (env_size_nonneg process_default_env). assert (0 < string_size filename) by (unfold string_size; lia).
  assert (prog_ptr = top - string_size filename) as Hprog by done.
  assert (strings_end = prog_ptr - env_size process_default_env) as Hse by done.
  pose proof (Z.mod_pos_bound strings_end 16 ltac:(lia)).
  assert (random_ptr = strings_end - strings_end mod 16 - 16) as Hrand by done.
  assert (cstr (flat_string top filename fm) prog_ptr filename) as Hprogstr by (by apply store_string).
  destruct (flat_env_ok process_default_env prog_ptr (flat_string top filename fm)) as [Henv Hout2].
  { repeat constructor; vm_compute; discriminate. }
  fold strings_end env_ptrs in Henv, Hout2. unfold flat_stack. revert Hprogstr Henv Hout2.
  generalize (flat_string top filename fm). intros fm1.
  generalize (flat_env prog_ptr process_default_env fm1). intros fm2 Hprogstr Henv Hout2.
  destruct (flat_push_ok [0; 0] (random_ptr + 16) fm2 2) as (_ & Hout3); [done|lia|lia|]. revert Hout3.
  generalize (flat_push [0; 0] (random_ptr + 16) fm2). intros fm3 Hout3.
  unfold initial_stack. generalize (xorshift (first_random uptime pid entry top)). intros rnd. cbv zeta.
  set (fm4 := stn 8 (random_ptr + 8) (xorshift rnd) (stn 8 random_ptr rnd fm3)).
  assert (words fm4 random_ptr [u64 rnd; u64 (xorshift rnd)]) as Hrnd.
  { unfold fm4. split; [by rewrite ld64_st64_ne, ld64_st64_eq by lia|]. split; [by rewrite ld64_st64_eq|done]. }
  assert (∀ b, random_ptr + 16 ≤ b → ldb fm4 b = ldb fm2 b) as Hm4.
  { intros b Hb. unfold fm4. rewrite !ldb_stn_ne by lia. apply Hout3. lia. }
  clearbody fm4. clear Hout3 fm3.
  destruct (flat_push_ok tail_pushes random_ptr fm4 26) as (Hwords & Hout5); [done|lia|lia|].
  revert Hwords Hout5. generalize (flat_push tail_pushes random_ptr fm4). intros fm5 Hwords Hout5.
  change (8 * 26) with 208 in *.
  assert (∀ b, random_ptr + 16 ≤ b → ldb fm5 b = ldb fm2 b) as Habove.
  { intros b Hb. rewrite Hout5 by lia. by apply Hm4. }
  assert (Forall (λ p, strings_end ≤ p < prog_ptr) env_ptrs) as Hrange by apply env_addrs_range.
  exists prog_ptr, env_ptrs, random_ptr. split; [|split; [|split; [|split]]].
  - rewrite <- fmap_reverse in Hwords. rewrite tail_pushes_words in Hwords.
    rewrite u64_fmap in Hwords; [exact Hwords|]. apply stack_words_range; [by split|lia|lia|].
    eapply Forall_impl; [exact Hrange|]. cbv beta. lia.
  - apply (cstr_ext fm1); [|done].
    intros b Hb. unfold string_size in *. rewrite Habove by lia. apply Hout2. lia.
  - eapply Forall2_with; [|exact Hrange|exact Henv]. cbv beta. intros p str Hp. apply cstr_ext.
    intros b Hb. apply Habove. lia.
  - eapply words_ext; [exact Hrnd|]. intros b Hb. apply Hout5. lia.
  - change (Z.of_nat (length (stack_words prog_ptr env_ptrs info entry random_ptr))) with 26.
    apply Forall_cons. split; [lia|]. apply Forall_cons. split; [lia|].
    eapply Forall_impl; [exact Hrange|]. cbv beta. lia.
Qed.
End fill_spec.

Section layout.
Context `{OH : ObjectHeap H} `{AS : !AddrSpaces H}.

Lemma shows_exists (s : fd_state H) a lo k : ∃ fm, shows a lo (Z.of_nat k) s fm.
Proof.
  induction k as [|k [fm IH]]; [exists ∅; intros v; lia|].
  exists (stb (lo + Z.of_nat k) (ldb (s_mem s) (as_lookup a (lo + Z.of_nat k) (fd_heap s))) fm).
  intros v Hv. rewrite ldb_stb. destruct (decide (v = lo + Z.of_nat k)) as [->|].
  - rewrite decide_True by done. symmetry. apply Z.mod_small, ldb_range.
  - rewrite decide_False by done. apply IH. lia.
Qed.

Lemma until_null_app ws ws' : Forall (λ w, w ≠ 0) ws → until_null (ws ++ 0 :: ws') = (ws, ws').
Proof.
  induction 1 as [|w ws Hw _ IH]; [done|]. cbn [until_null app]. destruct (Z.eqb_spec w 0); [done|]. by rewrite IH.
Qed.

Lemma abi_stack_words prog envs info entry random : prog ≠ 0 → Forall (λ w, w ≠ 0) envs →
  let ws := stack_words prog envs info entry random in
  abi_argv ws = [prog] ∧ abi_envp ws = envs ∧ abi_auxv ws = [].
Proof.
  intros Hp He ws. unfold ws, stack_words, abi_argv, abi_envp, abi_auxv.
  change (tail _) with ([prog] ++ 0 :: (envs ++ 0 :: 0 ::
    [AT_PHDR; i_phdr info; AT_PHENT; i_phentsize info; AT_PHNUM; i_phnum info; AT_PAGESZ; PAGE_SIZE;
     AT_ENTRY; entry; AT_RANDOM; random; AT_EXECFN; prog; AT_NULL; 0])).
  rewrite until_null_app by (by constructor). cbn [fst snd]. rewrite until_null_app by done. done.
Qed.

(** What the writer leaves, in the address space's view [fm] of its stack. *)
Lemma fill_process_stack_run filename info uptime pid entry a lo n frame (s : fd_state H) :
  stack_mapped a lo n frame s → nul_free filename → info_range info entry →
  string_size filename + env_size process_default_env + 256 ≤ n →
  ∃ m fm sp, fill_process_stack a filename info uptime pid entry (lo + n) s = Done (sp, with_io_mem m s)
    ∧ shows a lo n (with_io_mem m s) fm
    ∧ initial_stack fm filename info uptime pid entry (lo + n) sp
    ∧ sp mod 16 = 0 ∧ lo ≤ sp
    ∧ (∀ b, (∀ v, lo ≤ v < lo + n → b ≠ as_lookup a v (fd_heap s)) → ldb m b = ldb (s_mem s) b).
Proof.
  intros Hm Hnf Hinfo Hn. pose proof (mp_range _ _ _ _ _ _ _ Hm).
  pose proof (env_size_nonneg process_default_env). assert (0 < string_size filename) by (unfold string_size; lia).
  destruct (shows_exists s a lo (Z.to_nat n)) as [fm0 Hs0]. rewrite Z2Nat.id in Hs0 by lia.
  destruct (fill_process_stack_ok filename info uptime pid entry (lo + n) a lo n frame s fm0 Hm Hs0 eq_refl Hn)
    as (m & Hr & Hs & Hother).
  exists m, (flat_stack filename info uptime pid entry (lo + n) fm0), (random_ptr filename (lo + n) - 208).
  split; [exact Hr|]. split; [exact Hs|]. split; [apply flat_stack_ok; done || lia|].
  split; [|split; [|exact Hother]].
  - unfold random_ptr. set (x := strings_end filename (lo + n)).
    replace (x - x mod 16 - 16 - 208) with ((x / 16 - 14) * 16); [apply Z.mod_mul; lia|].
    pose proof (Z.div_mod x 16). lia.
  - unfold random_ptr. pose proof (Z.mod_pos_bound (strings_end filename (lo + n)) 16 ltac:(lia)).
    unfold strings_end, prog_ptr in *. lia.
Qed.

(** C25: the initial stack of a process, seen through its address space, has at the
    stack pointer, which is a multiple of 16: argc = 1, argv with the file name, the
    five default environment strings, then a word of padding, the auxiliary vector
    and two random words; every pointer on it points into the stack above, to the
    string it stands for. No other byte of memory is written. *)
Theorem process_stack_layout filename info uptime pid entry a lo n frame (s : fd_state H) :
  stack_mapped a lo n frame s → nul_free filename → info_range info entry →
  string_size filename + env_size process_default_env + 256 ≤ n →
  ∃ m fm sp, fill_process_stack a filename info uptime pid entry (lo + n) s = Done (sp, with_io_mem m s)
    ∧ shows a lo n (with_io_mem m s) fm
    ∧ initial_stack fm filename info uptime pid entry (lo + n) sp
    ∧ sp mod 16 = 0 ∧ lo ≤ sp
    ∧ (∀ b, (∀ v, lo ≤ v < lo + n → b ≠ as_lookup a v (fd_heap s)) → ldb m b = ldb (s_mem s) b).
Proof. apply fill_process_stack_run. Qed.

(** A program that reads this stack as the System V ABI says finds its name and
    the five environment strings, and an empty auxiliary vector: the padding word,
    pushed between the vector and the NULL that ends the environment, reads as an
    entry of type AT_NULL, and AT_PHDR, AT_RANDOM and the others are never found. *)
Theorem auxv_hidden filename info uptime pid entry a lo n frame (s : fd_state H) :
  stack_mapped a lo n frame s → nul_free filename → info_range info entry →
  string_size filename + env_size process_default_env + 256 ≤ n →
  ∃ m fm sp ws prog envs, fill_process_stack a filename info uptime pid entry (lo + n) s = Done (sp, with_io_mem m s)
    ∧ shows a lo n (with_io_mem m s) fm ∧ words fm sp ws
    ∧ abi_argv ws = [prog] ∧ cstr fm prog filename
    ∧ abi_envp ws = envs ∧ Forall2 (cstr fm) envs process_default_env
    ∧ abi_auxv ws = [].
Proof.
  intros Hm Hnf Hinfo Hn. pose proof (mp_range _ _ _ _ _ _ _ Hm).
  destruct (fill_process_stack_run filename info uptime pid entry a lo n frame s Hm Hnf Hinfo Hn)
    as (m & fm & sp & Hr & Hs & (prog & envs & random & Hw & Hp & He & _ & Hrange) & _ & Hsp & _).
  exists m, fm, sp, (stack_words prog envs info entry random), prog, envs.
  apply Forall_cons in Hrange as [_ Hrange]. apply Forall_cons in Hrange as [Hprog Henvs].
  split; [exact Hr|]. split; [exact Hs|]. split; [exact Hw|].
  set (ws := stack_words prog envs info entry random) in *.
  assert (0 < Z.of_nat (length ws)) by (unfold ws, stack_words; simpl; lia).
  destruct (abi_stack_words prog envs info entry random) as (E1 & E2 & E3); [lia| |done].
  eapply Forall_impl; [exact Henvs|]. cbv beta. lia.
Qed.
End layout.

Module StackWitness.
Import DemoObjects VfsWitness TermWitness FdWitness VmaWitness ElfWitness.

Lemma user_stack_mapped : stack_mapped demo_as 0x400000 4096 frame_of elf_s.
Proof.
  assert (∀ p, page_of 0x400000 4096 p → p = 0x400) as Hp.
  { intros p [Hp Hp']. change (0x400 ≤ p) in Hp. change (p ≤ 0x400) in Hp'. lia. }
  split; [lia|done| |].
  - intros p ->%Hp. unfold buffer_ok, frame_of, PAGE_SIZE. lia.
  - intros p q ->%Hp ->%Hp. done.
Qed.

Definition demo_info : elf_info := mk_info 0x400078 0 0x400040 1 56.
Lemma demo_info_range : info_range demo_info 0x400078.
Proof. split; simpl; lia. Qed.
Lemma init_name : nul_free "/bin/init".
Proof. repeat split; vm_compute; discriminate. Qed.

Lemma process_stack_layout_witness :
  ∃ m fm sp, fill_process_stack demo_as "/bin/init" demo_info 7 1 0x400078 0x401000 elf_s
      = Done (sp, with_io_mem m elf_s)
    ∧ initial_stack fm "/bin/init" demo_info 7 1 0x400078 0x401000 sp ∧ sp mod 16 = 0.
Proof.
  destruct (process_stack_layout "/bin/init" demo_info 7 1 0x400078 demo_as 0x400000 4096 frame_of elf_s
    user_stack_mapped init_name demo_info_range ltac:(vm_compute; discriminate))
    as (m & fm & sp & Hr & _ & Hi & Hal & _).
  exists m, fm, sp. split; [exact Hr|]. split; [exact Hi|exact Hal].
Defined.

Lemma auxv_hidden_witness :
  ∃ m sp, fill_process_stack demo_as "/bin/init" demo_info 7 1 0x400078 0x401000 elf_s
      = Done (sp, with_io_mem m elf_s)
    ∧ ∃ fm ws, words fm sp ws ∧ length (abi_envp ws) = 5%nat ∧ abi_auxv ws = [].
Proof.
  destruct (auxv_hidden "/bin/init" demo_info 7 1 0x400078 demo_as 0x400000 4096 frame_of elf_s
    user_stack_mapped init_name demo_info_range ltac:(vm_compute; discriminate))
    as (m & fm & sp & ws & prog & envs & Hr & _ & Hw & _ & _ & Hen & He & Hnone).
  exists m, sp. split; [exact Hr|]. exists fm, ws. split; [exact Hw|]. split; [|exact Hnone].
  rewrite Hen. exact (Forall2_length _ _ _ He).
Defined.
End StackWitness.
