(* ===== verification/Proc.v ===== *)
(** * Processes: process_create and grow_user_stack of src/scheduler/process.c, and
    the page-fault handler and init task of src/main.c

    This file composes the others: the state is the scheduler's, over the state of
    the virtual memory areas, which contains descriptors, devices and the heap, and
    the pid counter of process.c. A process is named by the address of its
    process_t, in Fd.v and Vma.v too; its fields are split between [process],
    [proc_vm] and [proc_fds]. *)
From S2P Require Import Prelude CMem Words Phys Vmm Heap Fb Term Vfs Fd Bstree Vma Sched Elf Stack.

Definition USER_STACK_TOP : Z := 0xf0000000.
Definition USER_STACK_PAGES : Z := 32.

(** bstree_t is a structure of the tree library. *)
Class TreeStruct := { sizeof_bstree : Z; sizeof_bstree_range : 0 ≤ sizeof_bstree < 4096 }.
(** process_t is aligned to 16 bytes; vma_tree is its last field. *)
Definition sizeof_process `{TreeStruct} : Z := (80 + sizeof_bstree + 15) / 16 * 16.

(** The heap, memory and CR3 inside the larger state. *)
Section lifted.
Context {H : Type}.
Definition of_heap {A} (m : M H A) : M (vma_state H) A := on_fd (on_heap m).
#[export] Instance vma_objects `{OH : ObjectHeap H} : ObjectHeap (vma_state H) := {|
  oh_alloc n := of_heap (oh_alloc n);
  oh_calloc c n := of_heap (oh_calloc c n);
  oh_free p := of_heap (oh_free p);
  oh_live v := oh_live (fd_heap (vs_fd v));
|}.
Definition with_heap (f : H → H) (v : vma_state H) : vma_state H :=
  let d := vs_fd v in
  mk_vs H (mk_fd H (f (fd_heap d)) (fd_io d) (files d) (fd_objs d) (gft_ptr d) (global_file_table d)
             (global_file_capacity d) (procs d))
    (areas v) (ppages v) (pvms v) (cur_process v).
#[export] Instance vma_kernel_mem `{KM : KernelMem H} : KernelMem (vma_state H) := {|
  km_mem v := km_mem (fd_heap (vs_fd v));
  km_set_mem m := with_heap (km_set_mem m);
  km_current_cr3 v := km_current_cr3 (fd_heap (vs_fd v));
  km_kernel_cr3 v := km_kernel_cr3 (fd_heap (vs_fd v));
  km_load_cr3 c := with_heap (km_load_cr3 c);
|}.
End lifted.

Record proc_state {H : Type} := mk_ps {
  ps_sched : sched_state (vma_state H);
  next_pid : Z;
}.
Arguments proc_state : clear implicits.

Section proc.
Context `{OH : ObjectHeap H} `{KM : !KernelMem H} `{UM : !UserMap H} `{AS : !AddrSpaces H}.
Context `{EF : ElfFrame} `{TI : ThreadImage} `{BT : Bstree} `{TS : TreeStruct} `{Uart} `{Abi}.
Abbreviation P := (proc_state H).

Definition on_sched {A} : M (sched_state (vma_state H)) A → M P A := zoom ps_sched (λ x s, mk_ps H x (next_pid s)).
Definition on_v {A} (m : M (vma_state H) A) : M P A := on_sched (on_ss_heap m).
Definition on_f {A} (m : M (fd_state H) A) : M P A := on_v (on_fd m).
Definition on_k {A} (m : M H A) : M P A := on_f (on_heap m).

(** current_thread->process *)
Definition CUR_PROCESS : M P Z :=
  on_sched (cur ← gets current_thread; t ← get_thread cur; mret (t_process t)).
(** A call of vma.c, which reads CUR_PROCESS. *)
Definition on_vma {A} (m : M (vma_state H) A) : M P A :=
  cur ← CUR_PROCESS;
  _ ← on_v (modify (λ v, mk_vs H (vs_fd v) (areas v) (ppages v) (pvms v) cur));
  on_v m.

Definition proc_at (p : Z) : M P process := on_sched (get_process p).
Definition set_proc (p : Z) (x : process) : M P unit := on_sched (put_process p x).

Definition process_zero : process := mk_process (mk_as 0 0) 0 0 0 0 0 0.
(** memset(p, 0, sizeof( *p)) *)
Definition zero_process (p : Z) : M P unit :=
  _ ← set_proc p process_zero;
  _ ← on_f (put_proc p (mk_proc 0 [] 0));
  on_v (modify (λ v, set_pvms (<[p := mk_pvm (mk_as 0 0) Leaf]> (pvms v)) v)).
(** kfree(p) *)
Definition free_process (p : Z) : M P unit :=
  _ ← on_k (oh_free p);
  _ ← on_sched (modify (λ s, set_processes (delete p (processes s)) s));
  _ ← on_f (modify (λ s, set_procs (delete p (procs s)) s));
  on_v (modify (λ v, set_pvms (delete p (pvms v)) v)).
(** p->address_space = a *)
Definition set_address_space (p : Z) (a : address_space) : M P unit :=
  x ← proc_at p;
  _ ← set_proc p (mk_process a (p_entry_point x) (p_rsp x) (p_user_stack_bottom x) (p_user_stack_bottom_max x)
                    (p_main_thread x) (p_pid x));
  on_v (modify (λ v, set_pvms (<[p := mk_pvm a (match pvms v !! p with Some w => vma_tree w | None => Leaf end)]> (pvms v)) v)).

Definition fresh_pid : M P Z := λ s, Done (next_pid s, mk_ps H (ps_sched s) (u64 (next_pid s + 1))).

Definition stack_flags : Z := Z.lor (Z.lor PAGE_USER PAGE_WRITABLE) PAGE_PRESENT.

(** The frames of the stack, or None after the frames taken were freed. *)
Fixpoint map_stack_pages (n : nat) (i : Z) (a : address_space) (bottom : Z) (taken : list Z) : M P (option (list Z)) :=
  match n with
  | O => mret (Some taken)
  | Datatypes.S k =>
      stack_phys ← on_k um_alloc_page;
      if stack_phys =? 0 then
        _ ← for_each taken (λ q, on_k (as_free_page q));
        mret None
      else
        _ ← on_k (um_memset_page stack_phys 0 PAGE_SIZE);
        _ ← on_k (um_map a (u64 (bottom + i * PAGE_SIZE)) stack_phys stack_flags);
        map_stack_pages k (i + 1) a bottom (taken ++ [stack_phys])
  end.

(** [uptime] is what ns_since_boot() returns. *)
Definition setup_process_stack (uptime : Z) (p : Z) (filename : string) (info : elf_info) : M P unit :=
  x ← proc_at p;
  _ ← on_k (modify (km_load_cr3 (cr3 (p_address_space x))));
  sp ← on_f (fill_process_stack (p_address_space x) filename info uptime (p_pid x) (p_entry_point x) (p_rsp x));
  _ ← set_proc p (mk_process (p_address_space x) (p_entry_point x) sp (p_user_stack_bottom x)
                    (p_user_stack_bottom_max x) (p_main_thread x) (p_pid x));
  on_k (modify (λ h, km_load_cr3 (km_kernel_cr3 h) h)).

(** The part of process_create that follows paging_create_address_space. *)
Definition process_load (uptime : Z) (filename : string) (file : file) (info : elf_info) (p : Z) (a : address_space) : M P Z :=
  let bottom := USER_STACK_TOP - USER_STACK_PAGES * PAGE_SIZE in
  pid ← fresh_pid;
  _ ← set_proc p (mk_process a (i_entry info) USER_STACK_TOP bottom (bottom - PAGE_SIZE * 128) 0 pid);
  pages ← map_stack_pages (Z.to_nat USER_STACK_PAGES) 0 a bottom [];
  match pages with
  | None =>
      _ ← on_k (as_destroy a);
      _ ← free_process p;
      mret 0
  | Some pages =>
      r ← on_f (elf_load_into_address_space a file info);
      if negb (r.1 =? 0) then
        _ ← on_k (as_destroy a);
        _ ← free_process p;
        _ ← for_each pages (λ q, on_k (as_free_page q));
        mret 0
      else
        _ ← setup_process_stack uptime p filename info;
        _ ← on_f (process_fd_base p);
        mret p
  end.

(** The value-of-node function and the type of the VMA tree are those of Bstree.v. *)
Definition process_create (uptime : Z) (filename : string) : M P Z :=
  file ← on_f (on_io (vfs_open filename O_RDONLY));
  match file with
  | None => mret 0
  | Some file =>
      r ← on_f (elf_read_info file);
      match r.1 with
      | None => mret 0
      | Some info =>
          p ← on_k (oh_alloc sizeof_process);
          if p =? 0 then mret 0
          else
            _ ← zero_process p;
            ok ← on_f (process_fd_init p);
            if negb ok then _ ← free_process p; mret 0
            else
              a ← on_k as_create;
              _ ← set_address_space p a;
              if cr3 a =? 0 then _ ← free_process p; mret 0
              else process_load uptime filename r.2 info p a
      end
  end.

Definition stack_message (what : string) (pid : Z) : M P unit :=
  _ ← on_v (say (terminal_write what));
  _ ← on_v (say (terminal_write_u64 pid));
  on_v (say (terminal_putc 10)).

Definition grow_user_stack (p : Z) : M P bool :=
  x ← proc_at p;
  if u64 (p_user_stack_bottom x - PAGE_SIZE) <? p_user_stack_bottom_max x then
    _ ← stack_message "User stack limit reached for process " (p_pid x);
    mret false
  else
    _ ← stack_message "Growing user stack for process " (p_pid x);
    phys_addr ← on_k um_alloc_page;
    _ ← on_k (um_map (p_address_space x) (u64 (p_user_stack_bottom x - PAGE_SIZE)) phys_addr stack_flags);
    _ ← set_proc p (mk_process (p_address_space x) (p_entry_point x) (p_rsp x) (u64 (p_user_stack_bottom x - PAGE_SIZE))
                      (p_user_stack_bottom_max x) (p_main_thread x) (p_pid x));
    mret true.

(** ** src/main.c *)

(** [addr] is CR2; [fuel] bounds the list of pages of the area. *)
Definition page_fault_handler (fuel : nat) (addr : Z) : M P bool :=
  cur ← on_sched (gets current_thread);
  if cur =? 0 then mret false
  else
    p ← CUR_PROCESS;
    if p =? 0 then mret false
    else
      x ← proc_at p;
      grown ← (if (p_user_stack_bottom_max x <=? u64 (addr + PAGE_SIZE)) && (addr <? p_user_stack_bottom x)
               then grow_user_stack p else mret false);
      if grown : bool then mret true
      else
        vma ← on_vma (vma_find p addr);
        if negb (vma =? 0) then on_vma (vma_fault_handler fuel vma addr) else mret false.

Definition load_init (uptime : Z) : M P unit :=
  process ← process_create uptime "/bin/init";
  if process =? 0 then mpanic "Failed to create init process"
  else
    user_thread ← on_sched (user_thread_create process);
    if user_thread =? 0 then mpanic "Failed to create user thread for init process"
    else on_sched (scheduler_add user_thread).

Definition timer_handler : M P unit := on_sched schedule.
End proc.

(** ** Specification *)

(** What a process's stack needs of page tables and allocator: [up_left a k] says
    that memory is left for [k] more pages of address space [a], [up_usable a w]
    that the processor lets ring 3 read and write at [w] in [a]. *)
Definition user_half (i : Z) : Prop := i < 256.
Class UserPages (H : Type) `{UM : UserMap H} := {
  up_left : address_space → nat → H → Prop;
  up_usable : address_space → Z → H → Prop;
  up_grow : ∀ a k h v, up_left a (S k) h → 0 ≤ v < 2 ^ 47 →
    ∃ q h1 h2, um_alloc_page h = Done (q, h1) ∧ um_map a v q stack_flags h1 = Done (tt, h2) ∧ up_left a k h2
      ∧ (∀ w, vpn w = vpn v → up_usable a w h2)
      ∧ (∀ w, 0 ≤ w < 2 ^ 47 → up_usable a w h → up_usable a w h2);
}.

(** The kernel's page tables and allocator provide it. *)
Section kernel_pages.
Context `{PAL : PageAllocatorLaws St}.

Definition k_left (a : address_space) (k : nat) (h : heap_state St) : Prop :=
  ∃ root T l bits, vm_inv user_half root (vm_pages (heap_vm h)) T l ∧ pml4 a = phys_to_virt root
    ∧ 0 ≤ bits ≤ 52 ∧ cpu_page_mask (heap_vm h) = 2 ^ bits - 1 ∧ hhdm_max ≤ 2 ^ bits ∧ (4 * k ≤ length l)%nat
    ∧ user_tree (heap_mem h) T.
(** By the processor's walk: the page is present, and every entry on the way to it and
    its own let ring 3 and writes through. *)
Definition k_usable (a : address_space) (w : Z) (h : heap_state St) : Prop :=
  ∃ x, mmu (heap_mem h) (virt_to_phys (pml4 a)) w = Some x ∧ ac_user x = true ∧ ac_write x = true.
Definition k_backed (a : address_space) (w : Z) (h : heap_state St) : Prop := 0 ≤ vmm_virt_to_phys_as a w (heap_mem h).

Lemma user_half_low w : 0 ≤ w < 2 ^ 47 → user_half (PML4_INDEX w).
Proof.
  intros Hw. unfold user_half, PML4_INDEX. rewrite index_mod by lia.
  change (2 ^ 39) with 549755813888. change (2 ^ 47) with 140737488355328 in Hw. zdiv.
Qed.

(** A frame from the allocator mapped at [v], in any part [own] of an address space. *)
Lemma map_frame own a v flags bits root T l (h : heap_state St) :
  vm_inv own root (vm_pages (heap_vm h)) T l → pml4 a = phys_to_virt root → own (PML4_INDEX v) →
  0 ≤ bits ≤ 52 → cpu_page_mask (heap_vm h) = 2 ^ bits - 1 → hhdm_max ≤ 2 ^ bits →
  0 ≤ flags < 2 ^ 64 → Z.land flags PAGE_MASK = 0 → (4 ≤ length l)%nat →
  ∃ q h1 h2 T' l', um_alloc_page h = Done (q, h1) ∧ q ≠ 0 ∧ um_map a v q flags h1 = Done (tt, h2)
    ∧ heap_vm h1 = set_pages (heap_vm h) (vm_pages (heap_vm h1))
    ∧ vm_inv own root (vm_pages (heap_vm h2)) T' l' ∧ (length l ≤ 4 + length l')%nat
    ∧ kernel_address_space (heap_vm h2) = kernel_address_space (heap_vm h) ∧ cpu_page_mask (heap_vm h2) = cpu_page_mask (heap_vm h)
    ∧ (∀ w, vpn w = vpn v → k_backed a w h2)
    ∧ (∀ w, own (PML4_INDEX w) → k_backed a w h → k_backed a w h2)
    ∧ (∀ w, vpn w = vpn v → mmu (heap_mem h2) root w
        = Some (mapped_access (walk (heap_mem h) root (dir_indices v)).1 (q + w mod PAGE_SIZE) flags))
    ∧ (∀ w, own (PML4_INDEX w) → vpn w ≠ vpn v → mmu (heap_mem h2) root w = mmu (heap_mem h) root w)
    ∧ (Z.testbit flags 2 = true → user_tree (heap_mem h) T → user_tree (heap_mem h2) T').
Proof.
  intros Hvm Hroot Hown Hbits Hmask Hmax Hf Hfm Hlen.
  destruct (vm_inv_alloc own root _ T l Hvm) as (p & l1 & s1 & Ha & Hl & Hp & Hvm1 & Hm1 & _ & Hag).
  { intros ->. simpl in Hlen. lia. }
  assert (length l = S (length l1)) as Hll by (by rewrite Hl).
  pose proof (page_ok_range p Hp) as (Hp0 & _).
  assert (p + PAGE_SIZE ≤ hhdm_max) as Hpmax by (by destruct Hp as (_ & _ & ?)).
  set (v1 := set_pages (heap_vm h) s1).
  destruct (vmm_map_full own root v1 T l1 a v p flags bits)
    as (s2 & T' & l' & Hmap & Hvm2 & Hsub & Hlen' & Htr & Hsame & _ & Hnewm & Hsamem & Hdirs);
    [exact Hvm1|exact Hroot|exact Hown|lia|exact Hmask
    |unfold PAGE_SIZE in *; lia|by destruct Hp|done|done|lia|].
  exists p, (heap_with h v1), (heap_with h (with_pages v1 s2 [Invlpg v])), T', l'.
  split; [by apply on_vm_Done, on_pages_Done|]. split; [lia|]. split; [by apply (on_vm_Done _ (heap_with h v1))|].
  split; [done|]. split; [done|]. split; [lia|]. split; [done|]. split; [done|].
  assert (∀ w, vpn w = vpn v → k_backed a w (heap_with h (with_pages v1 s2 [Invlpg v]))) as Hnew.
  { intros w Hw. unfold k_backed, heap_mem. simpl. rewrite Htr by done.
    pose proof (Z.mod_pos_bound w PAGE_SIZE). unfold PAGE_SIZE in *. lia. }
  assert (pt_wf own (heap_mem h) root T) as Hwf by (by destruct Hvm).
  assert (pt_wf own (vm_mem v1) root T) as Hwf1 by (by destruct Hvm1).
  split; [exact Hnew|]. split; [|split; [|split]].
  2: { intros w Hw. cbn. rewrite Hnewm by done. do 2 f_equal. change (vm_mem v1) with (pa_mem s1).
       by rewrite (walk_agree own root _ _ T Hwf Hag (dir_indices v) [] root (wf_root _ _ _ _ Hwf) ltac:(simpl; lia)
         (dir_range v) (in_own_dir own v Hown)). }
  2: { intros w Hw Hne. cbn. rewrite Hsamem by done. by apply (mmu_agree own root _ _ T). }
  2: { intros Hu Ht. rewrite Hu in Hdirs. apply (user_tree_grow own root (vm_mem v1) T); [done|done|exact Hdirs|].
       by apply (user_tree_agree (heap_mem h)). }
  intros w Hw Hb. destruct (decide (vpn w = vpn v)) as [E|Hne]; [by apply Hnew|].
  unfold k_backed, heap_mem. simpl. destruct (Hsame w Hw Hne) as [Hs _]. cbv zeta in Hs.
  assert (vmm_virt_to_phys_as a w (pa_mem s1) = vmm_virt_to_phys_as a w (heap_mem h)) as E.
  { clear Ha Hmap. rewrite !(translate_spec own root _ T); try done.
    unfold spec_translate. by rewrite (leaf_of_agree (heap_mem h) _ T). }
  unfold k_backed in Hb. rewrite <- E in Hb. unfold vm_mem in Hs. simpl in Hs. by rewrite Hs.
Qed.

Lemma kernel_grow a k (h : heap_state St) v : k_left a (S k) h → 0 ≤ v < 2 ^ 47 →
  ∃ q h1 h2, um_alloc_page h = Done (q, h1) ∧ um_map a v q stack_flags h1 = Done (tt, h2) ∧ k_left a k h2
    ∧ (∀ w, vpn w = vpn v → k_usable a w h2)
    ∧ (∀ w, 0 ≤ w < 2 ^ 47 → k_usable a w h → k_usable a w h2).
Proof.
  intros (root & T & l & bits & Hvm & Hroot & Hbits & Hmask & Hmax & Hlen & Hu) Hv.
  destruct (map_frame user_half a v stack_flags bits root T l h) as (q & h1 & h2 & T' & l' & Ha & _ & Hm & _ & Hvm' & Hl
    & _ & Hmask' & _ & _ & Hnew & Hkeep & Hu'); try done; [by apply user_half_low|lia|].
  assert (virt_to_phys (pml4 a) = root) as Hr.
  { rewrite Hroot, virt_to_phys_to_virt; [done|]. destruct Hvm as [_ Hwf _].
    pose proof (page_ok_range root (proj1 (wf_page _ _ _ _ Hwf _ _ (wf_root _ _ _ _ Hwf)))). unfold PAGE_SIZE in *. pow2. lia. }
  assert (∀ w, vpn w = vpn v → k_usable a w h2) as Husable.
  { intros w Hw. eexists. rewrite Hr, Hnew by done. split; [reflexivity|].
    rewrite (user_access user_half root _ T); [by split|by destruct Hvm|done|by apply user_half_low]. }
  exists q, h1, h2. split; [done|]. split; [done|]. split; [|split; [done|]].
  - exists root, T', l', bits. rewrite Hmask'. repeat (split; [done|]). split; [lia|]. by apply Hu'.
  - intros w Hw (x & Hx). destruct (decide (vpn w = vpn v)); [by apply Husable|].
    exists x. rewrite Hr in *.
    rewrite Hkeep; [done|by apply user_half_low|done].
Qed.
#[export] Instance kernel_user_pages : UserPages (heap_state St) := {| up_grow := kernel_grow |}.
End kernel_pages.

Section fault_spec.
Context `{OH : ObjectHeap H} `{KM : !KernelMem H} `{UM : !UserMap H} `{UP : !UserPages H}.
Context `{TI : ThreadImage} `{BT : Bstree} `{Uart} `{Abi}.
Abbreviation P := (proc_state H).
Implicit Types (s : P).

Definition get_v s : vma_state H := ss_heap (ps_sched s).
Definition set_v (v : vma_state H) s : P :=
  let c := ps_sched s in
  mk_ps H (mk_ss (vma_state H) v (threads c) (processes c) (current_thread c) (thread_list c) (next_tid c) (regs c))
    (next_pid s).
Definition k_heap s : H := fd_heap (vs_fd (get_v s)).

Lemma on_v_Done {A} (m : M (vma_state H) A) s x v : m (get_v s) = Done (x, v) → on_v m s = Done (x, set_v v s).
Proof. intros E. unfold on_v, on_sched, on_ss_heap, zoom. unfold get_v in E. by rewrite E. Qed.

Lemma on_k_Done {A} (m : M H A) s x h : m (k_heap s) = Done (x, h) →
  on_k m s = Done (x, set_v (with_heap (λ _, h) (get_v s)) s).
Proof. intros E. unfold on_k, on_f. apply on_v_Done. unfold on_fd, on_heap, zoom. unfold k_heap in E. by rewrite E. Qed.

Lemma write_u64_total value t : ∃ t', terminal_write_u64 value t = Done (tt, t').
Proof.
  unfold terminal_write_u64, print_back. destruct (value =? 0); [|apply puts_total].
  destruct (terminal_putc_ok t 48) as (t' & ? & _). by exists t'.
Qed.

(** A message changes only the state of the terminal. *)
Lemma stack_message_ok what pid s : ∃ v, stack_message what pid s = Done (tt, set_v v s) ∧ fd_heap (vs_fd v) = k_heap s.
Proof.
  unfold stack_message.
  destruct (say_ok (terminal_write what) (get_v s)) as (v1 & E1 & Q1 & _); [intros; apply puts_total|].
  rewrite (bind_Done _ _ _ _ _ (on_v_Done _ _ _ _ E1)).
  destruct (say_ok (terminal_write_u64 pid) v1) as (v2 & E2 & Q2 & _); [apply write_u64_total|].
  rewrite (bind_Done _ _ _ _ _ (on_v_Done _ (set_v v1 s) _ _ E2)).
  destruct (say_ok (terminal_putc 10) v2) as (v3 & E3 & Q3 & _).
  { intros t. destruct (terminal_putc_ok t 10) as (t' & ? & _). by exists t'. }
  exists v3. rewrite (on_v_Done _ (set_v v2 (set_v v1 s)) _ _ E3). split; [done|]. unfold k_heap. congruence.
Qed.

Definition with_bottom (x : process) (b : Z) : process :=
  mk_process (p_address_space x) (p_entry_point x) (p_rsp x) b (p_user_stack_bottom_max x) (p_main_thread x) (p_pid x).

(** The process [p] of the running thread is [x], and memory is left for [k] pages. *)
Record faulting s (p : Z) (x : process) (k : nat) : Prop := {
  fl_current : ∃ t, current_thread (ps_sched s) ≠ 0 ∧ threads (ps_sched s) !! current_thread (ps_sched s) = Some t
    ∧ t_process t = p;
  fl_process : p ≠ 0 ∧ processes (ps_sched s) !! p = Some x;
  fl_left : up_left (p_address_space x) k (k_heap s);
}.

Lemma proc_at_ok s p x : processes (ps_sched s) !! p = Some x → proc_at p s = Done (x, s).
Proof. intros E. unfold proc_at, on_sched, zoom, get_process. rewrite E. by destruct s. Qed.

Lemma grow_user_stack_ok s p x k : faulting s p x (S k) → 0 ≤ p_user_stack_bottom_max x →
  p_user_stack_bottom_max x + PAGE_SIZE ≤ p_user_stack_bottom x ≤ 2 ^ 47 →
  let b := p_user_stack_bottom x - PAGE_SIZE in
  ∃ s', grow_user_stack p s = Done (true, s') ∧ faulting s' p (with_bottom x b) k
    ∧ (∀ w, vpn w = vpn b → up_usable (p_address_space x) w (k_heap s'))
    ∧ (∀ w, 0 ≤ w < 2 ^ 47 → up_usable (p_address_space x) w (k_heap s) → up_usable (p_address_space x) w (k_heap s')).
Proof.
  intros [Hcur [Hp0 Hp] Hleft] Hmax Hb b. unfold grow_user_stack.
  rewrite (bind_Done _ _ _ _ _ (proc_at_ok s p x Hp)). 
  assert (0 < PAGE_SIZE < 2 ^ 64) by done. rewrite (u64_small (p_user_stack_bottom x - PAGE_SIZE)) by lia.
  fold b. destruct (Z.ltb_spec b (p_user_stack_bottom_max x)) as [|_]; [unfold b in *; lia|].
  destruct (stack_message_ok "Growing user stack for process " (p_pid x) s) as (v1 & E1 & Hh1).
  rewrite (bind_Done _ _ _ _ _ E1).
  destruct (up_grow (p_address_space x) k (k_heap s) b Hleft) as (q & h1 & h2 & Ha & Hmap & Hleft' & Hnew & Hkeep);
    [unfold b, PAGE_SIZE in *; lia|].
  set (s1 := set_v v1 s). assert (k_heap s1 = k_heap s) as Hs1 by exact Hh1.
  rewrite <- Hs1 in Ha. rewrite (bind_Done _ _ _ _ _ (on_k_Done _ s1 _ _ Ha)).
  set (s2 := set_v _ s1). assert (k_heap s2 = h1) as Hs2 by done.
  rewrite <- Hs2 in Hmap. rewrite (bind_Done _ _ _ _ _ (on_k_Done _ s2 _ _ Hmap)).
  set (s3 := set_v _ s2). eexists. split; [reflexivity|]. split; [|split].
  - split.
    + exact Hcur.
    + split; [done|]. apply lookup_insert_eq.
    + exact Hleft'.
  - exact Hnew.
  - exact Hkeep.
Qed.

(** The same access faulting [n] times. *)
Fixpoint faults (n : nat) (fuel : nat) (addr : Z) : M P bool :=
  match n with
  | O => mret true
  | S k => r ← page_fault_handler fuel addr; if r : bool then faults k fuel addr else mret false
  end.

Lemma page_fault_grow fuel addr s p x k : faulting s p x (S k) → 0 ≤ p_user_stack_bottom_max x →
  p_user_stack_bottom_max x ≤ addr < p_user_stack_bottom x → p_user_stack_bottom x ≤ 2 ^ 47 →
  page_fault_handler fuel addr s = (r ← grow_user_stack p; if (r : bool) then mret true
    else (vma ← on_vma (vma_find p addr);
          if negb (vma =? 0) then on_vma (vma_fault_handler fuel vma addr) else mret false)) s.
Proof.
  intros [(t & Hcur & Ht & Hp) [Hp0 Hx] _] Hmax Ha Hb. unfold page_fault_handler.
  assert (on_sched (gets current_thread) s = Done (current_thread (ps_sched s), s)) as Ec by (by destruct s).
  rewrite (bind_Done _ _ _ _ _ Ec). destruct (Z.eqb_spec (current_thread (ps_sched s)) 0); [done|].
  assert (CUR_PROCESS s = Done (p, s)) as Ep.
  { unfold CUR_PROCESS, on_sched, zoom, gets, get_thread, mbind, M_bind. rewrite Ht, <- Hp. by destruct s. }
  rewrite (bind_Done _ _ _ _ _ Ep). destruct (Z.eqb_spec p 0); [done|].
  rewrite (bind_Done _ _ _ _ _ (proc_at_ok s p x Hx)).
  assert (0 < PAGE_SIZE < 2 ^ 16) by done. rewrite u64_small by lia.
  destruct (Z.leb_spec (p_user_stack_bottom_max x) (addr + PAGE_SIZE)); [|lia].
  destruct (Z.ltb_spec addr (p_user_stack_bottom x)); [|lia]. done.
Qed.

Lemma faults_grow n fuel addr s p x base : faulting s p x n → (0 < n)%nat →
  base = addr - addr mod PAGE_SIZE → 0 ≤ p_user_stack_bottom_max x ≤ base →
  p_user_stack_bottom x = base + Z.of_nat n * PAGE_SIZE → p_user_stack_bottom x ≤ 2 ^ 47 →
  ∃ s', faults n fuel addr s = Done (true, s') ∧ faulting s' p (with_bottom x base) 0
    ∧ (∀ w, base ≤ w < p_user_stack_bottom x → up_usable (p_address_space x) w (k_heap s'))
    ∧ (∀ w, 0 ≤ w < 2 ^ 47 → up_usable (p_address_space x) w (k_heap s) → up_usable (p_address_space x) w (k_heap s')).
Proof.
  intros Hf Hn Hbase Hmax Hb Htop. revert s x Hf Hmax Hb Htop.
  pose proof (Z.mod_pos_bound addr PAGE_SIZE ltac:(done)) as Hmod. assert (PAGE_SIZE = 4096) as HP by done.
  assert (base mod 4096 = 0) as Hal by (rewrite HP in *; subst base; zdiv).
  induction n as [|n IH]; intros s x Hf Hmax Hb Htop; [lia|]. cbn [faults].
  set (b := p_user_stack_bottom x - PAGE_SIZE).
  destruct (grow_user_stack_ok s p x n Hf) as (s1 & Hg & Hf1 & Hnew & Hkeep); [lia|lia|].
  erewrite (bind_Done _ _ _ true s1); [|rewrite (page_fault_grow fuel addr s p x n Hf) by lia; by rewrite (bind_Done _ _ _ _ _ Hg)].
  assert (∀ w, b ≤ w < p_user_stack_bottom x → up_usable (p_address_space x) w (k_heap s1)) as Htop_page.
  { intros w Hw. apply Hnew. unfold vpn, b in *. rewrite HP in *. zdiv. }
  destruct n as [|n].
  - assert (b = base) as Eb by (unfold b; lia). exists s1. split; [done|].
    split; [fold b in Hf1; by rewrite Eb in Hf1|]. split; [|done]. by rewrite <- Eb.
  - destruct (IH ltac:(lia) s1 (with_bottom x b) Hf1) as (s' & Hr & Hf' & Hlow & Hkeep'); [simpl; unfold b; lia..|].
    exists s'. split; [exact Hr|]. split; [exact Hf'|]. cbn [p_address_space p_user_stack_bottom with_bottom] in *. split.
    + intros w Hw. destruct (decide (w < b)); [apply Hlow; lia|]. apply Hkeep'; [lia|]. apply Htop_page. lia.
    + intros w Hw Hu. by apply Hkeep', Hkeep.
Qed.

(** C26: an access below the stack, within the limit of its growth, is served: after as
    many page faults at it as there are pages between it and the stack's bottom, each
    of which is handled, the bottom is the page of the access, and the processor lets
    ring 3 read and write everything from there up to the old bottom, the access
    included, and whatever else of the user half it let ring 3 read and write
    before. *)
Theorem page_fault_grows_stack n fuel addr s p x : faulting s p x n → (0 < n)%nat →
  let base := addr - addr mod PAGE_SIZE in
  0 ≤ p_user_stack_bottom_max x ≤ base →
  p_user_stack_bottom x = base + Z.of_nat n * PAGE_SIZE → p_user_stack_bottom x ≤ 2 ^ 47 →
  ∃ s', faults n fuel addr s = Done (true, s') ∧ faulting s' p (with_bottom x base) 0
    ∧ up_usable (p_address_space x) addr (k_heap s')
    ∧ (∀ w, base ≤ w < p_user_stack_bottom x → up_usable (p_address_space x) w (k_heap s'))
    ∧ (∀ w, 0 ≤ w < 2 ^ 47 → up_usable (p_address_space x) w (k_heap s) → up_usable (p_address_space x) w (k_heap s')).
Proof.
  intros Hf Hn base Hmax Hb Htop. pose proof (Z.mod_pos_bound addr PAGE_SIZE ltac:(done)) as Hmod.
  assert (PAGE_SIZE = 4096) as HP by done. assert (base = addr - addr mod PAGE_SIZE) as Hbase by done.
  destruct (faults_grow n fuel addr s p x base Hf Hn Hbase Hmax Hb Htop) as (s' & Hr & Hf' & Hnew & Hkeep).
  exists s'. split; [done|]. split; [done|]. split; [apply Hnew; lia|done].
Qed.
End fault_spec.

Section create_spec.
Context `{OH : ObjectHeap H} `{KM : !KernelMem H} `{UM : !UserMap H} `{AS : !AddrSpaces H}.
Context `{EF : ElfFrame} `{TI : ThreadImage} `{BT : Bstree} `{TS : TreeStruct} `{Uart} `{Abi}.
Abbreviation P := (proc_state H).
Implicit Types (s : P).

Definition k_fd s : fd_state H := vs_fd (get_v s).
Definition with_fd (d : fd_state H) s : P :=
  let v := get_v s in set_v (mk_vs H d (areas v) (ppages v) (pvms v) (cur_process v)) s.

Lemma on_f_Done {A} (m : M (fd_state H) A) s x d : m (k_fd s) = Done (x, d) → on_f m s = Done (x, with_fd d s).
Proof. intros E. apply on_v_Done. unfold on_fd, zoom. unfold k_fd in E. by rewrite E. Qed.

Lemma with_fd_id s : with_fd (k_fd s) s = s.
Proof. by destruct s as [[[] ? ? ? ? ? ?] ?]. Qed.

Lemma open_ok filename r s : vfs_open filename O_RDONLY (fd_io (k_fd s)) = Done (r, fd_io (k_fd s)) →
  on_f (on_io (vfs_open filename O_RDONLY)) s = Done (r, s).
Proof.
  intros E. rewrite <- (with_fd_id s) at 2. apply on_f_Done. unfold on_io, zoom. rewrite E. by destruct (k_fd s).
Qed.

(** Process_create refuses a path that does not open, leaving everything as it was,
    and a file that elf_read_info refuses, before it allocates anything: only the
    loader's header buffers are written. *)
Theorem process_create_refuses uptime filename s :
  (vfs_open filename O_RDONLY (fd_io (k_fd s)) = Done (None, fd_io (k_fd s)) →
    process_create uptime filename s = Done (0, s))
  ∧ (∀ f data size, vfs_open filename O_RDONLY (fd_io (k_fd s)) = Done (Some f, fd_io (k_fd s)) →
      tar_file (fd_io (k_fd s)) f data size → frame_ok data size →
      e_phoff (header_at (s_mem (k_fd s)) data) + e_phnum (header_at (s_mem (k_fd s)) data) * sizeof_elf_phdr < 2 ^ 64 →
      spec_info (s_mem (k_fd s)) data size = None →
      ∃ m, process_create uptime filename s = Done (0, with_fd (with_io_mem m (k_fd s)) s)
        ∧ same_bytes data size (s_mem (k_fd s)) m).
Proof.
  split.
  - intros Hopen. unfold process_create. by rewrite (bind_Done _ _ _ _ _ (open_ok _ _ _ Hopen)).
  - intros f data size Hopen Hf Hfr Hw Hnone. unfold process_create. rewrite (bind_Done _ _ _ _ _ (open_ok _ _ _ Hopen)).
    destruct (elf_read_info_ok f data size (k_fd s) Hf Hfr Hw) as (m & o & Hr & Hm). rewrite Hnone in Hr.
    rewrite (bind_Done _ _ _ _ _ (on_f_Done _ _ _ _ Hr)). by exists m.
Qed.
End create_spec.

Module ProcWitness.
Import Pmm. Import DemoMemmap DemoHhdm VmmWitness HeapWitness DemoBst VfsWitness TermWitness SchedWitness ElfWitness.
#[local] Instance demo_struct : TreeStruct := {| sizeof_bstree := 24; sizeof_bstree_range := ltac:(lia) |}.


(** The demo heap, with process 0x900 running on thread 0x1000; its stack ends at
    0xEFFE0000 and memory is left for one page of it. *)
Definition stack_end : Z := 0xEFFE0000.
Definition demo_proc : process := mk_process VmmWitness.demo_as 0x400000 USER_STACK_TOP stack_end (stack_end - 128 * PAGE_SIZE) 0 1.
Definition demo_ps : proc_state (heap_state pmm_state) := mk_ps _
  (mk_ss _
    (mk_vs _ (mk_fd _ demo_heap (mk_kio demo_fs ∅ None (mk_term false 0 [])) ∅ ∅ 0 [] 0 ∅) ∅ ∅ ∅ 0)
    {[ 0x1000 := mk_thread 0 0x7000 0 1 0x600 0x900 0 [] 0 ]} {[ 0x900 := demo_proc ]} 0x1000 0x1000 2 demo_regs)
  2.

Lemma demo_faulting : faulting demo_ps 0x900 demo_proc 1.
Proof.
  split.
  - eexists. split; [done|]. split; [apply lookup_singleton_eq|done].
  - split; [done|]. apply lookup_singleton_eq.
  - exists demo_root, {[ [] := demo_root ]}, demo_free, 46.
    split; [apply demo_inv|]. split; [reflexivity|]. split; [lia|]. split; [reflexivity|]. split; [by vm_compute|]. split; [simpl; lia|].
    intros π p i Hp _ _ [q Hq]. apply lookup_singleton_Some in Hq as [Hq _]. by destruct π.
Qed.

Lemma page_fault_grows_stack_witness :
  ∃ s', faults 1 0 (stack_end - 16) demo_ps = Done (true, s')
    ∧ faulting s' 0x900 (with_bottom demo_proc (stack_end - PAGE_SIZE)) 0
    ∧ up_usable VmmWitness.demo_as (stack_end - 16) (k_heap s').
Proof.
  destruct (page_fault_grows_stack 1 0 (stack_end - 16) demo_ps 0x900 demo_proc demo_faulting ltac:(lia)
    ltac:(vm_compute; split; discriminate) eq_refl ltac:(vm_compute; discriminate)) as (s' & Hr & Hf & Hu & _).
  exists s'. split; [exact Hr|]. split; [exact Hf|exact Hu].
Defined.

(** /motd is 12 bytes long: too short for a header. *)
Lemma process_create_refuses_witness :
  process_create 7 "/nothing" demo_ps = Done (0, demo_ps)
  ∧ ∃ m, process_create 7 "/motd" demo_ps = Done (0, with_fd (with_io_mem m (k_fd demo_ps)) demo_ps).
Proof.
  split.
  - apply (proj1 (process_create_refuses 7 "/nothing" demo_ps)). reflexivity.
  - destruct (proj2 (process_create_refuses 7 "/motd" demo_ps) (mk_file (TarNode 1) 0 0 0) 0x20000 12)
      as (m & Hr & _).
    + reflexivity.
    + split; [by eexists|lia|lia].
    + unfold frame_ok, buffer_ok, sizeof_elf_header, sizeof_elf_phdr. simpl. lia.
    + vm_compute. reflexivity.
    + vm_compute. reflexivity.
    + exists m. exact Hr.
Defined.
End ProcWitness.
