(* ===== verification/Desc.v ===== *)
(** * The descriptor tables: src/interrupts/idt.c, gdt.c and irq_install of irq.c

    The IDT, GDT and TSS are bytes at the addresses the linker gives them; the code
    writes them field by field. [gate_at], [segment_at], [tss_at] and [io_allowed]
    read them as the processor does. *)
From S2P Require Import Prelude CMem Words.

(** Where the linker puts the stubs, the tables and the stacks. *)
Class KernelImage := {
  isr_stub_addr : Z → Z;
  irq_stub_addr : Z → Z;
  idt_addr : Z;
  gdt_addr : Z;
  tss_addr : Z;
  kernel_irq_stack : Z;
  double_fault_ist_stack : Z;
}.
(** Objects of different names do not overlap; the stacks are declared aligned. *)
Class KernelImageLaws `{KI : KernelImage} := {
  isr_stub_range : ∀ n, 0 ≤ isr_stub_addr n < 2 ^ 64;
  irq_stub_range : ∀ n, 0 ≤ irq_stub_addr n < 2 ^ 64;
  isr_stubs_differ : ∀ n n', 0 ≤ n < 32 → 0 ≤ n' < 32 → isr_stub_addr n = isr_stub_addr n' → n = n';
  irq_stubs_differ : ∀ i i', 0 ≤ i < 16 → 0 ≤ i' < 16 → irq_stub_addr i = irq_stub_addr i' → i = i';
  stubs_differ : ∀ n i, 0 ≤ n < 32 → 0 ≤ i < 16 → isr_stub_addr n ≠ irq_stub_addr i;
  tss_range : 0 ≤ tss_addr < 2 ^ 64;
  tables_apart : (gdt_addr + 64 ≤ tss_addr ∨ tss_addr + 104 ≤ gdt_addr)
    ∧ (idt_addr + 4096 ≤ tss_addr ∨ tss_addr + 104 ≤ idt_addr)
    ∧ (idt_addr + 4096 ≤ gdt_addr ∨ gdt_addr + 64 ≤ idt_addr);
  stacks_range : 0 ≤ kernel_irq_stack ∧ kernel_irq_stack + 8192 < 2 ^ 64
    ∧ 0 ≤ double_fault_ist_stack ∧ double_fault_ist_stack + 8192 < 2 ^ 64;
  stacks_aligned : kernel_irq_stack mod 16 = 0 ∧ double_fault_ist_stack mod 16 = 0;
}.

Record desc_state := mk_desc {
  d_mem : mem;
  kernel_cs_selector : Z;
  isr_stub_table : list Z;
  idtr : Z * Z;               (* limit and base, as lidt loaded them *)
  gdtr : Z * Z;
  seg_cs : Z; seg_ds : Z; seg_es : Z; seg_ss : Z;
  task_register : Z;
}.

Section desc.
Context `{KI : KernelImage}.

Definition set_d_mem (m : mem) (s : desc_state) : desc_state :=
  mk_desc m (kernel_cs_selector s) (isr_stub_table s) (idtr s) (gdtr s) (seg_cs s) (seg_ds s) (seg_es s) (seg_ss s) (task_register s).
Definition set_selector (c : Z) (s : desc_state) : desc_state :=
  mk_desc (d_mem s) c (isr_stub_table s) (idtr s) (gdtr s) (seg_cs s) (seg_ds s) (seg_es s) (seg_ss s) (task_register s).
Definition set_stub_table (l : list Z) (s : desc_state) : desc_state :=
  mk_desc (d_mem s) (kernel_cs_selector s) l (idtr s) (gdtr s) (seg_cs s) (seg_ds s) (seg_es s) (seg_ss s) (task_register s).
(** An assignment to a field of [n] bytes at [a]. *)
Definition store (n : nat) (a v : Z) : M desc_state unit := modify (λ s, set_d_mem (stn n a v (d_mem s)) s).

(** ** idt.c *)

Definition get_kernel_cs_selector : M desc_state Z := gets seg_cs.

Definition idt_set_gate (vector isr flags : Z) : M desc_state unit :=
  if (vector <? 0) || (256 <=? vector) then mundef "idt: out of bounds"
  else
    let e := idt_addr + 16 * vector in
    sel ← gets kernel_cs_selector;
    _ ← store 2 e (Z.land isr 0xFFFF);
    _ ← store 2 (e + 2) sel;
    _ ← store 1 (e + 4) 0;
    _ ← store 1 (e + 5) flags;
    _ ← store 2 (e + 6) (Z.land (Z.shiftr isr 16) 0xFFFF);
    _ ← store 4 (e + 8) (Z.land (Z.shiftr isr 32) 0xFFFFFFFF);
    store 4 (e + 12) 0.

Definition load_idtr (limit base : Z) : M desc_state unit :=
  modify (λ s, mk_desc (d_mem s) (kernel_cs_selector s) (isr_stub_table s) (limit, base) (gdtr s)
    (seg_cs s) (seg_ds s) (seg_es s) (seg_ss s) (task_register s)).

Definition table_gate (table : list Z) (first i : Z) : M desc_state unit :=
  match table !! Z.to_nat i with
  | Some stub => idt_set_gate (first + i) stub 0x8E
  | None => mundef "stub table: out of bounds"
  end.

Definition idt_init : M desc_state unit :=
  cs ← get_kernel_cs_selector;
  _ ← modify (set_selector cs);
  _ ← modify (set_stub_table (isr_stub_addr <$> seqZ 0 32));
  table ← gets isr_stub_table;
  _ ← for_each (seqZ 0 32) (table_gate table 0);
  _ ← store 1 (idt_addr + 16 * 8 + 4) 1;
  load_idtr (u16 (4096 - 1)) idt_addr.

(** irq.c *)
Definition irq_stub_table : list Z := irq_stub_addr <$> seqZ 0 16.
Definition irq_install : M desc_state unit := for_each (seqZ 0 16) (table_gate irq_stub_table 32).

(** ** gdt.c *)

Definition gdt_entries : list Z :=
  [0x0000000000000000; 0x00af9a000000ffff; 0x00af92000000ffff; 0x00affb000000ffff; 0x00aff3000000ffff; 0x00affb000000ffff].
Definition sizeof_tss : Z := 104.
Definition tss_desc_low (tss_base tss_limit : Z) : Z :=
  let desc_low := Z.land tss_limit 0xFFFF in
  let desc_low := Z.lor desc_low (u64 (Z.shiftl (Z.land tss_base 0xFFFFFF) 16)) in
  let desc_low := Z.lor desc_low (Z.shiftl 0x89 40) in
  let desc_low := Z.lor desc_low (Z.shiftl (Z.land (Z.shiftr tss_limit 16) 0xF) 48) in
  Z.lor desc_low (u64 (Z.shiftl (Z.land (Z.shiftr tss_base 24) 0xFF) 56)).
Definition tss_desc_high (tss_base : Z) : Z := Z.land (Z.shiftr tss_base 32) 0xFFFFFFFF.

Definition KERNEL_CS : Z := 0x08.
Definition USER_CS : Z := 0x2B.
Definition USER_SS : Z := 0x23.
Definition load_gdt (limit base : Z) : M desc_state unit :=
  modify (λ s, mk_desc (d_mem s) (kernel_cs_selector s) (isr_stub_table s) (idtr s) (limit, base)
    KERNEL_CS 0x10 0x10 0x10 0x30).

(** rsp0 is at 4 of the packed tss_struct, ist[0] at 36. *)
Definition gdt_install : M desc_state unit :=
  _ ← for_each (imap (λ i e, (Z.of_nat i, e)) gdt_entries) (λ x, store 8 (gdt_addr + 8 * x.1) x.2);
  _ ← for_each (seqZ 0 sizeof_tss) (λ i, store 1 (tss_addr + i) 0);
  _ ← store 8 (tss_addr + 4) (u64 (kernel_irq_stack + 8192));
  _ ← store 8 (tss_addr + 36) (u64 (double_fault_ist_stack + 8192));
  _ ← store 8 (gdt_addr + 48) (tss_desc_low tss_addr (sizeof_tss - 1));
  _ ← store 8 (gdt_addr + 56) (tss_desc_high tss_addr);
  load_gdt (u16 (64 - 1)) gdt_addr.
End desc.

(** ** The processor's reading of the tables *)

Record gate := mk_gate {
  g_target : Z; g_selector : Z; g_ist : Z;
  g_type : Z;                 (* 14: interrupt gate *)
  g_dpl : Z; g_present : bool;
}.
Definition gate_at (m : mem) (a : Z) : gate :=
  let attr := ldb m (a + 5) in
  mk_gate (ldn 2 m a + 2 ^ 16 * ldn 2 m (a + 6) + 2 ^ 32 * ldn 4 m (a + 8)) (ldn 2 m (a + 2)) (ldb m (a + 4) mod 8)
    (attr mod 16) (attr / 32 mod 4) (negb (attr / 128 =? 0)).
Definition idt_gate (m : mem) (idt : Z) (vector : Z) : gate := gate_at m (idt + 16 * vector).

(** A code or data segment in 64-bit mode: the rest of its descriptor is ignored. *)
Record segment := mk_segment {
  sg_code : bool; sg_long : bool;
  sg_rw : bool;               (* a code segment readable, a data segment writable *)
  sg_dpl : Z; sg_present : bool;
}.
Definition bit (d i : Z) : bool := negb (d / 2 ^ i mod 2 =? 0).
Definition segment_of (d : Z) : option segment :=
  if bit d 44 then Some (mk_segment (bit d 43) (bit d 53) (bit d 41) (d / 2 ^ 45 mod 4) (bit d 47)) else None.
(** The descriptor a selector names, in the GDT. *)
Definition segment_at (m : mem) (gdt selector : Z) : option segment := segment_of (ld64 m (gdt + selector / 8 * 8)).

(** A system descriptor of 16 bytes: access byte (0x89: available TSS), base and limit. *)
Definition system_of (lo hi : Z) : Z * Z * Z :=
  (lo / 2 ^ 40 mod 256, lo / 2 ^ 16 mod 2 ^ 24 + 2 ^ 24 * (lo / 2 ^ 56) + 2 ^ 32 * (hi mod 2 ^ 32),
   lo mod 2 ^ 16 + 2 ^ 16 * (lo / 2 ^ 48 mod 16)).
Definition tss_at (m : mem) (gdt selector : Z) : Z * Z * Z :=
  let a := gdt + selector / 8 * 8 in system_of (ld64 m a) (ld64 m (a + 8)).

(** Whether code in ring 3 with IOPL 0 may access the byte-wide port [p]: the two
    bytes of the I/O permission bitmap that hold its bit must lie within the TSS,
    and the bit must be clear. *)
Definition io_allowed (m : mem) (tss limit p : Z) : bool :=
  let a := ldn 2 m (tss + 102) + p / 8 in
  (a + 1 <=? limit) && (ldb m (tss + a) / 2 ^ (p mod 8) mod 2 =? 0).

(** ** Lemmas *)

Lemma land_ones_16 x : Z.land x 0xFFFF = x mod 2 ^ 16.
Proof. apply (Z.land_ones x 16). lia. Qed.
Lemma land_ones_32 x : Z.land x 0xFFFFFFFF = x mod 2 ^ 32.
Proof. apply (Z.land_ones x 32). lia. Qed.

(** An address from its three parts. *)
Lemma split_address a : 0 ≤ a < 2 ^ 64 →
  a mod 2 ^ 16 + 2 ^ 16 * (a / 2 ^ 16 mod 2 ^ 16) + 2 ^ 32 * (a / 2 ^ 32 mod 2 ^ 32) = a.
Proof. intros Ha. pow2. zdiv. Qed.

(** The low byte of a word. *)
Lemma low_byte m a : ldb m a = ld64 m a mod 256.
Proof.
  change (ld64 m a) with (ldb m a + 256 * ldn 7 m (a + 1)).
  rewrite (Z.mul_comm 256), Z.mod_add, Z.mod_small by (done || apply ldb_range). done.
Qed.

Lemma gate_at_ext m m' a : (∀ b, a ≤ b < a + 16 → ldb m' b = ldb m b) → gate_at m' a = gate_at m a.
Proof.
  intros H. unfold gate_at.
  rewrite !(H _) by lia. by rewrite !(ldn_ext _ m m') by (intros b Hb; apply H; lia).
Qed.

(** What idt_set_gate leaves in memory. *)
Definition write_gate (e sel isr flags : Z) (m : mem) : mem :=
  stn 4 (e + 12) 0 (stn 4 (e + 8) (Z.land (Z.shiftr isr 32) 0xFFFFFFFF)
    (stn 2 (e + 6) (Z.land (Z.shiftr isr 16) 0xFFFF) (stn 1 (e + 5) flags (stn 1 (e + 4) 0
      (stn 2 (e + 2) sel (stn 2 e (Z.land isr 0xFFFF) m)))))).

Lemma write_gate_outside e sel isr flags m : same_outside e (e + 16) m (write_gate e sel isr flags m).
Proof. intros b Hb. unfold write_gate. by rewrite !ldb_stn_ne by (simpl; lia). Qed.

Lemma ldb_ldn m a : ldb m a = ldn 1 m a.
Proof. change (ldb m a = ldb m a + 256 * 0). lia. Qed.

Lemma write_gate_ok e sel isr flags m : 0 ≤ isr < 2 ^ 64 → 0 ≤ sel < 2 ^ 16 → 0 ≤ flags < 2 ^ 8 →
  gate_at (write_gate e sel isr flags m) e
  = mk_gate isr sel 0 (flags mod 16) (flags / 32 mod 4) (negb (flags / 128 =? 0)).
Proof.
  intros Hisr Hsel Hflags. unfold gate_at, write_gate. rewrite !ldb_ldn.
  rewrite !(ldn_stn_ne 4), !(ldn_stn_ne 2), !(ldn_stn_ne 1) by (simpl; lia).
  repeat (rewrite !ldn_stn_eq || rewrite !ldn_stn_ne by (simpl; lia)).
  rewrite Z.mod_0_l by (simpl; lia).
  change (2 ^ (8 * Z.of_nat 2)) with (2 ^ 16). change (2 ^ (8 * Z.of_nat 1)) with (2 ^ 8).
  change (2 ^ (8 * Z.of_nat 4)) with (2 ^ 32). rewrite !land_ones_16, land_ones_32, !Z.mod_mod by lia.
  rewrite !Z.shiftr_div_pow2, split_address by lia. by rewrite (Z.mod_small sel), (Z.mod_small flags) by lia.
Qed.

(** A present interrupt gate of ring 0. *)
Definition int_gate (stub sel ist : Z) : gate := mk_gate stub sel ist 14 0 true.

Section spec.
Context `{KL : KernelImageLaws}.

Lemma set_d_mem_twice m m' s : set_d_mem m (set_d_mem m' s) = set_d_mem m s.
Proof. done. Qed.

Lemma idt_set_gate_ok v isr flags s : 0 ≤ v < 256 →
  idt_set_gate v isr flags s
  = Done (tt, set_d_mem (write_gate (idt_addr + 16 * v) (kernel_cs_selector s) isr flags (d_mem s)) s).
Proof.
  intros Hv. unfold idt_set_gate.
  destruct (Z.ltb_spec v 0); [lia|]. destruct (Z.leb_spec 256 v); [lia|]. reflexivity.
Qed.

Lemma install_gates table first l s : 0 ≤ kernel_cs_selector s < 2 ^ 16 → NoDup l →
  (∀ i, i ∈ l → 0 ≤ first + i < 256 ∧ ∃ stub, table !! Z.to_nat i = Some stub ∧ 0 ≤ stub < 2 ^ 64) →
  ∃ m', for_each l (table_gate table first) s = Done (tt, set_d_mem m' s)
    ∧ (∀ i stub, i ∈ l → table !! Z.to_nat i = Some stub →
        idt_gate m' idt_addr (first + i) = int_gate stub (kernel_cs_selector s) 0)
    ∧ (∀ b, (∀ i, i ∈ l → b < idt_addr + 16 * (first + i) ∨ idt_addr + 16 * (first + i) + 16 ≤ b) →
        ldb m' b = ldb (d_mem s) b).
Proof.
  revert s. induction l as [|x l IH]; intros s Hsel Hnd Hl.
  { exists (d_mem s). split; [by destruct s|]. split; [|done]. intros i ? Hi. by apply elem_of_nil in Hi. }
  apply NoDup_cons in Hnd as [Hx Hnd].
  destruct (Hl x) as (Hxr & stub & Htab & Hstub); [by left|].
  set (m1 := write_gate (idt_addr + 16 * (first + x)) (kernel_cs_selector s) stub 0x8E (d_mem s)).
  destruct (IH (set_d_mem m1 s) Hsel Hnd) as (m2 & Hrun & Hgates & Hsame); [intros i Hi; apply Hl; by right|].
  exists m2. split; [|split].
  - change (for_each (x :: l) (table_gate table first)) with (_ ← table_gate table first x; for_each l (table_gate table first)).
    rewrite (bind_Done _ _ _ tt (set_d_mem m1 s)); [exact Hrun|].
    unfold table_gate. rewrite Htab. by apply idt_set_gate_ok.
  - intros i st Hi Hti. apply elem_of_cons in Hi as [->|Hi]; [|by apply Hgates].
    rewrite Htab in Hti. apply (inj Some) in Hti as <-. unfold idt_gate.
    rewrite (gate_at_ext m1 m2); [unfold m1; by apply write_gate_ok|].
    intros b Hb. apply Hsame. intros i Hi. assert (i ≠ x) by (by intros ->). lia.
  - intros b Hb. rewrite Hsame by (intros i Hi; apply Hb; by right). apply write_gate_outside. apply Hb. by left.
Qed.

(** Entry [8] of the IDT with its IST field set. *)
Lemma set_ist_ok m a g : gate_at m a = g → gate_at (stn 1 (a + 4) 1 m) a
  = mk_gate (g_target g) (g_selector g) 1 (g_type g) (g_dpl g) (g_present g).
Proof.
  intros <-. unfold gate_at. cbn [g_target g_selector g_type g_dpl g_present].
  rewrite !(ldn_stn_ne 1 2), (ldn_stn_ne 1 4) by (simpl; lia). rewrite !ldb_ldn, ldn_stn_eq, ldn_stn_ne by (simpl; lia).
  reflexivity.
Qed.

Definition idt_entries (sel : Z) (m m' : mem) : Prop := ∀ v, 0 ≤ v < 256 →
  idt_gate m' idt_addr v =
    if v <? 32 then int_gate (isr_stub_addr v) sel (if v =? 8 then 1 else 0)
    else if v <? 48 then int_gate (irq_stub_addr (v - 32)) sel 0
    else idt_gate m idt_addr v.

Lemma stub_lookup (f : Z → Z) n i : 0 ≤ i < n → (f <$> seqZ 0 n) !! Z.to_nat i = Some (f i).
Proof. intros Hi. rewrite list_lookup_fmap, lookup_seqZ_lt by lia. simpl. f_equal. f_equal. lia. Qed.

Lemma gates_range (f : Z → Z) n first : 0 ≤ first → first + n ≤ 256 → (∀ i, 0 ≤ f i < 2 ^ 64) →
  ∀ i, i ∈ seqZ 0 n → 0 ≤ first + i < 256 ∧ ∃ stub, (f <$> seqZ 0 n) !! Z.to_nat i = Some stub ∧ 0 ≤ stub < 2 ^ 64.
Proof.
  intros Hf Hn Hr i Hi. apply elem_of_seqZ in Hi. split; [lia|]. exists (f i). split; [apply stub_lookup; lia|apply Hr].
Qed.

Definition idt_loaded (s : desc_state) (m : mem) : desc_state :=
  mk_desc m (seg_cs s) (isr_stub_addr <$> seqZ 0 32) (4095, idt_addr) (gdtr s) (seg_cs s) (seg_ds s) (seg_es s) (seg_ss s) (task_register s).

Lemma idt_init_ok s : 0 ≤ seg_cs s < 2 ^ 16 → ∃ m', idt_init s = Done (tt, idt_loaded s m')
  ∧ (∀ v, 0 ≤ v < 32 → idt_gate m' idt_addr v = int_gate (isr_stub_addr v) (seg_cs s) (if v =? 8 then 1 else 0))
  ∧ (∀ b, b < idt_addr ∨ idt_addr + 16 * 32 ≤ b → ldb m' b = ldb (d_mem s) b).
Proof.
  intros Hcs. set (s1 := set_stub_table (isr_stub_addr <$> seqZ 0 32) (set_selector (seg_cs s) s)).
  destruct (install_gates (isr_stub_addr <$> seqZ 0 32) 0 (seqZ 0 32) s1) as (m1 & Hrun & Hg & Hs);
    [exact Hcs|apply NoDup_seqZ|apply gates_range; [lia..|apply isr_stub_range]|].
  exists (stn 1 (idt_addr + 16 * 8 + 4) 1 m1). split; [|split].
  - unfold idt_init.
    change (get_kernel_cs_selector s) with (Done (seg_cs s, s)).
    rewrite (bind_Done get_kernel_cs_selector _ s (seg_cs s) s eq_refl).
    rewrite (bind_Done _ _ s tt (set_selector (seg_cs s) s) eq_refl).
    rewrite (bind_Done _ _ _ tt s1 eq_refl), (bind_Done _ _ s1 (isr_stub_addr <$> seqZ 0 32) s1 eq_refl).
    rewrite (bind_Done _ _ _ _ _ Hrun). reflexivity.
  - intros v Hv. assert (idt_gate m1 idt_addr v = int_gate (isr_stub_addr v) (seg_cs s) 0) as Hgv.
    { specialize (Hg v (isr_stub_addr v)). rewrite Z.add_0_l in Hg. apply Hg; [apply elem_of_seqZ; lia|apply stub_lookup; lia]. }
    destruct (Z.eqb_spec v 8) as [->|Hne].
    + unfold idt_gate in *. by rewrite (set_ist_ok _ _ _ Hgv).
    + rewrite <- Hgv. apply gate_at_ext. intros b Hb. apply ldb_stn_ne. simpl. lia.
  - intros b Hb. rewrite ldb_stn_ne by (simpl; lia). apply Hs. intros i Hi. apply elem_of_seqZ in Hi. lia.
Qed.

Lemma irq_install_ok s : 0 ≤ kernel_cs_selector s < 2 ^ 16 → ∃ m', irq_install s = Done (tt, set_d_mem m' s)
  ∧ (∀ v, 32 ≤ v < 48 → idt_gate m' idt_addr v = int_gate (irq_stub_addr (v - 32)) (kernel_cs_selector s) 0)
  ∧ (∀ b, b < idt_addr + 16 * 32 ∨ idt_addr + 16 * 48 ≤ b → ldb m' b = ldb (d_mem s) b).
Proof.
  intros Hcs. destruct (install_gates irq_stub_table 32 (seqZ 0 16) s) as (m1 & Hrun & Hg & Hs);
    [exact Hcs|apply NoDup_seqZ|apply gates_range; [lia..|apply irq_stub_range]|].
  exists m1. split; [exact Hrun|]. split.
  - intros v Hv. specialize (Hg (v - 32) (irq_stub_addr (v - 32))). replace (32 + (v - 32)) with v in Hg by lia.
    apply Hg; [apply elem_of_seqZ; lia|apply stub_lookup; lia].
  - intros b Hb. apply Hs. intros i Hi. apply elem_of_seqZ in Hi. lia.
Qed.

Lemma idt_ok s : 0 ≤ seg_cs s < 2 ^ 16 →
  ∃ m', (_ ← idt_init; irq_install) s = Done (tt, idt_loaded s m')
    ∧ idt_entries (seg_cs s) (d_mem s) m' ∧ same_outside idt_addr (idt_addr + 4096) (d_mem s) m'.
Proof.
  intros Hcs. destruct (idt_init_ok s Hcs) as (m1 & Hr1 & Hg1 & Hs1).
  destruct (irq_install_ok (idt_loaded s m1) Hcs) as (m2 & Hr2 & Hg2 & Hs2).
  exists m2. split; [by rewrite (bind_Done _ _ _ _ _ Hr1)|]. simpl in Hs2. split.
  - intros v Hv. destruct (Z.ltb_spec v 32).
    + rewrite <- Hg1 by lia. apply gate_at_ext. intros b Hb. apply Hs2. lia.
    + destruct (Z.ltb_spec v 48); [apply Hg2; lia|].
      apply gate_at_ext. intros b Hb. rewrite Hs2, Hs1 by lia. done.
  - intros b Hb. by rewrite Hs2, Hs1 by lia.
Qed.

(** ** The GDT and the TSS *)

(** The fields of the descriptor are where the processor looks for them. *)
Lemma tss_desc_ok base limit : 0 ≤ base < 2 ^ 64 → 0 ≤ limit < 2 ^ 20 →
  system_of (u64 (tss_desc_low base limit)) (u64 (tss_desc_high base)) = (0x89, base, limit).
Proof.
  intros Hb Hl. unfold tss_desc_low, tss_desc_high.
  change 0xFFFFFF with (Z.ones 24). change 0xFFFF with (Z.ones 16). change 0xFF with (Z.ones 8).
  change 0xF with (Z.ones 4). change 0xFFFFFFFF with (Z.ones 32).
  rewrite !Z.land_ones, !Z.shiftr_div_pow2 by lia.
  rewrite (u64_small (Z.shiftl (base mod 2 ^ 24) 16)), (u64_small (Z.shiftl (base / 2 ^ 24 mod 2 ^ 8) 56))
    by (rewrite Z.shiftl_mul_pow2 by lia; pow2; zdiv).
  rewrite (lor_shiftl_add (limit mod 2 ^ 16)) by (pow2; zdiv).
  rewrite (lor_shiftl_add _ 0x89) by (pow2; zdiv).
  rewrite (lor_shiftl_add _ _ 48) by (pow2; zdiv).
  rewrite (lor_shiftl_add _ _ 56) by (pow2; zdiv).
  rewrite !u64_small by (pow2; zdiv). unfold system_of. f_equal; [f_equal|]; pow2; zdiv.
Qed.

Lemma zero_bytes a l s : ∃ m', for_each l (λ i, store 1 (a + i) 0) s = Done (tt, set_d_mem m' s)
  ∧ ∀ b, ldb m' b = if decide (b - a ∈ l) then 0 else ldb (d_mem s) b.
Proof.
  revert s. induction l as [|x l IH]; intros s.
  { exists (d_mem s). split; [by destruct s|]. intros b. rewrite decide_False; [done|apply not_elem_of_nil]. }
  destruct (IH (set_d_mem (stn 1 (a + x) 0 (d_mem s)) s)) as (m' & Hrun & Hm). exists m'. split; [exact Hrun|].
  intros b. rewrite Hm. destruct (decide (b - a ∈ l)) as [Hin|Hin].
  - rewrite decide_True; [done|by right].
  - destruct (decide (b - a = x)) as [<-|Hne].
    + rewrite decide_True by left. replace (a + (b - a)) with b by lia.
      change (ldb (d_mem (set_d_mem (stn 1 b 0 (d_mem s)) s)) b) with (ldb (stb b 0 (d_mem s)) b). by rewrite ldb_stb_eq.
    + rewrite decide_False by (intros [?|?]%elem_of_cons; done). apply ldb_stn_ne. simpl. lia.
Qed.

(** The memory gdt_install leaves, [z] being zero in the TSS. *)
Definition gdt_memory (z : mem) : mem :=
  stn 8 (gdt_addr + 56) (tss_desc_high tss_addr) (stn 8 (gdt_addr + 48) (tss_desc_low tss_addr (sizeof_tss - 1))
    (stn 8 (tss_addr + 36) (u64 (double_fault_ist_stack + 8192)) (stn 8 (tss_addr + 4) (u64 (kernel_irq_stack + 8192)) z))).
Definition gdt_words (m : mem) : mem :=
  stn 8 (gdt_addr + 40) 0x00affb000000ffff (stn 8 (gdt_addr + 32) 0x00aff3000000ffff (stn 8 (gdt_addr + 24) 0x00affb000000ffff
    (stn 8 (gdt_addr + 16) 0x00af92000000ffff (stn 8 (gdt_addr + 8) 0x00af9a000000ffff (stn 8 (gdt_addr + 0) 0 m))))).
Definition gdt_loaded (s : desc_state) (m : mem) : desc_state :=
  mk_desc m (kernel_cs_selector s) (isr_stub_table s) (idtr s) (63, gdt_addr) KERNEL_CS 0x10 0x10 0x10 0x30.

Lemma gdt_install_run s : ∃ z, gdt_install s = Done (tt, gdt_loaded s (gdt_memory z))
  ∧ ∀ b, ldb z b = if decide (tss_addr ≤ b < tss_addr + 104) then 0 else ldb (gdt_words (d_mem s)) b.
Proof.
  destruct (zero_bytes tss_addr (seqZ 0 sizeof_tss) (set_d_mem (gdt_words (d_mem s)) s)) as (z & Hrun & Hz).
  exists z. split.
  - unfold gdt_install. rewrite (bind_Done _ _ s tt (set_d_mem (gdt_words (d_mem s)) s) eq_refl).
    rewrite (bind_Done _ _ _ _ _ Hrun). reflexivity.
  - intros b. rewrite Hz. unfold sizeof_tss.
    destruct (decide (b - tss_addr ∈ seqZ 0 104)) as [Hi|Hi]; rewrite elem_of_seqZ in Hi;
      destruct (decide _); (done || lia).
Qed.

(** What is in memory once gdt_install is done. *)
Record gdt_in (m : mem) : Prop := {
  gi_words : words m gdt_addr (gdt_entries ++ [u64 (tss_desc_low tss_addr 103); u64 (tss_desc_high tss_addr)]);
  gi_rsp0 : ld64 m (tss_addr + 4) = kernel_irq_stack + 8192;
  gi_ist1 : ld64 m (tss_addr + 36) = double_fault_ist_stack + 8192;
  gi_zero : ∀ k, 0 ≤ k < 4 ∨ 12 ≤ k < 36 ∨ 44 ≤ k < 104 → ldb m (tss_addr + k) = 0;
}.

Lemma gdt_memory_ok (m z : mem) :
  (∀ b, ldb z b = if decide (tss_addr ≤ b < tss_addr + 104) then 0 else ldb (gdt_words m) b) → gdt_in (gdt_memory z).
Proof.
  intros Hz. destruct tables_apart as (Hap & _). destruct stacks_range as (?&?&?&?).
  assert (∀ k, 0 ≤ k ≤ 40 → ld64 (gdt_memory z) (gdt_addr + k) = ld64 (gdt_words m) (gdt_addr + k)) as Hw.
  { intros k Hk. unfold gdt_memory. rewrite !ld64_st64_ne by lia.
    apply ldn_ext. intros b Hb. rewrite Hz, decide_False; [done|]. lia. }
  split.
  - unfold gdt_entries. cbn [app words].
    replace (gdt_addr + 8 + 8 + 8 + 8 + 8 + 8 + 8) with (gdt_addr + 56) by lia.
    replace (gdt_addr + 8 + 8 + 8 + 8 + 8 + 8) with (gdt_addr + 48) by lia.
    replace (gdt_addr + 8 + 8 + 8 + 8 + 8) with (gdt_addr + 40) by lia.
    replace (gdt_addr + 8 + 8 + 8 + 8) with (gdt_addr + 32) by lia.
    replace (gdt_addr + 8 + 8 + 8) with (gdt_addr + 24) by lia.
    replace (gdt_addr + 8 + 8) with (gdt_addr + 16) by lia.
    rewrite <- (Z.add_0_r gdt_addr) at 1. rewrite !Hw by lia. unfold gdt_words.
    repeat split; try (rewrite ?ld64_st64_ne by lia; rewrite ld64_st64_eq; reflexivity).
    + unfold gdt_memory. rewrite ld64_st64_ne, ld64_st64_eq by lia. reflexivity.
    + unfold gdt_memory. rewrite ld64_st64_eq. reflexivity.
  - unfold gdt_memory. rewrite !ld64_st64_ne, ld64_st64_eq by lia. rewrite u64_u64, u64_small by lia. done.
  - unfold gdt_memory. rewrite !ld64_st64_ne, ld64_st64_eq by lia. rewrite u64_u64, u64_small by lia. done.
  - intros k Hk. unfold gdt_memory. rewrite !ldb_stn_ne by (simpl; lia). rewrite Hz, decide_True by lia. done.
Qed.

Lemma gdt_install_ok s : ∃ m, gdt_install s = Done (tt, gdt_loaded s m) ∧ gdt_in m
  ∧ (∀ b, (b < gdt_addr ∨ gdt_addr + 64 ≤ b) → (b < tss_addr ∨ tss_addr + 104 ≤ b) → ldb m b = ldb (d_mem s) b).
Proof.
  destruct (gdt_install_run s) as (z & Hrun & Hz). exists (gdt_memory z). split; [exact Hrun|].
  split; [by apply (gdt_memory_ok (d_mem s))|]. intros b Hb Ht.
  unfold gdt_memory. rewrite !ldb_stn_ne by (simpl; lia). rewrite Hz, decide_False by lia.
  unfold gdt_words. by rewrite !ldb_stn_ne by (simpl; lia).
Qed.

Lemma gdt_in_ext m m' : gdt_in m →
  (∀ b, gdt_addr ≤ b < gdt_addr + 64 ∨ tss_addr ≤ b < tss_addr + 104 → ldb m' b = ldb m b) → gdt_in m'.
Proof.
  intros [Hw Hr Hi Hz] Hs. split.
  - eapply words_ext; [exact Hw|]. intros b Hb. simpl in Hb. apply Hs. lia.
  - rewrite <- Hr. apply ldn_ext. intros b Hb. apply Hs. lia.
  - rewrite <- Hi. apply ldn_ext. intros b Hb. apply Hs. lia.
  - intros k Hk. rewrite Hs by lia. by apply Hz.
Qed.

Lemma gdt_word m i w : gdt_in m →
  (gdt_entries ++ [u64 (tss_desc_low tss_addr 103); u64 (tss_desc_high tss_addr)]) !! i = Some w →
  ld64 m (gdt_addr + 8 * Z.of_nat i) = w.
Proof. intros [Hw _ _ _]. by apply words_lookup. Qed.

(** Gdt_install gives every selector the kernel uses its meaning: 0x08 is 64-bit
    code of ring 0, 0x10 writable data of ring 0, 0x2B 64-bit code and 0x23 writable data
    of ring 3 (what syscall and sysret rely on), 0x30 an available task-state segment of
    104 bytes; its stacks for ring 0 and for double faults are the tops of the two
    static stacks. No other memory changes. *)
Theorem gdt_segments s : ∃ s', gdt_install s = Done (tt, s')
  ∧ gdtr s' = (63, gdt_addr) ∧ task_register s' = 0x30 ∧ seg_cs s' = KERNEL_CS ∧ seg_ss s' = 0x10
  ∧ segment_at (d_mem s') gdt_addr KERNEL_CS = Some (mk_segment true true true 0 true)
  ∧ segment_at (d_mem s') gdt_addr 0x10 = Some (mk_segment false true true 0 true)
  ∧ segment_at (d_mem s') gdt_addr USER_CS = Some (mk_segment true true true 3 true)
  ∧ segment_at (d_mem s') gdt_addr USER_SS = Some (mk_segment false true true 3 true)
  ∧ tss_at (d_mem s') gdt_addr 0x30 = (0x89, tss_addr, 103)
  ∧ ld64 (d_mem s') (tss_addr + 4) = kernel_irq_stack + 8192
  ∧ ld64 (d_mem s') (tss_addr + 36) = double_fault_ist_stack + 8192
  ∧ (∀ b, (b < gdt_addr ∨ gdt_addr + 64 ≤ b) → (b < tss_addr ∨ tss_addr + 104 ≤ b) → ldb (d_mem s') b = ldb (d_mem s) b).
Proof.
  destruct (gdt_install_ok s) as (m & Hrun & Hm & Hs). exists (gdt_loaded s m). split; [exact Hrun|].
  do 4 (split; [reflexivity|]). unfold segment_at. cbn [d_mem gdt_loaded].
  pose proof (λ i w, gdt_word m i w Hm) as Hat.
  do 4 (split; [match goal with |- segment_of (ld64 m (gdt_addr + ?k)) = _ =>
    change (gdt_addr + k) with (gdt_addr + 8 * Z.of_nat (Z.to_nat (k / 8))); rewrite (Hat (Z.to_nat (k / 8)) _ eq_refl) end;
    reflexivity|]).
  split; [|split; [apply Hm|split; [apply Hm|exact Hs]]].
  unfold tss_at. change (gdt_addr + 0x30 / 8 * 8) with (gdt_addr + 8 * Z.of_nat 6).
  replace (gdt_addr + 8 * Z.of_nat 6 + 8) with (gdt_addr + 8 * Z.of_nat 7) by lia.
  rewrite (Hat 6%nat _ eq_refl), (Hat 7%nat _ eq_refl). apply tss_desc_ok; [apply tss_range|lia].
Qed.

(** The TSS gives ring 3 access to I/O ports. iomap_base is 0, within the limit of the
    TSS, so the processor takes the bytes of the TSS itself for the permission bitmap:
    a user program may use the ports 96 to 287 (the keyboard controller 0x60 and 0x64,
    the CMOS 0x70 and 0x71, the slave PIC 0xA0 and 0xA1) and 32 to 35 (the master PIC),
    because the bits of the aligned rsp0 there are 0; only from 824 on no port is
    allowed, such as the serial port 0x3F8. *)
Theorem user_port_access s : ∃ s', gdt_install s = Done (tt, s')
  ∧ (∀ p, 32 ≤ p < 36 ∨ 96 ≤ p < 288 → io_allowed (d_mem s') tss_addr (tss_at (d_mem s') gdt_addr (task_register s')).2 p = true)
  ∧ (∀ p, 824 ≤ p → io_allowed (d_mem s') tss_addr (tss_at (d_mem s') gdt_addr (task_register s')).2 p = false).
Proof.
  destruct (gdt_install_ok s) as (m & Hrun & Hm & _). exists (gdt_loaded s m). split; [exact Hrun|].
  cbn [d_mem gdt_loaded task_register].
  assert ((tss_at m gdt_addr 0x30).2 = 103) as ->.
  { unfold tss_at. change (gdt_addr + 0x30 / 8 * 8) with (gdt_addr + 8 * Z.of_nat 6).
    replace (gdt_addr + 8 * Z.of_nat 6 + 8) with (gdt_addr + 8 * Z.of_nat 7) by lia.
    rewrite (gdt_word m 6 _ Hm eq_refl), (gdt_word m 7 _ Hm eq_refl), tss_desc_ok; [done|apply tss_range|lia]. }
  assert (ldn 2 m (tss_addr + 102) = 0) as Hmap.
  { apply ldn_zero. intros b Hb. replace b with (tss_addr + (b - tss_addr)) by lia. apply Hm. lia. }
  destruct stacks_range as (Hk0 & Hk1 & _). destruct stacks_aligned as (Hka & _). unfold io_allowed. rewrite Hmap.
  split; intros p Hp.
  - assert (0 ≤ p / 8 ≤ 35) as Hq by zdiv.
    destruct (Z.leb_spec (0 + p / 8 + 1) 103); [|lia]. cbn [andb]. rewrite Z.add_0_l.
    destruct Hp as [Hp|Hp].
    + assert (p / 8 = 4) as -> by zdiv.
      rewrite low_byte, (gi_rsp0 _ Hm). assert (0 ≤ p mod 8 < 4) as Hm8 by zdiv.
      assert ((kernel_irq_stack + 8192) mod 256 mod 16 = 0) as Hlow by zdiv.
      set (x := (kernel_irq_stack + 8192) mod 256) in *. clearbody x.
      assert (p mod 8 = 0 ∨ p mod 8 = 1 ∨ p mod 8 = 2 ∨ p mod 8 = 3) as [-> | [-> | [-> | ->]]] by lia;
        apply Z.eqb_eq; simpl; zdiv.
    + rewrite (gi_zero _ Hm) by zdiv. rewrite Z.div_0_l; [done|]. pose proof (Z.mod_pos_bound p 8). lia.
  - destruct (Z.leb_spec (0 + p / 8 + 1) 103); [|done]. zdiv.
Qed.

(** gdt_install, idt_init and irq_install, in the order of init_basic_interrupts. *)
Definition install_tables : M desc_state unit := _ ← gdt_install; _ ← idt_init; irq_install.

Lemma install_tables_ok s : ∃ m m1, install_tables s = Done (tt, idt_loaded (gdt_loaded s m1) m)
  ∧ gdt_in m ∧ idt_entries KERNEL_CS (d_mem s) m.
Proof.
  destruct (gdt_install_ok s) as (m1 & Hrun1 & Hm1 & Hs1).
  destruct (idt_ok (gdt_loaded s m1)) as (m2 & Hrun2 & Hg2 & Hs2); [vm_compute; split; congruence|].
  destruct tables_apart as (_ & Ht & Hg). exists m2, m1. split; [|split].
  - unfold install_tables. rewrite (bind_Done _ _ _ _ _ Hrun1). exact Hrun2.
  - apply (gdt_in_ext m1); [done|]. intros b Hb. apply Hs2. lia.
  - intros v Hv. rewrite Hg2 by done. destruct (v <? 32); [reflexivity|]. destruct (v <? 48); [reflexivity|].
    apply gate_at_ext. intros b Hb. apply Hs1; lia.
Qed.

(** The tables are as install_tables leaves them. *)
Record tables_in (m : mem) : Prop := {
  ti_gdt : gdt_in m;
  ti_idt : ∀ v, 0 ≤ v < 48 → idt_gate m idt_addr v =
    if v <? 32 then int_gate (isr_stub_addr v) KERNEL_CS (if v =? 8 then 1 else 0)
    else int_gate (irq_stub_addr (v - 32)) KERNEL_CS 0;
}.

Lemma install_tables_in s : ∃ s', install_tables s = Done (tt, s') ∧ tables_in (d_mem s').
Proof.
  destruct (install_tables_ok s) as (m & m1 & Hrun & Hg & Hi). eexists. split; [exact Hrun|]. split; [exact Hg|].
  intros v Hv. cbn [d_mem idt_loaded]. rewrite Hi by lia. destruct (v <? 32); [done|]. destruct (Z.ltb_spec v 48); [done|lia].
Qed.

(** C30: after init_basic_interrupts has installed the tables, every vector below 48 has a
    present interrupt gate of ring 0 with the kernel's code selector, to its own stub
    (exceptions below 32, then the 16 interrupt requests), and only the double fault
    takes the emergency stack; the other vectors are as they were, and the IDT register
    covers the whole table. *)
Theorem idt_gates s : ∃ s', install_tables s = Done (tt, s') ∧ idtr s' = (256 * 16 - 1, idt_addr)
  ∧ ∀ v, 0 ≤ v < 256 → idt_gate (d_mem s') idt_addr v =
      if v <? 32 then int_gate (isr_stub_addr v) KERNEL_CS (if v =? 8 then 1 else 0)
      else if v <? 48 then int_gate (irq_stub_addr (v - 32)) KERNEL_CS 0
      else idt_gate (d_mem s) idt_addr v.
Proof.
  destruct (install_tables_ok s) as (m & m1 & Hrun & _ & Hg). eexists. split; [exact Hrun|]. split; [done|exact Hg].
Qed.

(** Idt_set_gate outside the table writes past the array. *)
Theorem idt_set_gate_bounds v isr flags s :
  (∃ s', idt_set_gate v isr flags s = Done (tt, s')) ↔ 0 ≤ v < 256.
Proof.
  split.
  - intros [s' Hrun]. unfold idt_set_gate in Hrun. destruct (Z.ltb_spec v 0); [discriminate|].
    destruct (Z.leb_spec 256 v); [discriminate|lia].
  - intros Hv. eexists. by apply idt_set_gate_ok.
Qed.
End spec.

Module DescWitness.
#[export] Instance demo_image : KernelImage := {|
  isr_stub_addr n := 0xFFFFFFFF80001000 + 16 * (n mod 32);
  irq_stub_addr n := 0xFFFFFFFF80002000 + 16 * (n mod 16);
  idt_addr := 0xFFFFFFFF80010000;
  gdt_addr := 0xFFFFFFFF80011000;
  tss_addr := 0xFFFFFFFF80011040;
  kernel_irq_stack := 0xFFFFFFFF80012000;
  double_fault_ist_stack := 0xFFFFFFFF80014000;
|}.
#[export] Instance demo_image_laws : KernelImageLaws.
Proof.
  split; unfold isr_stub_addr, irq_stub_addr, tss_addr, gdt_addr, idt_addr, kernel_irq_stack, double_fault_ist_stack, demo_image.
  - intros n. pose proof (Z.mod_pos_bound n 32). lia.
  - intros n. pose proof (Z.mod_pos_bound n 16). lia.
  - intros n n' ??. rewrite !Z.mod_small by lia. lia.
  - intros n n' ??. rewrite !Z.mod_small by lia. lia.
  - intros n i ??. rewrite !Z.mod_small by lia. lia.
  - lia.
  - lia.
  - lia.
  - done.
Qed.
Definition desc_zero : desc_state := mk_desc ∅ 0 [] (0, 0) (0, 0) 0x28 0 0 0 0.

Lemma gdt_segments_witness : ∃ s', gdt_install desc_zero = Done (tt, s') ∧ tss_at (d_mem s') gdt_addr 0x30 = (0x89, tss_addr, 103).
Proof. destruct (gdt_segments desc_zero) as (s' & Hr & _ & _ & _ & _ & _ & _ & _ & _ & Ht & _). by exists s'. Defined.
Lemma user_port_access_witness : ∃ s', gdt_install desc_zero = Done (tt, s')
  ∧ io_allowed (d_mem s') tss_addr (tss_at (d_mem s') gdt_addr (task_register s')).2 0x64 = true.
Proof. destruct (user_port_access desc_zero) as (s' & Hr & Ha & _). exists s'. split; [exact Hr|]. apply Ha. lia. Defined.
Lemma idt_gates_witness : ∃ s', install_tables desc_zero = Done (tt, s')
  ∧ idt_gate (d_mem s') idt_addr 14 = int_gate (isr_stub_addr 14) KERNEL_CS 0.
Proof. destruct (idt_gates desc_zero) as (s' & Hr & _ & Hg). exists s'. split; [exact Hr|]. apply (Hg 14). lia. Defined.
End DescWitness.
