(* ===== verification/Entry.v ===== *)
(** * Entering and leaving the kernel: src/interrupts/isr.asm, irq.asm, macros.inc and
    src/syscalls/syscall_entry.asm

    The stubs run instruction by instruction on a machine with all general-purpose
    registers, the stack pointer, the segment registers they test and the two GS
    bases. [deliver], [iretq], [syscall] and [sysret] are the processor's. Faults of
    iretq and sysret on malformed frames are not modelled. *)
From S2P Require Import Prelude CMem Words Desc.

Record gprs := mk_gprs {
  rax : Z; rbx : Z; rcx : Z; rdx : Z; rbp : Z; rdi : Z; rsi : Z; r8 : Z; r9 : Z; r10 : Z; r11 : Z;
  r12 : Z; r13 : Z; r14 : Z; r15 : Z;
}.
Record machine := mk_machine {
  gpr : gprs;
  rsp : Z; rip : Z; cs : Z; rflags : Z; ss : Z;
  gs_base : Z;               (* in use *)
  kernel_gs_base : Z;        (* the other one, which swapgs exchanges *)
  memory : mem;
}.

Definition set_stack (x : Z * mem) (m : machine) : machine :=
  mk_machine (gpr m) x.1 (rip m) (cs m) (rflags m) (ss m) (gs_base m) (kernel_gs_base m) x.2.
Definition set_gpr (g : gprs) (m : machine) : machine :=
  mk_machine g (rsp m) (rip m) (cs m) (rflags m) (ss m) (gs_base m) (kernel_gs_base m) (memory m).

(** push, of each of a list *)
Definition pushes (vs : list Z) (m : machine) : machine := set_stack (push_words vs (rsp m, memory m)) m.
Definition swapgs (m : machine) : machine :=
  mk_machine (gpr m) (rsp m) (rip m) (cs m) (rflags m) (ss m) (kernel_gs_base m) (gs_base m) (memory m).
(** The word [i] words above the stack pointer. *)
Definition stacked (m : machine) (i : Z) : Z := ld64 (memory m) (u64 (rsp m + 8 * i)).

(** ** The processor *)

(** Interrupt [v] through its gate in the IDT: the stack is that of the gate's IST in the
    TSS, or from ring 3 rsp0 of the TSS, or stays; the stack pointer is aligned; ss, rsp,
    rflags, cs, rip and, for some exceptions, an error code are pushed; IF, TF, NT and RF
    are cleared. The IDT register and the TSS are those Desc.v shows loaded. *)
Definition from_user (m : machine) : bool := negb (Z.land (cs m) 3 =? 0).
Definition interrupt_stack `{KernelImage} (g : gate) (m : machine) : Z :=
  let sp := if g_ist g =? 0 then (if from_user m then ld64 (memory m) (tss_addr + 4) else rsp m)
            else ld64 (memory m) (tss_addr + 28 + 8 * g_ist g) in
  sp - sp mod 16.
Definition error_pushed (error : option Z) : list Z := match error with Some e => [e] | None => [] end.
Definition deliver `{KernelImage} (v : Z) (error : option Z) (m : machine) : machine :=
  let g := idt_gate (memory m) idt_addr v in
  let x := push_words ([ss m; rsp m; rflags m; cs m; rip m] ++ error_pushed error) (interrupt_stack g m, memory m) in
  mk_machine (gpr m) x.1 (g_target g) (g_selector g) (Z.land (rflags m) (Z.lnot 0x14300))
    (if from_user m then 0 else ss m) (gs_base m) (kernel_gs_base m) x.2.

(** iretq pops rip, cs, rflags, rsp and ss. *)
Definition iretq (m : machine) : machine :=
  mk_machine (gpr m) (stacked m 3) (stacked m 0) (stacked m 1) (stacked m 2) (stacked m 4)
    (gs_base m) (kernel_gs_base m) (memory m).

(** syscall and sysret, with the MSRs as syscall_init sets them. *)
Definition IA32_FMASK_VALUE : Z := Z.lor (Z.shiftl 1 9) (Z.shiftl 1 10).
Definition set_rcx_r11 (c r : Z) (g : gprs) : gprs :=
  mk_gprs (rax g) (rbx g) c (rdx g) (rbp g) (rdi g) (rsi g) (r8 g) (r9 g) (r10 g) r (r12 g) (r13 g) (r14 g) (r15 g).
Definition syscall (lstar : Z) (m : machine) : machine :=
  mk_machine (set_rcx_r11 (rip m) (rflags m) (gpr m)) (rsp m) lstar KERNEL_CS
    (Z.land (rflags m) (Z.lnot IA32_FMASK_VALUE)) 0x10 (gs_base m) (kernel_gs_base m) (memory m).
Definition sysret_flags (r : Z) : Z := Z.lor (Z.land r 0x3C7FD7) 2.
Definition sysret (m : machine) : machine :=
  mk_machine (gpr m) (rsp m) (rcx (gpr m)) USER_CS (sysret_flags (r11 (gpr m))) USER_SS
    (gs_base m) (kernel_gs_base m) (memory m).

(** ** The stubs *)

(** push rax, rbx, rcx, rdx, rbp, rdi, rsi, r8, ..., r15 *)
Definition saved_regs (g : gprs) : list Z :=
  [rax g; rbx g; rcx g; rdx g; rbp g; rdi g; rsi g; r8 g; r9 g; r10 g; r11 g; r12 g; r13 g; r14 g; r15 g].
(** pop r15, r14, ..., rax *)
Definition pop_regs (m : machine) : machine :=
  let s := stacked m in
  mk_machine (mk_gprs (s 14) (s 13) (s 12) (s 11) (s 10) (s 9) (s 8) (s 7) (s 6) (s 5) (s 4) (s 3) (s 2) (s 1) (s 0))
    (u64 (rsp m + 120)) (rip m) (cs m) (rflags m) (ss m) (gs_base m) (kernel_gs_base m) (memory m).

(** test byte [rsp + offset], 3; jz done; swapgs *)
Definition swapgs_if (offset : Z) (m : machine) : machine :=
  if Z.land (ldb (memory m) (u64 (rsp m + offset))) 3 =? 0 then m else swapgs m.

Definition has_error (n : Z) : bool := bool_decide (n ∈ [8; 10; 11; 12; 13; 14; 17; 30]).
(** ISR_NOERR and ISR_ERR *)
Definition isr_stub (n : Z) (m : machine) : machine := pushes ((if has_error n then [] else [0]) ++ [n]) m.
Definition irq_stub (n : Z) (m : machine) : machine := pushes [0; n + 32] m.
(** isr_common and irq_common up to the call, with rdi = rsp, and from its return on. *)
Definition common_entry (m : machine) : machine :=
  let m := swapgs_if 24 m in
  let m := pushes (saved_regs (gpr m)) m in
  let g := gpr m in
  set_gpr (mk_gprs (rax g) (rbx g) (rcx g) (rdx g) (rbp g) (rsp m) (rsi g) (r8 g) (r9 g) (r10 g) (r11 g)
             (r12 g) (r13 g) (r14 g) (r15 g)) m.
Definition common_exit (m : machine) : machine :=
  let m := pop_regs m in
  let m := set_stack (u64 (rsp m + 16), memory m) m in
  iretq (swapgs_if 8 m).

(** interrupt_frame_t at [a]: the registers in their order in memory. *)
Record interrupt_frame := mk_iframe {
  f_regs : gprs;
  interrupt_number : Z; error_code : Z;
  f_rip : Z; f_cs : Z; f_rflags : Z; f_rsp : Z; f_ss : Z;
}.
Definition frame_words (f : interrupt_frame) : list Z :=
  reverse (saved_regs (f_regs f))
  ++ [interrupt_number f; error_code f; f_rip f; f_cs f; f_rflags f; f_rsp f; f_ss f].
Definition interrupt_frame_at (m : mem) (a : Z) : interrupt_frame :=
  let w := λ i, ld64 m (a + 8 * i) in
  mk_iframe (mk_gprs (w 14) (w 13) (w 12) (w 11) (w 10) (w 9) (w 8) (w 7) (w 6) (w 5) (w 4) (w 3) (w 2) (w 1) (w 0))
    (w 15) (w 16) (w 17) (w 18) (w 19) (w 20) (w 21).

(** syscall_entry up to the call and from its return on. percpu_data has user_rsp at
    8 and kernel_rsp at 16. *)
Definition syscall_entry (m : machine) : machine :=
  let m := swapgs m in
  let m := mk_machine (gpr m) (rsp m) (rip m) (cs m) (Z.land (rflags m) (Z.lnot 0x400)) (ss m)
             (gs_base m) (kernel_gs_base m) (st64 (u64 (gs_base m + 8)) (rsp m) (memory m)) in
  let m := set_stack (ld64 (memory m) (u64 (gs_base m + 16)), memory m) m in
  let m := pushes [ld64 (memory m) (u64 (gs_base m + 8))] m in
  let m := pushes (saved_regs (gpr m)) m in
  let g := gpr m in
  set_gpr (mk_gprs (rax g) (rbx g) (rcx g) (rdx g) (rbp g) (rsp m) (rsi g) (r8 g) (r9 g) (r10 g) (r11 g)
             (r12 g) (r13 g) (r14 g) (r15 g)) m.
Definition syscall_exit (m : machine) : machine :=
  let m := pop_regs m in
  let m := set_stack (u64 (rsp m + 8), st64 (u64 (gs_base m + 8)) (stacked m 0) (memory m)) m in
  let m := set_stack (ld64 (memory m) (u64 (gs_base m + 8)), memory m) m in
  sysret (swapgs m).

(** An exception with its error code if it has one, or an interrupt request. *)
Inductive trap := Exception (n : Z) (error : option Z) | Irq (i : Z).
Definition trap_number (t : trap) : Z := match t with Exception n _ => n | Irq i => i + 32 end.
Definition trap_error (t : trap) : Z := match t with Exception _ (Some e) => e | _ => 0 end.
(** The stub at an address. *)
Inductive stub := IsrStub (n : Z) | IrqStub (i : Z).
Definition stub_at `{KernelImage} (a : Z) : option stub :=
  match list_find (λ n, isr_stub_addr n = a) (seqZ 0 32) with
  | Some (_, n) => Some (IsrStub n)
  | None =>
      match list_find (λ i, irq_stub_addr i = a) (seqZ 0 16) with
      | Some (_, i) => Some (IrqStub i)
      | None => None
      end
  end.
Definition run_stub (s : stub) (m : machine) : machine :=
  match s with IsrStub n => isr_stub n m | IrqStub i => irq_stub i m end.
(** From the processor's delivery to the call of isr_handler or irq_handler; None when
    the gate does not lead to a stub. *)
Definition trap_entry `{KernelImage} (t : trap) (m : machine) : option machine :=
  let m := deliver (trap_number t) (match t with Exception _ error => error | Irq _ => None end) m in
  match stub_at (rip m) with
  | Some s => Some (common_entry (run_stub s m))
  | None => None
  end.

(** ** Specification *)

Definition in64 (v : Z) : Prop := 0 ≤ v < 2 ^ 64.
Record machine_ok (m : machine) : Prop := {
  mo_regs : Forall in64 (saved_regs (gpr m));
  mo_rest : Forall in64 [rsp m; rip m; cs m; rflags m; ss m];
}.
Definition trap_ok (t : trap) : Prop :=
  match t with
  | Exception n error => 0 ≤ n < 32 ∧ Forall in64 (error_pushed error) ∧ has_error n = bool_decide (error ≠ None)
  | Irq i => 0 ≤ i < 16
  end.
(** What the handler is to see. *)
Definition frame_of (t : trap) (m : machine) : interrupt_frame :=
  mk_iframe (gpr m) (trap_number t) (trap_error t) (rip m) (cs m) (rflags m) (rsp m) (ss m).

Lemma low_bits c : 0 ≤ c → Z.land (c mod 256) 3 = Z.land c 3.
Proof.
  intros Hc. change 256 with (2 ^ 8). rewrite <- Z.land_ones, <- Z.land_assoc by lia. f_equal.
Qed.

Section traps.
Context `{KL : KernelImageLaws}.

(** The stack a trap is delivered on. *)
Definition trap_stack (t : trap) (m : machine) : Z :=
  let sp := if trap_number t =? 8 then double_fault_ist_stack + 8192
            else if from_user m then kernel_irq_stack + 8192 else rsp m in
  sp - sp mod 16.
Definition trap_stub (t : trap) : stub := match t with Exception n _ => IsrStub n | Irq i => IrqStub i end.
Definition trap_words (t : trap) (m : machine) : list Z :=
  [ss m; rsp m; rflags m; cs m; rip m; trap_error t; trap_number t].

Lemma find_stub (f : Z → Z) n i : 0 ≤ i < n → (∀ j, 0 ≤ j < n → f j = f i → j = i) →
  ∃ k, list_find (λ j, f j = f i) (seqZ 0 n) = Some (k, i).
Proof.
  intros Hi Hinj. exists (Z.to_nat i). apply list_find_Some. split; [|split; [done|]].
  - rewrite lookup_seqZ_lt by lia. f_equal. lia.
  - intros j y Hy Hj Hf. apply lookup_seqZ in Hy as [-> Hr]. apply Hinj in Hf; lia.
Qed.

Lemma trap_gate t m : trap_ok t → tables_in (memory m) →
  let g := idt_gate (memory m) idt_addr (trap_number t) in
  stub_at (g_target g) = Some (trap_stub t) ∧ interrupt_stack g m = trap_stack t m ∧ g_selector g = KERNEL_CS.
Proof.
  intros Ht [Hg Hi]. cbv zeta. unfold interrupt_stack, trap_stack, stub_at.
  destruct t as [n error|i]; cbn [trap_number trap_stub trap_ok] in *.
  - rewrite Hi by lia. destruct (Z.ltb_spec n 32); [|lia]. cbn [g_target g_ist g_selector int_gate].
    destruct (find_stub isr_stub_addr 32 n) as [k ->]; [lia|intros j ??; apply isr_stubs_differ; (done || lia)|].
    split; [done|]. split; [|done]. destruct (n =? 8); [|by rewrite <- (gi_rsp0 _ Hg)].
    change (28 + 8 * 1) with 36. replace (tss_addr + 28 + 8 * 1) with (tss_addr + 36) by lia.
    by rewrite (gi_ist1 _ Hg).
  - rewrite Hi by lia. destruct (Z.ltb_spec (i + 32) 32); [lia|]. cbn [g_target g_ist g_selector int_gate].
    replace (i + 32 - 32) with i by lia.
    assert (list_find (λ n, isr_stub_addr n = irq_stub_addr i) (seqZ 0 32) = None) as ->.
    { apply list_find_None, Forall_forall. intros n Hn%elem_of_seqZ. apply stubs_differ; lia. }
    destruct (find_stub irq_stub_addr 16 i) as [k ->]; [lia|intros j ??; apply irq_stubs_differ; (done || lia)|].
    split; [done|]. split; [|done]. destruct (Z.eqb_spec (i + 32) 8); [lia|]. by rewrite <- (gi_rsp0 _ Hg).
Qed.

(** What the processor and the first instructions of the stub have pushed. *)
Lemma trap_pushes t m : trap_ok t → tables_in (memory m) → ∃ m0, trap_entry t m = Some (common_entry m0)
  ∧ (let x := push_words (trap_words t m) (trap_stack t m, memory m) in rsp m0 = x.1 ∧ memory m0 = x.2)
  ∧ gpr m0 = gpr m ∧ gs_base m0 = gs_base m ∧ kernel_gs_base m0 = kernel_gs_base m.
Proof.
  intros Ht Htab. destruct (trap_gate t m Ht Htab) as (Hs & Hsp & _).
  unfold trap_entry, deliver. cbn [rip]. rewrite Hs, Hsp. eexists. split; [reflexivity|].
  generalize (trap_stack t m). intros sp. clear Hs Hsp. unfold trap_words.
  destruct t as [n error|i]; cbn [trap_stub run_stub trap_error trap_number trap_ok] in *.
  - destruct Ht as (_ & _ & He). unfold isr_stub. rewrite He.
    destruct error as [e|]; simpl bool_decide; unfold pushes; cbn -[push_words idt_gate]; rewrite <- surjective_pairing;
      rewrite <- push_words_app; done.
  - unfold irq_stub, pushes. cbn -[push_words idt_gate]. rewrite <- surjective_pairing, <- push_words_app. done.
Qed.

Lemma trap_words_range t m : machine_ok m → trap_ok t → Forall in64 (trap_words t m).
Proof.
  intros [_ Hrest] Ht. unfold trap_words. rewrite !Forall_cons in Hrest |- *. destruct Hrest as (?&?&?&?&?&_). repeat (split; [done|]).
  apply Forall_cons; split; [|apply Forall_singleton]; (destruct t as [n [e|]|i]; simpl in Ht |- *; unfold in64; try lia).
  destruct Ht as (_ & He & _). by apply Forall_cons in He as [? _].
Qed.

(** swapgs_if_user and the pushes of the registers, on a stack that holds [ws] from [sp] - 56 on. *)
Lemma common_entry_ok ws sp m0 user : rsp m0 = sp - 56 → 176 ≤ sp < 2 ^ 64 → words (memory m0) (sp - 56) ws →
  (∃ c, ws !! 3%nat = Some c ∧ 0 ≤ c ∧ user = negb (Z.land c 3 =? 0)) → length ws = 7%nat → Forall in64 (saved_regs (gpr m0)) →
  let m1 := common_entry m0 in
  rsp m1 = sp - 176 ∧ words (memory m1) (sp - 176) (reverse (saved_regs (gpr m0)) ++ ws)
  ∧ same_outside (sp - 176) (sp - 56) (memory m0) (memory m1)
  ∧ gs_base m1 = (if user : bool then kernel_gs_base m0 else gs_base m0)
  ∧ kernel_gs_base m1 = (if user then gs_base m0 else kernel_gs_base m0)
  ∧ rdi (gpr m1) = rsp m1.
Proof.
  intros E1 Hsp W1 (c & Hc & Hc0 & Hu) Hlen Hregs.
  assert (swapgs_if 24 m0 = if user then swapgs m0 else m0) as Hsw.
  { unfold swapgs_if. rewrite E1, u64_small by lia. rewrite low_byte.
    rewrite (words_lookup _ _ _ 3 _ W1 Hc : ld64 (memory m0) (sp - 56 + 24) = c).
    rewrite low_bits, Hu by done. by destruct (Z.land c 3 =? 0). }
  unfold common_entry. rewrite Hsw. set (m2 := if user then swapgs m0 else m0).
  assert (gpr m2 = gpr m0 ∧ rsp m2 = sp - 56 ∧ memory m2 = memory m0
    ∧ gs_base m2 = (if user then kernel_gs_base m0 else gs_base m0)
    ∧ kernel_gs_base m2 = (if user then gs_base m0 else kernel_gs_base m0)) as (G2 & R2 & M2 & B2 & K2).
  { unfold m2. destruct user; simpl; rewrite ?E1; done. }
  clearbody m2. unfold pushes. rewrite G2, R2, M2.
  destruct (push_words_ok (saved_regs (gpr m0)) (sp - 56) (memory m0)) as (E2 & W2 & O2); [simpl; lia|lia|].
  rewrite u64_fmap in W2 by exact Hregs. change (8 * Z.of_nat (length _)) with 120 in *.
  replace (sp - 56 - 120) with (sp - 176) in * by lia. cbn [rsp memory set_gpr set_stack gs_base kernel_gs_base gpr rdi].
  split; [exact E2|]. split; [|split; [exact O2|split; [exact B2|split; [exact K2|reflexivity]]]].
  apply words_app. split; [exact W2|].
  change (8 * Z.of_nat (length _)) with 120. replace (sp - 176 + 120) with (sp - 56) by lia.
  eapply words_ext; [exact W1|]. intros b Hb. apply O2. lia.
Qed.

(** The words a trap leaves, with the GS base of the kernel. *)
Lemma trap_entry_ok t m : machine_ok m → trap_ok t → tables_in (memory m) →
  let sp := trap_stack t m in 176 ≤ sp < 2 ^ 64 →
  ∃ m1, trap_entry t m = Some m1
  ∧ rsp m1 = sp - 176 ∧ words (memory m1) (sp - 176) (frame_words (frame_of t m))
  ∧ same_outside (sp - 176) sp (memory m) (memory m1)
  ∧ gs_base m1 = (if from_user m then kernel_gs_base m else gs_base m)
  ∧ kernel_gs_base m1 = (if from_user m then gs_base m else kernel_gs_base m)
  ∧ rdi (gpr m1) = rsp m1.
Proof.
  intros Hm Ht Htab sp Hsp. pose proof (trap_words_range t m Hm Ht) as Hrange.
  destruct (trap_pushes t m Ht Htab) as (m0 & -> & [Er Em] & Eg & Eb & Ek). fold sp in Er, Em.
  destruct (push_words_ok (trap_words t m) sp (memory m)) as (E1 & W1 & O1); [simpl; lia|lia|].
  rewrite <- Er in E1. rewrite <- Em in W1, O1. rewrite u64_fmap in W1 by exact Hrange.
  change (8 * Z.of_nat (length _)) with 56 in *. destruct Hm as [Hregs Hrest].
  destruct (common_entry_ok (reverse (trap_words t m)) sp m0 (from_user m) E1 Hsp W1)
    as (E2 & W2 & O2 & B2 & K2 & R2); [|reflexivity|by rewrite Eg|].
  { exists (cs m). split; [reflexivity|]. split; [|reflexivity]. rewrite !Forall_cons in Hrest. unfold in64 in Hrest. lia. }
  rewrite Eg in W2. rewrite Eb, Ek in B2, K2. eexists. split; [reflexivity|].
  split; [exact E2|]. split; [exact W2|]. split; [|split; [exact B2|split; [exact K2|exact R2]]].
  apply (same_outside_trans _ _ _ (memory m0)).
  - apply (same_outside_weaken (sp - 56) sp); [lia|lia|exact O1].
  - apply (same_outside_weaken (sp - 176) (sp - 56)); [lia|lia|exact O2].
Qed.
End traps.

Lemma frame_at m a f : words m a (frame_words f) → interrupt_frame_at m a = f.
Proof.
  intros Hw. unfold interrupt_frame_at. destruct f as [[] ? ? ? ? ? ? ?].
  f_equal; [f_equal|..];
    match goal with |- ld64 _ (_ + 8 * ?k) = _ => exact (words_lookup _ _ _ (Z.to_nat k) _ Hw eq_refl) end.
Qed.

(** Leaving through the stub with the frame [f] at the stack pointer. *)
Lemma common_exit_ok f m : words (memory m) (rsp m) (frame_words f) → 0 ≤ rsp m → rsp m + 176 < 2 ^ 64 → 0 ≤ f_cs f →
  common_exit m = mk_machine (f_regs f) (f_rsp f) (f_rip f) (f_cs f) (f_rflags f) (f_ss f)
    (if Z.land (f_cs f) 3 =? 0 then gs_base m else kernel_gs_base m)
    (if Z.land (f_cs f) 3 =? 0 then kernel_gs_base m else gs_base m) (memory m).
Proof.
  intros Hw Hlo Hhi Hcs.
  assert (∀ i w, (i < 22)%nat → frame_words f !! i = Some w → ld64 (memory m) (u64 (rsp m + 8 * Z.of_nat i)) = w) as Hat.
  { intros i w Hi Hl. rewrite u64_small by lia. by apply (words_lookup _ _ _ _ _ Hw). }
  assert (pop_regs m = mk_machine (f_regs f) (rsp m + 120) (rip m) (cs m) (rflags m) (ss m) (gs_base m) (kernel_gs_base m) (memory m)) as Hp.
  { unfold pop_regs, stacked. rewrite (u64_small (rsp m + 120)) by lia. f_equal. destruct f as [[] ? ? ? ? ? ? ?]. cbn [f_regs]. f_equal;
    match goal with |- ld64 _ (u64 (_ + 8 * ?k)) = _ => exact (Hat (Z.to_nat k) _ ltac:(lia) eq_refl) end. }
  unfold common_exit. rewrite Hp. cbn [rsp memory set_stack fst snd]. rewrite u64_small by lia.
  replace (rsp m + 120 + 16) with (rsp m + 136) by lia. unfold set_stack. cbn [rsp memory gpr rip cs rflags ss gs_base kernel_gs_base fst snd].
  unfold swapgs_if. cbn [rsp memory]. rewrite u64_small by lia. rewrite low_byte.
  assert (ld64 (memory m) (rsp m + 136 + 8) = f_cs f) as ->.
  { replace (rsp m + 136 + 8) with (rsp m + 8 * Z.of_nat 18) by lia. rewrite <- (u64_small (rsp m + _)) by lia. by apply Hat; [lia|destruct f as [[] ? ? ? ? ? ? ?]]. }
  rewrite low_bits by done.
  assert (∀ k w, frame_words f !! (17 + Z.to_nat k)%nat = Some w → 0 ≤ k < 5 →
    ld64 (memory m) (u64 (rsp m + 136 + 8 * k)) = w) as Htop.
  { intros k w Hl Hk. rewrite <- (Hat (17 + Z.to_nat k)%nat w ltac:(lia) Hl). f_equal. f_equal. lia. }
  destruct (Z.land (f_cs f) 3 =? 0); unfold iretq, swapgs, stacked; cbn [rsp memory gpr gs_base kernel_gs_base];
    f_equal; apply Htop; (lia || by destruct f as [[] ? ? ? ? ? ? ?]).
Qed.

(** C27: an exception or interrupt request hands its handler, in rdi, the frame
    interrupt_frame_t of everything the interrupted code had: the 15 registers, the
    vector, the error code (0 where the processor pushes none), and rip, cs, rflags,
    rsp and ss, with the kernel's GS base in use whichever ring was interrupted. When
    the handler returns with the frame as it was, the interrupted code goes on with
    every register, the stack pointer, the flags and both GS bases as they were. *)
Theorem trap_round_trip `{KernelImageLaws} t m : machine_ok m → trap_ok t → tables_in (memory m) →
  let sp := trap_stack t m in
  176 ≤ sp → sp < 2 ^ 64 →
  ∃ m1, trap_entry t m = Some m1
  ∧ interrupt_frame_at (memory m1) (rdi (gpr m1)) = frame_of t m
  ∧ rdi (gpr m1) = sp - 176 ∧ rdi (gpr m1) mod 16 = 0
  ∧ gs_base m1 = (if from_user m then kernel_gs_base m else gs_base m)
  ∧ (∀ m2, rsp m2 = rsp m1 → gs_base m2 = gs_base m1 → kernel_gs_base m2 = kernel_gs_base m1 →
      agree (memory m1) (memory m2) (rsp m1) 176 →
      common_exit m2 = mk_machine (gpr m) (rsp m) (rip m) (cs m) (rflags m) (ss m) (gs_base m) (kernel_gs_base m) (memory m2)).
Proof.
  intros Hm Ht Htab sp Hlo Hhi. destruct (trap_entry_ok t m Hm Ht Htab) as (m1 & Hrun & E1 & W1 & _ & B1 & K1 & R1); [lia|].
  fold sp in E1, W1. exists m1. split; [exact Hrun|]. destruct Hm as [_ Hrest].
  assert (0 ≤ cs m) as Hcs by (rewrite !Forall_cons in Hrest; unfold in64 in Hrest; lia).
  split; [|split; [by rewrite R1|split; [|split; [exact B1|]]]].
  - rewrite R1, E1. by apply frame_at.
  - rewrite R1, E1. unfold sp, trap_stack. cbv zeta. generalize (if trap_number t =? 8 then double_fault_ist_stack + 8192
      else if from_user m then kernel_irq_stack + 8192 else rsp m). intros x.
    replace (x - x mod 16 - 176) with ((x / 16 - 11) * 16); [apply Z.mod_mul; lia|]. pose proof (Z.div_mod x 16). lia.
  - intros m2 E2 B2 K2 Hag. rewrite (common_exit_ok (frame_of t m)).
    + simpl. rewrite B2, K2, B1, K1. unfold from_user. by destruct (Z.land (cs m) 3 =? 0).
    + rewrite E2, E1. eapply words_ext; [exact W1|]. intros b Hb. apply Hag. rewrite E1.
      change (Z.of_nat (length (frame_words (frame_of t m)))) with 22 in Hb. lia.
    + lia.
    + lia.
    + exact Hcs.
Qed.

(** C29: interrupts that come from ring 3 all use the one stack whose top is in the TSS.
    When thread A was interrupted in user mode and thread B, to which the handler
    switched, is interrupted in user mode in its turn, B's frame is where A's was: the
    exit from A's handler goes on with the registers, the stack and the instruction
    pointer of B. *)
Theorem shared_interrupt_stack `{KernelImageLaws} ta tb a b : machine_ok a → machine_ok b → trap_ok ta → trap_ok tb →
  tables_in (memory a) → tables_in (memory b) → trap_number ta ≠ 8 → trap_number tb ≠ 8 →
  from_user a = true → from_user b = true →
  ∃ a1 b1, trap_entry ta a = Some a1 ∧ trap_entry tb b = Some b1
  ∧ ∀ m2, rsp m2 = rsp a1 → agree (memory b1) (memory m2) (rsp a1) 176 →
    interrupt_frame_at (memory m2) (rsp a1) = frame_of tb b
    ∧ (let r := common_exit m2 in gpr r = gpr b ∧ rsp r = rsp b ∧ rip r = rip b ∧ rflags r = rflags b).
Proof.
  intros Ha Hb Hta Htb Hma Hmb Hna Hnb Hua Hub. destruct stacks_range as (Hk0 & Hk1 & _). destruct stacks_aligned as [Hk _].
  set (sp := kernel_irq_stack + 8192). assert (sp mod 16 = 0) as Hsp by (unfold sp; zdiv).
  assert (trap_stack ta a = sp) as Sa.
  { unfold trap_stack. destruct (Z.eqb_spec (trap_number ta) 8); [done|]. rewrite Hua. fold sp. lia. }
  assert (trap_stack tb b = sp) as Sb.
  { unfold trap_stack. destruct (Z.eqb_spec (trap_number tb) 8); [done|]. rewrite Hub. fold sp. lia. }
  destruct (trap_entry_ok ta a Ha Hta Hma) as (a1 & Ra & Ea & _); [lia|].
  destruct (trap_entry_ok tb b Hb Htb Hmb) as (b1 & Rb & Eb & Wb & _); [lia|].
  exists a1, b1. split; [exact Ra|]. split; [exact Rb|]. rewrite Sa in Ea. rewrite Sb in Wb. intros m2 E2 Hag.
  assert (words (memory m2) (rsp a1) (frame_words (frame_of tb b))) as W2.
  { rewrite Ea. eapply words_ext; [exact Wb|]. intros c Hc. apply Hag. rewrite Ea.
    change (Z.of_nat (length (frame_words (frame_of tb b)))) with 22 in Hc. lia. }
  split; [by apply frame_at|]. destruct Hb as [_ Hrest].
  clear Ra Rb. cbv zeta. rewrite (common_exit_ok (frame_of tb b)); [by repeat split| |lia|lia|].
  - by rewrite E2.
  - rewrite !Forall_cons in Hrest. unfold in64 in Hrest. simpl. lia.
Qed.

(** A system call from [m], the kernel stack of the CPU ending at [top]. *)
Definition percpu_ok (m : machine) (top : Z) : Prop :=
  0 ≤ kernel_gs_base m ∧ kernel_gs_base m + 24 < 2 ^ 64 ∧ ld64 (memory m) (kernel_gs_base m + 16) = top
  ∧ 128 ≤ top < 2 ^ 64 ∧ (kernel_gs_base m + 24 ≤ top - 128 ∨ top ≤ kernel_gs_base m).
(** syscall_frame_t: the registers, then the user's stack pointer. *)
Definition syscall_frame (g : gprs) (user_rsp : Z) : list Z := reverse (saved_regs g) ++ [user_rsp].

Lemma syscall_entry_ok lstar m top : machine_ok m → percpu_ok m top →
  let m1 := syscall_entry (syscall lstar m) in
  rsp m1 = top - 128 ∧ words (memory m1) (top - 128) (syscall_frame (set_rcx_r11 (rip m) (rflags m) (gpr m)) (rsp m))
  ∧ rdi (gpr m1) = rsp m1 ∧ gs_base m1 = kernel_gs_base m ∧ kernel_gs_base m1 = gs_base m.
Proof.
  intros [Hregs Hrest] (Hp0 & Hp1 & Htop & Hr & Hdis) m1.
  rewrite !Forall_cons in Hrest. destruct Hrest as (Hrsp & Hrip & _ & Hfl & _ & _).
  set (g := set_rcx_r11 (rip m) (rflags m) (gpr m)). set (p := kernel_gs_base m) in *.
  set (mem0 := st64 (p + 8) (rsp m) (memory m)).
  assert (ld64 mem0 (p + 16) = top) as Htop' by (unfold mem0; rewrite ld64_st64_ne by lia; done).
  assert (ld64 mem0 (p + 8) = rsp m) as Hu by (unfold mem0; rewrite ld64_st64_eq; apply u64_small, Hrsp).
  assert (Forall in64 (saved_regs g)) as Hg.
  { unfold g, saved_regs in *. cbn [rax rbx rcx rdx rbp rdi rsi r8 r9 r10 r11 r12 r13 r14 r15 set_rcx_r11].
    rewrite !Forall_cons in Hregs |- *. repeat (split; [apply Hregs || done|]). done. }
  destruct (push_words_ok [rsp m] top mem0) as (E1 & W1 & O1); [simpl; lia|lia|].
  change (8 * Z.of_nat (length [rsp m])) with 8 in *. rewrite u64_fmap in W1 by (by constructor).
  destruct (push_words_ok (saved_regs g) (top - 8) (push_words [rsp m] (top, mem0)).2) as (E2 & W2 & O2); [simpl; lia|lia|].
  change (8 * Z.of_nat (length (saved_regs g))) with 120 in *. rewrite u64_fmap in W2 by exact Hg.
  replace (top - 8 - 120) with (top - 128) in * by lia.
  unfold m1, syscall_entry, swapgs, syscall. cbn -[push_words saved_regs set_rcx_r11]. fold p g.
  rewrite !u64_small by lia. fold mem0. rewrite Htop', Hu.
  rewrite E1. split; [exact E2|]. split; [|by repeat split].
  unfold syscall_frame. apply words_app. split; [exact W2|].
  change (8 * Z.of_nat (length (reverse (saved_regs g)))) with 120. replace (top - 128 + 120) with (top - 8) by lia.
  eapply words_ext; [exact W1|]. intros b Hb. apply O2. simpl in Hb. lia.
Qed.

Definition set_rax (v : Z) (g : gprs) : gprs :=
  mk_gprs v (rbx g) (rcx g) (rdx g) (rbp g) (rdi g) (rsi g) (r8 g) (r9 g) (r10 g) (r11 g) (r12 g) (r13 g) (r14 g) (r15 g).

(** C28: a system call hands syscall_handler, in rdi, the frame syscall_frame_t of the
    user's registers (rcx and r11 hold the return address and flags that the syscall
    instruction put there) and stack pointer. When the handler returns with the frame
    as it was but for the word of rax, the program goes on after the system call with
    the result in rax, its own stack and every register but rcx and r11 as before, in
    ring 3 and with its GS base; the flags lose only what sysret clears. *)
Theorem syscall_round_trip lstar m top result : machine_ok m → percpu_ok m top → in64 result →
  let m1 := syscall_entry (syscall lstar m) in
  let g := set_rcx_r11 (rip m) (rflags m) (gpr m) in
  words (memory m1) (rdi (gpr m1)) (syscall_frame g (rsp m))
  ∧ (∀ m2, rsp m2 = rsp m1 → gs_base m2 = gs_base m1 → kernel_gs_base m2 = kernel_gs_base m1 →
      words (memory m2) (rsp m1) (syscall_frame (set_rax result g) (rsp m)) →
      let r := syscall_exit m2 in
      gpr r = set_rax result g ∧ rsp r = rsp m ∧ rip r = rip m ∧ rflags r = sysret_flags (rflags m)
      ∧ cs r = USER_CS ∧ ss r = USER_SS ∧ gs_base r = gs_base m ∧ kernel_gs_base r = kernel_gs_base m).
Proof.
  intros Hm Hp Hres m1 g. destruct (syscall_entry_ok lstar m top Hm Hp) as (E1 & W1 & R1 & B1 & K1).
  fold m1 g in E1, W1, R1, B1, K1. rewrite R1, E1. split; [exact W1|]. clearbody m1.
  intros m2 E2 B2 K2 W2. destruct Hp as (Hp0 & Hp1 & Htop & Hr & Hdis).
  assert (∀ i w, (i < 16)%nat → syscall_frame (set_rax result g) (rsp m) !! i = Some w →
    ld64 (memory m2) (u64 (rsp m2 + 8 * Z.of_nat i)) = w) as Hat.
  { intros i w Hi Hl. rewrite E2, u64_small by lia. by apply (words_lookup _ _ _ _ _ W2). }
  assert (pop_regs m2 = mk_machine (set_rax result g) (rsp m2 + 120) (rip m2) (cs m2) (rflags m2) (ss m2)
    (gs_base m2) (kernel_gs_base m2) (memory m2)) as Hpop.
  { unfold pop_regs, stacked. rewrite (u64_small (rsp m2 + 120)) by lia. f_equal. unfold g, set_rcx_r11, set_rax.
    destruct (gpr m). cbn [rax rbx rcx rdx rbp rdi rsi r8 r9 r10 r11 r12 r13 r14 r15]. f_equal;
    match goal with |- ld64 _ (u64 (_ + 8 * ?k)) = _ => exact (Hat (Z.to_nat k) _ ltac:(lia) eq_refl) end. }
  assert (ld64 (memory m2) (u64 (rsp m2 + 120)) = rsp m) as Hu by (apply (Hat 15%nat); [lia|reflexivity]).
  assert (in64 (rsp m)) as Hrsp by (destruct Hm as [_ Hrest]; by apply Forall_cons in Hrest as [? _]).
  unfold syscall_exit. rewrite Hpop. unfold stacked, set_stack, swapgs, sysret.
  cbn [rsp memory gpr gs_base kernel_gs_base fst snd cs ss rip rflags].
  rewrite Z.mul_0_r, Z.add_0_r, Hu.
  rewrite B2, K2, B1, K1. rewrite (u64_small (kernel_gs_base m + 8)) by lia. rewrite ld64_st64_eq.
  rewrite (u64_small (rsp m)) by exact Hrsp.
  by repeat split.
Qed.

Module EntryWitness.
Import DescWitness.
Definition demo_gprs : gprs := mk_gprs 1 2 3 4 5 6 7 8 9 10 11 12 13 14 15.
(** A program in ring 3, on memory [m]; the CPU's data is at 0x9000, its stack ends at 0x20000. *)
Definition user_a (m : mem) : machine :=
  mk_machine demo_gprs 0x7000 0x400100 USER_CS 0x202 USER_SS 0 0x9000 m.
Definition user_b (m : mem) : machine :=
  mk_machine (mk_gprs 0 0 0 0 0 0 0 0 0 0 0 0 0 0 0) 0x6000 0x500200 USER_CS 0x246 USER_SS 0 0x9000 m.

Lemma user_ok m : machine_ok (user_a m) ∧ machine_ok (user_b m).
Proof. split; split; repeat constructor; simpl; (lia || done). Qed.

Lemma fault_ok : trap_ok (Exception 14 (Some 6)).
Proof. split; [lia|]. split; [repeat constructor; lia|reflexivity]. Qed.

Lemma user_stack t m : trap_number t ≠ 8 → trap_stack t (user_a m) = 0xFFFFFFFF80014000.
Proof. intros Hn. unfold trap_stack. destruct (Z.eqb_spec (trap_number t) 8); [done|]. reflexivity. Qed.

Lemma trap_round_trip_witness : ∃ m m1, trap_entry (Exception 14 (Some 6)) (user_a m) = Some m1
  ∧ interrupt_frame_at (memory m1) (rdi (gpr m1)) = mk_iframe demo_gprs 14 6 0x400100 USER_CS 0x202 0x7000 USER_SS
  ∧ common_exit m1 = mk_machine demo_gprs 0x7000 0x400100 USER_CS 0x202 USER_SS 0 0x9000 (memory m1).
Proof.
  destruct (install_tables_in desc_zero) as (s' & _ & Htab). exists (d_mem s').
  pose proof (user_stack (Exception 14 (Some 6)) (d_mem s') ltac:(discriminate)) as Hst.
  destruct (trap_round_trip (Exception 14 (Some 6)) (user_a (d_mem s')) (proj1 (user_ok _)) fault_ok Htab
    ltac:(rewrite Hst; lia) ltac:(rewrite Hst; lia)) as (m1 & Hr & Hf & _ & _ & _ & He).
  exists m1. split; [exact Hr|]. split; [exact Hf|]. apply He; [reflexivity..|]. intros b _. reflexivity.
Defined.

Lemma set_stack_fields p m x : rsp (set_stack (p, m) x) = p ∧ memory (set_stack (p, m) x) = m.
Proof. done. Qed.

Lemma shared_interrupt_stack_witness : ∃ m a1 b1 m2, trap_entry (Irq 0) (user_a m) = Some a1
  ∧ trap_entry (Irq 0) (user_b m) = Some b1 ∧ rsp m2 = rsp a1 ∧ memory m2 = memory b1 ∧ rip (common_exit m2) = 0x500200.
Proof.
  destruct (install_tables_in desc_zero) as (s' & _ & Htab). exists (d_mem s').
  destruct (shared_interrupt_stack (Irq 0) (Irq 0) (user_a (d_mem s')) (user_b (d_mem s')) (proj1 (user_ok _))
    (proj2 (user_ok _)) ltac:(simpl; lia) ltac:(simpl; lia) Htab Htab ltac:(discriminate) ltac:(discriminate) eq_refl eq_refl)
    as (a1 & b1 & Ha & Hb & Hall).
  exists a1, b1. destruct (set_stack_fields (rsp a1) (memory b1) (user_a ∅)) as [Hsp Hm].
  eexists. split; [exact Ha|]. split; [exact Hb|]. split; [exact Hsp|]. split; [exact Hm|].
  apply (Hall _ Hsp). rewrite Hm. intros b _. exact eq_refl.
Defined.

(** The handler's machine on return, with 42 in the frame's rax. *)
Definition returned : machine :=
  mk_machine demo_gprs (0x20000 - 128) 0 KERNEL_CS 0 0x10 0x9000 0
    (push_words [0x7000; 42; 2; 0x400100; 4; 5; 6; 7; 8; 9; 10; 0x202; 12; 13; 14; 15] (0x20000, ∅)).2.

Lemma syscall_round_trip_witness :
  rax (gpr (syscall_exit returned)) = 42 ∧ rip (syscall_exit returned) = 0x400100 ∧ rsp (syscall_exit returned) = 0x7000.
Proof.
  destruct (syscall_round_trip 0x888 (user_a (st64 0x9010 0x20000 ∅)) 0x20000 42 (proj1 (user_ok _))
    ltac:(repeat split; try (vm_compute; congruence); left; vm_compute; discriminate) ltac:(split; lia)) as [_ He].
  destruct (He returned) as (Hg & Hsp & Hip & _).
  - vm_compute. reflexivity.
  - reflexivity.
  - reflexivity.
  - vm_compute. repeat split.
  - rewrite Hg. split; [reflexivity|]. split; [exact Hip|exact Hsp].
Defined.
End EntryWitness.
