(* ===== verification/Debug.v ===== *)
(** * Printers for debugging

    debug_interrupt_frame of interrupts/isr.c, print_context of kernel_common/core_dump.c and
    debug_avail_clocks of time/clocks.c: what they print, and that they end and change nothing
    but the terminal and, where clocks are read, the time. *)
From S2P Require Import Prelude CMem CString Chain Phys Vmm Heap Term Cpuid Clock Entry.

Section debug.
Context `{UA : Uart}.

Definition debug_interrupt_frame (f : interrupt_frame) : M term_state unit :=
  _ ← terminal_write "Registers debug: 
isr: ";
  _ ← terminal_write_u64 (interrupt_number f);
  _ ← terminal_write " rip: ";
  _ ← terminal_write_hex_u64 (f_rip f);
  _ ← terminal_write " cs: ";
  _ ← terminal_write_hex_u64 (f_cs f);
  _ ← terminal_write " rflags: ";
  _ ← terminal_write_hex_u64 (f_rflags f);
  _ ← terminal_write " rsp: ";
  _ ← terminal_write_hex_u64 (f_rsp f);
  _ ← terminal_write " ss: ";
  _ ← terminal_write_hex_u64 (f_ss f);
  _ ← terminal_write "
R15: ";
  _ ← terminal_write_hex_u64 (r15 (f_regs f));
  _ ← terminal_write " R14: ";
  _ ← terminal_write_hex_u64 (r14 (f_regs f));
  _ ← terminal_write " R13: ";
  _ ← terminal_write_hex_u64 (r13 (f_regs f));
  _ ← terminal_write " R12: ";
  _ ← terminal_write_hex_u64 (r12 (f_regs f));
  _ ← terminal_write "
R11: ";
  _ ← terminal_write_hex_u64 (r11 (f_regs f));
  _ ← terminal_write " R10: ";
  _ ← terminal_write_hex_u64 (r10 (f_regs f));
  _ ← terminal_write " R9: ";
  _ ← terminal_write_hex_u64 (r9 (f_regs f));
  _ ← terminal_write " R8: ";
  _ ← terminal_write_hex_u64 (r8 (f_regs f));
  _ ← terminal_write "
RSI: ";
  _ ← terminal_write_hex_u64 (rsi (f_regs f));
  _ ← terminal_write " RDI: ";
  _ ← terminal_write_hex_u64 (rdi (f_regs f));
  _ ← terminal_write " RBP: ";
  _ ← terminal_write_hex_u64 (rbp (f_regs f));
  _ ← terminal_write " RDX: ";
  _ ← terminal_write_hex_u64 (rdx (f_regs f));
  _ ← terminal_write "
RCX: ";
  _ ← terminal_write_hex_u64 (rcx (f_regs f));
  _ ← terminal_write " RBX: ";
  _ ← terminal_write_hex_u64 (rbx (f_regs f));
  _ ← terminal_write " RAX: ";
  _ ← terminal_write_hex_u64 (rax (f_regs f));
  terminal_write "
".

(** core_dump_t: the registers when print_context runs, and two fields its callers leave 0. *)
Record core_dump := mk_dump {
  d_r15 : Z; d_r14 : Z; d_r13 : Z; d_r12 : Z; d_rbp : Z; d_rbx : Z; d_rsp : Z; d_rip : Z; d_cr2 : Z; d_err : Z;
}.
(** print_context after its assembly, which fills in the registers. *)
Definition print_context (d : core_dump) : M term_state unit :=
  _ ← terminal_write "Core dump:
";
  _ ← terminal_write "RIP: ";
  _ ← terminal_write_hex_u64 (d_rip d);
  _ ← terminal_write "
RSP: ";
  _ ← terminal_write_hex_u64 (d_rsp d);
  _ ← terminal_write "
RBP: ";
  _ ← terminal_write_hex_u64 (d_rbp d);
  _ ← terminal_write "
R15: ";
  _ ← terminal_write_hex_u64 (d_r15 d);
  _ ← terminal_write "
R14: ";
  _ ← terminal_write_hex_u64 (d_r14 d);
  _ ← terminal_write "
R13: ";
  _ ← terminal_write_hex_u64 (d_r13 d);
  _ ← terminal_write "
R12: ";
  _ ← terminal_write_hex_u64 (d_r12 d);
  _ ← terminal_write "
RBX: ";
  _ ← terminal_write_hex_u64 (d_rbx d);
  _ ← terminal_write "
CR2: ";
  _ ← terminal_write_hex_u64 (d_cr2 d);
  _ ← terminal_write "
Error code: ";
  _ ← terminal_write_hex_u64 (d_err d);
  terminal_write "
".

(** ** Printing *)

(** [m] returns and sends [cs]. *)
Definition says (m : M term_state unit) (cs : list Z) : Prop := ∀ t, ∃ t', m t = Done (tt, t') ∧ sent t t' cs.
Lemma says_then m (m' : M term_state unit) a b : says m a → says m' b → says (_ ← m; m') (a ++ b).
Proof.
  intros Hm Hm' t. destruct (Hm t) as (t1 & E1 & H1). destruct (Hm' t1) as (t2 & E2 & H2).
  exists t2. split; [by rewrite (bind_Done _ _ _ _ _ E1)|by eapply sent_trans].
Qed.
Lemma says_write str : says (terminal_write str) (puts_out (chars str)).
Proof. intros t. apply terminal_puts_ok. Qed.
Definition hex_text (v : Z) : list Z :=
  puts_out (chars "0x") ++ puts_out (hex_digits [60;56;52;48;44;40;36;32;28;24;20;16;12;8;4;0] v).
Lemma says_hex v : says (terminal_write_hex_u64 v) (hex_text v).
Proof. apply (says_then (terminal_write "0x")); intros t; apply terminal_puts_ok. Qed.
Definition number_text (v : Z) : list Z := if v =? 0 then putc_out 48 else puts_out (reverse (decimal_digits 21 v)).
Lemma says_number v : says (terminal_write_u64 v) (number_text v).
Proof. intros t. unfold terminal_write_u64, number_text. destruct (v =? 0); [apply terminal_putc_ok|apply terminal_puts_ok]. Qed.

(** The terminal's functions in sequence. *)
Inductive printer : M term_state unit → Prop :=
  | PWrite str : printer (terminal_write str)
  | PHex v : printer (terminal_write_hex_u64 v)
  | PNumber v : printer (terminal_write_u64 v)
  | PThen m m' : printer m → printer m' → printer (_ ← m; m').
Lemma printer_says m : printer m → ∃ cs, says m cs.
Proof.
  induction 1 as [str|v|v|m m' _ [a Ha] _ [b Hb]]; eauto using says_write, says_hex, says_number, says_then.
Qed.

(** Both printers return, whatever they are given, and only print. *)
Lemma debug_interrupt_frame_prints f : ∃ cs, says (debug_interrupt_frame f) cs.
Proof. apply printer_says. repeat constructor. Qed.
Lemma print_context_prints d : ∃ cs, says (print_context d) cs.
Proof. apply printer_says. repeat constructor. Qed.
End debug.

(** ** The list of clocks *)

Definition CLOCK_NAMES : list string := ["TSC"; "HPET"; "PM Timer"; "RTC"]%string.

Section clocks.
Context `{OH : ObjectHeap H} `{UA : Uart} `{HW : ClockHw}.
Abbreviation C := (clock_state H).
Implicit Types (s : C).

Definition say_ck (str : string) : M C unit := on_ck_term (terminal_write str).
Definition say_number (v : Z) : M C unit := on_ck_term (terminal_write_u64 v).

Definition debug_clock (c : clock_source) : M C unit :=
  _ ← say_ck " - NAME: ";
  _ ← match CLOCK_NAMES !! Z.to_nat (cs_id c) with Some name => say_ck name | None => mundef "CLOCK_NAMES[current->id]" end;
  _ ← say_ck " (";
  _ ← on_ck_term (terminal_write_hex_u8 (cs_id c));
  _ ← say_ck ")";
  _ ← say_ck ", Freq: ";
  _ ← say_number (cs_freq c);
  _ ← say_ck " Hz";
  _ ← match cs_now c with
      | None => mret tt
      | Some _ =>
          _ ← say_ck ", NOW: ";
          now ← call_now c;
          _ ← say_number now;
          say_ck "
"
      end;
  match cs_real c with
  | None => mret tt
  | Some RtcReal =>
      ts ← rtc_real (mk_ts 0 0);
      _ ← say_ck ", REAL: (sec: ";
      _ ← say_number (u64 (tv_sec ts));
      _ ← say_ck ", nsec: ";
      _ ← say_number (u64 (tv_nsec ts));
      say_ck ")
"
  end.

Definition clock_turn (current : Z) (again : Z → M C unit) : M C unit :=
  if current =? 0 then mret tt
  else
    c ← get_source current;
    _ ← debug_clock c;
    again (cs_next c).
Fixpoint debug_clocks (fuel : nat) (current : Z) : M C unit :=
  clock_turn current match fuel with O => λ _ _, OutOfFuel | S k => debug_clocks k end.

Definition debug_avail_clocks : M C unit :=
  current ← gets clock_list;
  _ ← say_ck "Available clock sources:
";
  n ← gets (λ s, size (sources s));
  debug_clocks n current.

(** The clocks of [s] and [s'] are the same, apart from the readings. *)
Record same_clocks s s' : Prop := {
  sk_sources : sources s' = sources s;
  sk_list : clock_list s' = clock_list s;
  sk_boot : boot_clock s' = boot_clock s;
  sk_rtc : base_rtc s' = base_rtc s;
  sk_pm : is_Some (pm_timer s) → is_Some (pm_timer s');
  sk_heap : ck_heap s' = ck_heap s;
}.
Lemma same_clocks_refl s : same_clocks s s.
Proof. by split. Qed.
Lemma same_clocks_trans s1 s2 s3 : same_clocks s1 s2 → same_clocks s2 s3 → same_clocks s1 s3.
Proof. intros [] []. split; (congruence || auto). Qed.

(** [m] returns and changes only readings and the terminal. *)
Definition reads {A} (m : M C A) s : Prop := ∃ x s', m s = Done (x, s') ∧ same_clocks s s'.
Lemma reads_bind {A B} (m : M C A) (f : A → M C B) s :
  reads m s → (∀ x s', same_clocks s s' → reads (f x) s') → reads (m ≫= f) s.
Proof.
  intros (x & s1 & E & H1) Hf. destruct (Hf x s1 H1) as (y & s2 & E2 & H2).
  exists y, s2. split; [by rewrite (bind_Done _ _ _ _ _ E)|by eapply same_clocks_trans].
Qed.
Lemma reads_ret {A} (x : A) s : reads (mret x) s.
Proof. exists x, s. split; [done|apply same_clocks_refl]. Qed.
Lemma reads_gets {A B} (g : C → A) (f : A → M C B) s : reads (f (g s)) s → reads (gets g ≫= f) s.
Proof. exact id. Qed.
Lemma reads_source {B} p c (f : clock_source → M C B) s : sources s !! p = Some c → reads (f c) s → reads (get_source p ≫= f) s.
Proof. intros Hc (x & s' & E & Hs). exists x, s'. split; [|done]. by rewrite (bind_Done _ _ _ c s) by (unfold get_source; by rewrite Hc). Qed.
Lemma reads_term (m : M term_state unit) s : (∃ cs, says m cs) → reads (on_ck_term m) s.
Proof.
  intros (cs & Hm). destruct (Hm (ck_term s)) as (t & E & _). exists tt. eexists.
  split; [exact (zoom_Done ck_term _ m s tt t E)|by split].
Qed.
Lemma reads_say str s : reads (say_ck str) s.
Proof. apply reads_term. eexists. apply says_write. Qed.
Lemma reads_number v s : reads (say_number v) s.
Proof. apply reads_term. eexists. apply says_number. Qed.
Lemma reads_hex8 v s : reads (on_ck_term (terminal_write_hex_u8 v)) s.
Proof. apply reads_term. eexists. apply (says_then (terminal_write "0x")); intros t; apply terminal_puts_ok. Qed.

(** A source that can be read: its PM timer is there if it is one. *)
Definition readable s (c : clock_source) : Prop :=
  (cs_id c < 4) ∧ (cs_now c = Some PmTimerRead → is_Some (pm_timer s)).
Lemma reads_now c s : is_Some (cs_now c) → readable s c → reads (call_now c) s.
Proof.
  intros [[] Hn] [_ Hpm]; unfold call_now; rewrite Hn.
  - unfold tsc_read, rdtsc, sample. eexists _, _. split; [reflexivity|by split].
  - unfold hpet_read, sample. eexists _, _. split; [reflexivity|by split].
  - destruct (Hpm Hn) as [[port w] E]. unfold reads, pm_timer_read. rewrite (bind_Done (gets pm_timer) _ s _ s (f_equal (λ x, Done (x, s)) E)).
    eexists _, _. split; [reflexivity|by split].
Qed.

(** rtc_real reads the boot clock. *)
Definition rtc_ready s : Prop :=
  is_Some (base_rtc s) ∧ boot_clock s ≠ 0
  ∧ ∃ c, sources s !! boot_clock s = Some c ∧ is_Some (cs_now c) ∧ readable s c ∧ cs_freq c ≠ 0.
Lemma readable_same s s' c : same_clocks s s' → readable s c → readable s' c.
Proof. intros [] [? ?]. split; auto. Qed.
Lemma reads_rtc ts s : rtc_ready s → reads (rtc_real ts) s.
Proof.
  intros ([b Hb] & Hboot & c & Hc & Hnow & Hread & Hf). unfold rtc_real. apply reads_gets. rewrite Hb.
  apply reads_bind; [|intros; apply reads_ret]. unfold ns_since_boot. apply reads_gets. rewrite (proj2 (Z.eqb_neq _ 0)) by done.
  apply reads_bind; [|intros; apply reads_gets, reads_ret]. unfold clock_get_ns. apply (reads_source _ c); [done|].
  apply reads_bind; [by apply reads_now|]. intros ticks s1 _. rewrite (proj2 (Z.eqb_neq _ 0)) by done. apply reads_ret.
Qed.

(** A source that debug_avail_clocks can describe. *)
Definition describable s (c : clock_source) : Prop :=
  0 ≤ cs_id c ∧ readable s c ∧ (is_Some (cs_real c) → rtc_ready s).
Lemma rtc_ready_same s s' : same_clocks s s' → rtc_ready s → rtc_ready s'.
Proof.
  intros Hs (Hb & Hne & c & Hc & Hn & Hr & Hf). pose proof Hs as [Es _ Eb Er _ _]. rewrite <- Er in Hb. unfold rtc_ready.
  rewrite Eb, Es. split; [done|]. split; [done|]. exists c. eauto using readable_same.
Qed.
Lemma describable_same s s' c : same_clocks s s' → describable s c → describable s' c.
Proof. intros Hs (Hpos & Hr & Hreal). split; [done|]. eauto using readable_same, rtc_ready_same. Qed.


(** [m] still does so after other reads. *)
Definition reads_on {A} s (m : M C A) : Prop := ∀ s', same_clocks s s' → reads m s'.
Lemma reads_on_bind {A B} s (m : M C A) (f : A → M C B) : reads_on s m → (∀ x, reads_on s (f x)) → reads_on s (m ≫= f).
Proof. intros Hm Hf s1 H1. apply reads_bind; [by apply Hm|]. intros x s2 H2. apply Hf. by eapply same_clocks_trans. Qed.
Lemma reads_on_say s str : reads_on s (say_ck str).
Proof. intros ? _. apply reads_say. Qed.
Lemma reads_on_number s v : reads_on s (say_number v).
Proof. intros ? _. apply reads_number. Qed.
Lemma reads_on_hex8 s v : reads_on s (on_ck_term (terminal_write_hex_u8 v)).
Proof. intros ? _. apply reads_hex8. Qed.
Lemma reads_on_ret {A} s (x : A) : reads_on s (mret x).
Proof. intros ? _. apply reads_ret. Qed.
Ltac read1 := lazymatch goal with
  | |- reads_on _ (_ ≫= _) => apply reads_on_bind; [|intros ?]
  | |- reads_on _ (say_ck _) => apply reads_on_say
  | |- reads_on _ (say_number _) => apply reads_on_number
  | |- reads_on _ (on_ck_term _) => apply reads_on_hex8
  | |- reads_on _ (mret _) => apply reads_on_ret
  end.

Lemma reads_clock c s : describable s c → reads_on s (debug_clock c).
Proof.
  intros (Hpos & Hr & Hreal). unfold debug_clock. repeat read1.
  - destruct Hr as [H4 _]. destruct (lookup_lt_is_Some_2 CLOCK_NAMES (Z.to_nat (cs_id c))) as [name ->]; [simpl; lia|read1].
  - destruct (cs_now c) eqn:E; repeat read1. intros s' Hs. apply reads_now; [by rewrite E|by eapply readable_same].
  - destruct (cs_real c) as [[]|]; repeat read1. intros s' Hs. apply reads_rtc. eapply rtc_ready_same; [done|]. by apply Hreal.
Qed.

Lemma debug_clocks_ok s l : ∀ fuel p s', chain cs_next (sources s) p l → (length l ≤ fuel)%nat →
  (∀ q c, q ∈ l → sources s !! q = Some c → describable s c) → same_clocks s s' → reads (debug_clocks fuel p) s'.
Proof.
  induction l as [|q l IH]; intros fuel p s' Hc Hl Hd Hs.
  - simpl in Hc. subst p. destruct fuel; apply reads_ret.
  - destruct Hc as (-> & Hq & c & Hm & Hc). destruct fuel as [|fuel]; [simpl in Hl; lia|]. cbn [debug_clocks]. unfold clock_turn.
    rewrite (proj2 (Z.eqb_neq q 0)) by done. apply (reads_source _ c); [by rewrite (sk_sources _ _ Hs)|].
    apply reads_bind; [apply (reads_clock c s); [by apply (Hd q); [left|]|done]|]. intros _ s2 H2.
    apply IH; [done|simpl in Hl; lia| |by eapply same_clocks_trans]. intros q' c' Hq'. apply Hd. by right.
Qed.

(** Listing the clocks ends, for any list of registered sources that can be read, and leaves the
    list, the boot clock and the base of the real-time clock as they were. *)
Theorem debug_avail_clocks_ends s l L ns : clocks_inv s l L ns →
  (∀ q c, q ∈ l → sources s !! q = Some c → describable s c) → reads debug_avail_clocks s.
Proof.
  intros Hi Hd. unfold debug_avail_clocks. apply reads_gets. apply reads_bind; [apply reads_say|]. intros _ s1 H1.
  apply reads_gets. rewrite (sk_sources _ _ H1).
  apply (debug_clocks_ok s l); [exact (ci_chain _ _ _ _ Hi)| |exact Hd|exact H1].
  exact (chain_length _ _ _ _ (ci_chain _ _ _ _ Hi) (ci_nodup _ _ _ _ Hi)).
Qed.
End clocks.
