(* ===== verification/Pic.v ===== *)
(** * The interrupt controllers of the PC: the PIC part of src/interrupts/irq.c

    Two 8259A controllers as state machines that port writes step: initialisation
    command words, mask register, in-service register and end of interrupt. *)
From S2P Require Import Prelude.

Definition PIC1_CMD : Z := 0x20.
Definition PIC1_DATA : Z := PIC1_CMD + 1.
Definition PIC2_CMD : Z := 0xA0.
Definition PIC2_DATA : Z := PIC2_CMD + 1.
Definition ICW1_INIT : Z := 0x10.
Definition ICW1_ICW4 : Z := 0x01.
Definition ICW4_8086 : Z := 0x01.

(** ** The 8259A *)

(** What the next write to the data port is taken for. *)
Inductive pic_phase := Ready | WaitIcw2 | WaitIcw3 | WaitIcw4.
#[export] Instance pic_phase_eq_dec : EqDecision pic_phase.
Proof. solve_decision. Defined.

Record pic := mk_pic {
  phase : pic_phase;
  icw1 : Z;
  vector_base : Z;
  cascade : Z;
  mode : Z;
  imr : Z;                    (* masked lines *)
  in_service : Z;             (* lines delivered and not yet ended; line 0 has the highest priority *)
}.

Definition after_icw3 (p : pic) : pic_phase := if Z.testbit (icw1 p) 0 then WaitIcw4 else Ready.
(** A write to the command port: ICW1, or OCW2 (0x20: non-specific end of interrupt). *)
Definition pic_command (v : Z) (p : pic) : pic :=
  if Z.testbit v 4 then mk_pic WaitIcw2 v (vector_base p) (cascade p) (mode p) 0 0
  else if v =? 0x20 then
    mk_pic (phase p) (icw1 p) (vector_base p) (cascade p) (mode p) (imr p) (Z.land (in_service p) (in_service p - 1))
  else p.
Definition pic_data (v : Z) (p : pic) : pic :=
  match phase p with
  | Ready => mk_pic Ready (icw1 p) (vector_base p) (cascade p) (mode p) v (in_service p)
  | WaitIcw2 => mk_pic (if Z.testbit (icw1 p) 1 then after_icw3 p else WaitIcw3) (icw1 p) (Z.land v 0xF8) (cascade p) (mode p)
                  (imr p) (in_service p)
  | WaitIcw3 => mk_pic (after_icw3 p) (icw1 p) (vector_base p) v (mode p) (imr p) (in_service p)
  | WaitIcw4 => mk_pic Ready (icw1 p) (vector_base p) (cascade p) v (imr p) (in_service p)
  end.

Record pics := mk_pics { master : pic; slave : pic }.
Definition pic_outb (port v : Z) : M pics unit := modify (λ s,
  let v := u8 v in
  if port =? PIC1_CMD then mk_pics (pic_command v (master s)) (slave s)
  else if port =? PIC1_DATA then mk_pics (pic_data v (master s)) (slave s)
  else if port =? PIC2_CMD then mk_pics (master s) (pic_command v (slave s))
  else if port =? PIC2_DATA then mk_pics (master s) (pic_data v (slave s))
  else s).
(** The data port reads as the mask register. *)
Definition pic_inb (port : Z) : M pics Z := gets (λ s,
  if port =? PIC1_DATA then imr (master s) else if port =? PIC2_DATA then imr (slave s) else 0xFF).

(** ** irq.c *)

Definition io_wait : M pics unit := pic_outb 0x80 0.

Definition pic_remap (offset1 offset2 : Z) : M pics unit :=
  a1 ← pic_inb PIC1_DATA;
  a2 ← pic_inb PIC2_DATA;
  _ ← pic_outb PIC1_CMD (Z.lor ICW1_INIT ICW1_ICW4);
  _ ← io_wait;
  _ ← pic_outb PIC2_CMD (Z.lor ICW1_INIT ICW1_ICW4);
  _ ← io_wait;
  _ ← pic_outb PIC1_DATA offset1;
  _ ← io_wait;
  _ ← pic_outb PIC2_DATA offset2;
  _ ← io_wait;
  _ ← pic_outb PIC1_DATA 4;
  _ ← io_wait;
  _ ← pic_outb PIC2_DATA 2;
  _ ← io_wait;
  _ ← pic_outb PIC1_DATA ICW4_8086;
  _ ← pic_outb PIC2_DATA ICW4_8086;
  _ ← pic_outb PIC1_DATA a1;
  pic_outb PIC2_DATA a2.

Definition irq_init : M pics unit :=
  _ ← pic_remap 32 40;
  _ ← pic_outb PIC1_DATA 0xFF;
  pic_outb PIC2_DATA 0xFF.

Definition pic_send_eoi (irq : Z) : M pics unit :=
  _ ← (if 8 <=? irq then pic_outb PIC2_CMD 0x20 else mret tt);
  pic_outb PIC1_CMD 0x20.

(** A shift by 32 or more is undefined. *)
Definition pic_unmask_irq (irq : Z) : M pics unit :=
  let port := if irq <? 8 then PIC1_DATA else PIC2_DATA in
  let irq := if irq <? 8 then irq else irq - 8 in
  if 32 <=? irq then mundef "shift too large"
  else
    value ← pic_inb port;
    pic_outb port (Z.land value (Z.lnot (Z.shiftl 1 irq))).

Definition pic_disable : M pics unit :=
  _ ← pic_outb PIC1_DATA 0xFF;
  pic_outb PIC2_DATA 0xFF.

(** ** Specification *)

Definition pics_ok (s : pics) : Prop :=
  phase (master s) = Ready ∧ phase (slave s) = Ready ∧ 0 ≤ imr (master s) < 256 ∧ 0 ≤ imr (slave s) < 256.

(** Whether a request on line [i] of 16 can reach the processor: the slave is on line
    2 of the master. *)
Definition unmasked (s : pics) (i : Z) : bool :=
  if i <? 8 then negb (Z.testbit (imr (master s)) i)
  else negb (Z.testbit (imr (slave s)) (i - 8)) && negb (Z.testbit (imr (master s)) 2).

(** The processor acknowledges line [i]. *)
Definition serve (l : Z) (p : pic) : pic :=
  mk_pic (phase p) (icw1 p) (vector_base p) (cascade p) (mode p) (imr p) (Z.lor (in_service p) (2 ^ l)).
Definition acknowledge (i : Z) (s : pics) : pics :=
  if i <? 8 then mk_pics (serve i (master s)) (slave s) else mk_pics (serve 2 (master s)) (serve (i - 8) (slave s)).

(** No line of [p] of the priority of line [l] or higher is in service. *)
Definition idle_above (l : Z) (p : pic) : Prop := 0 ≤ in_service p ∧ ∀ k, 0 ≤ k ≤ l → Z.testbit (in_service p) k = false.

(** ** Lemmas *)

Lemma u8_small v : 0 ≤ v < 256 → u8 v = v.
Proof. apply Z.mod_small. Qed.

(** Ending the highest-priority line in service undoes its acknowledgement. *)
Lemma clear_lowest x l : 0 ≤ l → 0 ≤ x → (∀ k, 0 ≤ k ≤ l → Z.testbit x k = false) →
  Z.land (Z.lor x (2 ^ l)) (Z.lor x (2 ^ l) - 1) = x.
Proof.
  intros Hl Hx Hbits. set (q := x / 2 ^ (l + 1)).
  assert (0 < 2 ^ l) as Hp by lia.
  assert (2 ^ (l + 1) = 2 * 2 ^ l) as Hp2 by (rewrite Z.pow_add_r by lia; lia).
  assert (x = 0 + q * 2 ^ (l + 1)) as Hq.
  { unfold q. rewrite (Z.div_mod x (2 ^ (l + 1))) at 1 by lia.
    rewrite <- (Z.land_ones x) by lia. enough (Z.land x (Z.ones (l + 1)) = 0) as -> by lia.
    apply Z.bits_inj'. intros n Hn. rewrite Z.land_spec, Z.bits_0. destruct (decide (n ≤ l)).
    - by rewrite Hbits by lia.
    - rewrite (Z.ones_spec_high (l + 1) n) by lia. apply andb_false_r. }
  assert (Z.lor x (2 ^ l) = 2 ^ l + q * 2 ^ (l + 1)) as Hy.
  { rewrite Hq. rewrite Z.add_0_l, <- Z.shiftl_mul_pow2, Z.lor_comm, lor_shiftl_add, Z.shiftl_mul_pow2 by lia. done. }
  rewrite Hy. replace (2 ^ l + q * 2 ^ (l + 1) - 1) with ((2 ^ l - 1) + q * 2 ^ (l + 1)) by lia.
  apply Z.bits_inj'. intros n Hn. rewrite Z.land_spec, Hq, !testbit_join by lia.
  destruct (Z.ltb_spec n (l + 1)).
  - rewrite Z.bits_0. destruct (decide (n = l)) as [->|].
    + replace (2 ^ l - 1) with (Z.ones l) by (rewrite Z.ones_equiv; lia). by rewrite (Z.ones_spec_high l l), andb_false_r by lia.
    + by rewrite Z.pow2_bits_false by done.
  - apply andb_diag.
Qed.

Lemma irq_init_ok s :
  irq_init s = Done (tt, mk_pics (mk_pic Ready 0x11 32 4 1 0xFF 0) (mk_pic Ready 0x11 40 2 1 0xFF 0)).
Proof.
  unfold irq_init, pic_remap. destruct s as [p q]. generalize (imr p), (imr q). reflexivity.
Qed.

(** Irq_init leaves both controllers operational whatever state they were in: vectors
    32 to 39 and 40 to 47, the slave on line 2, every line masked, nothing in service. *)
Theorem irq_init_spec s :
  irq_init s = Done (tt, mk_pics (mk_pic Ready 0x11 32 4 1 0xFF 0) (mk_pic Ready 0x11 40 2 1 0xFF 0)).
Proof. apply irq_init_ok. Qed.

(** Pic_remap moves the vectors (to multiples of 8) and keeps the masks. *)
Theorem pic_remap_spec offset1 offset2 s : pics_ok s → 0 ≤ offset1 < 256 → 0 ≤ offset2 < 256 →
  pic_remap offset1 offset2 s
  = Done (tt, mk_pics (mk_pic Ready 0x11 (Z.land offset1 0xF8) 4 1 (imr (master s)) 0)
                      (mk_pic Ready 0x11 (Z.land offset2 0xF8) 2 1 (imr (slave s)) 0)).
Proof.
  intros (_ & _ & Hm & Hs) H1 H2. unfold pic_remap. destruct s as [p q]. cbn [master slave] in *.
  transitivity (Done (tt, mk_pics (mk_pic Ready 0x11 (Z.land (u8 offset1) 0xF8) 4 1 (u8 (imr p)) 0)
    (mk_pic Ready 0x11 (Z.land (u8 offset2) 0xF8) 2 1 (u8 (imr q)) 0))); [reflexivity|].
  by rewrite !u8_small by done.
Qed.

(** The end of interrupt that irq_handler sends for line [i] undoes the processor's
    acknowledgement of [i] at exactly the controllers it went through, when no line of
    its priority or higher was being served; lines of lower priority stay in service. *)
Theorem pic_eoi_spec i s : 0 ≤ i < 16 →
  (if i <? 8 then idle_above i (master s) else idle_above (i - 8) (slave s) ∧ idle_above 2 (master s)) →
  pic_send_eoi i (acknowledge i s) = Done (tt, s).
Proof.
  intros Hi Hidle. unfold pic_send_eoi, acknowledge. destruct s as [p q]. cbn [master slave] in *.
  assert (∀ l r, 0 ≤ l → idle_above l r → pic_command 0x20 (serve l r) = r) as Hend.
  { intros l [] Hl [Hx Hb]. unfold pic_command, serve. cbn in *. by rewrite clear_lowest. }
  destruct (Z.ltb_spec i 8).
  - destruct (Z.leb_spec 8 i); [lia|]. change (Done (tt, mk_pics (pic_command 0x20 (serve i p)) q) = Done (tt, mk_pics p q)).
    by rewrite Hend by (lia || done).
  - destruct (Z.leb_spec 8 i); [|lia]. destruct Hidle as [Hq Hp].
    change (Done (tt, mk_pics (pic_command 0x20 (serve 2 p)) (pic_command 0x20 (serve (i - 8) q))) = Done (tt, mk_pics p q)).
    by rewrite (Hend (i - 8) q), (Hend 2 p) by (lia || done).
Qed.

(** The mask bit of each of the 16 lines. *)
Definition mask_bit (s : pics) (i : Z) : bool :=
  if i <? 8 then Z.testbit (imr (master s)) i else Z.testbit (imr (slave s)) (i - 8).

Lemma unmask_bits v i : 0 ≤ v < 256 → 0 ≤ i < 8 →
  let w := u8 (Z.land v (Z.lnot (Z.shiftl 1 i))) in
  0 ≤ w < 256 ∧ ∀ j, 0 ≤ j < 8 → Z.testbit w j = Z.testbit v j && negb (j =? i).
Proof.
  intros Hv Hi w. split; [apply Z.mod_pos_bound; lia|]. intros j Hj.
  unfold w, u8. rewrite <- Z.land_ones, !Z.land_spec, Z.ones_spec_low, andb_true_r, Z.lnot_spec, Z.shiftl_1_l by lia.
  destruct (Z.eqb_spec j i) as [->|]; [by rewrite Z.pow2_bits_true by lia|by rewrite Z.pow2_bits_false by done].
Qed.

Lemma pic_unmask_ok i s : 0 ≤ i < 16 → pics_ok s →
  ∃ s', pic_unmask_irq i s = Done (tt, s') ∧ pics_ok s'
    ∧ (∀ j, 0 ≤ j < 16 → mask_bit s' j = mask_bit s j && negb (j =? i))
    ∧ (8 ≤ i → mask_bit s 2 = true → unmasked s' i = false).
Proof.
  intros Hi (Hp1 & Hp2 & Hm & Hs). destruct s as [p q]. cbn [master slave] in *.
  unfold pic_unmask_irq, mask_bit, unmasked, pics_ok. destruct (Z.ltb_spec i 8).
  - destruct (Z.leb_spec 32 i); [lia|].
    exists (mk_pics (pic_data (u8 (Z.land (imr p) (Z.lnot (Z.shiftl 1 i)))) p) q). split; [reflexivity|]. cbn [master slave].
    unfold pic_data. rewrite Hp1. cbn [phase imr].
    destruct (unmask_bits (imr p) i Hm) as [Hr Hb]; [lia|]. split; [done|]. split; [|lia].
    intros j Hj. destruct (Z.ltb_spec j 8); [apply Hb; lia|].
    destruct (Z.eqb_spec j i); [lia|]. by rewrite andb_true_r.
  - destruct (Z.leb_spec 32 (i - 8)); [lia|].
    exists (mk_pics p (pic_data (u8 (Z.land (imr q) (Z.lnot (Z.shiftl 1 (i - 8))))) q)). split; [reflexivity|].
    cbn [master slave]. unfold pic_data. rewrite Hp2. cbn [phase imr].
    destruct (unmask_bits (imr q) (i - 8) Hs) as [Hr Hb]; [lia|]. split; [done|]. split.
    + intros j Hj. destruct (Z.ltb_spec j 8).
      * destruct (Z.eqb_spec j i); [lia|]. by rewrite andb_true_r.
      * rewrite Hb by lia. f_equal. f_equal. destruct (Z.eqb_spec (j - 8) (i - 8)), (Z.eqb_spec j i); (done || lia).
    + change (2 <? 8) with true. cbv beta iota. intros _ H2. by rewrite H2, andb_false_r.
Qed.

(** Pic_unmask_irq clears the mask bit of its line and no other. After irq_init, that
    lets the line through for the master's lines, but never for a line of the slave: the
    line 2 of the master, behind which the slave is, stays masked. *)
Theorem pic_unmask_irq_spec i s : 0 ≤ i < 16 → pics_ok s →
  ∃ s', pic_unmask_irq i s = Done (tt, s') ∧ pics_ok s'
    ∧ (∀ j, 0 ≤ j < 16 → mask_bit s' j = mask_bit s j && negb (j =? i))
    ∧ (8 ≤ i → mask_bit s 2 = true → unmasked s' i = false).
Proof. apply pic_unmask_ok. Qed.

Module PicWitness.
(** As irq_init leaves them. *)
Definition pics_init : pics := mk_pics (mk_pic Ready 0x11 32 4 1 0xFF 0) (mk_pic Ready 0x11 40 2 1 0xFF 0).
Lemma pics_init_ok : pics_ok pics_init.
Proof. by repeat split. Qed.
Lemma pic_remap_spec_witness : ∃ s', pic_remap 32 40 pics_init = Done (tt, s') ∧ vector_base (slave s') = 40.
Proof. eexists. split; [apply (pic_remap_spec 32 40 pics_init pics_init_ok); lia|reflexivity]. Defined.
(** The clock line while the keyboard, of lower priority, is being served. *)
Lemma pic_eoi_spec_witness : pic_send_eoi 0 (acknowledge 0 (acknowledge 1 pics_init)) = Done (tt, acknowledge 1 pics_init).
Proof.
  apply (pic_eoi_spec 0 (acknowledge 1 pics_init)); [lia|]. split; [vm_compute; discriminate|].
  intros k Hk. assert (k = 0) as -> by lia. reflexivity.
Defined.
Lemma pic_unmask_irq_spec_witness : ∃ s', pic_unmask_irq 9 pics_init = Done (tt, s') ∧ unmasked s' 9 = false.
Proof.
  destruct (pic_unmask_irq_spec 9 pics_init ltac:(lia) pics_init_ok) as (s' & Hr & _ & _ & Hu).
  exists s'. split; [exact Hr|]. apply Hu; [lia|reflexivity].
Defined.
End PicWitness.
