(* ===== verification/Apic.v ===== *)
(** * The APICs: src/interrupts/apic/lapic.c, ioapic.c and src/acpi/madt.c

    The local APIC and the I/O APIC are register files that the driver's accesses
    step; the timer counts down with the machine's time, which reads of the clocks
    advance. The MADT is memory that uACPI gives; the offsets of its fields are those of
    uACPI's structures, parameters here. *)
From S2P Require Import Prelude CMem Chain Phys Vmm Heap Term Clock.

Definition LAPIC_TPR : Z := 0x080.
Definition LAPIC_EOI : Z := 0x0B0.
Definition LAPIC_SVR : Z := 0x0F0.
Definition LAPIC_TIMER_LVT : Z := 0x320.
Definition LAPIC_TIMER_INITCNT : Z := 0x380.
Definition LAPIC_TIMER_CURRCNT : Z := 0x390.
Definition LAPIC_TIMER_DIV : Z := 0x3E0.
Definition LAPIC_TIMER_VECTOR : Z := 32.
Definition LAPIC_LVT_INT_MASKED : Z := Z.shiftl 1 16.
Definition LAPIC_LVT_INT_UNMASKED : Z := Z.shiftl 0 16.
Definition LAPIC_LVT_PERIODIC : Z := Z.shiftl 1 17.
Definition LAPIC_DELIVERY_FIXED : Z := Z.shiftl 0 8.
Definition LAPIC_DIVIDE_BY_16 : Z := 0x3.
Definition LAPIC_TIMER_MS : Z := 50.
Definition IA32_APIC_ENABLE : Z := Z.shiftl 1 11.
Definition IA32_APIC_X2APIC_ENABLE : Z := Z.shiftl 1 10.
Definition IA32_APIC_BASE_MASK : Z := 0xFFFFFFFFFFFFF000.

(** The timer's ticks from one time to another at a setting of its divider, and the
    table uACPI finds. *)
Class ApicHw := {
  hw_lapic_ticks : nat → nat → Z → Z;
  madt_table : option Z;
  madt_mem : mem;
}.
(** Field offsets of struct acpi_madt, acpi_entry_hdr and acpi_madt_ioapic. *)
Class MadtLayout := {
  off_hdr_length : Z;
  off_lapic_address : Z;
  off_entries : Z;
  off_entry_type : Z;
  off_entry_length : Z;
  off_ioapic_address : Z;
  ACPI_MADT_ENTRY_TYPE_IOAPIC : Z;
}.

(** ** The devices *)

Record lapic_dev := mk_ld {
  l_regs : gmap Z Z;
  l_started : nat;            (* when the initial count was last written *)
  l_eois : nat;
}.
Definition l_reg (d : lapic_dev) (reg : Z) : Z := default 0 (l_regs d !! reg).
Definition lapic_store (now : nat) (reg v : Z) (d : lapic_dev) : lapic_dev :=
  if reg =? LAPIC_EOI then mk_ld (l_regs d) (l_started d) (S (l_eois d))
  else mk_ld (<[reg := u32 v]> (l_regs d)) (if reg =? LAPIC_TIMER_INITCNT then now else l_started d) (l_eois d).
(** The current count in one-shot mode: down to 0. *)
Definition lapic_load `{ApicHw} (now : nat) (reg : Z) (d : lapic_dev) : Z :=
  if reg =? LAPIC_TIMER_CURRCNT
  then Z.max 0 (l_reg d LAPIC_TIMER_INITCNT - hw_lapic_ticks (l_started d) now (l_reg d LAPIC_TIMER_DIV))
  else l_reg d reg.

(** The I/O APIC: the register select and the registers behind it. *)
Record ioapic_dev := mk_io { io_select : Z; io_regs : gmap Z Z }.

Record apic_state {H : Type} := mk_apic {
  ap_ck : clock_state H;
  apic_base_msr : Z;          (* IA32_APIC_BASE_MSR *)
  lapic_address : Z;
  ioapic_address : Z;
  lapic : Z;                  (* pointers; 0 is NULL *)
  lapic_enabled : bool;
  ioapic : Z;
  ld : lapic_dev;
  iod : ioapic_dev;
}.
Arguments apic_state : clear implicits.

Section apic.
Context `{OH : ObjectHeap H} `{MM : !Mmio H} `{HH : Hhdm} `{HW : ClockHw} `{UA : Uart} `{AH : ApicHw} `{ML : MadtLayout}.
Abbreviation S := (apic_state H).

Definition on_ck {A} : M (clock_state H) A → M S A := zoom ap_ck (λ c s,
  mk_apic H c (apic_base_msr s) (lapic_address s) (ioapic_address s) (lapic s) (lapic_enabled s) (ioapic s) (ld s) (iod s)).
Definition set_msr (v : Z) (s : S) : S :=
  mk_apic H (ap_ck s) v (lapic_address s) (ioapic_address s) (lapic s) (lapic_enabled s) (ioapic s) (ld s) (iod s).
Definition set_lapic_address (v : Z) (s : S) : S :=
  mk_apic H (ap_ck s) (apic_base_msr s) v (ioapic_address s) (lapic s) (lapic_enabled s) (ioapic s) (ld s) (iod s).
Definition set_ioapic_address (v : Z) (s : S) : S :=
  mk_apic H (ap_ck s) (apic_base_msr s) (lapic_address s) v (lapic s) (lapic_enabled s) (ioapic s) (ld s) (iod s).
Definition set_lapic (v : Z) (s : S) : S :=
  mk_apic H (ap_ck s) (apic_base_msr s) (lapic_address s) (ioapic_address s) v (lapic_enabled s) (ioapic s) (ld s) (iod s).
Definition set_enabled (b : bool) (s : S) : S :=
  mk_apic H (ap_ck s) (apic_base_msr s) (lapic_address s) (ioapic_address s) (lapic s) b (ioapic s) (ld s) (iod s).
Definition set_ioapic (v : Z) (s : S) : S :=
  mk_apic H (ap_ck s) (apic_base_msr s) (lapic_address s) (ioapic_address s) (lapic s) (lapic_enabled s) v (ld s) (iod s).
Definition set_ld (d : lapic_dev) (s : S) : S :=
  mk_apic H (ap_ck s) (apic_base_msr s) (lapic_address s) (ioapic_address s) (lapic s) (lapic_enabled s) (ioapic s) d (iod s).
Definition set_iod (d : ioapic_dev) (s : S) : S :=
  mk_apic H (ap_ck s) (apic_base_msr s) (lapic_address s) (ioapic_address s) (lapic s) (lapic_enabled s) (ioapic s) (ld s) d.

(** The registers answer where the base MSR says they are. *)
Definition lapic_base (s : S) : Z := phys_to_virt (Z.land (apic_base_msr s) IA32_APIC_BASE_MASK).
Definition lapic_write (reg v : Z) : M S unit := λ s,
  if lapic s =? 0 then Undef "NULL lapic"
  else if negb (lapic s =? lapic_base s) then Undef "not the local APIC"
  else Done (tt, set_ld (lapic_store (ck_time (ap_ck s)) reg v (ld s)) s).
Definition lapic_read (reg : Z) : M S Z := λ s,
  if lapic s =? 0 then Undef "NULL lapic"
  else if negb (lapic s =? lapic_base s) then Undef "not the local APIC"
  else Done (lapic_load (ck_time (ap_ck s)) reg (ld s), s).

(** ** madt.c *)

Definition get_lapic_address : M S unit :=
  match madt_table with
  | None => mret tt
  | Some madt => modify (set_lapic_address (ld32 madt_mem (madt + off_lapic_address)))
  end.

(** One entry: the next pointer, and the I/O APIC's address so far. *)
Definition madt_turn (x : Z * Z) : outcome (Z * Z) :=
  let ioapic_address := if ldb madt_mem (x.1 + off_entry_type) =? ACPI_MADT_ENTRY_TYPE_IOAPIC
                        then ld32 madt_mem (x.1 + off_ioapic_address) else x.2 in
  Done (x.1 + ldb madt_mem (x.1 + off_entry_length), ioapic_address).
Definition read_madt (fuel : nat) (madt : Z) : M S unit := λ s,
  let last := madt + ld32 madt_mem (madt + off_hdr_length) in
  x ← loop (λ x, x.1 <? last) madt_turn fuel (madt + off_entries, ioapic_address s);
  Done (tt, set_ioapic_address x.2 s).
Definition get_ioapic_address (fuel : nat) : M S unit :=
  match madt_table with
  | None => mret tt
  | Some madt => read_madt fuel madt
  end.

(** ** lapic.c *)

(** wrmsr faults on the transitions of IA32_APIC_BASE the processor does not allow:
    x2APIC mode without the APIC, from x2APIC to xAPIC mode, and from disabled to
    x2APIC. No handler is registered for the fault. *)
Definition wrmsr_apic_base (v : Z) : M S unit :=
  old ← gets apic_base_msr;
  let mode x := (Z.testbit x 11, Z.testbit x 10) in
  match mode old, mode v with
  | _, (false, true) | (true, true), (true, false) | (false, false), (true, true) => mpanic "General Protection Fault (13)"
  | _, _ => modify (set_msr v)
  end.

Definition lapic_check_msr : M S bool :=
  msr ← gets apic_base_msr;
  msr ← (if Z.land msr IA32_APIC_ENABLE =? 0 then
           let msr := Z.lor msr IA32_APIC_ENABLE in _ ← wrmsr_apic_base msr; mret msr
         else mret msr);
  msr ← (if negb (Z.land msr IA32_APIC_X2APIC_ENABLE =? 0) then
           _ ← on_ck (on_ck_term (terminal_write "Warning: x2APIC mode enabled, disabling for memory-mapped LAPIC
"));
           let msr := Z.land msr (u64 (Z.lnot IA32_APIC_X2APIC_ENABLE)) in _ ← wrmsr_apic_base msr; mret msr
         else mret msr);
  _ ← modify (set_lapic_address (u32 (Z.land msr IA32_APIC_BASE_MASK)));
  mret true.

Definition lapic_map : M S unit :=
  a ← gets lapic_address;
  on_ck (on_ck_heap (mmio_map_page (phys_to_virt a) a PAGE_MMIO)).

Definition lapic_enable : M S unit :=
  v ← lapic_read LAPIC_SVR;
  _ ← lapic_write LAPIC_SVR (Z.lor v 0x100);
  modify (set_enabled true).

Definition lapic_init : M S unit :=
  _ ← lapic_check_msr;
  _ ← get_lapic_address;
  a ← gets lapic_address;
  if a =? 0 then mpanic "Could not get LAPIC address"
  else
    _ ← lapic_map;
    a ← gets lapic_address;
    _ ← modify (set_lapic (phys_to_virt a));
    _ ← lapic_enable;
    lapic_write LAPIC_TPR 0.

Definition lapic_eoi : M S unit := lapic_write LAPIC_EOI 0.

Definition lapic_is_enabled : M S bool :=
  v ← lapic_read LAPIC_SVR;
  let e := negb (Z.land v 0x100 =? 0) in
  _ ← modify (set_enabled e);
  mret e.

Definition lapic_timer_start (fuel : nat) : M S unit :=
  _ ← lapic_write LAPIC_TPR 0;
  _ ← lapic_write LAPIC_TIMER_LVT LAPIC_LVT_INT_MASKED;
  _ ← lapic_write LAPIC_TIMER_DIV LAPIC_DIVIDE_BY_16;
  _ ← lapic_write LAPIC_TIMER_INITCNT 0xFFFFFFFF;
  hpet ← on_ck (get_clock CLOCK_HPET);
  _ ← on_ck (busy_sleep_ns fuel hpet (LAPIC_TIMER_MS * 1000000));
  _ ← lapic_write LAPIC_TIMER_LVT LAPIC_LVT_INT_MASKED;
  current ← lapic_read LAPIC_TIMER_CURRCNT;
  let ticks_in_10ms := u32 (0xFFFFFFFF - current) in
  if ticks_in_10ms =? 0 then mpanic "LAPIC timer calibration failed: no ticks elapsed"
  else
    _ ← lapic_write LAPIC_TIMER_DIV LAPIC_DIVIDE_BY_16;
    _ ← lapic_write LAPIC_TIMER_LVT
          (Z.lor (Z.lor (Z.lor LAPIC_TIMER_VECTOR LAPIC_LVT_PERIODIC) LAPIC_LVT_INT_UNMASKED) LAPIC_DELIVERY_FIXED);
    lapic_write LAPIC_TIMER_INITCNT ticks_in_10ms.

(** ** ioapic.c *)

Definition ioapic_map : M S unit :=
  a ← gets ioapic_address;
  on_ck (on_ck_heap (mmio_map_page (phys_to_virt a) a PAGE_MMIO)).

Definition ioapic_init (fuel : nat) : M S unit :=
  _ ← get_ioapic_address fuel;
  a ← gets ioapic_address;
  if a =? 0 then mpanic "Could not get IOAPIC address"
  else
    _ ← ioapic_map;
    a ← gets ioapic_address;
    modify (set_ioapic (phys_to_virt a)).

Definition ioapic_write (reg v : Z) : M S unit := λ s,
  if ioapic s =? 0 then Undef "NULL ioapic"
  else Done (tt, set_iod (mk_io reg (<[reg := u32 v]> (io_regs (iod s)))) s).
Definition ioapic_read (reg : Z) : M S Z := λ s,
  if ioapic s =? 0 then Undef "NULL ioapic"
  else Done (default 0 (io_regs (iod s) !! reg), set_iod (mk_io reg (io_regs (iod s))) s).

Definition ioapic_redirect_irq (irq vector : Z) : M S unit :=
  let reg := u8 (0x10 + irq * 2) in
  let entry := Z.lor (Z.lor vector (Z.shiftl 0 16)) (Z.shiftl 0 56) in
  _ ← ioapic_write reg (u32 entry);
  ioapic_write (u8 (reg + 1)) (u32 (Z.shiftr entry 32)).

(** init_apic of main.c *)
Definition init_apic (fuel : nat) : M S unit :=
  _ ← lapic_init;
  _ ← ioapic_init fuel;
  _ ← ioapic_redirect_irq 0 32;
  ioapic_redirect_irq 1 33.
End apic.

(** ** Specification *)

(** Entries of the MADT from [a] on: type, length, and the address an I/O APIC's entry
    would have. *)
Fixpoint madt_entries `{ApicHw} `{MadtLayout} (a : Z) (l : list (Z * Z * Z)) : Prop :=
  match l with
  | [] => True
  | (type, len, address) :: l' =>
      ldb madt_mem (a + off_entry_type) = type ∧ ldb madt_mem (a + off_entry_length) = len
      ∧ ld32 madt_mem (a + off_ioapic_address) = address ∧ madt_entries (a + len) l'
  end.
Definition entries_size (l : list (Z * Z * Z)) : Z := foldr (λ e n, e.1.2 + n) 0 l.
(** The address of the last I/O APIC listed. *)
Definition last_ioapic `{MadtLayout} (init : Z) (l : list (Z * Z * Z)) : Z :=
  foldl (λ a e, if e.1.1 =? ACPI_MADT_ENTRY_TYPE_IOAPIC then e.2 else a) init l.

(** Redirection entry [i] of the I/O APIC. *)
Definition redirection (d : ioapic_dev) (i : Z) : Z :=
  default 0 (io_regs d !! (0x10 + 2 * i)) + 2 ^ 32 * default 0 (io_regs d !! (0x11 + 2 * i)).

Section spec.
Context `{OHL : ObjectHeapLaws H} `{MM : !Mmio H} `{HH : Hhdm} `{HW : ClockHw} `{UA : Uart} `{AH : ApicHw} `{ML : MadtLayout}.
Abbreviation S := (apic_state H).
Implicit Types (s : S).

(** The driver's pointer is where the registers are. *)
Definition lapic_ok s : Prop := lapic s ≠ 0 ∧ lapic s = lapic_base s.

Lemma lapic_write_ok reg v s : lapic_ok s →
  lapic_write reg v s = Done (tt, set_ld (lapic_store (ck_time (ap_ck s)) reg v (ld s)) s).
Proof.
  intros [H0 Hb]. unfold lapic_write. rewrite Hb in H0 |- *. destruct (Z.eqb_spec (lapic_base s) 0); [done|]. by rewrite Z.eqb_refl.
Qed.
Lemma lapic_read_ok reg s : lapic_ok s → lapic_read reg s = Done (lapic_load (ck_time (ap_ck s)) reg (ld s), s).
Proof.
  intros [H0 Hb]. unfold lapic_read. rewrite Hb in H0 |- *. destruct (Z.eqb_spec (lapic_base s) 0); [done|]. by rewrite Z.eqb_refl.
Qed.

(** *** The MADT *)

Lemma madt_turn_entry a init type len address l : madt_entries a ((type, len, address) :: l) →
  madt_turn (a, init) = Done (a + len, if type =? ACPI_MADT_ENTRY_TYPE_IOAPIC then address else init).
Proof. intros (Ht & Hn & Ha & _). unfold madt_turn. cbn [fst snd]. by rewrite Ht, Hn, Ha. Qed.

Lemma entries_size_nonneg l : Forall (λ e, 0 < e.1.2) l → 0 ≤ entries_size l.
Proof. induction 1 as [|x l Hx Hl IH]; simpl; lia. Qed.

Lemma madt_loop a l init : madt_entries a l → Forall (λ e, 0 < e.1.2) l →
  ∀ fuel, (length l ≤ fuel)%nat →
  loop (λ x, x.1 <? a + entries_size l) madt_turn fuel (a, init) = Done (a + entries_size l, last_ioapic init l).
Proof.
  intros He Hl. remember (a + entries_size l) as e eqn:Hend. revert a init He Hend.
  induction Hl as [|[[type len] address] l Hlen Hl IH]; intros a init He Hend fuel Hfuel.
  - simpl in Hend. assert (e = a) as -> by lia. destruct fuel; simpl; by rewrite Z.ltb_irrefl.
  - destruct fuel as [|fuel]; simpl in Hfuel; [lia|]. simpl in Hend, Hlen. pose proof (entries_size_nonneg l Hl).
    cbn [loop fst]. destruct (Z.ltb_spec a e); [|lia].
    rewrite (madt_turn_entry _ _ _ _ _ _ He). unfold mbind, outcome_bind. destruct He as (_ & _ & _ & He).
    rewrite IH; [done|done|lia|lia].
Qed.

(** C37: read_madt ends and finds the last I/O APIC of the table, when the entries fill it and
    none is empty. *)
Theorem read_madt_spec madt l fuel s :
  madt_entries (madt + off_entries) l → Forall (λ e, 0 < e.1.2) l →
  ld32 madt_mem (madt + off_hdr_length) = off_entries + entries_size l → (length l ≤ fuel)%nat →
  read_madt fuel madt s = Done (tt, set_ioapic_address (last_ioapic (ioapic_address s) l) s).
Proof.
  intros He Hl Hlen Hfuel. unfold read_madt. rewrite Hlen.
  replace (madt + (off_entries + entries_size l)) with (madt + off_entries + entries_size l) by lia.
  rewrite madt_loop; done.
Qed.

(** An entry of length 0 before the end keeps read_madt in its loop for ever. *)
Theorem read_madt_stuck madt l last fuel s :
  madt_entries (madt + off_entries) l → Forall (λ e, 0 < e.1.2) l →
  ldb madt_mem (madt + off_entries + entries_size l + off_entry_length) = 0 →
  last = madt + ld32 madt_mem (madt + off_hdr_length) → madt + off_entries + entries_size l < last →
  read_madt fuel madt s = OutOfFuel.
Proof.
  intros He Hl Hzero -> Hlast. unfold read_madt. generalize (ioapic_address s) at 1. intros init. cbv zeta.
  remember (madt + off_entries) as a. clear Heqa. set (z := a + entries_size l) in *.
  set (e := madt + _) in *. clearbody e.
  enough (loop (λ x, x.1 <? e) madt_turn fuel (a, init) = OutOfFuel) as -> by done.
  revert a init fuel He z Hzero Hlast.
  induction Hl as [|[[type len] address] l Hlen Hl IH]; intros a init fuel He z Hzero Hlast.
  - subst z. simpl in Hzero, Hlast. rewrite Z.add_0_r in Hzero, Hlast.
    apply (loop_diverges _ _ (λ x, x.1 = a)); [|done]. intros [b i]. simpl. intros ->. split; [by apply Z.ltb_lt|].
    eexists. split; [reflexivity|]. simpl. rewrite Hzero. lia.
  - simpl in Hlen. subst z. simpl in Hzero, Hlast. pose proof (entries_size_nonneg l Hl).
    destruct fuel as [|fuel]; cbn [loop fst].
    + destruct (Z.ltb_spec a e); [done|lia].
    + destruct (Z.ltb_spec a e); [|lia]. rewrite (madt_turn_entry _ _ _ _ _ _ He).
      unfold mbind, outcome_bind. destruct He as (_ & _ & _ & He). apply IH; [done| |].
      * rewrite <- Hzero. do 2 f_equal. lia.
      * lia.
Qed.

(** *** The I/O APIC *)

Lemma ioapic_write_ok reg v s : ioapic s ≠ 0 →
  ioapic_write reg v s = Done (tt, set_iod (mk_io reg (<[reg := u32 v]> (io_regs (iod s)))) s).
Proof. intros H0. unfold ioapic_write. by destruct (Z.eqb_spec (ioapic s) 0). Qed.

(** Ioapic_redirect_irq sets the redirection entry of its line to the vector, unmasked,
    fixed delivery to APIC 0, and no other, for the lines whose register number fits in
    a byte. *)
Theorem ioapic_redirect_irq_spec irq vector s : ioapic s ≠ 0 → 0 ≤ irq < 120 → 0 ≤ vector < 256 →
  ∃ s', ioapic_redirect_irq irq vector s = Done (tt, s')
    ∧ s' = set_iod (iod s') s
    ∧ ∀ i, 0 ≤ i < 120 → redirection (iod s') i = if i =? irq then vector else redirection (iod s) i.
Proof.
  intros H0 Hirq Hv. set (reg := 0x10 + 2 * irq).
  assert (u8 (0x10 + irq * 2) = reg) as Hreg by (unfold u8, reg; rewrite Z.mod_small; lia).
  assert (u8 (reg + 1) = 0x11 + 2 * irq) as Hreg1 by (unfold u8, reg; rewrite Z.mod_small; lia).
  exists (set_iod (mk_io (0x11 + 2 * irq) (<[0x11 + 2 * irq := 0]> (<[reg := vector]> (io_regs (iod s))))) s).
  split; [|split; [done|]].
  - unfold ioapic_redirect_irq. rewrite Hreg. cbv zeta. rewrite Hreg1.
    change (Z.shiftl 0 16) with 0. change (Z.shiftl 0 56) with 0. rewrite !Z.lor_0_r.
    rewrite (bind_Done _ _ _ _ _ (ioapic_write_ok reg (u32 vector) s H0)).
    rewrite ioapic_write_ok by done. cbn [iod set_iod io_regs].
    assert (u32 vector = vector) as Hv32 by (apply Z.mod_small; lia). rewrite !Hv32.
    assert (Z.shiftr vector 32 = 0) as -> by (rewrite Z.shiftr_div_pow2, Z.div_small; lia). reflexivity.
  - intros i Hi. unfold redirection. cbn [iod set_iod io_regs]. destruct (Z.eqb_spec i irq) as [->|Hne].
    + rewrite (lookup_insert_ne _ (0x11 + 2 * irq) (0x10 + 2 * irq)) by lia. unfold reg.
      rewrite !lookup_insert_eq. simpl. lia.
    + unfold reg. by rewrite !lookup_insert_ne by lia.
Qed.

(** *** The local APIC *)

Lemma land_bit x k : 0 ≤ k → (Z.land x (Z.shiftl 1 k) =? 0) = negb (Z.testbit x k).
Proof.
  intros Hk. rewrite Z.shiftl_1_l. destruct (Z.testbit x k) eqn:Hb.
  - apply Z.eqb_neq. intros E. assert (Z.testbit (Z.land x (2 ^ k)) k = false) as Hn by (by rewrite E, Z.bits_0).
    by rewrite Z.land_spec, Hb, Z.pow2_bits_true in Hn by lia.
  - apply Z.eqb_eq, Z.bits_inj'. intros n Hn. rewrite Z.land_spec, Z.bits_0.
    destruct (decide (n = k)) as [->|Hne]; [by rewrite Hb|]. by rewrite Z.pow2_bits_false, andb_false_r by done.
Qed.

Lemma lor_bit_set x k : 0 ≤ k → Z.testbit x k = true → Z.lor x (Z.shiftl 1 k) = x.
Proof.
  intros Hk Hb. rewrite Z.shiftl_1_l. apply Z.bits_inj'. intros n Hn. rewrite Z.lor_spec.
  destruct (decide (n = k)) as [->|Hne]; [by rewrite Hb|]. by rewrite Z.pow2_bits_false, orb_false_r by done.
Qed.

(** The two steps of lapic_check_msr. *)
Lemma wrmsr_panics v s : Z.testbit (apic_base_msr s) 11 = true → Z.testbit (apic_base_msr s) 10 = true →
  Z.testbit v 11 = true → Z.testbit v 10 = false →
  wrmsr_apic_base v s = Panic "General Protection Fault (13)".
Proof. intros H1 H2 H3 H4. unfold wrmsr_apic_base. erewrite bind_Done by reflexivity. cbv zeta. by rewrite H1, H2, H3, H4. Qed.

Lemma wrmsr_enables s : let v := Z.lor (apic_base_msr s) IA32_APIC_ENABLE in
  Z.testbit (apic_base_msr s) 11 = false → wrmsr_apic_base v s = Done (tt, set_msr v s).
Proof.
  intros v H1. unfold wrmsr_apic_base. erewrite bind_Done by reflexivity. cbv zeta. unfold v.
  rewrite !Z.lor_spec, H1. change (Z.testbit IA32_APIC_ENABLE 11) with true. change (Z.testbit IA32_APIC_ENABLE 10) with false.
  rewrite orb_false_r, orb_true_r. by destruct (Z.testbit (apic_base_msr s) 10).
Qed.

(** The APIC is switched on before its mode is looked at. *)
Lemma check_msr_enabled s : let msr := Z.lor (apic_base_msr s) IA32_APIC_ENABLE in
  (msr ← gets apic_base_msr;
   if Z.land msr IA32_APIC_ENABLE =? 0 then
     let msr := Z.lor msr IA32_APIC_ENABLE in _ ← wrmsr_apic_base msr; mret msr
   else mret msr) s = Done (msr, set_msr msr s).
Proof.
  intros msr. erewrite bind_Done by reflexivity. unfold IA32_APIC_ENABLE at 1. rewrite land_bit by lia.
  destruct (Z.testbit (apic_base_msr s) 11) eqn:E; cbn [negb].
  - unfold msr, IA32_APIC_ENABLE. rewrite lor_bit_set by (done || lia). by destruct s.
  - cbv zeta. by rewrite (bind_Done _ _ _ _ _ (wrmsr_enables s E)).
Qed.

Lemma lapic_check_msr_ok s : let msr := Z.lor (apic_base_msr s) IA32_APIC_ENABLE in
  lapic_check_msr s = if Z.testbit (apic_base_msr s) 10 then Panic "General Protection Fault (13)"
    else Done (true, set_lapic_address (u32 (Z.land msr IA32_APIC_BASE_MASK)) (set_msr msr s)).
Proof.
  intros msr. unfold lapic_check_msr.
  assert (∀ B (g : Z → M S B), (msr ← gets apic_base_msr;
    msr ← (if Z.land msr IA32_APIC_ENABLE =? 0 then
      let msr := Z.lor msr IA32_APIC_ENABLE in _ ← wrmsr_apic_base msr; mret msr else mret msr); g msr) s
    = g msr (set_msr msr s)) as Hfirst.
  { intros B g. pose proof (check_msr_enabled s) as Hc. cbv zeta in Hc. fold msr in Hc. erewrite bind_Done in Hc by reflexivity.
    erewrite bind_Done by reflexivity. cbv zeta. by rewrite (bind_Done _ _ _ _ _ Hc). }
  rewrite Hfirst. clear Hfirst.
  assert (Z.testbit msr 10 = Z.testbit (apic_base_msr s) 10) as Hb10.
  { unfold msr. rewrite Z.lor_spec. change (Z.testbit IA32_APIC_ENABLE 10) with false. apply orb_false_r. }
  assert (Z.testbit msr 11 = true) as Hb11.
  { unfold msr. rewrite Z.lor_spec. change (Z.testbit IA32_APIC_ENABLE 11) with true. apply orb_true_r. }
  unfold IA32_APIC_X2APIC_ENABLE at 1. rewrite land_bit, Hb10 by lia.
  destruct (Z.testbit (apic_base_msr s) 10) eqn:E; cbn [negb]; [|reflexivity].
  clearbody msr. set (s1 := set_msr msr s). clear E.
  destruct (terminal_puts_ok (ck_term (ap_ck s1)) (chars "Warning: x2APIC mode enabled, disabling for memory-mapped LAPIC
")) as (t1 & Ht & _).
  unfold mbind at 1, M_bind at 1. unfold mbind at 1, M_bind at 1. unfold on_ck at 1, zoom at 1. unfold on_ck_term at 1, zoom at 1.
  unfold terminal_write. rewrite Ht. cbv beta iota zeta.
  unfold mbind at 1, M_bind at 1. rewrite wrmsr_panics; [done|exact Hb11|exact Hb10|..].
  - rewrite Z.land_spec, Hb11. reflexivity.
  - rewrite Z.land_spec. change (Z.testbit (u64 (Z.lnot IA32_APIC_X2APIC_ENABLE)) 10) with false. apply andb_false_r.
Qed.

Lemma lapic_enable_ok s : lapic_ok s → lapic_enable s
  = Done (tt, set_enabled true (set_ld (mk_ld (<[LAPIC_SVR := u32 (Z.lor (l_reg (ld s) LAPIC_SVR) 0x100)]> (l_regs (ld s)))
      (l_started (ld s)) (l_eois (ld s))) s)).
Proof.
  intros Hok. unfold lapic_enable. rewrite (bind_Done _ _ _ _ _ (lapic_read_ok _ _ Hok)).
  rewrite (bind_Done _ _ _ _ _ (lapic_write_ok _ _ _ Hok)). reflexivity.
Qed.

(** Lapic_init enables the local APIC: when the MADT gives the address the base MSR has,
    it maps the registers there, sets the enable bit of the MSR and bit 8 of the spurious
    vector register, and lets every priority through. When the firmware left the APIC in
    x2APIC mode it dies of a general protection fault instead: the processor does not
    allow clearing the mode bit alone. *)
Theorem lapic_init_spec madt base h s :
  madt_table = Some madt → ld32 madt_mem (madt + off_lapic_address) = base → base ≠ 0 → phys_to_virt base ≠ 0 →
  Z.land (Z.lor (apic_base_msr s) IA32_APIC_ENABLE) IA32_APIC_BASE_MASK = base →
  mmio_map_page (phys_to_virt base) base PAGE_MMIO (ck_heap (ap_ck s)) = Done (tt, h) →
  if Z.testbit (apic_base_msr s) 10 then lapic_init s = Panic "General Protection Fault (13)"
  else ∃ s', lapic_init s = Done (tt, s') ∧ lapic_ok s' ∧ lapic_enabled s' = true
    ∧ apic_base_msr s' = Z.lor (apic_base_msr s) IA32_APIC_ENABLE ∧ lapic_address s' = base
    ∧ ck_heap (ap_ck s') = h
    ∧ l_reg (ld s') LAPIC_SVR = u32 (Z.lor (l_reg (ld s) LAPIC_SVR) 0x100) ∧ l_reg (ld s') LAPIC_TPR = 0.
Proof.
  intros Hm Hbase Hb0 Hv0 Hmsr Hmap. set (msr := Z.lor (apic_base_msr s) IA32_APIC_ENABLE) in *.
  pose proof (lapic_check_msr_ok s) as Hc. cbv zeta in Hc. fold msr in Hc. unfold lapic_init.
  destruct (Z.testbit (apic_base_msr s) 10); [unfold mbind at 1, M_bind at 1; by rewrite Hc|].
  rewrite (bind_Done _ _ _ _ _ Hc). rewrite Hmsr. set (s1 := set_lapic_address _ _).
  assert (get_lapic_address s1 = Done (tt, set_lapic_address base s1)) as Hg.
  { unfold get_lapic_address. by rewrite Hm, <- Hbase. }
  rewrite (bind_Done _ _ _ _ _ Hg). erewrite bind_Done by reflexivity. cbn [lapic_address set_lapic_address].
  destruct (Z.eqb_spec base 0); [done|].
  assert (∃ s3, lapic_map (set_lapic_address base s1) = Done (tt, s3) ∧ ck_heap (ap_ck s3) = h ∧ apic_base_msr s3 = msr
    ∧ lapic_address s3 = base ∧ ld s3 = ld s) as (s3 & Hrun & Hh & Hm3 & Ha3 & Hl3).
  { eexists. split; [unfold lapic_map; erewrite bind_Done by reflexivity; apply zoom_Done, zoom_Done, Hmap|]. done. }
  rewrite (bind_Done _ _ _ _ _ Hrun). erewrite bind_Done by reflexivity. rewrite Ha3.
  rewrite (bind_Done _ _ _ tt (set_lapic (phys_to_virt base) s3) eq_refl).
  assert (lapic_ok (set_lapic (phys_to_virt base) s3)) as Hok.
  { split; [done|]. unfold lapic_base. cbn. by rewrite Hm3, Hmsr. }
  set (s4 := set_lapic (phys_to_virt base) s3) in *.
  rewrite (bind_Done _ _ _ _ _ (lapic_enable_ok _ Hok)). rewrite lapic_write_ok by exact Hok.
  eexists. split; [reflexivity|]. split; [exact Hok|]. split; [done|]. split; [exact Hm3|]. split; [exact Ha3|].
  split; [exact Hh|]. cbn [ld set_ld set_enabled]. unfold lapic_store, l_reg. cbn [l_regs].
  change (LAPIC_TPR =? LAPIC_EOI) with false. cbn [l_regs]. split.
  - rewrite lookup_insert_ne by done. rewrite lookup_insert_eq. change (ld s4) with (ld s3). by rewrite Hl3.
  - by rewrite lookup_insert_eq.
Qed.

(** *** The timer *)

Definition with_ck (c : clock_state H) s : S :=
  mk_apic H c (apic_base_msr s) (lapic_address s) (ioapic_address s) (lapic s) (lapic_enabled s) (ioapic s) (ld s) (iod s).

Lemma on_ck_Done {A} (m : M (clock_state H) A) s a c : m (ap_ck s) = Done (a, c) → on_ck m s = Done (a, with_ck c s).
Proof. intros Hm. unfold on_ck, zoom. by rewrite Hm. Qed.

(** The registers before and after the wait, and at the end. *)
Definition timer_calibrating (now : nat) (d : lapic_dev) : lapic_dev :=
  lapic_store now LAPIC_TIMER_INITCNT 0xFFFFFFFF (lapic_store now LAPIC_TIMER_DIV LAPIC_DIVIDE_BY_16
    (lapic_store now LAPIC_TIMER_LVT LAPIC_LVT_INT_MASKED (lapic_store now LAPIC_TPR 0 d))).
Definition timer_running (now : nat) (n : Z) (d : lapic_dev) : lapic_dev :=
  lapic_store now LAPIC_TIMER_INITCNT n (lapic_store now LAPIC_TIMER_LVT 0x20020
    (lapic_store now LAPIC_TIMER_DIV LAPIC_DIVIDE_BY_16 d)).

Lemma l_reg_store now reg v d r : (reg =? LAPIC_EOI) = false →
  l_reg (lapic_store now reg v d) r = if r =? reg then u32 v else l_reg d r.
Proof.
  intros He. unfold lapic_store, l_reg. rewrite He. cbn [l_regs]. destruct (Z.eqb_spec r reg) as [->|].
  - by rewrite lookup_insert_eq.
  - by rewrite lookup_insert_ne.
Qed.
Lemma l_started_store now reg v d : (reg =? LAPIC_EOI) = false →
  l_started (lapic_store now reg v d) = if reg =? LAPIC_TIMER_INITCNT then now else l_started d.
Proof. intros He. unfold lapic_store. by rewrite He. Qed.

Lemma count_after t0 t1 d : 0 ≤ hw_lapic_ticks t0 t1 LAPIC_DIVIDE_BY_16 →
  u32 (0xFFFFFFFF - lapic_load t1 LAPIC_TIMER_CURRCNT (lapic_store t1 LAPIC_TIMER_LVT LAPIC_LVT_INT_MASKED (timer_calibrating t0 d)))
  = Z.min (hw_lapic_ticks t0 t1 LAPIC_DIVIDE_BY_16) 0xFFFFFFFF.
Proof.
  intros HN. unfold lapic_load, timer_calibrating.
  rewrite !l_started_store, !l_reg_store by done. set (N := hw_lapic_ticks t0 t1 LAPIC_DIVIDE_BY_16) in *.
  change (u32 (0xFFFFFFFF - Z.max 0 (0xFFFFFFFF - N)) = Z.min N 0xFFFFFFFF). clearbody N.
  unfold u32. rewrite Z.mod_small; pow2; lia.
Qed.

Lemma timer_wait p c f fuel l L ns (T : nat → Z) b j (ck : clock_state H) :
  clocks_inv ck l L ns → first_with (sources ck) CLOCK_HPET l = p → sources ck !! p = Some c → counter ck c = Some f →
  (∀ i, f i = u64 (T i - b)) → (∀ i, (i ≤ j)%nat → T (ck_time ck) ≤ T (ck_time ck + 1 + i)%nat < T (ck_time ck) + 2 ^ 64) →
  (j ≤ fuel)%nat → ns_ticks (LAPIC_TIMER_MS * 1000000) (cs_freq c) ≤ T (ck_time ck + 1 + j)%nat - T (ck_time ck) →
  ∃ i, (i ≤ j)%nat
    ∧ (hpet ← get_clock CLOCK_HPET; busy_sleep_ns fuel hpet (LAPIC_TIMER_MS * 1000000)) ck = Done (tt, at_time (ck_time ck + 2 + i) ck)
    ∧ ns_ticks (LAPIC_TIMER_MS * 1000000) (cs_freq c) ≤ T (ck_time ck + 1 + i)%nat - T (ck_time ck).
Proof.
  intros Hinv Hp Hc Hf HT Hmono Hj Hticks.
  rewrite (bind_Done _ _ _ _ _ (get_clock_ok _ _ _ _ CLOCK_HPET Hinv ltac:(unfold CLOCK_HPET; lia))). rewrite Hp.
  unfold busy_sleep_ns. erewrite bind_Done by (unfold get_source; by rewrite Hc).
  destruct (busy_sleep_ok fuel p c f _ T b j ck Hc Hf HT Hmono Hj Hticks) as (i & Hi & Hrun & Hge & _). by exists i.
Qed.

Lemma lapic_write_bind {B} reg v d s (k : unit → M S B) : lapic_ok s →
  (lapic_write reg v ≫= k) (set_ld d s) = k tt (set_ld (lapic_store (ck_time (ap_ck s)) reg v d) s).
Proof. intros Hok. by rewrite (bind_Done _ _ _ _ _ (lapic_write_ok reg v (set_ld d s) Hok)). Qed.

Lemma lapic_read_bind {B} reg d s (k : Z → M S B) : lapic_ok s →
  (lapic_read reg ≫= k) (set_ld d s) = k (lapic_load (ck_time (ap_ck s)) reg d) (set_ld d s).
Proof. intros Hok. by rewrite (bind_Done _ _ _ _ _ (lapic_read_ok reg (set_ld d s) Hok)). Qed.

(** A run in which the wait ends at time [t]. *)
Lemma timer_start_run fuel t s : lapic_ok s → 0 ≤ hw_lapic_ticks (ck_time (ap_ck s)) t LAPIC_DIVIDE_BY_16 →
  (hpet ← get_clock CLOCK_HPET; busy_sleep_ns fuel hpet (LAPIC_TIMER_MS * 1000000)) (ap_ck s) = Done (tt, at_time t (ap_ck s)) →
  let n := Z.min (hw_lapic_ticks (ck_time (ap_ck s)) t LAPIC_DIVIDE_BY_16) 0xFFFFFFFF in
  lapic_timer_start fuel s =
    if n =? 0 then Panic "LAPIC timer calibration failed: no ticks elapsed"
    else Done (tt, set_ld (timer_running t n (lapic_store t LAPIC_TIMER_LVT LAPIC_LVT_INT_MASKED
                             (timer_calibrating (ck_time (ap_ck s)) (ld s)))) (with_ck (at_time t (ap_ck s)) s)).
Proof.
  intros Hok HN Hwait n. set (t0 := ck_time (ap_ck s)) in *.
  assert (lapic_ok (with_ck (at_time t (ap_ck s)) s)) as Hok2 by exact Hok.
  apply bind_inv in Hwait as (hpet & ck1 & Hg & Hb). set (s2 := with_ck (at_time t (ap_ck s)) s) in *.
  assert (s = set_ld (ld s) s) as Hs by (by destruct s).
  unfold lapic_timer_start. rewrite Hs at 1. rewrite !lapic_write_bind by exact Hok. fold t0.
  set (s1 := set_ld _ s). rewrite (bind_Done _ _ _ _ _ (on_ck_Done _ s1 _ _ Hg)).
  rewrite (bind_Done _ _ _ _ _ (on_ck_Done _ (with_ck ck1 s1) _ _ Hb)).
  change (with_ck (at_time t (ap_ck s)) (with_ck ck1 s1)) with (set_ld (timer_calibrating t0 (ld s)) s2).
  rewrite lapic_write_bind by exact Hok2. rewrite lapic_read_bind by exact Hok2.
  cbv zeta. change (ck_time (ap_ck s2)) with t.
  rewrite count_after by exact HN. fold n. destruct (n =? 0); [reflexivity|].
  rewrite !lapic_write_bind by exact Hok2. by rewrite lapic_write_ok by exact Hok2.
Qed.

(** Lapic_timer_start programs a periodic timer interrupt at vector 32 whose period is
    the number of ticks the timer itself made while the HPET advanced by 50 ms or more,
    and panics when it made none. *)
Theorem lapic_timer_start_spec p c f fuel l L ns (T : nat → Z) b j s (ck := ap_ck s) :
  lapic_ok s → clocks_inv ck l L ns → first_with (sources ck) CLOCK_HPET l = p → sources ck !! p = Some c → counter ck c = Some f →
  (∀ i, f i = u64 (T i - b)) → (∀ i, (i ≤ j)%nat → T (ck_time ck) ≤ T (ck_time ck + 1 + i)%nat < T (ck_time ck) + 2 ^ 64) →
  (j ≤ fuel)%nat → ns_ticks (LAPIC_TIMER_MS * 1000000) (cs_freq c) ≤ T (ck_time ck + 1 + j)%nat - T (ck_time ck) →
  (∀ t, 0 ≤ hw_lapic_ticks (ck_time ck) t LAPIC_DIVIDE_BY_16) →
  ∃ i, let t := (ck_time ck + 2 + i)%nat in
    let n := Z.min (hw_lapic_ticks (ck_time ck) t LAPIC_DIVIDE_BY_16) 0xFFFFFFFF in
    (i ≤ j)%nat ∧ ns_ticks (LAPIC_TIMER_MS * 1000000) (cs_freq c) ≤ T (ck_time ck + 1 + i)%nat - T (ck_time ck)
    ∧ if n =? 0 then lapic_timer_start fuel s = Panic "LAPIC timer calibration failed: no ticks elapsed"
      else ∃ s', lapic_timer_start fuel s = Done (tt, s') ∧ s' = set_ld (ld s') (with_ck (at_time t ck) s)
        ∧ l_reg (ld s') LAPIC_TIMER_LVT = Z.lor LAPIC_TIMER_VECTOR LAPIC_LVT_PERIODIC
        ∧ l_reg (ld s') LAPIC_TIMER_DIV = LAPIC_DIVIDE_BY_16
        ∧ l_reg (ld s') LAPIC_TIMER_INITCNT = n ∧ l_started (ld s') = t ∧ l_reg (ld s') LAPIC_TPR = 0.
Proof.
  intros Hok Hinv Hp Hc Hf HT Hmono Hj Hticks HN.
  destruct (timer_wait p c f fuel l L ns T b j ck Hinv Hp Hc Hf HT Hmono Hj Hticks) as (i & Hi & Hwait & Hge).
  exists i. intros t n. split; [exact Hi|]. split; [exact Hge|].
  pose proof (timer_start_run fuel t s Hok (HN t) Hwait) as Hrun. cbv zeta in Hrun. fold ck in Hrun. fold n in Hrun.
  rewrite Hrun. destruct (n =? 0); [reflexivity|].
  eexists. split; [reflexivity|]. split; [reflexivity|]. cbn [ld set_ld]. unfold timer_running, timer_calibrating.
  rewrite !l_started_store, !l_reg_store by done.
  assert (u32 n = n) as Hn32 by (unfold n, u32; specialize (HN t); rewrite Z.mod_small; [done|pow2; lia]).
  split; [done|]. split; [done|]. split; [exact Hn32|]. split; done.
Qed.
End spec.

Module ApicWitness.
Import DemoHhdm DemoObjects TermWitness ClockWitness.

(** A table at 0x1000 with a local APIC and an I/O APIC, and, at 0x2000, one whose first
    entry is empty; the timer makes 1000 ticks in a unit of time. *)
Definition demo_madt : mem :=
  st32 0x2004 64 (st32 (0x1000 + 56) 0xFEC00000 (stn 2 (0x1000 + 52) 0x0C01 (stn 2 (0x1000 + 44) 0x0800
    (st32 0x1024 0xFEE00000 (st32 0x1004 64 ∅))))).
#[export] Instance demo_apic_hw : ApicHw := {|
  hw_lapic_ticks t t' _ := Z.max (1000 * (Z.of_nat t' - Z.of_nat t)) 0;
  madt_table := Some 0x1000;
  madt_mem := demo_madt;
|}.
#[export] Instance demo_layout : MadtLayout := {|
  off_hdr_length := 4; off_lapic_address := 36; off_entries := 44; off_entry_type := 0; off_entry_length := 1;
  off_ioapic_address := 4; ACPI_MADT_ENTRY_TYPE_IOAPIC := 1;
|}.

Definition hpet_source : clock_source := mk_source CLOCK_HPET (Some HpetRead) None 100 0.
Definition hpet_ck : clock_state bump := mk_ck _ (mk_bump 4096) 0 (mk_term true 0 []) {[ 0x200 := hpet_source ]}
  0x200 2 0 0 0 None 0 0 None [].
Definition apic_at (msr ptr io : Z) : apic_state bump :=
  mk_apic _ hpet_ck msr 0 0 ptr false io (mk_ld ∅ 0 0) (mk_io 0 ∅).

Lemma hpet_ck_inv : clocks_inv hpet_ck [0x200] [0x200] [sizeof_clock_source].
Proof.
  split.
  - split; [done|]. split; [done|]. by exists hpet_source.
  - apply NoDup_singleton.
  - intros id Hid. cbn [hpet_ck available_clocks sources]. split.
    + intros Ht. exists 0x200, hpet_source. split; [apply list_elem_of_here|]. split; [done|].
      destruct (decide (id = 1)) as [->|]; [done|]. rewrite <- (Z.pow_1_r 2), Z.pow2_bits_false in Ht by lia. done.
    + intros (p & c & _ & [<- <-]%lookup_singleton_Some & <-). done.
  - split; [by vm_compute|]. split; [apply NoDup_singleton|]. split; [apply Forall_singleton; by vm_compute|].
    apply Forall_singleton. by vm_compute.
  - done.
  - done.
Qed.

Lemma read_madt_spec_witness : ∃ s', read_madt 2 0x1000 (apic_at 0 0 0) = Done (tt, s') ∧ ioapic_address s' = 0xFEC00000.
Proof.
  eexists. split.
  - apply (read_madt_spec 0x1000 [(0, 8, 0); (1, 12, 0xFEC00000)]); [by vm_compute|repeat constructor|by vm_compute|simpl; lia].
  - reflexivity.
Defined.

Lemma read_madt_stuck_witness : read_madt 1000 0x2000 (apic_at 0 0 0) = OutOfFuel.
Proof. apply (read_madt_stuck 0x2000 [] 0x2040); [done|constructor|by vm_compute|by vm_compute|done]. Defined.

Lemma ioapic_redirect_irq_spec_witness : ∃ s', ioapic_redirect_irq 1 33 (apic_at 0 0 0x5000) = Done (tt, s')
  ∧ redirection (iod s') 1 = 33 ∧ redirection (iod s') 0 = 0.
Proof.
  destruct (ioapic_redirect_irq_spec 1 33 (apic_at 0 0 0x5000)) as (s' & Hr & _ & Hd); [done|lia|lia|].
  exists s'. split; [exact Hr|]. split; [exact (Hd 1 ltac:(lia))|exact (Hd 0 ltac:(lia))].
Defined.

Lemma lapic_init_spec_witness : ∃ s', lapic_init (apic_at 0xFEE00000 0 0) = Done (tt, s') ∧ lapic_ok s'
  ∧ lapic_init (apic_at 0xFEE00C00 0 0) = Panic "General Protection Fault (13)".
Proof.
  destruct (lapic_init_spec 0x1000 0xFEE00000 (mk_bump 4096) (apic_at 0xFEE00000 0 0)) as (s' & Hr & Hok & _);
    [reflexivity|by vm_compute|done|by vm_compute|by vm_compute|reflexivity|].
  exists s'. split; [exact Hr|]. split; [exact Hok|].
  apply (lapic_init_spec 0x1000 0xFEE00000 (mk_bump 4096) (apic_at 0xFEE00C00 0 0));
    [reflexivity|by vm_compute|done|by vm_compute|by vm_compute|reflexivity].
Defined.

(** The registers at their usual address. *)
Definition running_apic : apic_state bump := apic_at 0xFEE00000 (phys_to_virt 0xFEE00000) 0.
Lemma lapic_timer_start_spec_witness : ∃ s' n, lapic_timer_start 10 running_apic = Done (tt, s')
  ∧ l_reg (ld s') LAPIC_TIMER_INITCNT = n ∧ 0 < n.
Proof.
  destruct (lapic_timer_start_spec 0x200 hpet_source (λ t, u64 (Z.of_nat t)) 10 [0x200] [0x200] [sizeof_clock_source] Z.of_nat 0 10%nat
    running_apic) as (i & _ & _ & Hrun).
  - split; [by vm_compute|reflexivity].
  - exact hpet_ck_inv.
  - reflexivity.
  - reflexivity.
  - reflexivity.
  - intros t. by rewrite Z.sub_0_r.
  - intros t Ht. cbn [running_apic apic_at ap_ck ck_time hpet_ck]. lia.
  - lia.
  - by vm_compute.
  - intros t. cbn [hw_lapic_ticks demo_apic_hw]. lia.
  - cbn [running_apic apic_at ap_ck ck_time hpet_ck hw_lapic_ticks demo_apic_hw] in Hrun.
    rewrite (proj2 (Z.eqb_neq _ _)) in Hrun by lia.
    destruct Hrun as (s' & Hr & _ & _ & _ & Hn & _). exists s'. eexists. split; [exact Hr|]. split; [exact Hn|]. lia.
Defined.
End ApicWitness.
