(* ===== verification/Dispatch.v ===== *)
(** * Exception and interrupt dispatch: src/interrupts/isr.c and the dispatch of irq.c

    The handler tables and what isr_handler and irq_handler do with a frame, over the
    interfaces [Handlers] (the functions in the tables), [Controllers] (local APIC and
    PICs) and [Console]. The file Kernel.v gives the kernel's instances. *)
From Stdlib Require Import Ascii.
From S2P Require Import Prelude CMem CString Words Desc Entry.

(** The functions the kernel registers: timer_handler and page_fault_handler of main.c,
    and handlers uACPI passes, by their address. *)
Inductive isr_fn := PageFaultHandler.
Inductive irq_fn := TimerHandler | UacpiHandler (handler : Z).

Record tables := mk_tables {
  isr_handlers : list (option isr_fn);      (* handlers[32] of isr.c *)
  irq_handlers : list (option irq_fn);      (* handlers[256] of irq.c *)
}.
Definition no_handlers : tables := mk_tables (replicate 32 None) (replicate 256 None).

(** The vector is a uint8_t. *)
Definition isr_register_handler (vector : Z) (handler : isr_fn) : M tables unit := λ t,
  if 32 <=? u8 vector then Undef "handlers: out of bounds"
  else Done (tt, mk_tables (<[Z.to_nat (u8 vector) := Some handler]> (isr_handlers t)) (irq_handlers t)).
Definition irq_register_handler (vector : Z) (handler : irq_fn) : M tables unit := λ t,
  Done (tt, mk_tables (isr_handlers t) (<[Z.to_nat (u8 vector) := Some handler]> (irq_handlers t))).

Definition exceptions : list string :=
  ["Divide by zero"; "Debug"; "NMI"; "Breakpoint"; "Overflow"; "Bound Range Exceeded"; "Invalid Opcode";
   "Device Not Available"; "Double Fault"; "Coprocessor Segment Overrun"; "Invalid TSS"; "Segment Not Present";
   "Stack Fault"; "General Protection Fault"; "Page Fault"].

(** *p++ = c, in buffer[64]. *)
Definition put_char (c : Ascii.ascii) (buffer : list Ascii.ascii) : outcome (list Ascii.ascii) :=
  if 64 <=? Z.of_nat (length buffer) then Undef "buffer: out of bounds" else Done (buffer ++ [c]).
Fixpoint put_chars (cs : list Ascii.ascii) (buffer : list Ascii.ascii) : outcome (list Ascii.ascii) :=
  match cs with
  | [] => Done buffer
  | c :: cs' => b ← put_char c buffer; put_chars cs' b
  end.
(** do temp[i++] = '0' + (n % 10), n /= 10; while (n), in temp[21] *)
Fixpoint number_digits (room : nat) (n : Z) : outcome (list Ascii.ascii) :=
  match room with
  | O => Undef "temp: out of bounds"
  | S k =>
      let d := Ascii.ascii_of_nat (Z.to_nat (48 + n mod 10)) in
      if n / 10 =? 0 then Done [d] else ds ← number_digits k (n / 10); Done (d :: ds)
  end.
Definition isr_message (msg : string) (n : Z) : outcome string :=
  p ← put_chars (String.list_ascii_of_string msg) [];
  p ← put_char " "%char p;
  p ← put_char "("%char p;
  temp ← number_digits 21 n;
  p ← put_chars (reverse temp) p;
  p ← put_char ")"%char p;
  _ ← put_char Ascii.zero p;
  Done (String.string_of_list_ascii p).

(** ** The handlers, over what they call *)

Class Handlers (St : Type) := {
  h_tables : St → tables;
  call_isr : isr_fn → interrupt_frame → M St bool;
  call_irq : irq_fn → interrupt_frame → M St unit;
}.
Class Controllers (St : Type) := {
  c_lapic_is_enabled : M St bool;
  c_lapic_eoi : M St unit;
  c_pic_send_eoi : Z → M St unit;
}.
Class Console (St : Type) := {
  con_write : string → M St unit;
  con_write_u8 : Z → M St unit;
  con_panic_isr : string → interrupt_frame → M St unit;
}.

Section dispatch.
Context {St : Type} `{HS : !Handlers St} `{CS : !Controllers St} `{CO : !Console St}.

Definition isr_handler (f : interrupt_frame) : M St unit :=
  let n := interrupt_number f in
  t ← gets h_tables;
  match isr_handlers t !! Z.to_nat n with
  | None => mundef "handlers: out of bounds"
  | Some h =>
      handled ← (match h with Some h => call_isr h f | None => mret false end);
      if handled : bool then mret tt
      else match exceptions !! Z.to_nat n with
      | None => mundef "exceptions: out of bounds"
      | Some msg => buffer ← lift_o (isr_message msg n); con_panic_isr buffer f
      end
  end.

Definition irq_dispatch (f : interrupt_frame) : M St unit :=
  let vector := u8 (interrupt_number f) in
  t ← gets h_tables;
  match irq_handlers t !! Z.to_nat vector with
  | Some (Some h) => call_irq h f
  | _ =>
      _ ← con_write "Unhandled IRQ: ";
      _ ← con_write_u8 vector;
      con_write "
"
  end.

Definition irq_handler (f : interrupt_frame) : M St unit :=
  e ← c_lapic_is_enabled;
  _ ← (if e : bool then c_lapic_eoi else c_pic_send_eoi (u8 (interrupt_number f - 32)));
  irq_dispatch f.

(** ** Specification *)

Definition tables_ok (t : tables) : Prop := length (isr_handlers t) = 32%nat ∧ length (irq_handlers t) = 256%nat.
(** What the panic message of exception [n] is to be. *)
Definition numeral (n : Z) : string :=
  if n <? 10 then String.string_of_list_ascii [Ascii.ascii_of_nat (Z.to_nat (48 + n))]
  else String.string_of_list_ascii [Ascii.ascii_of_nat (Z.to_nat (48 + n / 10)); Ascii.ascii_of_nat (Z.to_nat (48 + n mod 10))].
Definition panic_message (n : Z) : string :=
  String.app (default EmptyString (exceptions !! Z.to_nat n)) (String.app " (" (String.app (numeral n) ")")).

Lemma isr_message_ok n : 0 ≤ n < 15 →
  ∃ msg, exceptions !! Z.to_nat n = Some msg ∧ isr_message msg n = Done (panic_message n).
Proof.
  intros Hn. assert (Z.to_nat n < 15)%nat as Hlt by lia. rewrite <- (Z2Nat.id n) by lia. generalize dependent (Z.to_nat n).
  intros k Hk. clear n Hn. rewrite Nat2Z.id. do 15 (destruct k as [|k]; [eexists; split; reflexivity|]). lia.
Qed.

Lemma isr_handler_ok f s n : tables_ok (h_tables s) → interrupt_number f = Z.of_nat n → (n < 32)%nat →
  let handled s' b := match default None (isr_handlers (h_tables s) !! n) with
    | Some h => call_isr h f s = Done (b, s')
    | None => s' = s ∧ b = false
    end in
  (∀ s', handled s' true → isr_handler f s = Done (tt, s'))
  ∧ (∀ s', handled s' false → isr_handler f s =
      if (n <? 15)%nat then con_panic_isr (panic_message (Z.of_nat n)) f s' else Undef "exceptions: out of bounds").
Proof.
  intros [Hl _] Hf Hn handled. unfold handled, isr_handler. rewrite Hf, Nat2Z.id.
  destruct (lookup_lt_is_Some_2 (isr_handlers (h_tables s)) n) as [h Hh]; [lia|].
  rewrite (bind_Done _ _ s (h_tables s) s eq_refl), Hh. cbn [default id from_option].
  assert (∀ s', (match exceptions !! n with None => mundef "exceptions: out of bounds"
      | Some msg => buffer ← lift_o (isr_message msg (Z.of_nat n)); con_panic_isr buffer f end : M St unit) s'
    = if (n <? 15)%nat then con_panic_isr (panic_message (Z.of_nat n)) f s' else Undef "exceptions: out of bounds") as Hpanic.
  { intros s'. destruct (Nat.ltb_spec n 15) as [H15|H15].
    - destruct (isr_message_ok (Z.of_nat n)) as (msg & Hmsg & Hm); [lia|]. rewrite Nat2Z.id in Hmsg. rewrite Hmsg.
      unfold lift_o, mbind, M_bind. by rewrite Hm.
    - rewrite lookup_ge_None_2; [done|]. exact H15. }
  split; intros s' Hs'; destruct h as [h|].
  - by rewrite (bind_Done _ _ _ _ _ Hs').
  - by destruct Hs'.
  - by rewrite (bind_Done _ _ _ _ _ Hs').
  - destruct Hs' as [-> _]. by rewrite (bind_Done _ _ s false s eq_refl).
Qed.

(** C38: an exception whose handler is missing or refuses it goes to the panic screen with its name
    and number when it is one of the first 15; for 15 to 31 (x87 and SIMD errors, alignment
    checks, ...) the name is read past the end of the table of names. A handler that
    accepts it ends the matter. *)
Theorem isr_handler_spec f s n : tables_ok (h_tables s) → interrupt_number f = Z.of_nat n → (n < 32)%nat →
  let handled s' b := match default None (isr_handlers (h_tables s) !! n) with
    | Some h => call_isr h f s = Done (b, s')
    | None => s' = s ∧ b = false
    end in
  (∀ s', handled s' true → isr_handler f s = Done (tt, s'))
  ∧ (∀ s', handled s' false → isr_handler f s =
      if (n <? 15)%nat then con_panic_isr (panic_message (Z.of_nat n)) f s' else Undef "exceptions: out of bounds").
Proof. exact (isr_handler_ok f s n). Qed.

(** Irq_handler ends the interrupt at the local APIC when that is enabled and at the PICs
    otherwise, before the handler of its vector runs, and prints the vectors without one. *)
Theorem irq_handler_spec f s e s1 s2 : c_lapic_is_enabled s = Done (e, s1) →
  (if e : bool then c_lapic_eoi else c_pic_send_eoi (u8 (interrupt_number f - 32))) s1 = Done (tt, s2) →
  tables_ok (h_tables s2) → 0 ≤ interrupt_number f < 256 →
  irq_handler f s =
    match default None (irq_handlers (h_tables s2) !! Z.to_nat (interrupt_number f)) with
    | Some h => call_irq h f s2
    | None => (_ ← con_write "Unhandled IRQ: "; _ ← con_write_u8 (interrupt_number f); con_write "
") s2
    end.
Proof.
  intros He Heoi [_ Hl] Hf. unfold irq_handler. rewrite (bind_Done _ _ _ _ _ He), (bind_Done _ _ _ _ _ Heoi).
  unfold irq_dispatch. assert (u8 (interrupt_number f) = interrupt_number f) as -> by (apply Z.mod_small; lia).
  rewrite (bind_Done _ _ s2 (h_tables s2) s2 eq_refl).
  destruct (lookup_lt_is_Some_2 (irq_handlers (h_tables s2)) (Z.to_nat (interrupt_number f))) as [h ->]; [lia|].
  by destruct h.
Qed.
End dispatch.

Module DispatchWitness.
(** A page fault handler that refuses, a log of what is printed and ended. *)
Record demo := mk_demo { d_tables : tables; d_log : list string }.
Definition say (m : string) (d : demo) : demo := mk_demo (d_tables d) (d_log d ++ [m]).
#[export] Instance demo_handlers : Handlers demo := {|
  h_tables := d_tables;
  call_isr _ _ d := Done (false, say "fault" d);
  call_irq _ _ d := Done (tt, say "timer" d);
|}.
#[export] Instance demo_controllers : Controllers demo := {|
  c_lapic_is_enabled d := Done (false, d); c_lapic_eoi d := Done (tt, d); c_pic_send_eoi _ d := Done (tt, say "eoi" d);
|}.
#[export] Instance demo_console : Console demo := {| con_write m d := Done (tt, say m d); con_write_u8 _ d := Done (tt, d); con_panic_isr m _ _ := Panic m |}.

Definition demo_frame (n : Z) : interrupt_frame := mk_iframe (mk_gprs 0 0 0 0 0 0 0 0 0 0 0 0 0 0 0) n 0 0 0 0 0 0.
Definition demo_tables : tables :=
  mk_tables (<[14%nat := Some PageFaultHandler]> (replicate 32 None)) (<[48%nat := Some TimerHandler]> (replicate 256 None)).

Lemma isr_handler_spec_witness : isr_handler (demo_frame 14) (mk_demo demo_tables []) = Panic "Page Fault (14)"
  ∧ isr_handler (demo_frame 19) (mk_demo demo_tables []) = Undef "exceptions: out of bounds".
Proof.
  split.
  - apply (proj2 (isr_handler_spec (demo_frame 14) (mk_demo demo_tables []) 14 ltac:(by split) eq_refl ltac:(lia)) (mk_demo demo_tables ["fault"])).
    reflexivity.
  - apply (proj2 (isr_handler_spec (demo_frame 19) (mk_demo demo_tables []) 19 ltac:(by split) eq_refl ltac:(lia)) (mk_demo demo_tables [])).
    by split.
Defined.

Lemma irq_handler_spec_witness : irq_handler (demo_frame 48) (mk_demo demo_tables []) = Done (tt, mk_demo demo_tables ["eoi"; "timer"]).
Proof.
  etransitivity; [apply (irq_handler_spec (demo_frame 48) (mk_demo demo_tables []) false (mk_demo demo_tables []) (mk_demo demo_tables ["eoi"]));
    [reflexivity|reflexivity|by split|cbn; lia]|reflexivity].
Defined.
End DispatchWitness.
