(* ===== verification/Uacpi.v ===== *)
(** * The host interface of uACPI: src/acpi/uacpi_kernel.c and acpi.c

    uACPI is a submodule: its status codes are parameters ([UacpiAbi]), and so is what its
    work handlers do ([UacpiCode]). The mutexes, events and spinlocks it creates are heap
    objects with one int each. Code that runs between two polls of such an object (an
    interrupt handler) is a parameter of the functions that poll. *)
From S2P Require Import Prelude CMem Phys Vmm Heap Term Sched Clock Desc Entry Pic Dispatch.

Class UacpiAbi := {
  UACPI_STATUS_OK : Z;
  UACPI_STATUS_NOT_FOUND : Z;
  UACPI_STATUS_TIMEOUT : Z;
  UACPI_STATUS_OUT_OF_MEMORY : Z;
  UACPI_STATUS_INVALID_ARGUMENT : Z;
  status_differ : UACPI_STATUS_OK ≠ UACPI_STATUS_TIMEOUT ∧ UACPI_STATUS_OK ≠ UACPI_STATUS_OUT_OF_MEMORY
    ∧ UACPI_STATUS_OK ≠ UACPI_STATUS_INVALID_ARGUMENT;
}.

(** The kernel's mapping, for uacpi_kernel_map. *)
Class KernelPages (H : Type) := {
  kp_translate : Z → H → Z;          (* vmm_virt_to_phys_as(&kernel_address_space, virt) *)
  kp_map : Z → Z → Z → M H unit;
  kp_unmap : Z → M H unit;
}.
#[export] Instance kernel_pages_of `{PageAllocator St} : KernelPages (heap_state St) := {|
  kp_translate v h := vmm_virt_to_phys_as (kernel_address_space (heap_vm h)) v (heap_mem h);
  kp_map v p f := on_vm (map_page v p f);
  kp_unmap v := on_vm (unmap_page v);
|}.

(** Port input, and the boot loader's answer to the request for the RSDP. *)
Class UacpiHw := {
  hw_in : nat → Z → Z;
  rsdp_response : option Z;
}.

Record work_item := mk_work { work_type : Z; work_handler : Z; work_ctx : Z }.
Record irq_wrapper := mk_wrapper { w_handler : Z; w_ctx : Z; w_irq : Z }.

Record uacpi_state {H : Type} := mk_ua {
  ua_ck : clock_state H;
  ua_pics : pics;
  ua_tables : tables;
  ints : gmap Z Z;                   (* the int of each mutex, event and spinlock *)
  wrappers : gmap Z irq_wrapper;
  uacpi_wrappers : list Z;
  work_queue : list work_item;
  work_queue_head : Z;
  work_queue_tail : Z;
  ua_rflags : Z;
  port_writes : list (nat * Z * Z);  (* bytes, port, value *)
}.
Arguments uacpi_state : clear implicits.

(** Functions of uACPI that the kernel calls. *)
Class UacpiCode (H : Type) := { run_work : Z → Z → M (uacpi_state H) unit }.

Definition MAX_WORK_ITEMS : Z := 256.

Section uacpi.
Context `{OH : ObjectHeap H} `{KP : !KernelPages H} `{HH : Hhdm} `{HW : ClockHw} `{UA : Uart} `{AB : UacpiAbi} `{UH : UacpiHw}.
Abbreviation S := (uacpi_state H).

Definition on_ua_ck {A} : M (clock_state H) A → M S A := zoom ua_ck (λ c s,
  mk_ua H c (ua_pics s) (ua_tables s) (ints s) (wrappers s) (uacpi_wrappers s) (work_queue s) (work_queue_head s)
    (work_queue_tail s) (ua_rflags s) (port_writes s)).
Definition on_ua_heap {A} (m : M H A) : M S A := on_ua_ck (on_ck_heap m).
Definition on_ua_term {A} (m : M term_state A) : M S A := on_ua_ck (on_ck_term m).
Definition on_ua_pics {A} : M pics A → M S A := zoom ua_pics (λ p s,
  mk_ua H (ua_ck s) p (ua_tables s) (ints s) (wrappers s) (uacpi_wrappers s) (work_queue s) (work_queue_head s)
    (work_queue_tail s) (ua_rflags s) (port_writes s)).
Definition on_ua_tables {A} : M tables A → M S A := zoom ua_tables (λ t s,
  mk_ua H (ua_ck s) (ua_pics s) t (ints s) (wrappers s) (uacpi_wrappers s) (work_queue s) (work_queue_head s)
    (work_queue_tail s) (ua_rflags s) (port_writes s)).
Definition set_ints (m : gmap Z Z) (s : S) : S :=
  mk_ua H (ua_ck s) (ua_pics s) (ua_tables s) m (wrappers s) (uacpi_wrappers s) (work_queue s) (work_queue_head s)
    (work_queue_tail s) (ua_rflags s) (port_writes s).
Definition set_wrappers (m : gmap Z irq_wrapper) (l : list Z) (s : S) : S :=
  mk_ua H (ua_ck s) (ua_pics s) (ua_tables s) (ints s) m l (work_queue s) (work_queue_head s)
    (work_queue_tail s) (ua_rflags s) (port_writes s).
Definition set_work (q : list work_item) (h t : Z) (s : S) : S :=
  mk_ua H (ua_ck s) (ua_pics s) (ua_tables s) (ints s) (wrappers s) (uacpi_wrappers s) q h t (ua_rflags s) (port_writes s).
Definition set_rflags (f : Z) (s : S) : S :=
  mk_ua H (ua_ck s) (ua_pics s) (ua_tables s) (ints s) (wrappers s) (uacpi_wrappers s) (work_queue s) (work_queue_head s)
    (work_queue_tail s) f (port_writes s).
Definition log_port (n : nat) (port v : Z) (s : S) : S :=
  mk_ua H (ua_ck s) (ua_pics s) (ua_tables s) (ints s) (wrappers s) (uacpi_wrappers s) (work_queue s) (work_queue_head s)
    (work_queue_tail s) (ua_rflags s) (port_writes s ++ [(n, port, v)]).

(** ** The RSDP and memory *)

Definition uacpi_kernel_get_rsdp : M S (Z * Z) :=
  match rsdp_response with
  | None => mret (UACPI_STATUS_NOT_FOUND, 0)
  | Some address =>
      let rsdp := virt_to_phys address in
      if rsdp =? 0 then mret (UACPI_STATUS_NOT_FOUND, 0) else mret (UACPI_STATUS_OK, rsdp)
  end.

Definition uacpi_kernel_map (addr len : Z) : M S Z :=
  let page_addr := Z.land addr (u64 (Z.lnot (PAGE_SIZE - 1))) in
  let offset := u64 (addr - page_addr) in
  h ← gets (λ s, ck_heap (ua_ck s));
  let phys_addr := u64 (kp_translate (phys_to_virt page_addr) h) in
  if (phys_addr =? 0) || negb (phys_addr =? page_addr) then
    if PAGE_SIZE <? len then mpanic "idk how to map more than one page, fix me later."
    else
      _ ← on_ua_heap (kp_map page_addr page_addr PAGE_MMIO);
      mret (u64 (page_addr + offset))
  else mret (u64 (phys_to_virt page_addr + offset)).

Definition uacpi_kernel_unmap (addr len : Z) : M S unit :=
  h ← gets (λ s, ck_heap (ua_ck s));
  let phys_addr := u64 (kp_translate addr h) in
  if addr =? phys_to_virt phys_addr then mret tt
  else on_ua_heap (kp_unmap addr).

(** UACPII_LOG is not defined. *)
Definition uacpi_kernel_log (level : Z) (str : string) : M S unit := mret tt.

(** ** PCI (not implemented) and port I/O *)

Definition uacpi_kernel_pci_device_open : M S Z := mret UACPI_STATUS_NOT_FOUND.
Definition uacpi_kernel_pci_device_close (handle : Z) : M S unit := mret tt.
(** pci_read8, pci_read16 and pci_read32, of [n] bytes *)
Definition uacpi_kernel_pci_read (n : nat) (device offset : Z) : M S (Z * Z) :=
  mret (UACPI_STATUS_OK, 2 ^ (8 * Z.of_nat n) - 1).
Definition uacpi_kernel_pci_write (n : nat) (device offset value : Z) : M S Z := mret UACPI_STATUS_OK.

Definition uacpi_kernel_io_map (base len : Z) : M S (Z * Z) := mret (UACPI_STATUS_OK, base).
Definition uacpi_kernel_io_unmap (handle : Z) : M S unit := mret tt.
Definition uacpi_kernel_io_read (n : nat) (handle offset : Z) : M S (Z * Z) :=
  mret (UACPI_STATUS_OK, hw_in n (u16 (u64 (handle + offset)))).
Definition uacpi_kernel_io_write (n : nat) (handle offset value : Z) : M S Z :=
  _ ← modify (log_port n (u16 (u64 (handle + offset))) value);
  mret UACPI_STATUS_OK.

(** ** Memory and time *)

Definition uacpi_kernel_alloc (size : Z) : M S Z := on_ua_heap (oh_alloc size).
Definition uacpi_kernel_alloc_zeroed (size : Z) : M S Z := on_ua_heap (oh_calloc 1 size).
Definition uacpi_kernel_free (p : Z) : M S unit := on_ua_heap (oh_free p).

Definition uacpi_kernel_get_nanoseconds_since_boot : M S Z := on_ua_ck ns_since_boot.
Definition uacpi_kernel_stall (fuel : nat) (usec : Z) : M S unit := on_ua_ck (busy_sleep_best_ns fuel (u64 (usec * 1000))).
Definition uacpi_kernel_sleep (fuel : nat) (msec : Z) : M S unit := on_ua_ck (busy_sleep_best_ns fuel (u64 (msec * 1000000))).

(** ** Mutexes, events and spinlocks *)

(** create_mutex, create_event and create_spinlock; free_mutex and the others *)
Definition create_int : M S Z :=
  p ← on_ua_heap (oh_alloc 4);
  if p =? 0 then mret 0
  else _ ← modify (λ s, set_ints (<[p := 0]> (ints s)) s); mret p.
Definition free_int (p : Z) : M S unit :=
  _ ← on_ua_heap (oh_free p);
  modify (λ s, set_ints (delete p (ints s)) s).
Definition uacpi_kernel_create_mutex : M S Z := create_int.
Definition uacpi_kernel_free_mutex (handle : Z) : M S unit := free_int handle.
Definition uacpi_kernel_create_event : M S Z := create_int.
Definition uacpi_kernel_free_event (handle : Z) : M S unit := free_int handle.
Definition uacpi_kernel_create_spinlock : M S Z := create_int.
Definition uacpi_kernel_free_spinlock (handle : Z) : M S unit := free_int handle.

(** uacpi_kernel_get_thread_id, given current_thread *)
Definition uacpi_kernel_get_thread_id (current_thread : option thread) : Z :=
  match current_thread with Some t => t_tid t | None => 1 end.

Definition get_int (p : Z) : M S Z := λ s,
  match ints s !! p with Some v => Done (v, s) | None => Undef "not a lock" end.
Definition put_int (p v : Z) : M S unit := modify (λ s, set_ints (<[p := v]> (ints s)) s).
(** __sync_bool_compare_and_swap, on the value *)
Definition cas (old new v : Z) : bool * Z := if v =? old then (true, new) else (false, v).
Definition sync_bool_compare_and_swap (p old new : Z) : M S bool :=
  v ← get_int p;
  let r := cas old new v in
  _ ← put_int p r.2;
  mret r.1.
(** What other code does to the object before poll [i]. *)
Definition interfere (p : Z) (others : nat → Z → Z) (i : nat) : M S unit :=
  v ← get_int p; put_int p (others i v).

Definition uacpi_kernel_disable_interrupts : M S Z :=
  state ← gets ua_rflags;
  _ ← modify (set_rflags (Z.land state (Z.lnot 0x200)));
  mret state.
Definition uacpi_kernel_restore_interrupts (state : Z) : M S unit :=
  if negb (Z.land state 0x200 =? 0) then modify (λ s, set_rflags (Z.lor (ua_rflags s) 0x200) s) else mret tt.

(** while (iterations < max_iterations) *)
Definition acquire_turn (p : Z) (others : nat → Z → Z) (i : nat) (again : M S Z) : M S Z :=
  _ ← interfere p others i;
  b ← sync_bool_compare_and_swap p 0 1;
  if b : bool then mret UACPI_STATUS_OK else again.
Fixpoint acquire_loop (todo : nat) (p : Z) (others : nat → Z → Z) (i : nat) : M S Z :=
  match todo with
  | O => mret UACPI_STATUS_TIMEOUT
  | Datatypes.S k => acquire_turn p others i (acquire_loop k p others (Datatypes.S i))
  end.
Definition uacpi_kernel_acquire_mutex (others : nat → Z → Z) (handle timeout : Z) : M S Z :=
  if timeout =? 0 then
    b ← sync_bool_compare_and_swap handle 0 1;
    if b : bool then mret UACPI_STATUS_OK else mret UACPI_STATUS_TIMEOUT
  else acquire_loop (Z.to_nat (timeout * 1000)) handle others 0.
Definition uacpi_kernel_release_mutex (handle : Z) : M S unit :=
  _ ← sync_bool_compare_and_swap handle 1 0; mret tt.

Definition wait_turn (p : Z) (others : nat → Z → Z) (i : nat) (again : M S bool) : M S bool :=
  _ ← interfere p others i;
  v ← get_int p;
  if 0 <? v then _ ← put_int p (i32 (v - 1)); mret true else again.
(** [todo] counts max_iterations - iterations. *)
Fixpoint wait_loop (fuel : nat) (todo : Z) (p : Z) (others : nat → Z → Z) (i : nat) : M S bool :=
  if todo <=? 0 then mret false
  else match fuel with
  | O => λ _, OutOfFuel
  | Datatypes.S k => wait_turn p others i (wait_loop k (todo - 1) p others (Datatypes.S i))
  end.
Definition uacpi_kernel_wait_for_event (fuel : nat) (others : nat → Z → Z) (handle timeout : Z) : M S bool :=
  let max_iterations := if timeout =? 0xFFFF then 0xFFFFFFFFFFFFFFFF else timeout * 1000 in
  wait_loop fuel max_iterations handle others 0.
Definition uacpi_kernel_signal_event (handle : Z) : M S unit :=
  v ← get_int handle; put_int handle (i32 (v + 1)).
Definition uacpi_kernel_reset_event (handle : Z) : M S unit :=
  _ ← get_int handle; put_int handle 0.

(** while (compare_and_swap(&locked, 0, 1)) pause; *)
Definition spin_turn (p : Z) (others : nat → Z → Z) (i : nat) (again : M S unit) : M S unit :=
  _ ← interfere p others i;
  b ← sync_bool_compare_and_swap p 0 1;
  if b : bool then again else mret tt.
Fixpoint spin_loop (fuel : nat) (p : Z) (others : nat → Z → Z) (i : nat) : M S unit :=
  spin_turn p others i
    match fuel with O => λ _, OutOfFuel | Datatypes.S k => spin_loop k p others (Datatypes.S i) end.
Definition uacpi_kernel_lock_spinlock (fuel : nat) (others : nat → Z → Z) (handle : Z) : M S Z :=
  flags ← uacpi_kernel_disable_interrupts;
  _ ← spin_loop fuel handle others 0;
  mret flags.
Definition uacpi_kernel_unlock_spinlock (handle flags : Z) : M S unit :=
  _ ← sync_bool_compare_and_swap handle 1 0;
  uacpi_kernel_restore_interrupts flags.

(** ** Requests of the firmware, interrupts *)

Inductive firmware_request := Breakpoint | Fatal (code arg : Z) | OtherRequest.
Definition uacpi_kernel_handle_firmware_request (req : firmware_request) : M S Z :=
  match req with
  | Breakpoint => _ ← on_ua_term (terminal_write "[UACPI] Breakpoint firmware request
"); mret UACPI_STATUS_OK
  | Fatal code arg =>
      _ ← on_ua_term (terminal_write "[UACPI] Fatal firmware request: code=");
      _ ← on_ua_term (terminal_write_hex_u64 code);
      _ ← on_ua_term (terminal_write ", arg=");
      _ ← on_ua_term (terminal_write_hex_u64 arg);
      _ ← on_ua_term (terminal_write "
");
      mpanic "uACPI firmware fatal request"
  | OtherRequest => mret UACPI_STATUS_OK
  end.

Definition sizeof_irq_wrapper : Z := 24.

(** The status and the handle. *)
Definition uacpi_kernel_install_interrupt_handler (irq handler ctx : Z) : M S (Z * option Z) :=
  if 16 <=? irq then mret (UACPI_STATUS_INVALID_ARGUMENT, None)
  else
    w ← on_ua_heap (oh_alloc sizeof_irq_wrapper);
    if w =? 0 then mret (UACPI_STATUS_OUT_OF_MEMORY, None)
    else
      _ ← modify (λ s, set_wrappers (<[w := mk_wrapper handler ctx (u8 irq)]> (wrappers s))
                         (<[Z.to_nat irq := w]> (uacpi_wrappers s)) s);
      _ ← on_ua_pics (pic_unmask_irq (u8 irq));
      _ ← on_ua_tables (irq_register_handler (u8 (32 + irq)) (UacpiHandler handler));
      mret (UACPI_STATUS_OK, Some w).
Definition uacpi_kernel_uninstall_interrupt_handler (handler irq_handle : Z) : M S Z :=
  _ ← on_ua_heap (oh_free irq_handle);
  _ ← modify (λ s, set_wrappers (delete irq_handle (wrappers s)) (uacpi_wrappers s) s);
  mret UACPI_STATUS_OK.

(** ** Deferred work *)

Definition uacpi_kernel_schedule_work (type handler ctx : Z) : M S Z :=
  s ← gets id;
  let next_tail := Z.rem (work_queue_tail s + 1) MAX_WORK_ITEMS in
  if next_tail =? work_queue_head s then mret UACPI_STATUS_OUT_OF_MEMORY
  else
    _ ← modify (set_work (<[Z.to_nat (work_queue_tail s) := mk_work type handler ctx]> (work_queue s))
                  (work_queue_head s) next_tail);
    mret UACPI_STATUS_OK.

Section work.
Context `{UC : !UacpiCode H}.
Definition run_item (item : work_item) : M S unit :=
  if work_handler item =? 0 then mret tt else run_work (work_handler item) (work_ctx item).
(** One turn: take the item at the head and run it. *)
Definition work_turn (again : M S unit) : M S unit :=
  s ← gets id;
  if work_queue_head s =? work_queue_tail s then mret tt
  else match work_queue s !! Z.to_nat (work_queue_head s) with
  | None => mundef "work_queue: out of bounds"
  | Some item =>
      _ ← modify (set_work (work_queue s) (Z.rem (work_queue_head s + 1) MAX_WORK_ITEMS) (work_queue_tail s));
      _ ← run_item item;
      again
  end.
Fixpoint work_loop (fuel : nat) : M S unit :=
  work_turn match fuel with O => λ _, OutOfFuel | Datatypes.S k => work_loop k end.
Definition uacpi_kernel_wait_for_work_completion (fuel : nat) : M S Z :=
  _ ← work_loop fuel; mret UACPI_STATUS_OK.
End work.
End uacpi.

(** ** Locks under preemption *)

(** Threads that use one lock: [try] is one turn of the acquiring loop on the lock's int
    (whether the loop ends with the lock, and the int's new value); a thread may also give
    up. Releasing is the same for both kinds of lock. *)
Inductive lock_pc := Idle | Trying | Holding.
Record lock_conf := mk_lock { locked : Z; pcs : gmap nat lock_pc }.
Definition mutex_try (v : Z) : bool * Z := cas 0 1 v.
Definition spin_try (v : Z) : bool * Z := let r := cas 0 1 v in (negb r.1, r.2).
Definition lock_release (v : Z) : Z := (cas 1 0 v).2.

Inductive lock_step (try : Z → bool * Z) (c : lock_conf) : lock_conf → Prop :=
  | lock_begin t : pcs c !! t = Some Idle → lock_step try c (mk_lock (locked c) (<[t := Trying]> (pcs c)))
  | lock_try t : pcs c !! t = Some Trying →
      lock_step try c (mk_lock (try (locked c)).2 (<[t := if (try (locked c)).1 then Holding else Trying]> (pcs c)))
  | lock_give_up t : pcs c !! t = Some Trying → lock_step try c (mk_lock (locked c) (<[t := Idle]> (pcs c)))
  | lock_unlock t : pcs c !! t = Some Holding → lock_step try c (mk_lock (lock_release (locked c)) (<[t := Idle]> (pcs c))).
Definition lock_init (n : nat) : lock_conf := mk_lock 0 (gset_to_gmap Idle (set_seq 0 n)).

(** The int is 1 while one thread holds the mutex and 0 otherwise. *)
Definition mutex_inv (c : lock_conf) : Prop :=
  (locked c = 0 ∧ ∀ t, pcs c !! t ≠ Some Holding)
  ∨ (locked c = 1 ∧ ∃ t, pcs c !! t = Some Holding ∧ ∀ t', pcs c !! t' = Some Holding → t' = t).

(** Who holds the lock after one thread moved. *)
Ltac other_threads := intros ?; rewrite lookup_insert_Some; naive_solver.

Lemma mutex_inv_step c c' : mutex_inv c → lock_step mutex_try c c' → mutex_inv c'.
Proof.
  intros Hinv Hstep. unfold mutex_inv in *. destruct Hstep as [t Ht|t Ht|t Ht|t Ht]; cbn [locked pcs].
  - destruct Hinv as [[Hl Hn]|[Hl (h & Hh & Hu)]]; [left|right]; (split; [done|]).
    + other_threads.
    + exists h. split; [rewrite lookup_insert_ne; [done|congruence]|].
      other_threads.
  - unfold mutex_try, cas. destruct Hinv as [[Hl Hn]|[Hl (h & Hh & Hu)]]; rewrite Hl; cbn [fst snd Z.eqb].
    + right. split; [done|]. exists t. split; [apply lookup_insert_eq|].
      other_threads.
    + right. split; [done|]. exists h. split; [rewrite lookup_insert_ne; [done|congruence]|].
      other_threads.
  - destruct Hinv as [[Hl Hn]|[Hl (h & Hh & Hu)]]; [left|right]; (split; [done|]).
    + other_threads.
    + exists h. split; [rewrite lookup_insert_ne; [done|congruence]|].
      other_threads.
  - destruct Hinv as [[Hl Hn]|[Hl (h & Hh & Hu)]]; [by destruct (Hn t)|].
    left. unfold lock_release, cas. rewrite Hl. split; [done|].
    intros t'. rewrite lookup_insert_Some. intros [[_ E]|[Hne E]]; [done|]. apply Hne. by rewrite (Hu t Ht), (Hu t' E).
Qed.

Lemma lock_init_pcs n t p : pcs (lock_init n) !! t = Some p ↔ (t < n)%nat ∧ p = Idle.
Proof. unfold lock_init. cbn [pcs]. rewrite lookup_gset_to_gmap_Some, elem_of_set_seq. split; intros [? ?]; split; (lia || done). Qed.

Lemma mutex_inv_reach c c' : rtc (lock_step mutex_try) c c' → mutex_inv c → mutex_inv c'.
Proof. induction 1 as [|c c1 c2 Hs _ IH]; [done|]. intros Hc. by apply IH, (mutex_inv_step c). Qed.

(** C36: the mutex excludes: however threads that acquire it, give up and release it are
    interleaved, no two of them hold it at once. *)
Theorem mutex_exclusive n c t t' : rtc (lock_step mutex_try) (lock_init n) c →
  pcs c !! t = Some Holding → pcs c !! t' = Some Holding → t = t'.
Proof.
  intros Hreach Ht Ht'. destruct (mutex_inv_reach _ _ Hreach) as [[_ Hn]|[_ (h & _ & Hu)]].
  - left. split; [done|]. intros u [_ Hu]%lock_init_pcs. discriminate.
  - by destruct (Hn t).
  - by rewrite (Hu t Ht), (Hu t' Ht').
Qed.

(** A thread takes the spinlock whatever its int is. *)
Lemma spin_acquires c t : pcs c !! t = Some Idle → 0 ≤ locked c ≤ 1 →
  rtc (lock_step spin_try) c (mk_lock 1 (<[t := Holding]> (pcs c))).
Proof.
  intros Ht Hl. set (c1 := mk_lock (locked c) (<[t := Trying]> (pcs c))).
  apply (rtc_l _ _ c1); [by apply lock_begin|].
  assert (pcs c1 !! t = Some Trying) as Ht1 by apply lookup_insert_eq.
  pose proof (lock_try spin_try c1 t Ht1) as Hs. cbn [locked pcs c1] in Hs. rewrite insert_insert_eq in Hs.
  unfold spin_try, cas in Hs. destruct (Z.eqb_spec (locked c) 0) as [E|E]; cbn [fst snd negb] in Hs.
  - set (c2 := mk_lock 1 (<[t := Trying]> (pcs c))) in *. apply (rtc_l _ _ c2); [exact Hs|].
    pose proof (lock_try spin_try c2 t ltac:(apply lookup_insert_eq)) as Hs2. cbn [locked pcs c2] in Hs2.
    rewrite insert_insert_eq in Hs2. apply rtc_once. exact Hs2.
  - assert (locked c = 1) as El by lia. rewrite El in Hs. apply rtc_once. exact Hs.
Qed.

(** The spinlock does not exclude: the test of its loop is inverted, so that any number of
    threads come to hold it at the same time. *)
Theorem spin_not_exclusive n : ∃ c, rtc (lock_step spin_try) (lock_init n) c
  ∧ ∀ t, (t < n)%nat → pcs c !! t = Some Holding.
Proof.
  assert (∀ k, (k ≤ n)%nat → ∃ c, rtc (lock_step spin_try) (lock_init n) c ∧ 0 ≤ locked c ≤ 1
    ∧ (∀ t, (t < k)%nat → pcs c !! t = Some Holding) ∧ (∀ t, (k ≤ t < n)%nat → pcs c !! t = Some Idle)) as Hk.
  { induction k as [|k IH]; intros Hk.
    - exists (lock_init n). split; [apply rtc_refl|]. split; [done|]. split; [lia|].
      intros t Ht. apply lock_init_pcs. split; [lia|done].
    - destruct IH as (c & Hr & Hl & Hh & Hi); [lia|]. exists (mk_lock 1 (<[k := Holding]> (pcs c))).
      split; [etransitivity; [exact Hr|]; apply spin_acquires; [apply Hi; lia|done]|]. split; [done|]. cbn [pcs]. split; intros t Ht.
      + destruct (decide (t = k)) as [->|]; [apply lookup_insert_eq|]. rewrite lookup_insert_ne by done. apply Hh. lia.
      + rewrite lookup_insert_ne by lia. apply Hi. lia. }
  destruct (Hk n) as (c & Hr & _ & Hh & _); [lia|]. by exists c.
Qed.

(** ** The work queue *)

Section queue.
Context `{OHL : ObjectHeapLaws H} `{KP : !KernelPages H} `{HH : Hhdm} `{HW : ClockHw} `{UA : Uart} `{AB : UacpiAbi} `{UH : UacpiHw}.
Abbreviation S := (uacpi_state H).
Implicit Types (s : S).

(** The ring holds the items [l], oldest first. *)
Record work_ok s (l : list work_item) : Prop := {
  wk_head : 0 ≤ work_queue_head s < 256;
  wk_tail : work_queue_tail s = (work_queue_head s + Z.of_nat (length l)) mod 256;
  wk_room : (length l < 256)%nat;
  wk_size : length (work_queue s) = 256%nat;
  wk_items : ∀ i x, l !! i = Some x → work_queue s !! Z.to_nat ((work_queue_head s + Z.of_nat i) mod 256) = Some x;
}.

Lemma schedule_work_ok type handler ctx s l : work_ok s l →
  if (length l <? 255)%nat then
    ∃ s', uacpi_kernel_schedule_work type handler ctx s = Done (UACPI_STATUS_OK, s')
      ∧ work_ok s' (l ++ [mk_work type handler ctx]) ∧ s' = set_work (work_queue s') (work_queue_head s) (work_queue_tail s') s
  else uacpi_kernel_schedule_work type handler ctx s = Done (UACPI_STATUS_OUT_OF_MEMORY, s).
Proof.
  intros [Hh Ht Hroom Hsize Hitems]. unfold uacpi_kernel_schedule_work.
  rewrite (bind_Done _ _ s s s eq_refl). unfold MAX_WORK_ITEMS. cbv zeta.
  assert (0 ≤ work_queue_tail s < 256) as Htr by (rewrite Ht; apply Z.mod_pos_bound; lia).
  rewrite Z.rem_mod_nonneg by lia.
  assert ((work_queue_tail s + 1) mod 256 = (work_queue_head s + Z.of_nat (length l) + 1) mod 256) as Hnt.
  { rewrite Ht. apply Zplus_mod_idemp_l. }
  destruct (Nat.ltb_spec (length l) 255) as [Hlt|Hge].
  - destruct (Z.eqb_spec ((work_queue_tail s + 1) mod 256) (work_queue_head s)) as [E|E]; [rewrite Hnt in E; zdiv|].
    eexists. split; [reflexivity|]. split; [|done].
    split; cbn [work_queue work_queue_head work_queue_tail set_work]; [done| |rewrite length_app; simpl; lia|by rewrite length_insert|].
    + rewrite Hnt, length_app. simpl. f_equal. lia.
    + intros i x Hx. apply lookup_app_Some in Hx as [Hx|[Hi Hx]].
      * rewrite list_lookup_insert_ne; [by apply Hitems|]. apply lookup_lt_Some in Hx.
        rewrite Ht. intros Heq. apply (f_equal Z.of_nat) in Heq. rewrite !Z2Nat.id in Heq by (apply Z.mod_pos_bound; lia). zdiv.
      * apply list_lookup_singleton_Some in Hx as [Hi' <-]. assert (i = length l) as -> by lia.
        rewrite <- Ht. apply list_lookup_insert_eq. lia.
  - destruct (Z.eqb_spec ((work_queue_tail s + 1) mod 256) (work_queue_head s)) as [E|E]; [reflexivity|].
    exfalso. apply E. rewrite Hnt. zdiv.
Qed.

(** The work queue refines a list of at most 255 items: scheduling appends an item, and
    fails without effect when the queue is full. *)
Theorem schedule_work_spec type handler ctx s l : work_ok s l →
  if (length l <? 255)%nat then
    ∃ s', uacpi_kernel_schedule_work type handler ctx s = Done (UACPI_STATUS_OK, s')
      ∧ work_ok s' (l ++ [mk_work type handler ctx]) ∧ s' = set_work (work_queue s') (work_queue_head s) (work_queue_tail s') s
  else uacpi_kernel_schedule_work type handler ctx s = Done (UACPI_STATUS_OUT_OF_MEMORY, s).
Proof. apply schedule_work_ok. Qed.

(** The head of the queue, removed. *)
Definition pop s : S := set_work (work_queue s) ((work_queue_head s + 1) mod 256) (work_queue_tail s) s.

Lemma work_ok_pop s x l : work_ok s (x :: l) → work_ok (pop s) l.
Proof.
  intros [Hh Ht Hroom Hsize Hitems]. cbn [length] in *. unfold pop.
  split; cbn [work_queue work_queue_head work_queue_tail set_work]; [apply Z.mod_pos_bound; lia| |lia|done|].
  - rewrite Ht, Zplus_mod_idemp_l. f_equal. lia.
  - intros i y Hy. rewrite Zplus_mod_idemp_l. rewrite <- (Hitems (Datatypes.S i) y Hy). do 2 f_equal. f_equal. lia.
Qed.

Lemma work_ok_empty s l : work_ok s l → (work_queue_head s =? work_queue_tail s) = match l with [] => true | _ => false end.
Proof.
  intros [Hh Ht Hroom _ _]. rewrite Ht. destruct l as [|x l]; cbn [length] in *.
  - rewrite Z.add_0_r, Z.mod_small by lia. apply Z.eqb_refl.
  - apply Z.eqb_neq. intros E. zdiv.
Qed.

Section complete.
Context `{UC : !UacpiCode H}.
(** What the handlers schedule ([spawn]), and what their effects amount to once a list of
    items has run ([P], which does not look at the queue). *)
Context (spawn : work_item → list work_item) (P : list work_item → S → Prop).
Hypothesis P_queue : ∀ tr s q h t, P tr s → P tr (set_work q h t s).
Hypothesis handlers_run : ∀ tr s l x, P tr s → work_ok s l → (length l + length (spawn x) ≤ 255)%nat →
  ∃ s', run_item x s = Done (tt, s') ∧ work_ok s' (l ++ spawn x) ∧ P (tr ++ [x]) s'.

Definition work_rest (fuel : nat) : M S unit := match fuel with O => λ _, OutOfFuel | Datatypes.S k => work_loop k end.
Lemma work_loop_turn fuel s : work_loop fuel s = work_turn (work_rest fuel) s.
Proof. by destruct fuel. Qed.

Lemma work_loop_step fuel s x l : work_ok s (x :: l) →
  work_loop fuel s = (_ ← run_item x; work_rest fuel) (pop s).
Proof.
  intros Hok. rewrite work_loop_turn. unfold work_turn. rewrite (bind_Done _ _ s s s eq_refl), (work_ok_empty s _ Hok).
  pose proof (wk_items s _ Hok 0 x eq_refl) as Hx. pose proof (wk_head s _ Hok) as Hh.
  rewrite Z.add_0_r, Z.mod_small in Hx by done. rewrite Hx. unfold MAX_WORK_ITEMS.
  by rewrite Z.rem_mod_nonneg by lia.
Qed.

(** The items that run, in order, when [l] is queued: each one's children join the queue
    behind those already there, and the queue does not overflow. *)
Inductive runs : list work_item → list work_item → Prop :=
  | runs_nil : runs [] []
  | runs_cons x l tr : (length l + length (spawn x) ≤ 255)%nat → runs (l ++ spawn x) tr → runs (x :: l) (x :: tr).

Lemma runs_breadth_first l tr : runs l tr → tr = l ++ (tr ≫= spawn).
Proof.
  induction 1 as [|x l tr _ _ IH]; [done|]. cbn [app mbind list_bind] in *. f_equal.
  by rewrite IH at 1; rewrite app_assoc.
Qed.

Lemma work_loop_ok l rest : runs l rest → ∀ fuel s tr, P tr s → work_ok s l → (length rest ≤ fuel)%nat →
  ∃ s', work_loop fuel s = Done (tt, s') ∧ work_ok s' [] ∧ P (tr ++ rest) s'.
Proof.
  induction 1 as [|x l rest Hroom _ IH]; intros fuel s tr HP Hok Hfuel.
  - rewrite app_nil_r. exists s. split; [|done].
    rewrite work_loop_turn. unfold work_turn. by rewrite (bind_Done _ _ s s s eq_refl), (work_ok_empty s _ Hok).
  - destruct fuel as [|fuel]; [simpl in Hfuel; lia|]. rewrite (work_loop_step _ _ _ _ Hok).
    destruct (handlers_run tr (pop s) l x) as (s1 & Hr & Hok1 & HP1); [by apply P_queue|by eapply work_ok_pop|done|].
    rewrite (bind_Done _ _ _ _ _ Hr). destruct (IH fuel s1 (tr ++ [x]) HP1 Hok1) as (s' & Hl & Hok' & HP'); [simpl in Hfuel; lia|].
    exists s'. split; [exact Hl|]. split; [done|]. by rewrite <- app_assoc in HP'.
Qed.

(** C35: waiting for the deferred work runs every queued item once, in the order of queueing,
    and the items their handlers schedule in turn, breadth first; it returns as soon as the
    queue is empty, if that ever comes. *)
Theorem wait_for_work_spec fuel s l tr : P [] s → work_ok s l → runs l tr → (length tr ≤ fuel)%nat →
  ∃ s', uacpi_kernel_wait_for_work_completion fuel s = Done (UACPI_STATUS_OK, s')
    ∧ work_ok s' [] ∧ P tr s' ∧ tr = l ++ (tr ≫= spawn).
Proof.
  intros HP Hok Hruns Hfuel. destruct (work_loop_ok l tr Hruns fuel s [] HP Hok Hfuel) as (s' & Hr & Hok' & HP').
  exists s'. unfold uacpi_kernel_wait_for_work_completion. rewrite (bind_Done _ _ _ _ _ Hr).
  split; [done|]. split; [done|]. split; [exact HP'|]. by apply runs_breadth_first.
Qed.
End complete.
End queue.

(** ** Locks as one thread sees them, interrupt handlers *)

Section sequential.
Context `{OH : ObjectHeap H} `{KP : !KernelPages H} `{HH : Hhdm} `{HW : ClockHw} `{UA : Uart} `{AB : UacpiAbi} `{UH : UacpiHw}.
Abbreviation S := (uacpi_state H).
Implicit Types (s : S).

Definition with_int (p v : Z) s : S := set_ints (<[p := v]> (ints s)) s.

Lemma with_int_twice p v w s : with_int p v (with_int p w s) = with_int p v s.
Proof. unfold with_int. destruct s. cbn [set_ints ints]. by rewrite insert_insert_eq. Qed.
Lemma with_int_same p v s : ints s !! p = Some v → with_int p v s = s.
Proof. intros Hp. unfold with_int. destruct s. cbn [set_ints ints] in *. by rewrite insert_id. Qed.
Lemma with_int_lookup p v s : ints (with_int p v s) !! p = Some v.
Proof. apply lookup_insert_eq. Qed.

Lemma get_int_ok p v s : ints s !! p = Some v → get_int p s = Done (v, s).
Proof. intros Hp. unfold get_int. by rewrite Hp. Qed.
Lemma cas_ok p old new v s : ints s !! p = Some v →
  sync_bool_compare_and_swap p old new s = Done ((cas old new v).1, with_int p (cas old new v).2 s).
Proof. intros Hp. unfold sync_bool_compare_and_swap. by rewrite (bind_Done _ _ _ _ _ (get_int_ok p v s Hp)). Qed.
Lemma interfere_ok p others i v s : ints s !! p = Some v → interfere p others i s = Done (tt, with_int p (others i v) s).
Proof. intros Hp. unfold interfere. by rewrite (bind_Done _ _ _ _ _ (get_int_ok p v s Hp)). Qed.

(** One poll, when the object holds [v] and other code changes that first. *)
Lemma acquire_turn_ok p others i again v s : ints s !! p = Some v →
  acquire_turn p others i again s
  = if others i v =? 0 then Done (UACPI_STATUS_OK, with_int p 1 s) else again (with_int p (others i v) s).
Proof.
  intros Hp. unfold acquire_turn. rewrite (bind_Done _ _ _ _ _ (interfere_ok p others i v s Hp)).
  rewrite (bind_Done _ _ _ _ _ (cas_ok p 0 1 _ _ (with_int_lookup p (others i v) s))).
  unfold cas. destruct (others i v =? 0); cbn [fst snd]; rewrite with_int_twice; done.
Qed.

(** [others] keeps the lock taken up to poll [k], where it is free. *)
Definition freed_at (others : nat → Z → Z) (k : nat) : Prop := (∀ i, (i < k)%nat → others i 1 = 1) ∧ others k 1 = 0.

Lemma acquire_loop_ok p others k s : freed_at others k → ints s !! p = Some 1 → ∀ todo i, (i ≤ k)%nat →
  acquire_loop todo p others i s
  = Done (if (k <? i + todo)%nat then UACPI_STATUS_OK else UACPI_STATUS_TIMEOUT, s).
Proof.
  intros [Hheld Hfree] Hp. induction todo as [|todo IH]; intros i Hi.
  - cbn [acquire_loop]. destruct (Nat.ltb_spec k (i + 0)); [lia|done].
  - cbn [acquire_loop]. rewrite (acquire_turn_ok _ _ _ _ 1) by done. destruct (decide (i = k)) as [->|Hne].
    + rewrite Hfree, with_int_same by done. destruct (Nat.ltb_spec k (k + Datatypes.S todo)); [done|lia].
    + rewrite Hheld by lia. cbn [Z.eqb]. rewrite with_int_same, IH by (done || lia).
      by replace (i + Datatypes.S todo)%nat with (Datatypes.S i + todo)%nat by lia.
Qed.

(** Acquiring a mutex that another thread holds and gives back at poll [k] succeeds if
    and only if [k] is among the timeout's thousand polls per unit, also for the timeout 0xFFFF
    that asks to wait for ever; the mutex is then held. A timeout of 0 does not wait. *)
Theorem acquire_mutex_spec p others k timeout s : freed_at others k → ints s !! p = Some 1 → 0 ≤ timeout < 2 ^ 16 →
  uacpi_kernel_acquire_mutex others p timeout s
  = Done (if Z.of_nat k <? timeout * 1000 then UACPI_STATUS_OK else UACPI_STATUS_TIMEOUT, s).
Proof.
  intros Hk Hp Ht. unfold uacpi_kernel_acquire_mutex. destruct (Z.eqb_spec timeout 0) as [->|Hne].
  - rewrite (bind_Done _ _ _ _ _ (cas_ok p 0 1 1 s Hp)). cbn [cas Z.eqb fst snd]. rewrite with_int_same by done.
    destruct (Z.ltb_spec (Z.of_nat k) (0 * 1000)); [lia|done].
  - rewrite (acquire_loop_ok p others k) by (done || lia).
    destruct (Nat.ltb_spec k (0 + Z.to_nat (timeout * 1000))), (Z.ltb_spec (Z.of_nat k) (timeout * 1000)); (done || lia).
Qed.

Definition quiet : nat → Z → Z := λ _ v, v.

Lemma spin_turn_ok p i again v s : ints s !! p = Some v →
  spin_turn p quiet i again s = if v =? 0 then again (with_int p 1 s) else Done (tt, s).
Proof.
  intros Hp. unfold spin_turn. rewrite (bind_Done _ _ _ _ _ (interfere_ok p quiet i v s Hp)). unfold quiet.
  rewrite with_int_same by done. rewrite (bind_Done _ _ _ _ _ (cas_ok p 0 1 v s Hp)).
  unfold cas. destruct (Z.eqb_spec v 0); cbn [fst snd]; [done|]. by rewrite with_int_same.
Qed.

Lemma restore_flags f : 0 ≤ f → negb (Z.land f 0x200 =? 0) = true → Z.lor (Z.land f (Z.lnot 0x200)) 0x200 = f.
Proof.
  intros Hf Hb. change 0x200 with (2 ^ 9) in *. apply Z.bits_inj'. intros n Hn.
  rewrite Z.lor_spec, Z.land_spec, Z.lnot_spec, Z.pow2_bits_eqb by lia. destruct (Z.eqb_spec 9 n) as [<-|].
  - rewrite andb_false_r. symmetry. destruct (Z.testbit f 9) eqn:E; [done|]. exfalso.
    assert (Z.land f (2 ^ 9) = 0) as E0; [|by rewrite E0 in Hb].
    apply Z.bits_inj'. intros m Hm. rewrite Z.land_spec, Z.bits_0, Z.pow2_bits_eqb by lia.
    destruct (Z.eqb_spec 9 m) as [<-|]; [by rewrite E|apply andb_false_r].
  - by rewrite andb_true_r, orb_false_r.
Qed.

Lemma clear_flags f : negb (Z.land f 0x200 =? 0) = false → Z.land f (Z.lnot 0x200) = f.
Proof.
  intros Hb. apply negb_false_iff, Z.eqb_eq in Hb. change 0x200 with (2 ^ 9) in *. apply Z.bits_inj'. intros n Hn.
  rewrite Z.land_spec, Z.lnot_spec, Z.pow2_bits_eqb by lia. destruct (Z.eqb_spec 9 n) as [<-|]; [|apply andb_true_r].
  assert (Z.testbit (Z.land f (2 ^ 9)) 9 = false) as E by (by rewrite Hb, Z.bits_0).
  rewrite Z.land_spec, Z.pow2_bits_true, andb_true_r in E by lia. by rewrite E.
Qed.

(** A spinlock section leaves the interrupt flag as it found it: locking clears it and
    takes the lock (also when that is already taken), unlocking frees the lock and sets the
    flag again only if it was set. *)
Theorem spinlock_section_spec fuel p v s : ints s !! p = Some v → v = 0 ∨ v = 1 → 0 ≤ ua_rflags s → (1 ≤ fuel)%nat →
  let taken := with_int p 1 (set_rflags (Z.land (ua_rflags s) (Z.lnot 0x200)) s) in
  uacpi_kernel_lock_spinlock fuel quiet p s = Done (ua_rflags s, taken)
  ∧ uacpi_kernel_unlock_spinlock p (ua_rflags s) taken = Done (tt, with_int p 0 s).
Proof.
  intros Hp Hv Hf Hfuel taken. set (s0 := set_rflags (Z.land (ua_rflags s) (Z.lnot 0x200)) s) in *.
  assert (ints s0 !! p = Some v) as Hp0 by exact Hp. split.
  - unfold uacpi_kernel_lock_spinlock. rewrite (bind_Done _ _ s (ua_rflags s) s0 eq_refl).
    assert (spin_loop fuel p quiet 0 s0 = Done (tt, taken)) as E; [|by rewrite (bind_Done _ _ _ _ _ E)].
    destruct fuel as [|fuel]; [lia|]. cbn [spin_loop]. rewrite (spin_turn_ok _ _ _ v) by done.
    destruct Hv as [-> | ->]; cbn [Z.eqb].
    + transitivity (spin_turn p quiet 1 (match fuel with O => λ _, OutOfFuel | Datatypes.S k => spin_loop k p quiet 2 end) taken);
        [by destruct fuel|]. by rewrite (spin_turn_ok _ _ _ 1) by apply with_int_lookup.
    + unfold taken. by rewrite with_int_same.
  - unfold uacpi_kernel_unlock_spinlock. rewrite (bind_Done _ _ _ _ _ (cas_ok p 1 0 1 taken (with_int_lookup _ _ _))).
    cbn [cas Z.eqb Pos.eqb fst snd]. unfold taken. rewrite with_int_twice. unfold uacpi_kernel_restore_interrupts, modify, mret, M_ret.
    destruct (negb (Z.land (ua_rflags s) 0x200 =? 0)) eqn:E; do 3 f_equal; unfold with_int, s0; destruct s; cbn [set_ints set_rflags ints ua_rflags ua_ck ua_pics ua_tables wrappers uacpi_wrappers work_queue work_queue_head work_queue_tail port_writes] in *.
    + by rewrite restore_flags.
    + by rewrite clear_flags.
Qed.

Lemma on_ua_heap_Done {A} (m : M H A) s a h : m (ck_heap (ua_ck s)) = Done (a, h) →
  ∃ s', on_ua_heap m s = Done (a, s') ∧ ck_heap (ua_ck s') = h ∧ ua_pics s' = ua_pics s
    ∧ ua_tables s' = ua_tables s ∧ uacpi_wrappers s' = uacpi_wrappers s ∧ wrappers s' = wrappers s.
Proof. intros Hm. unfold on_ua_heap, on_ua_ck, on_ck_heap, zoom. rewrite Hm. eexists. by split_and!. Qed.

(** Installing a handler on one of the 16 lines stores it for the line's vector and
    unmasks the line and no other; the context is kept in the wrapper only, and on lines 8 to
    15 no interrupt arrives while the master's line 2 is masked. Uninstalling it frees the wrapper but leaves both
    the handler and the pointer to the wrapper in place. *)
Theorem install_handler_spec irq handler ctx s w h1 h2 : 0 ≤ irq < 16 → pics_ok (ua_pics s) → tables_ok (ua_tables s) →
  length (uacpi_wrappers s) = 16%nat → w ≠ 0 →
  oh_alloc sizeof_irq_wrapper (ck_heap (ua_ck s)) = Done (w, h1) → oh_free w h1 = Done (tt, h2) →
  ∃ s1, uacpi_kernel_install_interrupt_handler irq handler ctx s = Done ((UACPI_STATUS_OK, Some w), s1)
    ∧ irq_handlers (ua_tables s1) !! Z.to_nat (32 + irq) = Some (Some (UacpiHandler handler))
    ∧ (∀ v, v ≠ Z.to_nat (32 + irq) → irq_handlers (ua_tables s1) !! v = irq_handlers (ua_tables s) !! v)
    ∧ wrappers s1 !! w = Some (mk_wrapper handler ctx irq) ∧ uacpi_wrappers s1 !! Z.to_nat irq = Some w
    ∧ (∀ j, 0 ≤ j < 16 → mask_bit (ua_pics s1) j = mask_bit (ua_pics s) j && negb (j =? irq))
    ∧ (8 ≤ irq → mask_bit (ua_pics s) 2 = true → unmasked (ua_pics s1) irq = false)
    ∧ ∃ s2, uacpi_kernel_uninstall_interrupt_handler handler w s1 = Done (UACPI_STATUS_OK, s2)
        ∧ wrappers s2 !! w = None ∧ uacpi_wrappers s2 = uacpi_wrappers s1 ∧ ua_tables s2 = ua_tables s1 ∧ ua_pics s2 = ua_pics s1.
Proof.
  intros Hirq Hpics [_ Hl] Hws Hw Halloc Hfree. unfold uacpi_kernel_install_interrupt_handler.
  destruct (Z.leb_spec 16 irq); [lia|].
  destruct (on_ua_heap_Done _ _ _ _ Halloc) as (s0 & E0 & Hh0 & Hp0 & Ht0 & Hu0 & Hw0).
  rewrite (bind_Done _ _ _ _ _ E0), (proj2 (Z.eqb_neq w 0) Hw).
  assert (u8 irq = irq) as -> by (apply u8_small; lia).
  assert (u8 (32 + irq) = 32 + irq) as Hv by (apply u8_small; lia).
  set (s0' := set_wrappers (<[w := mk_wrapper handler ctx irq]> (wrappers s0)) (<[Z.to_nat irq := w]> (uacpi_wrappers s0)) s0).
  rewrite modify_bind. fold s0'.
  destruct (pic_unmask_ok irq (ua_pics s0')) as (p' & Hpic & _ & Hmask & Hslave); [done|by rewrite <- Hp0 in Hpics|].
  assert (on_ua_pics (pic_unmask_irq irq) s0' = Done (tt, mk_ua H (ua_ck s0') p' (ua_tables s0') (ints s0') (wrappers s0')
    (uacpi_wrappers s0') (work_queue s0') (work_queue_head s0') (work_queue_tail s0') (ua_rflags s0') (port_writes s0'))) as E1.
  { unfold on_ua_pics, zoom. by rewrite Hpic. }
  rewrite (bind_Done _ _ _ _ _ E1). eexists. split; [reflexivity|].
  cbn [ua_tables irq_handlers wrappers uacpi_wrappers ua_pics set_wrappers s0'] in *. rewrite !Hv, Ht0, Hu0.
  split; [apply list_lookup_insert_eq; lia|]. split; [intros v Hne; by apply list_lookup_insert_ne|].
  split; [apply lookup_insert_eq|]. split; [apply list_lookup_insert_eq; lia|]. rewrite Hp0 in Hmask, Hslave. split; [exact Hmask|].
  split; [exact Hslave|]. rewrite <- Hh0 in Hfree. unfold uacpi_kernel_uninstall_interrupt_handler.
  match goal with |- ∃ s2, (_ ≫= _) ?s1 = _ ∧ _ => destruct (on_ua_heap_Done _ s1 _ _ Hfree) as (s2 & E2 & _ & Hp2 & Ht2 & Hu2 & _) end.
  rewrite (bind_Done _ _ _ _ _ E2). eexists. split; [reflexivity|].
  cbn [wrappers uacpi_wrappers ua_tables ua_pics set_wrappers] in *. split; [apply lookup_delete_eq|].
  rewrite Hu2, Ht2, Hp2, ?Hu0, ?Hv, ?Ht0. done.
Qed.
End sequential.

(** ** Mapping *)

Section mapping.
Context `{PAL : PageAllocatorLaws St} `{HW : ClockHw} `{UA : Uart} `{AB : UacpiAbi} `{UH : UacpiHw}.
Abbreviation S := (uacpi_state (heap_state St)).
Implicit Types (s : S).

Definition kernel_vm s : vmm_state St := heap_vm (ck_heap (ua_ck s)).
Definition kernel_translate s (w : Z) : Z := vmm_virt_to_phys_as (kernel_address_space (kernel_vm s)) w (vm_mem (kernel_vm s)).

Lemma translate_i64 a w m : - 2 ^ 63 ≤ vmm_virt_to_phys_as a w m < 2 ^ 63.
Proof. unfold vmm_virt_to_phys_as. repeat case_match; try (apply i64_range); lia. Qed.

(** The test of uacpi_kernel_map, on the translation as a signed number. *)
Lemma hhdm_test t page : - 2 ^ 63 ≤ t < 2 ^ 63 → 0 ≤ page < 2 ^ 52 →
  (u64 t =? 0) || negb (u64 t =? page) = negb (bool_decide (t = page ∧ page ≠ 0)).
Proof.
  intros Ht Hp. assert (u64 t = if t <? 0 then t + 2 ^ 64 else t) as ->.
  { unfold u64. destruct (Z.ltb_spec t 0); zdiv. }
  case_bool_decide as Hc; destruct (Z.ltb_spec t 0), (Z.eqb_spec (if t <? 0 then t + 2 ^ 64 else t) 0);
    repeat match goal with |- context [?a =? ?b] => destruct (Z.eqb_spec a b) end; simpl; (done || lia).
Qed.

Lemma same_page w page : page mod PAGE_SIZE = 0 → page ≤ w < page + PAGE_SIZE → vpn w = vpn page ∧ w mod PAGE_SIZE = w - page.
Proof. unfold vpn, PAGE_SIZE. intros. split; [f_equal|]; zdiv. Qed.
Lemma next_page w page : page mod PAGE_SIZE = 0 → page + PAGE_SIZE ≤ w < page + 2 * PAGE_SIZE → vpn w ≠ vpn page.
Proof.
  unfold vpn, PAGE_SIZE. intros Hp Hw. assert (w / 4096 = page / 4096 + 1) as -> by zdiv.
  generalize (page / 4096). intros k. change (2 ^ 36) with 68719476736. zdiv.
Qed.

(** Uacpi_kernel_map returns the direct map's address of a page that the direct map has,
    without a change; any other page it maps onto itself and returns [addr] itself, where
    the [len] bytes are readable only up to the end of the first page: the next page
    stays unmapped. More than a page is refused. *)
Theorem uacpi_map_spec own root T l bits addr len s : let v := kernel_vm s in
  vm_inv own root (vm_pages v) T l → pml4 (kernel_address_space v) = phys_to_virt root →
  let page := addr - addr mod PAGE_SIZE in own (PML4_INDEX page) →
  0 ≤ bits ≤ 52 → cpu_page_mask v = 2 ^ bits - 1 → 0 ≤ addr < 2 ^ bits → (3 ≤ length l)%nat →
  let direct := kernel_translate s (phys_to_virt page) = page ∧ page ≠ 0 in
  (direct → uacpi_kernel_map addr len s = Done (phys_to_virt addr, s))
  ∧ (¬ direct → PAGE_SIZE < len → uacpi_kernel_map addr len s = Panic "idk how to map more than one page, fix me later.")
  ∧ (¬ direct → len ≤ PAGE_SIZE → ∃ s', uacpi_kernel_map addr len s = Done (addr, s')
      ∧ (∀ w, page ≤ w < page + PAGE_SIZE → kernel_translate s' w = w)
      ∧ (∀ w, page + PAGE_SIZE ≤ w < addr + len → own (PML4_INDEX w) → kernel_translate s w < 0 → kernel_translate s' w < 0)).
Proof.
  intros v Hinv Hroot page Hown Hbits Hmask Haddr Hlen direct.
  assert (2 ^ bits ≤ 2 ^ 52) as Hpow by (apply Z.pow_le_mono_r; lia).
  assert (0 ≤ page ≤ addr ∧ addr < page + PAGE_SIZE ∧ page mod PAGE_SIZE = 0) as (Hpage & Hin & Hal).
  { unfold page, PAGE_SIZE. zdiv. }
  assert (Z.land addr (u64 (Z.lnot (PAGE_SIZE - 1))) = page) as Eland.
  { change (PAGE_SIZE - 1) with (2 ^ 12 - 1). rewrite land_clear_low by (split; lia). done. }
  unfold uacpi_kernel_map. rewrite Eland, (bind_Done _ _ s (ck_heap (ua_ck s)) s eq_refl). cbv zeta.
  change (kp_translate (phys_to_virt page) (ck_heap (ua_ck s))) with (kernel_translate s (phys_to_virt page)).
  rewrite hhdm_test by (apply translate_i64 || lia). fold direct.
  assert (u64 (addr - page) = addr - page) as Hoff by (apply u64_small; unfold PAGE_SIZE in *; lia). rewrite Hoff.
  split; [|split].
  - intros Hd. rewrite bool_decide_eq_true_2 by done. cbn [negb]. unfold phys_to_virt, mret, M_ret. rewrite u64_add_l. do 3 f_equal. lia.
  - intros Hd Hl. rewrite bool_decide_eq_false_2 by done. cbn [negb]. by destruct (Z.ltb_spec PAGE_SIZE len); [|lia].
  - intros Hd Hl. rewrite bool_decide_eq_false_2 by done. cbn [negb]. destruct (Z.ltb_spec PAGE_SIZE len); [lia|].
    destruct (vmm_map_translate own root v T l (kernel_address_space v) page page PAGE_MMIO bits)
      as (s' & T' & l' & Hm & _ & _ & _ & Htr & Hsame & _); try done; [lia|].
    assert (on_vm (map_page page page PAGE_MMIO) (ck_heap (ua_ck s))
      = Done (tt, heap_with (ck_heap (ua_ck s)) (with_pages v s' [Invlpg page]))) as Em by (by apply on_vm_Done).
    change (kp_map page page PAGE_MMIO) with (on_vm (map_page page page PAGE_MMIO)).
    destruct (on_ua_heap_Done _ s tt _ Em) as (s1 & E1 & Hh1 & _).
    exists s1. rewrite (bind_Done _ _ _ _ _ E1). replace (page + (addr - page)) with addr by lia. rewrite u64_small by lia.
    assert (∀ w, kernel_translate s1 w = vmm_virt_to_phys_as (kernel_address_space v) w (pa_mem s')) as Ht1.
    { intros w. unfold kernel_translate, kernel_vm. by rewrite Hh1. }
    split; [done|]. split.
    + intros w Hw. destruct (same_page w page Hal Hw) as [Hv Hmod]. rewrite Ht1, Htr, Hmod by done. lia.
    + intros w Hw Hownw Hneg. rewrite Ht1. apply Hsame; [done| |exact Hneg]. apply next_page; [done|]. unfold PAGE_SIZE in *. lia.
Qed.
End mapping.

Module UacpiWitness.
Import Pmm. Import DemoMemmap PmmWitness DemoHhdm VmmWitness DemoObjects TermWitness ClockWitness PicWitness.

#[export, program] Instance demo_abi : UacpiAbi := {|
  UACPI_STATUS_OK := 0; UACPI_STATUS_NOT_FOUND := 5; UACPI_STATUS_TIMEOUT := 18; UACPI_STATUS_OUT_OF_MEMORY := 2;
  UACPI_STATUS_INVALID_ARGUMENT := 7;
|}.
Solve All Obligations with done.
#[export] Instance demo_uacpi_hw : UacpiHw := {| hw_in _ _ := 0; rsdp_response := Some (phys_to_virt 0xE0000) |}.
#[export] Instance bump_pages : KernelPages bump := {|
  kp_translate _ _ := -1; kp_map _ _ _ h := Done (tt, h); kp_unmap _ h := Done (tt, h);
|}.
(** A work handler that writes its context to a port and schedules itself until that is 0. *)
#[export] Instance demo_code : UacpiCode bump := {|
  run_work handler ctx :=
    _ ← uacpi_kernel_io_write 1 0x80 0 ctx;
    if 0 <? ctx then _ ← uacpi_kernel_schedule_work 0 handler (ctx - 1); mret tt else mret tt;
|}.

Definition demo_ua {H} (c : clock_state H) (q : list work_item) (tail : Z) : uacpi_state H :=
  mk_ua H c pics_init no_handlers {[ 0x300 := 1 ]} ∅ (replicate 16 0) (q ++ replicate (256 - length q) (mk_work 0 0 0)) 0 tail 0x202 [].

Lemma mutex_exclusive_witness : ∃ c, rtc (lock_step mutex_try) (lock_init 2) c ∧ pcs c !! 0%nat = Some Holding
  ∧ pcs c !! 1%nat ≠ Some Holding.
Proof.
  assert (∃ c, rtc (lock_step mutex_try) (lock_init 2) c ∧ pcs c !! 0%nat = Some Holding) as (c & Hr & Hc).
  { eexists. split; [|shelve]. eapply rtc_l; [by apply (lock_begin _ _ 0)|]. apply rtc_once. by apply (lock_try mutex_try _ 0).
    Unshelve. vm_compute. reflexivity. }
  exists c. split; [exact Hr|]. split; [exact Hc|]. intros H1. discriminate (mutex_exclusive 2 c 0 1 Hr Hc H1).
Defined.

Lemma demo_work_ok q : (length q < 256)%nat → work_ok (demo_ua demo_ck q (Z.of_nat (length q))) q.
Proof.
  intros Hq. split; cbn [demo_ua work_queue work_queue_head work_queue_tail]; [lia| |done| |].
  - by rewrite Z.add_0_l, Z.mod_small by lia.
  - rewrite length_app, length_replicate. lia.
  - intros i x Hx. rewrite Z.add_0_l. pose proof (lookup_lt_Some _ _ _ Hx).
    rewrite Z.mod_small, Nat2Z.id by lia. by apply lookup_app_l_Some.
Qed.

Lemma schedule_work_spec_witness : ∃ s', uacpi_kernel_schedule_work 0 7 1 (demo_ua demo_ck [] 0) = Done (UACPI_STATUS_OK, s')
  ∧ work_ok s' [mk_work 0 7 1].
Proof.
  destruct (schedule_work_spec 0 7 1 (demo_ua demo_ck [] 0) [] (demo_work_ok [] ltac:(simpl; lia))) as (s' & Hr & Hok & _).
  by exists s'.
Defined.

(** Two items, the first of which schedules another one. *)
Definition demo_spawn (x : work_item) : list work_item :=
  if (work_handler x =? 0) || (work_ctx x <=? 0) then [] else [mk_work 0 (work_handler x) (work_ctx x - 1)].
Definition demo_log (tr : list work_item) (s : uacpi_state bump) : Prop :=
  port_writes s = (λ x, (1%nat, 0x80, work_ctx x)) <$> filter (λ x, work_handler x ≠ 0) tr.

Lemma demo_handlers_run tr (s : uacpi_state bump) l x : demo_log tr s → work_ok s l → (length l + length (demo_spawn x) ≤ 255)%nat →
  ∃ s', run_item x s = Done (tt, s') ∧ work_ok s' (l ++ demo_spawn x) ∧ demo_log (tr ++ [x]) s'.
Proof.
  unfold demo_log, run_item, demo_spawn. intros HP Hok Hroom. rewrite filter_app, fmap_app, <- HP.
  destruct (Z.eqb_spec (work_handler x) 0) as [E|E]; cbn [orb] in *.
  - exists s. rewrite filter_cons_False by (intros Hn; by apply Hn). rewrite app_nil_r. split; [done|]. split; [done|]. by rewrite app_nil_r.
  - rewrite filter_cons_True by done. cbn [run_work demo_code fmap list_fmap filter]. set (s1 := log_port 1 0x80 (work_ctx x) s).
    assert (work_ok s1 l) as Hok1 by (by destruct Hok).
    assert (uacpi_kernel_io_write 1 0x80 0 (work_ctx x) s = Done (0, s1)) as Ew by reflexivity.
    rewrite (bind_Done _ _ _ _ _ Ew). destruct (Z.leb_spec (work_ctx x) 0) as [Hc|Hc].
    + destruct (Z.ltb_spec 0 (work_ctx x)); [lia|]. exists s1. rewrite app_nil_r. done.
    + destruct (Z.ltb_spec 0 (work_ctx x)); [|lia]. cbn [length] in Hroom.
      pose proof (schedule_work_ok 0 (work_handler x) (work_ctx x - 1) s1 l Hok1) as Hs.
      destruct (Nat.ltb_spec (length l) 255); [|lia]. destruct Hs as (s2 & E2 & Hok2 & Es2).
      exists s2. rewrite (bind_Done _ _ _ _ _ E2). split; [done|]. split; [done|]. by rewrite Es2.
Qed.

Lemma wait_for_work_spec_witness : ∃ s', uacpi_kernel_wait_for_work_completion 4 (demo_ua demo_ck [mk_work 0 7 2; mk_work 0 7 0] 2)
    = Done (UACPI_STATUS_OK, s')
  ∧ port_writes s' = [(1%nat, 0x80, 2); (1%nat, 0x80, 0); (1%nat, 0x80, 1); (1%nat, 0x80, 0)].
Proof.
  destruct (wait_for_work_spec demo_spawn demo_log) with (fuel := 4%nat) (s := demo_ua demo_ck [mk_work 0 7 2; mk_work 0 7 0] 2)
    (l := [mk_work 0 7 2; mk_work 0 7 0]) (tr := [mk_work 0 7 2; mk_work 0 7 0; mk_work 0 7 1; mk_work 0 7 0])
    as (s' & Hr & _ & Hlog & _).
  - intros tr s q h t HP. exact HP.
  - exact demo_handlers_run.
  - reflexivity.
  - apply demo_work_ok. simpl. lia.
  - repeat (constructor; [simpl; lia|]). constructor.
  - done.
  - exists s'. split; [exact Hr|exact Hlog].
Defined.

(** The holder gives the mutex back after 500 polls. *)
Lemma acquire_mutex_spec_witness : let others i v := if (i <? 500)%nat then v else 0 in
  uacpi_kernel_acquire_mutex others 0x300 1 (demo_ua demo_ck [] 0) = Done (UACPI_STATUS_OK, demo_ua demo_ck [] 0)
  ∧ uacpi_kernel_acquire_mutex others 0x300 0 (demo_ua demo_ck [] 0) = Done (UACPI_STATUS_TIMEOUT, demo_ua demo_ck [] 0).
Proof.
  intros others.
  assert (freed_at others 500) as Hf.
  { split; [|reflexivity]. intros i Hi. unfold others. destruct (Nat.ltb_spec i 500); [done|lia]. }
  split; [apply (acquire_mutex_spec 0x300 others 500 1); [exact Hf|reflexivity|lia]
    |apply (acquire_mutex_spec 0x300 others 500 0); [exact Hf|reflexivity|lia]].
Defined.

Lemma spinlock_section_spec_witness : ∃ s1, uacpi_kernel_lock_spinlock 1 quiet 0x300 (demo_ua demo_ck [] 0) = Done (0x202, s1)
  ∧ ua_rflags s1 = 0x2 ∧ uacpi_kernel_unlock_spinlock 0x300 0x202 s1 = Done (tt, with_int 0x300 0 (demo_ua demo_ck [] 0)).
Proof.
  destruct (spinlock_section_spec 1 0x300 1 (demo_ua demo_ck [] 0)) as [Hl Hu];
    [reflexivity|by right|done|lia|]. eexists. split; [exact Hl|]. split; [reflexivity|exact Hu].
Defined.

(** The line of the ACPI interrupt. *)
Lemma install_handler_spec_witness : ∃ s', uacpi_kernel_install_interrupt_handler 9 0xABC 0x55 (demo_ua demo_ck [] 0)
    = Done ((UACPI_STATUS_OK, Some 4096), s')
  ∧ irq_handlers (ua_tables s') !! 41%nat = Some (Some (UacpiHandler 0xABC)) ∧ unmasked (ua_pics s') 9 = false.
Proof.
  destruct (install_handler_spec 9 0xABC 0x55 (demo_ua demo_ck [] 0) 4096 (mk_bump 4128) (mk_bump 4128))
    as (s' & Hr & Hh & _ & _ & _ & _ & Hs & _); [lia|exact pics_init_ok|by split|done|done|done|done|].
  exists s'. split; [exact Hr|]. split; [exact Hh|]. apply Hs; [lia|reflexivity].
Defined.

Definition demo_map_ck : clock_state (heap_state pmm_state) :=
  mk_ck _ (mk_heap _ demo_vmm 0 HEAP_START) 0 (mk_term true 0 []) ∅ 0 0 0 0 0 None 0 0 None [].
Lemma uacpi_map_spec_witness : ∃ s', uacpi_kernel_map 0xFEC00010 0x20 (demo_ua demo_map_ck [] 0) = Done (0xFEC00010, s')
  ∧ kernel_translate s' 0xFEC00020 = 0xFEC00020.
Proof.
  destruct (uacpi_map_spec (λ _, True) demo_root {[ [] := demo_root ]} demo_free 46 0xFEC00010 0x20 (demo_ua demo_map_ck [] 0))
    as (_ & _ & Hm); [apply demo_inv|reflexivity|exact I|lia|reflexivity|lia|simpl; lia|].
  assert (kernel_translate (demo_ua demo_map_ck [] 0) (phys_to_virt 0xFEC00000) = -1) as Hn.
  { vm_compute. reflexivity. }
  destruct Hm as (s' & Hr & Ht & _); [intros [E _]|done|].
  - change (0xFEC00010 - 0xFEC00010 mod PAGE_SIZE) with 0xFEC00000 in E. rewrite Hn in E. discriminate E.
  - exists s'. split; [exact Hr|]. apply Ht. vm_compute. by split.
Defined.
End UacpiWitness.
