(* ===== verification/Syscall.v ===== *)
(** * System calls: src/syscalls/syscalls.c, headers/syscalls/def.h and the wrappers
    of headers/syscalls

    The state of the kernel as a whole: processes (with scheduler, areas, descriptors,
    filesystem and heap), clocks and APICs, PICs and handler tables. There is one heap and one
    terminal, those of the processes' state; the state of the clocks has copies, which are
    replaced when code of the clocks runs. User memory is the memory of files and
    devices ([io_mem]), read and written without a check, as the kernel does. *)
From S2P Require Import Prelude CMem CString Words Phys Vmm Heap Fb Term Vfs Fd Bstree.
From S2P Require Import Vma Sched Clock Elf Stack Proc Desc Entry Pic Apic Dispatch.

Definition KERNEL_STACK_START : Z := 0xFFFFBFFF00000000.
Definition KERNEL_STACK_PAGES : Z := 16.
Definition IA32_EFER : Z := 0xC0000080.
Definition IA32_STAR : Z := 0xC0000081.
Definition IA32_LSTAR : Z := 0xC0000082.
Definition IA32_FMASK : Z := 0xC0000084.
Definition IA32_GSBASE : Z := 0xC0000101.
Definition IA32_KERNEL_GSBASE : Z := 0xC0000102.
Definition EFER_SCE : Z := Z.shiftl 1 0.
Definition EFER_NXE : Z := Z.shiftl 1 11.

(** Constants and layouts of the C library, and addresses the linker chooses. *)
Class SyscallAbi := {
  ENOSYS : Z;
  ARCH_SET_FS : Z;
  CLOCK_REALTIME : Z;
  CLOCK_MONOTONIC : Z;
  store_stat : Z → stat → mem → mem;
  percpu_data_addr : Z;
  syscall_entry_addr : Z;
  enosys_range : 0 < ENOSYS < 4096;
}.

Record percpu_data := mk_percpu { pc_self : Z; pc_user_rsp : Z; pc_kernel_rsp : Z }.
Record kernel_state {H : Type} := mk_kernel {
  k_proc : proc_state H;
  k_apic : apic_state H;
  k_pics : pics;
  k_tables : tables;
  k_cr2 : Z;
  k_msrs : gmap Z Z;
  percpu : percpu_data;
}.
Arguments kernel_state : clear implicits.

(** syscall_args_t *)
Record syscall_args := mk_args { a_rax : Z; arg1 : Z; arg2 : Z; arg3 : Z; arg4 : Z; arg5 : Z; arg6 : Z }.
Definition args_of (f : gprs) : syscall_args := mk_args (rax f) (rdi f) (rsi f) (rdx f) (r10 f) (r8 f) (r9 f).

(** A C string of the caller's. *)
Fixpoint read_cstr (fuel : nat) (m : mem) (p : Z) : outcome string :=
  let c := ldb m p in
  if c =? 0 then Done EmptyString
  else match fuel with
  | O => OutOfFuel
  | S k => s ← read_cstr k m (p + 1); Done (String (Ascii.ascii_of_N (Z.to_N c)) s)
  end.

Section syscalls.
Context `{OH : ObjectHeap H} `{KM : !KernelMem H} `{UM : !UserMap H} `{AS : !AddrSpaces H} `{MM : !Mmio H}.
Context `{EF : ElfFrame} `{TI : ThreadImage} `{BT : Bstree} `{TS : TreeStruct} `{UA : Uart} `{AB : Abi} `{HH : Hhdm}
  `{HW : ClockHw} `{SA : SyscallAbi}.
Abbreviation K := (kernel_state H).

Definition set_proc_state (p : proc_state H) (s : K) : K :=
  mk_kernel H p (k_apic s) (k_pics s) (k_tables s) (k_cr2 s) (k_msrs s) (percpu s).
Definition set_apic_state (a : apic_state H) (s : K) : K :=
  mk_kernel H (k_proc s) a (k_pics s) (k_tables s) (k_cr2 s) (k_msrs s) (percpu s).
Definition set_percpu (p : percpu_data) (s : K) : K :=
  mk_kernel H (k_proc s) (k_apic s) (k_pics s) (k_tables s) (k_cr2 s) (k_msrs s) p.
Definition set_k_msrs (m : gmap Z Z) (s : K) : K :=
  mk_kernel H (k_proc s) (k_apic s) (k_pics s) (k_tables s) (k_cr2 s) m (percpu s).

Definition k_vs (s : K) : vma_state H := ss_heap (ps_sched (k_proc s)).
Definition k_io (s : K) : kio := fd_io (vs_fd (k_vs s)).
Definition on_p {A} : M (proc_state H) A → M K A := zoom k_proc set_proc_state.
Definition on_kio {A} (m : M kio A) : M K A := on_p (on_f (on_io m)).
Definition on_kterm {A} (m : M term_state A) : M K A := on_kio (on_term m).

(** The heap and the terminal of the processes' state, in the APICs' state and back. *)
Definition get_apic (s : K) : apic_state H :=
  let c := ap_ck (k_apic s) in
  let a := k_apic s in
  mk_apic H (mk_ck H (fd_heap (vs_fd (k_vs s))) (ck_time c) (io_term (k_io s)) (sources c) (clock_list c) (available_clocks c)
      (boot_clock c) (boot_clock_base c) (tsc_base c) (pm_timer c) (pm_accumulated c) (pm_last c) (base_rtc c) (hpet_writes c))
    (apic_base_msr a) (lapic_address a) (ioapic_address a) (lapic a) (lapic_enabled a) (ioapic a) (ld a) (iod a).
Definition with_heap_term (h : H) (t : term_state) (p : proc_state H) : proc_state H :=
  let c := ps_sched p in
  let v := ss_heap c in
  let d := vs_fd v in
  let io := fd_io d in
  mk_ps H (mk_ss _ (mk_vs H (mk_fd H h (mk_kio (io_fs io) (io_mem io) (io_fb io) t) (files d) (fd_objs d) (gft_ptr d)
      (global_file_table d) (global_file_capacity d) (procs d)) (areas v) (ppages v) (pvms v) (cur_process v))
    (threads c) (processes c) (current_thread c) (thread_list c) (next_tid c) (regs c)) (next_pid p).
Definition put_apic (a : apic_state H) (s : K) : K :=
  set_apic_state a (set_proc_state (with_heap_term (ck_heap (ap_ck a)) (ck_term (ap_ck a)) (k_proc s)) s).
Definition on_apic {A} : M (apic_state H) A → M K A := zoom get_apic put_apic.
Definition on_clocks {A} (m : M (clock_state H) A) : M K A := on_apic (on_ck m).

Definition user_string (fuel : nat) (p : Z) : M K string := λ s, str ← read_cstr fuel (io_mem (k_io s)) p; Done (str, s).
Definition set_user_mem (f : mem → mem) : M K unit := on_kio (on_mem (λ m, (tt, f m))).
(** struct timespec: seconds and nanoseconds, 8 bytes each *)
Definition user_timespec (p : Z) : M K timespec := gets (λ s,
  let m := io_mem (k_io s) in mk_ts (i64 (ld64 m p)) (i64 (ld64 m (p + 8)))).
Definition put_timespec (p : Z) (ts : timespec) : M K unit :=
  set_user_mem (λ m, st64 (p + 8) (tv_nsec ts) (st64 p (tv_sec ts) m)).
Definition put_stat (p : Z) (st : option stat) : M K unit :=
  match st with Some st => set_user_mem (store_stat p st) | None => mret tt end.

(** ** The wrappers. [fuel] bounds strings, sleeps and lists of pages. *)

Definition cur_pid : M K Z := on_p CUR_PROCESS.
Definition sys_open (fuel : nat) (a : syscall_args) : M K Z :=
  pid ← cur_pid; path ← user_string fuel (arg1 a); on_p (on_f (do_sys_open pid path (i32 (arg2 a)))).
Definition sys_close (a : syscall_args) : M K Z :=
  pid ← cur_pid; on_p (on_f (do_sys_close pid (u32 (arg1 a)))).
(** do_sys_read and do_sys_write check their arguments before they read CUR_PROCESS. *)
Definition sys_read (a : syscall_args) : M K Z :=
  if (arg2 a =? 0) || (arg3 a =? 0) then mret (u64 (- EINVAL))
  else pid ← cur_pid; on_p (on_f (do_sys_read pid (u32 (arg1 a)) (arg2 a) (arg3 a))).
Definition sys_write (a : syscall_args) : M K Z :=
  if (arg2 a =? 0) || (arg3 a =? 0) then mret (u64 (- EINVAL))
  else pid ← cur_pid; on_p (on_f (do_sys_write pid (u32 (arg1 a)) (arg2 a) (arg3 a))).
Definition sys_ioctl (a : syscall_args) : M K Z :=
  pid ← cur_pid; on_p (on_f (do_sys_ioctl pid (u32 (arg1 a)) (arg2 a) (arg3 a))).
Definition sys_lseek (a : syscall_args) : M K Z :=
  pid ← cur_pid; on_p (on_f (do_sys_lseek pid (u32 (arg1 a)) (i64 (arg2 a)) (i32 (arg3 a)))).
Definition sys_stat (fuel : nat) (a : syscall_args) : M K Z :=
  path ← user_string fuel (arg1 a);
  r ← on_p (on_f (do_sys_stat path (arg2 a)));
  _ ← put_stat (arg2 a) r.2; mret r.1.
Definition sys_fstat (a : syscall_args) : M K Z :=
  pid ← cur_pid;
  r ← on_p (on_f (do_sys_fstat pid (u32 (arg1 a)) (arg2 a)));
  _ ← put_stat (arg2 a) r.2; mret r.1.
Definition sys_mmap (a : syscall_args) : M K Z :=
  on_p (on_vma (do_sys_mmap (arg1 a) (arg2 a) (i32 (arg3 a)) (i32 (arg4 a)) (i32 (arg5 a)) (i64 (arg6 a)))).
Definition sys_munmap (fuel : nat) (a : syscall_args) : M K Z := on_p (on_vma (do_sys_munmap fuel (arg1 a) (arg2 a))).
Definition sys_nanosleep (fuel : nat) (a : syscall_args) : M K Z :=
  ts ← user_timespec (arg1 a); on_clocks (do_sys_nanosleep fuel ts).
(** char is one byte. *)
Definition sys_term (a : syscall_args) : M K Z := on_kterm (do_sys_term (u8 (arg1 a))).
Definition sys_arch_prctl (a : syscall_args) : M K Z :=
  on_p (on_sched (do_sys_arch_prctl ARCH_SET_FS EINVAL (arg1 a) (arg2 a))).
(** clockid_t is an int. *)
Definition sys_clock_gettime (a : syscall_args) : M K Z :=
  ts ← user_timespec (arg2 a);
  r ← on_clocks (do_sys_clock_gettime CLOCK_REALTIME CLOCK_MONOTONIC EINVAL (i32 (arg1 a)) ts);
  _ ← put_timespec (arg2 a) r.2; mret r.1.
Definition sys_stub (fuel : nat) (a : syscall_args) : M K Z := msg ← user_string fuel (arg1 a); mpanic msg.

(** ** The table *)

Definition SYSCALLS (fuel : nat) : list (nat * (syscall_args → M K Z)) :=
  [(0%nat, sys_read); (1%nat, sys_write); (2%nat, sys_open fuel); (3%nat, sys_close); (4%nat, sys_stat fuel); (5%nat, sys_fstat);
   (8%nat, sys_lseek); (9%nat, sys_mmap); (11%nat, sys_munmap fuel); (16%nat, sys_ioctl); (35%nat, sys_nanosleep fuel);
   (100%nat, sys_term); (158%nat, sys_arch_prctl); (228%nat, sys_clock_gettime); (999%nat, sys_stub fuel)].
(** [id] = fn, ...: the length of the array is the largest index and one. *)
Definition syscallCount : nat := 1000.
Definition table_of {A} (n : nat) (l : list (nat * A)) : list (option A) :=
  foldr (λ e t, <[e.1 := Some e.2]> t) (replicate n None) l.
Definition syscall_table (fuel : nat) : list (option (syscall_args → M K Z)) := table_of syscallCount (SYSCALLS fuel).

Definition write_thread_id : M K unit :=
  p ← gets k_proc;
  let cur := current_thread (ps_sched p) in
  tid ← (if cur =? 0 then mret 0 else t ← on_p (on_sched (get_thread cur)); mret (t_tid t));
  on_kterm (terminal_write_u64 tid).
Definition write_process_id : M K unit :=
  p ← gets k_proc;
  let cur := current_thread (ps_sched p) in
  if cur =? 0 then mret tt
  else
    t ← on_p (on_sched (get_thread cur));
    if t_process t =? 0 then mret tt
    else
      x ← on_p (proc_at (t_process t));
      _ ← on_kterm (terminal_write "Current PID: ");
      _ ← on_kterm (terminal_write_u64 (p_pid x));
      on_kterm (terminal_write "
!====

").

(** The label enosys. *)
Definition enosys (f : gprs) : M K (Z * gprs) :=
  _ ← on_kterm (terminal_write "
!====
Unknown syscall: ");
  _ ← on_kterm (terminal_write_u64 (rax f));
  _ ← on_kterm (terminal_write "
");
  _ ← on_kterm (terminal_write "Current thread ID: ");
  _ ← write_thread_id;
  _ ← on_kterm (terminal_write "
");
  _ ← write_process_id;
  let r := u64 (- ENOSYS) in
  mret (r, set_rax r f).

(** The result, and the frame as it is left. *)
Definition syscall_handler (fuel : nat) (f : gprs) : M K (Z * gprs) :=
  if Z.of_nat syscallCount <=? rax f then enosys f
  else match syscall_table fuel !! Z.to_nat (rax f) with
  | Some (Some fn) => r ← fn (args_of f); mret (r, set_rax r f)
  | Some None => enosys f
  | None => mundef "syscall_table[frame->rax]"
  end.

(** ** syscall_init *)

Definition wrmsr (msr v : Z) : M K unit := modify (λ s, set_k_msrs (<[msr := v]> (k_msrs s)) s).
Definition rdmsr (msr : Z) : M K Z := gets (λ s, default 0 (k_msrs s !! msr)).
Fixpoint map_syscall_stack (n : nat) (i : Z) : M K unit :=
  match n with
  | O => mret tt
  | Datatypes.S k =>
      phys_page ← on_p (on_k um_alloc_page);
      if phys_page =? 0 then mpanic "Failed to allocate page for percpu kernel stack"
      else
        let virt_addr := u64 (KERNEL_STACK_START + i * PAGE_SIZE) in
        _ ← on_p (on_k (mmio_map_page virt_addr phys_page (Z.lor PAGE_WRITABLE PAGE_NX)));
        map_syscall_stack k (i + 1)
  end.
Definition syscall_init : M K unit :=
  _ ← wrmsr IA32_GSBASE percpu_data_addr;
  _ ← wrmsr IA32_KERNEL_GSBASE 0;
  _ ← map_syscall_stack (Z.to_nat KERNEL_STACK_PAGES) 0;
  _ ← modify (set_percpu (mk_percpu percpu_data_addr 0 (u64 (KERNEL_STACK_START + KERNEL_STACK_PAGES * PAGE_SIZE - 1))));
  efer ← rdmsr IA32_EFER;
  _ ← wrmsr IA32_EFER (Z.lor (Z.lor efer EFER_SCE) EFER_NXE);
  let star := Z.lor (Z.shiftl 0x08 32) (Z.shiftl 0x1B 48) in
  _ ← wrmsr IA32_STAR star;
  _ ← wrmsr IA32_LSTAR syscall_entry_addr;
  wrmsr IA32_FMASK (Z.lor (Z.shiftl 1 9) (Z.shiftl 1 10)).
End syscalls.

(** ** Specification *)

(** What terminal_write_u64 sends. *)
Definition decimal (v : Z) : list Z := if v =? 0 then [48] else reverse (decimal_digits 20 v).
Lemma write_u64_sent `{Uart} v t : 0 ≤ v < 2 ^ 64 → ∃ t', terminal_write_u64 v t = Done (tt, t') ∧ sent t t' (decimal v).
Proof.
  intros Hv. unfold terminal_write_u64, decimal. destruct (Z.eqb_spec v 0) as [->|Hne].
  - destruct (terminal_putc_ok t 48) as (t' & Hp & Hs). by exists t'.
  - unfold print_back. rewrite (decimal_digits_room 20) by (change (Z.of_nat 20) with 20; pow2; lia).
    destruct (decimal_digits_ok 20 v) as (_ & _ & Hn); [change (Z.of_nat 20) with 20; pow2; lia|].
    destruct (terminal_puts_ok t (reverse (decimal_digits 20 v))) as (t' & Hp & Hs).
    rewrite puts_out_digits in Hs by (by apply Forall_reverse). by exists t'.
Qed.

(** The entry of the table for a number: its function in the list. *)
Fixpoint assoc {A} (n : nat) (l : list (nat * A)) : option A :=
  match l with
  | [] => None
  | (i, x) :: l' => if decide (i = n) then Some x else assoc n l'
  end.
Lemma table_of_lookup {A} len (l : list (nat * A)) n : (n < len)%nat → table_of len l !! n = Some (assoc n l).
Proof.
  intros Hn. induction l as [|[i x] l IH]; cbn [table_of foldr assoc fst snd].
  - apply lookup_replicate_2, Hn.
  - fold (table_of len l). case_decide as Hi.
    + subst i. rewrite list_lookup_insert_eq; [done|]. by apply lookup_lt_Some in IH.
    + by rewrite list_lookup_insert_ne by done.
Qed.

Lemma read_cstr_ok fuel m p s : cstr m p s → (String.length s ≤ fuel)%nat → read_cstr fuel m p = Done s.
Proof.
  revert fuel p. induction s as [|c s IH]; intros fuel p Hs Hf; cbn [cstr] in Hs.
  - destruct fuel; simpl; by rewrite Hs.
  - destruct Hs as (Hc & Hnz & Hs). simpl in Hf. destruct fuel as [|fuel]; [lia|]. cbn [read_cstr].
    rewrite Hc. apply Z.eqb_neq in Hnz. rewrite Hnz. unfold mbind, outcome_bind. rewrite (IH fuel) by (done || lia).
    do 2 f_equal. unfold code. by rewrite N2Z.id, Ascii.ascii_N_embedding.
Qed.

Section syscall_spec.
Context `{OH : ObjectHeap H} `{KM : !KernelMem H} `{UM : !UserMap H} `{AS : !AddrSpaces H} `{MM : !Mmio H}.
Context `{EF : ElfFrame} `{TI : ThreadImage} `{BT : Bstree} `{TS : TreeStruct} `{UA : Uart} `{AB : Abi} `{HH : Hhdm}
  `{HW : ClockHw} `{SA : SyscallAbi}.
Abbreviation K := (kernel_state H).
Implicit Types (s : K).

(** Only the terminal changes, and [cs] is sent. *)
Definition with_kterm (t : term_state) s : K :=
  set_proc_state (with_heap_term (fd_heap (vs_fd (k_vs s))) t (k_proc s)) s.
Definition k_term s : term_state := io_term (k_io s).
Definition prints {A} (m : M K A) s (x : A) (cs : list Z) : Prop :=
  ∃ t, m s = Done (x, with_kterm t s) ∧ sent (k_term s) t cs.

Lemma with_kterm_twice t t' s : with_kterm t (with_kterm t' s) = with_kterm t s.
Proof. reflexivity. Qed.
Lemma with_kterm_same s : with_kterm (k_term s) s = s.
Proof. by destruct s as [[[[[? [? ? ? ?] ? ? ? ? ? ?] ? ? ? ?] ? ? ? ? ? ?] ?] ? ? ? ? ? ?]. Qed.

Lemma prints_ret {A} (x : A) s : prints (mret x) s x [].
Proof. exists (k_term s). rewrite with_kterm_same. split; [done|apply sent_nil]. Qed.
Lemma prints_bind {A B} (m : M K A) (f : A → M K B) s x y a b :
  prints m s x a → (∀ t, prints (f x) (with_kterm t s) y b) → prints (m ≫= f) s y (a ++ b).
Proof.
  intros (t & Hm & Ht) Hf. destruct (Hf t) as (t' & Hf' & Ht'). exists t'. rewrite (bind_Done _ _ _ _ _ Hm), Hf'.
  rewrite with_kterm_twice. split; [done|]. by eapply sent_trans.
Qed.
Lemma prints_gets {A B} (g : K → A) (f : A → M K B) s y b : prints (f (g s)) s y b → prints (gets g ≫= f) s y b.
Proof. exact id. Qed.
Lemma prints_term (m : M term_state unit) s cs :
  (∀ t, ∃ t', m t = Done (tt, t') ∧ sent t t' cs) → prints (on_kterm m) s tt cs.
Proof.
  intros Hm. destruct (Hm (k_term s)) as (t' & E & Hs). exists t'. split; [|done].
  unfold on_kterm, on_kio, on_p, on_f, on_v, on_sched, on_ss_heap, on_fd, on_io, on_term, zoom.
  change (io_term (fd_io (vs_fd (ss_heap (ps_sched (k_proc s)))))) with (k_term s). by rewrite E.
Qed.
Lemma prints_write str s : prints (on_kterm (terminal_write str)) s tt (puts_out (chars str)).
Proof. apply prints_term. intros t. apply terminal_puts_ok. Qed.
Lemma prints_u64 v s : 0 ≤ v < 2 ^ 64 → prints (on_kterm (terminal_write_u64 v)) s tt (decimal v).
Proof. intros Hv. apply prints_term. intros t. by apply write_u64_sent. Qed.

(** The running thread is [t], of process [x]. *)
Record running s (t : thread) (x : process) : Prop := {
  rn_current : current_thread (ps_sched (k_proc s)) ≠ 0;
  rn_thread : threads (ps_sched (k_proc s)) !! current_thread (ps_sched (k_proc s)) = Some t;
  rn_process : t_process t ≠ 0 ∧ processes (ps_sched (k_proc s)) !! t_process t = Some x;
  rn_ids : 0 ≤ t_tid t < 2 ^ 64 ∧ 0 ≤ p_pid x < 2 ^ 64;
}.
Lemma running_kterm t s th x : running s th x → running (with_kterm t s) th x.
Proof. intros []. by split. Qed.

Lemma running_thread s th x : running s th x →
  on_p (on_sched (get_thread (current_thread (ps_sched (k_proc s))))) s = Done (th, s).
Proof.
  intros [_ Ht _ _]. unfold on_p, on_sched, zoom, get_thread. rewrite Ht. by destruct s as [[] ? ? ? ? ? ?].
Qed.
Lemma prints_thread_id s th x : running s th x → prints write_thread_id s tt (decimal (t_tid th)).
Proof.
  intros Hr. unfold write_thread_id. apply prints_gets. rewrite (proj2 (Z.eqb_neq _ _) (rn_current _ _ _ Hr)).
  rewrite <- (app_nil_l (decimal _)). eapply prints_bind; [|intros t; apply prints_u64, Hr].
  exists (k_term s). rewrite with_kterm_same. split; [|apply sent_nil]. by rewrite (bind_Done _ _ _ _ _ (running_thread s th x Hr)).
Qed.
Definition pid_text (x : process) : list Z :=
  puts_out (chars "Current PID: ") ++ decimal (p_pid x) ++ puts_out (chars "
!====

").
Lemma prints_process_id s th x : running s th x → prints write_process_id s tt (pid_text x).
Proof.
  intros Hr. unfold write_process_id. apply prints_gets. rewrite (proj2 (Z.eqb_neq _ _) (rn_current _ _ _ Hr)).
  assert (∀ {B} (f : thread → M K B) y b, prints (f th) s y b →
    prints (on_p (on_sched (get_thread (current_thread (ps_sched (k_proc s))))) ≫= f) s y b) as Hthread.
  { intros B f y b (t & E & Hs). exists t. split; [|done]. by rewrite (bind_Done _ _ _ _ _ (running_thread s th x Hr)). }
  apply Hthread. destruct (rn_process _ _ _ Hr) as [Hp0 Hp]. rewrite (proj2 (Z.eqb_neq _ _) Hp0).
  assert (on_p (proc_at (t_process th)) s = Done (x, s)) as Hx.
  { unfold on_p, zoom. rewrite (proc_at_ok _ _ _ Hp). by destruct s. }
  rewrite <- (app_nil_l (pid_text x)).
  eapply prints_bind; [exists (k_term s); rewrite with_kterm_same; split; [exact Hx|apply sent_nil]|].
  intros t. eapply prints_bind; [apply prints_write|]. intros t1.
  eapply prints_bind; [apply prints_u64, Hr|]. intros t2. apply prints_write.
Qed.

(** The report of an unknown system call. *)
Definition unknown_text (n : Z) (th : thread) (x : process) : list Z :=
  puts_out (chars "
!====
Unknown syscall: ") ++ decimal n ++ puts_out (chars "
") ++ puts_out (chars "Current thread ID: ") ++ decimal (t_tid th) ++ puts_out (chars "
") ++ pid_text x.

Lemma enosys_ok f s th x : running s th x → 0 ≤ rax f < 2 ^ 64 →
  prints (enosys f) s (u64 (- ENOSYS), set_rax (u64 (- ENOSYS)) f) (unknown_text (rax f) th x).
Proof.
  intros Hr Hrax. unfold enosys, unknown_text. rewrite <- (app_nil_r (pid_text x)).
  repeat (eapply prints_bind; [first [apply prints_write|by apply prints_u64
    |eapply prints_thread_id, running_kterm; by repeat eapply running_kterm
    |eapply prints_process_id; by repeat eapply running_kterm]|intros ?]).
  apply prints_ret.
Qed.

(** *** The interface, number by number

    What a program gets for the number in rax: the operation, with its arguments from rdi,
    rsi, rdx, r10, r8 and r9 in this order, each at the width the operation has. *)
Definition system_calls (fuel : nat) (f : gprs) : list (Z * M K Z) :=
  let checked (m : M K Z) : M K Z := if (rsi f =? 0) || (rdx f =? 0) then mret (2 ^ 64 - EINVAL) else m in
  [(0, checked (pid ← cur_pid; on_p (on_f (do_sys_read pid (u32 (rdi f)) (rsi f) (rdx f)))));
   (1, checked (pid ← cur_pid; on_p (on_f (do_sys_write pid (u32 (rdi f)) (rsi f) (rdx f)))));
   (2, pid ← cur_pid; path ← user_string fuel (rdi f); on_p (on_f (do_sys_open pid path (i32 (rsi f)))));
   (3, pid ← cur_pid; on_p (on_f (do_sys_close pid (u32 (rdi f)))));
   (4, path ← user_string fuel (rdi f); r ← on_p (on_f (do_sys_stat path (rsi f))); _ ← put_stat (rsi f) r.2; mret r.1);
   (5, pid ← cur_pid; r ← on_p (on_f (do_sys_fstat pid (u32 (rdi f)) (rsi f))); _ ← put_stat (rsi f) r.2; mret r.1);
   (8, pid ← cur_pid; on_p (on_f (do_sys_lseek pid (u32 (rdi f)) (i64 (rsi f)) (i32 (rdx f)))));
   (9, on_p (on_vma (do_sys_mmap (rdi f) (rsi f) (i32 (rdx f)) (i32 (r10 f)) (i32 (r8 f)) (i64 (r9 f)))));
   (11, on_p (on_vma (do_sys_munmap fuel (rdi f) (rsi f))));
   (16, pid ← cur_pid; on_p (on_f (do_sys_ioctl pid (u32 (rdi f)) (rsi f) (rdx f))));
   (35, ts ← user_timespec (rdi f); on_clocks (do_sys_nanosleep fuel ts));
   (100, on_kterm (do_sys_term (u8 (rdi f))));
   (158, on_p (on_sched (do_sys_arch_prctl ARCH_SET_FS EINVAL (rdi f) (rsi f))));
   (228, ts ← user_timespec (rsi f);
         r ← on_clocks (do_sys_clock_gettime CLOCK_REALTIME CLOCK_MONOTONIC EINVAL (i32 (rdi f)) ts);
         _ ← put_timespec (rsi f) r.2; mret r.1);
   (999, msg ← user_string fuel (rdi f); mpanic msg)].

Lemma handler_known fuel f s n fn : rax f = Z.of_nat n → (n < syscallCount)%nat → assoc n (SYSCALLS fuel) = Some fn →
  syscall_handler fuel f s = (r ← fn (args_of f); mret (r, set_rax r f)) s.
Proof.
  intros Hrax Hn Hfn. unfold syscall_handler. rewrite Hrax. destruct (Z.leb_spec (Z.of_nat syscallCount) (Z.of_nat n)); [lia|].
  rewrite Nat2Z.id. unfold syscall_table. by rewrite table_of_lookup, Hfn.
Qed.

Lemma handler_unknown fuel f s th x : running s th x → 0 ≤ rax f < 2 ^ 64 → assoc (Z.to_nat (rax f)) (SYSCALLS fuel) = None →
  prints (syscall_handler fuel f) s (2 ^ 64 - ENOSYS, set_rax (2 ^ 64 - ENOSYS) f) (unknown_text (rax f) th x).
Proof.
  intros Hr Hrax Hnone. assert (u64 (- ENOSYS) = 2 ^ 64 - ENOSYS) as <-.
  { pose proof enosys_range. unfold u64. zdiv. }
  unfold syscall_handler. destruct (Z.leb_spec (Z.of_nat syscallCount) (rax f)) as [Hge|Hlt]; [by apply enosys_ok|].
  unfold syscall_table. rewrite table_of_lookup by lia. rewrite Hnone. by apply enosys_ok.
Qed.

(** C33: the system call interface. For each of the 15 numbers of [system_calls] in rax,
    syscall_handler runs that operation, on the arguments in rdi, rsi, rdx, r10, r8 and r9,
    and leaves its result in rax of the frame and the rest of the frame as it was; if the
    operation panics, so does the handler. For every other number, be it a hole of the table or
    past its end, it reports number, thread and process on the terminal and answers
    -ENOSYS; nothing else changes. *)
Theorem syscall_dispatch fuel f s th x : running s th x → 0 ≤ rax f < 2 ^ 64 →
  (∀ call, (rax f, call) ∈ system_calls fuel f →
    syscall_handler fuel f s = (r ← call; mret (r, set_rax r f)) s)
  ∧ (rax f ∉ [0; 1; 2; 3; 4; 5; 8; 9; 11; 16; 35; 100; 158; 228; 999] →
    prints (syscall_handler fuel f) s (2 ^ 64 - ENOSYS, set_rax (2 ^ 64 - ENOSYS) f) (unknown_text (rax f) th x)).
Proof.
  intros Hr Hrax. assert (u64 (- EINVAL) = 2 ^ 64 - EINVAL) as Einv.
  { pose proof errno_range as [? _]%Forall_cons. unfold u64. zdiv. }
  split.
  - intros call Hin. unfold system_calls in Hin. cbv zeta in Hin. rewrite <- Einv in Hin.
    repeat (apply elem_of_cons in Hin as [[= Hrx ->]|Hin];
      [refine (eq_trans (handler_known fuel f s (Z.to_nat (rax f)) _ _ _ _) _); rewrite ?Hrx;
        first [reflexivity|by apply Nat.ltb_lt]|]).
    by apply elem_of_nil in Hin.
  - intros Hno. apply handler_unknown; [done|done|]. unfold SYSCALLS. cbn [assoc].
    assert (∀ n, Z.to_nat (rax f) = n → Z.of_nat n ∉ [0; 1; 2; 3; 4; 5; 8; 9; 11; 16; 35; 100; 158; 228; 999]) as Hnot.
    { intros n <-. by rewrite Z2Nat.id by lia. }
    repeat (case_decide as Hn; [exfalso; refine (Hnot _ (eq_sym Hn) _); apply (bool_decide_unpack _); by vm_compute|clear Hn]). done.
Qed.
End syscall_spec.

(** System call 999 lets any program stop the kernel, with a message of its choice. *)
Theorem sys_stub_panics `{OH : ObjectHeap H} `{KM : !KernelMem H} `{UM : !UserMap H} `{AS : !AddrSpaces H} `{MM : !Mmio H}
    `{EF : ElfFrame} `{TI : ThreadImage} `{BT : Bstree} `{TS : TreeStruct} `{UA : Uart} `{AB : Abi} `{HH : Hhdm}
    `{HW : ClockHw} `{SA : SyscallAbi} fuel f (s : kernel_state H) msg :
  rax f = 999 → cstr (io_mem (k_io s)) (rdi f) msg → (String.length msg ≤ fuel)%nat →
  syscall_handler fuel f s = Panic msg.
Proof.
  intros Hrax Hmsg Hf. unfold syscall_handler. rewrite Hrax. change (Z.of_nat syscallCount <=? 999) with false.
  cbv beta iota. unfold syscall_table. change (Z.to_nat 999) with 999%nat.
  rewrite table_of_lookup by (unfold syscallCount; lia).
  change (assoc 999 (SYSCALLS fuel)) with (Some (sys_stub (H := H) fuel)). cbv beta iota.
  unfold sys_stub, user_string. cbn [arg1 args_of].
  unfold mbind, M_bind. by rewrite (read_cstr_ok fuel _ _ _ Hmsg Hf).
Qed.

(** ** Writing to the terminal, from the system call to the serial line *)

(** What std_write makes of a byte, and what it sends. *)
Definition byte_text (c : Z) : list Z :=
  if (32 <=? c) && (c <=? 126) then [c] else chars "0x" ++ hex_digits [4; 0] c.
Definition write_text (offset size : Z) (buffer : list Z) : list Z :=
  decimal offset ++ decimal (u64 (offset + size)) ++ chars ": " ++ (buffer ≫= byte_text).

Lemma digit_not_newline d : digit (Z.land d 0xF) ≠ 10.
Proof.
  intros E. assert (0 ≤ Z.land d 0xF < 16) as Hr.
  { change 0xF with (Z.ones 4). rewrite Z.land_ones by lia. apply Z.mod_pos_bound. lia. }
  destruct (digit_ok _ Hr) as (Hv & _ & _). rewrite E in Hv. change (digit_value 10) with (-38) in Hv. lia.
Qed.
Lemma byte_sent `{Uart} c t :
  ∃ t', (if (32 <=? c) && (c <=? 126) then terminal_putc c else terminal_write_hex_u8 c) t = Done (tt, t') ∧ sent t t' (byte_text c).
Proof.
  unfold byte_text. destruct (Z.leb_spec 32 c), (Z.leb_spec c 126); cbn [andb].
  1: { destruct (terminal_putc_ok t c) as (t' & Hp & Hs). exists t'. split; [done|]. unfold putc_out in Hs.
       by rewrite (proj2 (Z.eqb_neq c 10)) in Hs by lia. }
  all: destruct (terminal_puts_ok t (chars "0x")) as (t1 & E1 & S1);
    destruct (terminal_puts_ok t1 (hex_digits [4; 0] c)) as (t2 & E2 & S2); exists t2;
    (split; [unfold terminal_write_hex_u8, terminal_write; by rewrite (bind_Done _ _ _ _ _ E1)|]);
    eapply sent_trans; [exact S1|];
    rewrite puts_out_digits in S2 by (repeat constructor; apply digit_not_newline); exact S2.
Qed.
Lemma std_write_ok `{Uart} offset size buffer t : 0 ≤ offset < 2 ^ 64 →
  ∃ t', std_write offset buffer size t = Done (0, t') ∧ sent t t' (write_text offset size buffer).
Proof.
  intros Ho. destruct (write_u64_sent offset t Ho) as (t1 & E1 & S1).
  destruct (write_u64_sent (u64 (offset + size)) t1) as (t2 & E2 & S2); [apply Z.mod_pos_bound; by vm_compute|].
  destruct (terminal_puts_ok t2 (chars ": ")) as (t3 & E3 & S3).
  assert (∀ t0, ∃ t', for_each buffer (λ c, if (32 <=? c) && (c <=? 126) then terminal_putc c else terminal_write_hex_u8 c) t0
    = Done (tt, t') ∧ sent t0 t' (buffer ≫= byte_text)) as Hbytes.
  { clear. induction buffer as [|c l IH]; intros t0; [exists t0; split; [done|apply sent_nil]|].
    destruct (byte_sent c t0) as (t1 & E1 & S1). destruct (IH t1) as (t2 & E2 & S2). exists t2. cbn [for_each].
    rewrite (bind_Done _ _ _ _ _ E1). split; [done|]. rewrite bind_cons. by eapply sent_trans. }
  destruct (Hbytes t3) as (t4 & E4 & S4). exists t4. split.
  - unfold std_write, terminal_write. rewrite (bind_Done _ _ _ _ _ E1), (bind_Done _ _ _ _ _ E2), (bind_Done _ _ _ _ _ E3).
    by rewrite (bind_Done _ _ _ _ _ E4).
  - unfold write_text. eapply sent_trans; [exact S1|]. eapply sent_trans; [exact S2|].
    eapply sent_trans; [exact S3|exact S4].
Qed.

Section write_spec.
Context `{OHL : ObjectHeapLaws H} `{KM : !KernelMem H} `{UM : !UserMap H} `{AS : !AddrSpaces H} `{MM : !Mmio H}.
Context `{EF : ElfFrame} `{TI : ThreadImage} `{BT : Bstree} `{TS : TreeStruct} `{UA : Uart} `{AB : Abi} `{HH : Hhdm}
  `{HW : ClockHw} `{SA : SyscallAbi}.
Abbreviation K := (kernel_state H).
Implicit Types (s : K).

Definition with_fd_io (io : kio) (d : fd_state H) : fd_state H :=
  mk_fd H (fd_heap d) io (files d) (fd_objs d) (gft_ptr d) (global_file_table d) (global_file_capacity d) (procs d).
(** An operation that leaves the open file where it was. *)
Lemma with_file_keep (d : fd_state H) k ns pid pr fd op f r io' : fd_inv d k ns → procs d !! pid = Some pr →
  fd_file d pid (i32 fd) = Some f → op f (fd_io d) = Done ((r, f), io') →
  with_file pid fd op d = Done (u64 r, with_fd_io io' d).
Proof.
  intros Hinv Hpr Hf Hop. pose proof (process_unpack_fd_ok d k ns pid pr (i32 fd) Hinv Hpr) as Hu. rewrite Hf in Hu.
  destruct Hu as (p & idx & Hu & Hp0 & Hfile & _). unfold with_file.
  rewrite (bind_Done _ _ _ _ _ Hu), (proj2 (Z.eqb_neq p 0) Hp0).
  rewrite (bind_Done _ _ _ f d) by (unfold get_file; by rewrite Hfile).
  rewrite (bind_Done _ _ _ (r, f) (with_fd_io io' d)) by (unfold on_io, zoom; by rewrite Hop).
  rewrite (bind_Done _ _ _ tt (with_fd_io io' d)); [done|]. unfold put_file, modify, set_files. cbn. by rewrite insert_id.
Qed.

Definition k_fds s : fd_state H := vs_fd (k_vs s).
(** Descriptor [fd] of the running process is open on the terminal. *)
Record open_terminal s (pid fd : Z) (fl : file) : Prop := {
  ot_tables : ∃ k ns pr, fd_inv (k_fds s) k ns ∧ procs (k_fds s) !! pid = Some pr;
  ot_file : fd_file (k_fds s) pid (i32 fd) = Some fl;
  ot_node : ∃ n, deref (f_vnode fl) (io_fs (k_io s)) = Done n ∧ (vn_ops n = Some stdout_ops ∨ vn_ops n = Some stderr_ops);
  ot_offset : 0 ≤ f_offset fl < 2 ^ 64;
}.

(** C34: write on a descriptor that is open on the terminal, from the frame of the system call to the
    serial line: each printable byte of the caller's buffer is sent as it is, every other as a
    hexadecimal number, after the offset and the end of the write in decimal; nothing but the
    terminal changes. The result is 0, as if nothing was written. *)
Theorem sys_write_prints fuel f s th x fl : running s th x → rax f = 1 → rsi f ≠ 0 → rdx f ≠ 0 →
  open_terminal s (t_process th) (u32 (rdi f)) fl →
  prints (syscall_handler fuel f) s (0, set_rax 0 f)
    (write_text (f_offset fl) (rdx f) (bytes (io_mem (k_io s)) (rsi f) (Z.to_nat (rdx f)))).
Proof.
  intros Hr Hrax Hbuf Hlen [(k & ns & pr & Hinv & Hpr) Hfile (n & Hn & Hops) Hoff].
  set (txt := write_text _ _ _).
  destruct (std_write_ok (f_offset fl) (rdx f) (bytes (io_mem (k_io s)) (rsi f) (Z.to_nat (rdx f))) (k_term s) Hoff)
    as (t & Hw & Hsent). fold txt in Hsent. exists t. split; [|exact Hsent].
  set (io' := mk_kio (io_fs (k_io s)) (io_mem (k_io s)) (io_fb (k_io s)) t).
  assert (vfs_write fl (rsi f) (rdx f) (fd_io (k_fds s)) = Done ((0, fl), io')) as Hvfs.
  { unfold vfs_write. change (fd_io (k_fds s)) with (k_io s). rewrite (bind_Done _ _ _ n (k_io s)) by (unfold mderef; by rewrite Hn).
    rewrite (bind_Done _ _ _ 0 io'); [reflexivity|].
    unfold ops_write. destruct Hops as [-> | ->]; rewrite gets_bind; unfold on_term, zoom; unfold k_term in Hw; by rewrite Hw. }
  assert (do_sys_write (t_process th) (u32 (rdi f)) (rsi f) (rdx f) (k_fds s) = Done (0, with_fd_io io' (k_fds s))) as Hdo.
  { unfold do_sys_write. rewrite (proj2 (Z.eqb_neq _ _) Hbuf), (proj2 (Z.eqb_neq _ _) Hlen). cbn [orb].
    exact (with_file_keep _ k ns _ pr _ (λ f0, vfs_write f0 (rsi f) (rdx f)) fl 0 io' Hinv Hpr Hfile Hvfs). }
  assert (sys_write (args_of f) s = Done (0, with_kterm t s)) as Hsys.
  { unfold sys_write. cbn [arg1 arg2 arg3 args_of]. rewrite (proj2 (Z.eqb_neq _ _) Hbuf), (proj2 (Z.eqb_neq _ _) Hlen). cbn [orb].
    destruct Hr as [Hcur Ht _ _].
    assert (cur_pid s = Done (t_process th, s)) as Ep.
    { unfold cur_pid, on_p, zoom, CUR_PROCESS, on_sched, zoom, gets, get_thread, mbind, M_bind. rewrite Ht. by destruct s as [[] ? ? ? ? ? ?]. }
    rewrite (bind_Done _ _ _ _ _ Ep). unfold on_p, on_f, on_v, on_sched, on_ss_heap, on_fd, zoom.
    change (vs_fd (ss_heap (ps_sched (k_proc s)))) with (k_fds s). rewrite Hdo. reflexivity. }
  unfold syscall_handler. rewrite Hrax. change (Z.of_nat syscallCount <=? 1) with false.
  cbv beta iota. unfold syscall_table. change (Z.to_nat 1) with 1%nat.
  rewrite table_of_lookup by (unfold syscallCount; lia).
  change (assoc 1 (SYSCALLS fuel)) with (Some (sys_write (H := H))). cbv beta iota.
  rewrite (bind_Done _ _ _ _ _ Hsys). reflexivity.
Qed.
End write_spec.

(** ** syscall_init *)

Section init_spec.
Context `{PAL : PageAllocatorLaws St}.
Context `{EF : ElfFrame} `{TI : ThreadImage} `{BT : Bstree} `{TS : TreeStruct} `{UA : Uart} `{AB : Abi}
  `{HW : ClockHw} `{SA : SyscallAbi}.
Abbreviation K := (kernel_state (heap_state St)).
Implicit Types (s : K).

Definition k_hp s : heap_state St := fd_heap (vs_fd (k_vs s)).
Definition with_khp (h : heap_state St) s : K :=
  set_proc_state (with_heap_term h (io_term (k_io s)) (k_proc s)) s.
Lemma on_khp_Done {A} (m : M (heap_state St) A) s x h : m (k_hp s) = Done (x, h) → on_p (on_k m) s = Done (x, with_khp h s).
Proof.
  intros E. unfold on_p, on_k, on_f, on_v, on_sched, on_ss_heap, on_fd, on_heap, zoom.
  change (fd_heap (vs_fd (ss_heap (ps_sched (k_proc s))))) with (k_hp s). rewrite E.
  by destruct s as [[[[[? [? ? ? ?] ? ? ? ? ? ?] ? ? ? ?] ? ? ? ? ? ?] ?] ? ? ? ? ? ?].
Qed.

(** The kernel's address space is a table tree, and [l] are the free pages. *)
Record kernel_vm_ok (h : heap_state St) (T : gmap (list Z) Z) (l : list Z) : Prop := {
  kv_tree : ∃ root, vm_inv kernel_half root (vm_pages (heap_vm h)) T l ∧ pml4 (kernel_address_space (heap_vm h)) = phys_to_virt root;
  kv_mask : ∃ bits, 0 ≤ bits ≤ 52 ∧ cpu_page_mask (heap_vm h) = 2 ^ bits - 1 ∧ hhdm_max ≤ 2 ^ bits;
}.
Definition stack_page (i : Z) : Z := KERNEL_STACK_START + i * PAGE_SIZE.
Definition kernel_backed (w : Z) (h : heap_state St) : Prop := k_backed (kernel_address_space (heap_vm h)) w h.

Lemma kernel_stack_half w : KERNEL_STACK_START ≤ w < HEAP_START → kernel_half (PML4_INDEX w).
Proof.
  intros Hw. unfold kernel_half, PML4_INDEX. rewrite index_mod by lia.
  unfold KERNEL_STACK_START, HEAP_START in *. pow2. change (2 ^ 39) with 549755813888. zdiv.
Qed.

Lemma map_stack_ok n i s T l : kernel_vm_ok (k_hp s) T l → (4 * n ≤ length l)%nat → 0 ≤ i → i + Z.of_nat n ≤ 16 →
  ∃ h T' l', map_syscall_stack n i s = Done (tt, with_khp h s) ∧ kernel_vm_ok h T' l'
    ∧ (∀ w, stack_page i ≤ w < stack_page (i + Z.of_nat n) → kernel_backed w h)
    ∧ (∀ w, kernel_half (PML4_INDEX w) → kernel_backed w (k_hp s) → kernel_backed w h).
Proof.
  revert i s T l. induction n as [|n IH]; intros i s T l Hvm Hlen Hi Hn.
  - exists (k_hp s), T, l. split; [|split; [done|split; [intros w Hw; unfold stack_page in Hw; lia|done]]]. cbn [map_syscall_stack].
    by destruct s as [[[[[? [? ? ? ?] ? ? ? ? ? ?] ? ? ? ?] ? ? ? ? ? ?] ?] ? ? ? ? ? ?].
  - cbn [map_syscall_stack]. destruct Hvm as [(root & Hinv & Hroot) (bits & Hbits & Hmask & Hmax)].
    assert (stack_page i < stack_page i + PAGE_SIZE ∧ stack_page i + PAGE_SIZE ≤ HEAP_START ∧ KERNEL_STACK_START ≤ stack_page i
      ∧ stack_page i < 2 ^ 64) as (_ & Hpage & Hpage' & Hp64).
    { unfold stack_page, KERNEL_STACK_START, HEAP_START, PAGE_SIZE. lia. }
    destruct (map_frame kernel_half (kernel_address_space (heap_vm (k_hp s))) (stack_page i) (Z.lor PAGE_WRITABLE PAGE_NX) bits root T l (k_hp s))
      as (q & h1 & h2 & T1 & l1 & Ha & Hq & Hm & Hh1 & Hinv1 & Hl1 & Hk & Hmk & Hnew & Hkeep & _); try done;
      [apply kernel_stack_half; unfold PAGE_SIZE in *; lia|lia|].
    rewrite (bind_Done _ _ _ _ _ (on_khp_Done _ _ _ _ Ha)), (proj2 (Z.eqb_neq q 0) Hq).
    fold (stack_page i). rewrite (u64_small (stack_page i)) by (unfold KERNEL_STACK_START in *; lia).
    assert (mmio_map_page (stack_page i) q (Z.lor PAGE_WRITABLE PAGE_NX) h1 = Done (tt, h2)) as Hm'.
    { rewrite <- Hm. cbn [mmio_map_page kernel_mmio um_map kernel_user_map]. unfold on_vm, map_page, zoom.
      replace (kernel_address_space (heap_vm (k_hp s))) with (kernel_address_space (heap_vm h1)) by (by rewrite Hh1). done. }
    rewrite (bind_Done _ _ (with_khp h1 s) tt (with_khp h2 s)).
    2: { by rewrite (on_khp_Done _ (with_khp h1 s) _ _ Hm'). }
    destruct (IH (i + 1) (with_khp h2 s) T1 l1) as (h & T' & l' & Hr & Hvm' & Hb & Hkeep');
      [change (k_hp (with_khp h2 s)) with h2; split; [exists root; by rewrite Hk|exists bits; by rewrite Hmk]|lia|lia|lia|].
    change (k_hp (with_khp h2 s)) with h2 in Hkeep'.
    exists h, T', l'. split; [exact Hr|]. split; [done|].
    assert (∀ w, kernel_half (PML4_INDEX w) → k_backed (kernel_address_space (heap_vm (k_hp s))) w h2 → kernel_backed w h) as Hto.
    { intros w Hw Hbw. apply Hkeep'; [done|]. unfold kernel_backed. by rewrite Hk. }
    split.
    + intros w Hw. destruct (decide (w < stack_page (i + 1))).
      * assert (kernel_half (PML4_INDEX w)) as Hh.
        { apply kernel_stack_half. unfold stack_page, KERNEL_STACK_START, HEAP_START, PAGE_SIZE in *. lia. }
        apply Hto; [done|]. apply Hnew. unfold vpn, stack_page, KERNEL_STACK_START, PAGE_SIZE in *. f_equal. zdiv.
      * apply Hb. replace (i + 1 + Z.of_nat n) with (i + Z.of_nat (Datatypes.S n)) by lia. lia.
    + intros w Hw Hbw. apply Hto; [done|]. by apply Hkeep.
Qed.

Definition msr s (i : Z) : Z := default 0 (k_msrs s !! i).
(** The selectors that the processor takes from IA32_STAR. *)
Definition star_kernel_cs (star : Z) : Z := Z.land (Z.shiftr star 32) 0xFFFF.
Definition star_user_cs (star : Z) : Z := Z.lor (Z.shiftr star 48 + 16) 3.
Definition star_user_ss (star : Z) : Z := Z.lor (Z.shiftr star 48 + 8) 3.

(** Syscall_init maps the 16 pages of the system call stack, takes nothing from what was
    mapped, and sets the MSRs up so that the syscall instruction enters syscall_entry with
    the kernel's code segment, interrupts and direction flag off, and sysret returns to the user's
    segments. The stack pointer it leaves for syscall_entry is odd: the handler of every system
    call runs on a stack that is 15 bytes past a multiple of 16, within the mapped pages. *)
Theorem syscall_init_spec s T l : kernel_vm_ok (k_hp s) T l → (64 ≤ length l)%nat →
  ∃ s', syscall_init s = Done (tt, s')
    ∧ (∀ w, KERNEL_STACK_START ≤ w < KERNEL_STACK_START + KERNEL_STACK_PAGES * PAGE_SIZE → kernel_backed w (k_hp s'))
    ∧ (∀ w, kernel_half (PML4_INDEX w) → kernel_backed w (k_hp s) → kernel_backed w (k_hp s'))
    ∧ msr s' IA32_LSTAR = syscall_entry_addr ∧ msr s' IA32_GSBASE = percpu_data_addr ∧ msr s' IA32_FMASK = IA32_FMASK_VALUE
    ∧ Z.testbit (msr s' IA32_EFER) 0 = true ∧ Z.testbit (msr s' IA32_EFER) 11 = true
    ∧ star_kernel_cs (msr s' IA32_STAR) = KERNEL_CS ∧ star_user_cs (msr s' IA32_STAR) = USER_CS
    ∧ star_user_ss (msr s' IA32_STAR) = USER_SS
    ∧ ∀ lstar m, machine_ok m → percpu_ok m (pc_kernel_rsp (percpu s')) →
        let sp := rsp (syscall_entry (syscall lstar m)) in
        sp mod 16 = 15 ∧ KERNEL_STACK_START ≤ sp < KERNEL_STACK_START + KERNEL_STACK_PAGES * PAGE_SIZE.
Proof.
  intros Hvm Hlen. unfold syscall_init, wrmsr.
  set (s1 := set_k_msrs (<[IA32_KERNEL_GSBASE := 0]> (<[IA32_GSBASE := percpu_data_addr]> (k_msrs s))) s).
  destruct (map_stack_ok 16 0 s1 T l) as (h & T' & l' & Hr & _ & Hb & Hkeep); [done|lia|lia|lia|].
  eexists. split.
  { rewrite !modify_bind. rewrite (bind_Done _ _ _ _ _ Hr). reflexivity. }
  cbn [k_msrs set_k_msrs percpu set_percpu pc_kernel_rsp].
  split; [intros w Hw; apply Hb; unfold stack_page, KERNEL_STACK_PAGES, PAGE_SIZE in *; lia|].
  split; [exact Hkeep|].
  unfold msr. cbn [k_msrs set_k_msrs percpu set_percpu with_khp set_proc_state s1].
  unfold IA32_LSTAR, IA32_GSBASE, IA32_FMASK, IA32_EFER, IA32_STAR, IA32_KERNEL_GSBASE.
  rewrite lookup_insert_ne, lookup_insert_eq by done. split; [done|].
  do 4 rewrite lookup_insert_ne by done. rewrite lookup_insert_ne, lookup_insert_eq by done. split; [done|].
  rewrite lookup_insert_eq. split; [done|].
  do 3 (rewrite lookup_insert_ne by done). rewrite lookup_insert_eq. cbn [default id from_option].
  split; [by rewrite !Z.lor_spec, orb_true_r|]. split; [by rewrite Z.lor_spec, orb_true_r|].
  do 2 (rewrite lookup_insert_ne by done). rewrite lookup_insert_eq. cbn [default id from_option].
  split; [reflexivity|]. split; [reflexivity|]. split; [reflexivity|].
  intros lstar m Hm Hp. destruct (syscall_entry_ok lstar m _ Hm Hp) as (-> & _). vm_compute. by repeat split.
Qed.
End init_spec.

(** ** A machine with a memory map of 256 pages *)

Module SyscallWitness.
Import Pmm. Import DemoHhdm DemoBst VfsWitness TermWitness SchedWitness ClockWitness PicWitness ElfWitness.
Import DemoObjects FdWitness VmaWitness.

#[export, program] Instance demo_map : Memmap := {| memmap_entries := [mk_entry 0x100000 0x100000 0] |}.
Next Obligation. repeat constructor; simpl; intros; pow2; try done; lia. Qed.
Next Obligation. intros i j e f Hij Hi Hj. destruct i as [|i], j as [|j]; simpl in *; simplify_eq; try lia; done. Qed.
Next Obligation. done. Qed.
#[export] Instance demo_tree : TreeStruct := {| sizeof_bstree := 24; sizeof_bstree_range := ltac:(lia) |}.
#[export, program] Instance demo_sys : SyscallAbi := {|
  ENOSYS := 38; ARCH_SET_FS := 0x1002; CLOCK_REALTIME := 0; CLOCK_MONOTONIC := 1; store_stat _ _ m := m;
  percpu_data_addr := 0xFFFFFFFF80100000; syscall_entry_addr := 0xFFFFFFFF80001000;
|}.
Next Obligation. lia. Qed.

(** The root table is outside the map; thread 0x1000 of process 0x900 runs; the user's
    memory has a string at 0x5000. *)
Definition root_page : Z := 0x1000000.
Definition sys_heap : heap_state pmm_state :=
  mk_heap _ (mk_vmm _ (pmm_boot ∅) (mk_as (phys_to_virt root_page) root_page) (2 ^ 46 - 1) root_page []) 0 HEAP_START.
Definition user_mem : mem := stb 0x5000 72 (stb 0x5001 105 ∅).
Definition sys_thread : thread := mk_thread 0 0x7000 0 1 0x600 0x900 0 [] 0.
Definition sys_process : process := mk_process (mk_as 0 0) 0x400000 0xf0000000 0 0 0 5.
Definition sys_proc : proc_state (heap_state pmm_state) := mk_ps _
  (mk_ss _ (mk_vs _ (mk_fd _ sys_heap (mk_kio demo_fs user_mem None (mk_term true 0 [])) ∅ ∅ 0 [] 0 ∅) ∅ ∅ ∅ 0)
    {[ 0x1000 := sys_thread ]} {[ 0x900 := sys_process ]} 0x1000 0x1000 2 demo_regs) 6.
Definition sys_ck : clock_state (heap_state pmm_state) := mk_ck _ sys_heap 0 (mk_term true 0 []) ∅ 0 0 0 0 0 None 0 0 None [].
Definition sys_kernel : kernel_state (heap_state pmm_state) :=
  mk_kernel _ sys_proc (mk_apic _ sys_ck 0xFEE00800 0 0 0 false 0 (mk_ld ∅ 0 0) (mk_io 0 ∅)) pics_init no_handlers 0 ∅ (mk_percpu 0 0 0).
Definition sys_frame (n a : Z) : gprs := mk_gprs n 0 0 0 0 a 0 0 0 0 0 0 0 0 0.

Lemma sys_running : running sys_kernel sys_thread sys_process.
Proof. split; [done|apply lookup_singleton_eq|split; [done|apply lookup_singleton_eq]|by repeat split]. Qed.

(** Fork (57) is a hole of the table, 1000 is past its end, 9 is mmap, here with -1 in r8. *)
Definition mmap_frame : gprs := mk_gprs 9 0 0 3 0 0x1000 0x2000 (2 ^ 64 - 1) 0x3000 0x22 0 0 0 0 0.
Lemma syscall_dispatch_witness :
  (∃ t, syscall_handler 8 (sys_frame 57 0) sys_kernel
    = Done ((2 ^ 64 - 38, set_rax (2 ^ 64 - 38) (sys_frame 57 0)), with_kterm t sys_kernel))
  ∧ (∃ t, syscall_handler 8 (sys_frame 1000 0) sys_kernel
    = Done ((2 ^ 64 - 38, set_rax (2 ^ 64 - 38) (sys_frame 1000 0)), with_kterm t sys_kernel))
  ∧ syscall_handler 8 mmap_frame sys_kernel
    = (r ← on_p (on_vma (do_sys_mmap 0x1000 0x2000 3 0x22 (-1) 0x3000)); mret (r, set_rax r mmap_frame)) sys_kernel.
Proof.
  split; [|split].
  - destruct (proj2 (syscall_dispatch 8 (sys_frame 57 0) sys_kernel sys_thread sys_process sys_running ltac:(simpl; lia))) as (t & E & _).
    + apply (bool_decide_unpack _). by vm_compute.
    + exists t. exact E.
  - destruct (proj2 (syscall_dispatch 8 (sys_frame 1000 0) sys_kernel sys_thread sys_process sys_running ltac:(simpl; lia))) as (t & E & _).
    + apply (bool_decide_unpack _). by vm_compute.
    + exists t. exact E.
  - refine (proj1 (syscall_dispatch 8 mmap_frame sys_kernel sys_thread sys_process sys_running ltac:(simpl; lia)) _ _).
    do 7 right. left.
Defined.

(** Over the heap that never reuses: process 1 has /dev/stdout open as descriptor 0 and writes the
    3 bytes "Hi" and newline at 0x5000. *)
Section tty.
#[local] Instance bump_mem : KernelMem bump := {|
  km_mem _ := ∅; km_set_mem _ h := h; km_current_cr3 _ := 0; km_kernel_cr3 _ := 0; km_load_cr3 _ h := h;
|}.
Definition tty_fs : fs_state := mk_fs (tar_nodes demo_fs) (tar_root demo_fs) (tar_children demo_fs)
  (mk_vnode "stdout" 0 (Some stdout_ops) INull :: replicate 63 vnode_zero) (dev_root_node demo_fs) (dev_children demo_fs) (root_mount demo_fs).
Definition tty_io : kio := mk_kio tty_fs (stb 0x5002 10 user_mem) None (mk_term true 0 []).
Definition tty_file : file := mk_file (DevNode 0) 0 1 O_WRONLY.
Definition tty_fd : fd_state bump := set_files (<[3072 := tty_file]> (files demo_open)) (with_fd_io tty_io demo_open).
Definition tty_proc : proc_state bump := mk_ps _
  (mk_ss _ (mk_vs _ tty_fd ∅ ∅ ∅ 0) {[ 0x1000 := mk_thread 0 0x7000 0 1 0x600 1 0 [] 0 ]} {[ 1 := sys_process ]} 0x1000 0x1000 2 demo_regs) 6.
Definition tty_ck : clock_state bump := mk_ck _ (mk_bump 4096) 0 (mk_term true 0 []) ∅ 0 0 0 0 0 None 0 0 None [].
Definition tty_kernel : kernel_state bump :=
  mk_kernel _ tty_proc (mk_apic _ tty_ck 0xFEE00800 0 0 0 false 0 (mk_ld ∅ 0 0) (mk_io 0 ∅)) pics_init no_handlers 0 ∅ (mk_percpu 0 0 0).
Definition write_frame : gprs := mk_gprs 1 0 0 3 0 0 0x5000 0 0 0 0 0 0 0 0.

Lemma tty_open : open_terminal tty_kernel 1 0 tty_file.
Proof.
  split.
  - exists open_kinds, []. eexists. split; [|reflexivity].
    exact (put_file_inv demo_open open_kinds [] 3072 (mk_file (TarNode 1) 0 1 0) tty_file tty_io demo_open_inv eq_refl eq_refl).
  - reflexivity.
  - eexists. split; [reflexivity|by left].
  - cbn. lia.
Qed.

Lemma sys_write_prints_witness : ∃ s' t, syscall_handler 0 write_frame tty_kernel = Done ((0, set_rax 0 write_frame), s')
  ∧ s' = with_kterm t tty_kernel ∧ sent (k_term tty_kernel) t (chars "03: Hi0x0a").
Proof.
  assert (running tty_kernel (mk_thread 0 0x7000 0 1 0x600 1 0 [] 0) sys_process) as Hr.
  { split; [done|apply lookup_singleton_eq|split; [done|apply lookup_singleton_eq]|by repeat split]. }
  destruct (sys_write_prints 0 write_frame tty_kernel _ sys_process tty_file Hr eq_refl ltac:(done) ltac:(done) tty_open) as (t & Hw & Hs).
  exists (with_kterm t tty_kernel), t. split; [exact Hw|]. split; [reflexivity|exact Hs].
Defined.
End tty.

Lemma sys_stub_panics_witness : syscall_handler 2 (sys_frame 999 0x5000) sys_kernel = Panic "Hi".
Proof.
  apply (sys_stub_panics 2 (sys_frame 999 0x5000) sys_kernel "Hi"); [reflexivity| |simpl; lia].
  vm_compute. by repeat split.
Defined.

Lemma sys_vm_ok : kernel_vm_ok (k_hp sys_kernel) {[ [] := root_page ]} all_pages.
Proof.
  split.
  - exists root_page. split; [|reflexivity]. split.
    + exists [], all_pages. split; [apply pmm_boot_rep|done].
    + apply pt_wf_empty; [by vm_compute|]. intros i _ Hi. apply ldn_zero. intros b Hb. transitivity (ldb ∅ b); [reflexivity|]. unfold ldb. by rewrite lookup_empty.
    + intros π q [_ <-]%lookup_singleton_Some. by apply (bool_decide_unpack _); vm_compute.
  - exists 46. split; [lia|]. split; [reflexivity|]. by vm_compute.
Qed.

Lemma syscall_init_spec_witness : ∃ s', syscall_init sys_kernel = Done (tt, s')
  ∧ kernel_backed (KERNEL_STACK_START + 0xFFF0) (k_hp s') ∧ msr s' IA32_LSTAR = 0xFFFFFFFF80001000.
Proof.
  destruct (syscall_init_spec sys_kernel _ _ sys_vm_ok) as (s' & Hr & Hb & _ & Hl & _); [vm_compute; lia|].
  exists s'. split; [exact Hr|]. split; [|exact Hl]. apply Hb. unfold KERNEL_STACK_PAGES, PAGE_SIZE. lia.
Defined.
End SyscallWitness.
