(* ===== verification/Panic.v ===== *)
(** * The panic screen: src/interrupts/panic.c, asserts.c and the table printer of
    src/memory/vmm.c

    What the kernel prints before it halts. Elsewhere a call of panic is the outcome
    [Panic]; here are the messages that come first, and that printing them ends. *)
From S2P Require Import Prelude CMem Words Chain Phys Vmm Heap Fb Term Vfs Fd Bstree.
From S2P Require Import Vma Sched Clock Elf Stack Proc Entry Pic Apic Dispatch Syscall.

(** The kernel's address space and the CR3 register as it is. *)
Class KernelSpace (H : Type) := {
  ks_space : H → address_space;
  ks_cr3 : H → Z;
}.
#[export] Instance kernel_space_of `{PageAllocator St} : KernelSpace (heap_state St) := {|
  ks_space h := kernel_address_space (heap_vm h);
  ks_cr3 h := reg_cr3 (heap_vm h);
|}.

Section panic.
Context `{OH : ObjectHeap H} `{KM : !KernelMem H} `{KS : !KernelSpace H} `{HH : Hhdm} `{UA : Uart} `{SA : SyscallAbi}.
Abbreviation K := (kernel_state H).

Definition print (str : string) : M K unit := on_kterm (terminal_write str).
Definition print_u64 (v : Z) : M K unit := on_kterm (terminal_write_u64 v).
Definition print_hex (v : Z) : M K unit := on_kterm (terminal_write_hex_u64 v).
(** condition ? a : b *)
Definition print_if (c : bool) (a b : string) : M K unit := print (if c then a else b).
Definition print_when (c : bool) (str : string) : M K unit := if c then print str else mret tt.

(** ** vmm.c *)

(** The next table, or 0. *)
Definition print_table_perms (table idx : Z) : M K Z :=
  if table =? 0 then _ ← print "-
"; mret 0
  else
    s ← gets id;
    let entry := ld64 (km_mem (fd_heap (vs_fd (k_vs s)))) (table + 8 * idx) in
    let has flag := negb (Z.land entry flag =? 0) in
    _ ← print_hex (virt_to_phys table);
    _ ← print "[";
    _ ← print_u64 idx;
    _ ← print "] ";
    _ ← (if has PAGE_PRESENT then
           _ ← print "PRESENT ";
           _ ← print_when (has PAGE_WRITABLE) "WRITABLE ";
           _ ← print_when (has PAGE_USER) "USER ";
           _ ← print_when (has PAGE_WTHRU) "WTHRU ";
           _ ← print_when (has PAGE_NOCACHE) "NOCACHE ";
           _ ← print_when (has PAGE_NOEXEC) "NX ";
           print_hex entry
         else
           _ ← print "NOT PRESENT ";
           print_hex entry);
    _ ← print "
";
    mret (if has PAGE_PRESENT then phys_to_virt (Z.land entry PAGE_MASK) else 0).

Definition tables_debug (pml4 virt : Z) : M K unit :=
  _ ← print "PML4: ";
  pdpt ← print_table_perms pml4 (PML4_INDEX virt);
  _ ← print "PDPT: ";
  pd ← print_table_perms pdpt (PDPT_INDEX virt);
  _ ← print "PD:   ";
  pt ← print_table_perms pd (PD_INDEX virt);
  _ ← print "PT:   ";
  _ ← print_table_perms pt (PT_INDEX virt);
  mret tt.

(** ** panic.c *)

Definition panic_ {A} (msg : string) : M K A :=
  _ ← print "
KERNEL PANIC: ";
  _ ← print msg;
  _ ← print "
";
  mpanic msg.

Definition print_gpf_error (error_code : Z) : M K unit :=
  _ ← print "GPF INFO: ";
  if error_code =? 0 then print "No selector information
"
  else
    let has bit := negb (Z.land error_code bit =? 0) in
    _ ← print "External: ";
    _ ← print_if (has 0x1) "Yes | " "No | ";
    _ ← print "IDT: ";
    _ ← print_if (has 0x2) "Yes | " "No | ";
    _ ← print "TI/LDT: ";
    _ ← print_if (has 0x4) "Yes | " "No | ";
    _ ← print "Index: ";
    _ ← print_hex (Z.shiftr error_code 3);
    print "
".

Definition print_pf_tables (a : address_space) (cr2 error_code : Z) : M K unit :=
  let has bit := negb (Z.land error_code bit =? 0) in
  _ ← print "PAGE INFO: ";
  _ ← print_if (has 0x1) "Protection Violation | " "Page Not Present | ";
  _ ← print_if (has 0x2) "Write | " "Read | ";
  _ ← print_if (has 0x4) "User Mode | " "Kernel Mode | ";
  _ ← print_if (has 0x8) "RSVD Violation | " "No RSVD Issue | ";
  _ ← print_if (has 0x10) "Instruction Fetch (NX violation)
" "Data Access
";
  tables_debug (pml4 a) cr2.

(** while (true) over the threads: the process whose address space is loaded *)
Definition owner_turn (cr3_ iter : Z) (again : Z → M K (option process)) : M K (option process) :=
  if iter =? 0 then mret None
  else
    t ← on_p (on_sched (get_thread iter));
    if t_process t =? 0 then again (t_next t)
    else
      x ← on_p (proc_at (t_process t));
      if cr3 (p_address_space x) =? cr3_ then mret (Some x) else again (t_next t).
Fixpoint find_owner (fuel : nat) (cr3_ iter : Z) : M K (option process) :=
  owner_turn cr3_ iter match fuel with O => λ _ _, OutOfFuel | Datatypes.S k => find_owner k cr3_ end.

(** What comes before the loop around hlt. [gs_selector] is the content of gs. *)
Definition panic_screen (fuel : nat) (gs_selector : Z) (msg : string) (frame : interrupt_frame) : M K unit :=
  s ← gets id;
  let h := fd_heap (vs_fd (k_vs s)) in
  let cr2 := k_cr2 s in
  let cr3_ := ks_cr3 h in
  gs_base ← rdmsr IA32_GSBASE;
  _ ← print "
KERNEL PANIC: ";
  _ ← print msg;
  _ ← print "
";
  _ ← print "CR3: ";
  _ ← print_hex cr3_;
  _ ← print " - ";
  a ← (if cr3_ =? km_kernel_cr3 h then _ ← print "Kernel CR3"; mret (ks_space h)
       else
         _ ← print "User CR3";
         x ← find_owner fuel cr3_ (thread_list (ps_sched (k_proc s)));
         match x with
         | None => _ ← print " (Unknown CR3)"; mret (ks_space h)
         | Some x =>
             _ ← print " (PID: ";
             _ ← print_u64 (p_pid x);
             _ ← print ")";
             mret (p_address_space x)
         end);
  _ ← print "
";
  _ ← (if interrupt_number frame =? 14 then _ ← print "CR2: "; _ ← print_hex cr2; print "
" else mret tt);
  _ ← print "GS selector: ";
  _ ← print_hex gs_selector;
  _ ← print "
";
  _ ← print "GS base: ";
  _ ← print_hex gs_base;
  _ ← print (if gs_base =? percpu_data_addr then " (Kernel)" else if gs_base =? 0 then " (User)" else " (Unknown)");
  _ ← print "
";
  _ ← print "ERR: ";
  _ ← print_hex (error_code frame);
  _ ← print "
";
  _ ← (if interrupt_number frame =? 13 then print_gpf_error (error_code frame) else mret tt);
  _ ← (if interrupt_number frame =? 14 then print_pf_tables a cr2 (error_code frame) else mret tt);
  _ ← print "RIP: ";
  _ ← print_hex (f_rip frame);
  _ ← print "
";
  _ ← print "RSP: ";
  _ ← print_hex (f_rsp frame);
  print "
".
Definition panic_isr (fuel : nat) (gs_selector : Z) (msg : string) (frame : interrupt_frame) : M K unit :=
  _ ← panic_screen fuel gs_selector msg frame;
  mpanic msg.

(** ** asserts.c (after its sti) *)

Definition assert_fail (assertion file : string) (line : Z) (function : string) : M K unit :=
  _ ← print "Assertion Failed: ";
  _ ← print assertion;
  _ ← print "
File: ";
  _ ← print file;
  _ ← print "
Line: ";
  _ ← print_u64 line;
  _ ← print "
Function: ";
  _ ← print function;
  _ ← print "
";
  panic_ "Assertion Failed".
End panic.

(** ** Specification *)

Section panic_spec.
Context `{OH : ObjectHeap H} `{KM : !KernelMem H} `{KS : !KernelSpace H} `{HH : Hhdm} `{UA : Uart} `{SA : SyscallAbi}.
Abbreviation K := (kernel_state H).
Implicit Types (s : K).

(** Only the terminal changes. *)
Definition speaks {A} (m : M K A) s (x : A) : Prop := ∃ cs, prints m s x cs.

Lemma speaks_ret {A} (x : A) s : speaks (mret x) s x.
Proof. exists []. apply prints_ret. Qed.
Lemma speaks_bind {A B} (m : M K A) (f : A → M K B) s x y :
  speaks m s x → (∀ t, speaks (f x) (with_kterm t s) y) → speaks (m ≫= f) s y.
Proof.
  intros (a & t & Hm & Ht) Hf. destruct (Hf t) as (b & t' & Hf' & Ht'). exists (a ++ b), t'.
  rewrite (bind_Done _ _ _ _ _ Hm), Hf', with_kterm_twice. split; [done|]. by eapply sent_trans.
Qed.
Lemma speaks_gets {A B} (g : K → A) (f : A → M K B) s y : speaks (f (g s)) s y → speaks (gets g ≫= f) s y.
Proof. exact id. Qed.
Lemma speaks_term (m : M term_state unit) s :
  (∀ t, ∃ t' cs, m t = Done (tt, t') ∧ sent t t' cs) → speaks (on_kterm m) s tt.
Proof.
  intros Hm. destruct (Hm (k_term s)) as (t' & cs & E & Hs). exists cs, t'. split; [|done].
  unfold on_kterm, on_kio, on_p, on_f, on_v, on_sched, on_ss_heap, on_fd, on_io, on_term, zoom.
  change (io_term (fd_io (vs_fd (ss_heap (ps_sched (k_proc s)))))) with (k_term s). by rewrite E.
Qed.
Lemma speaks_print str s : speaks (print str) s tt.
Proof. apply speaks_term. intros t. destruct (terminal_puts_ok t (chars str)) as (t' & ? & ?). eauto. Qed.
Lemma speaks_when c str s : speaks (print_when c str) s tt.
Proof. unfold print_when. destruct c; [apply speaks_print|apply speaks_ret]. Qed.
Lemma speaks_u64 v s : speaks (print_u64 v) s tt.
Proof.
  apply speaks_term. intros t. unfold terminal_write_u64. destruct (v =? 0).
  - destruct (terminal_putc_ok t 48) as (t' & ? & ?). eauto.
  - destruct (terminal_puts_ok t (reverse (decimal_digits 21 v))) as (t' & ? & ?). eauto.
Qed.
Lemma speaks_hex v s : speaks (print_hex v) s tt.
Proof.
  apply speaks_term. intros t. unfold terminal_write_hex_u64.
  destruct (terminal_puts_ok t (chars "0x")) as (t1 & E1 & H1).
  destruct (terminal_puts_ok t1 (hex_digits [60;56;52;48;44;40;36;32;28;24;20;16;12;8;4;0] v)) as (t2 & E2 & H2).
  exists t2. eexists. split; [|by eapply sent_trans]. unfold terminal_write. by rewrite (bind_Done _ _ _ _ _ E1).
Qed.

(** One call of a printer after the other. *)
Ltac say_one := first [apply speaks_print|apply speaks_when|apply speaks_hex|apply speaks_u64|apply speaks_ret].
Ltac speak1 := lazymatch goal with
  | |- speaks (_ ≫= _) _ _ => eapply speaks_bind; [say_one|intros ?]
  | |- speaks _ _ _ => say_one
  end.
Ltac speak := repeat speak1.

Lemma speaks_table table idx s : ∃ next, ∀ t, speaks (print_table_perms table idx) (with_kterm t s) next.
Proof.
  unfold print_table_perms. destruct (table =? 0); [exists 0; intros t; speak|].
  eexists. intros t. apply (speaks_gets id). cbv zeta. unfold id.
  change (km_mem (fd_heap (vs_fd (k_vs (with_kterm t s))))) with (km_mem (fd_heap (vs_fd (k_vs s)))).
  speak. eapply speaks_bind; [|intros ?; speak].
  destruct (negb (Z.land _ PAGE_PRESENT =? 0)); speak.
Qed.

Lemma speaks_debug pml4 virt s t : speaks (tables_debug pml4 virt) (with_kterm t s) tt.
Proof.
  unfold tables_debug. destruct (speaks_table pml4 (PML4_INDEX virt) s) as (n1 & H1).
  destruct (speaks_table n1 (PDPT_INDEX virt) s) as (n2 & H2). destruct (speaks_table n2 (PD_INDEX virt) s) as (n3 & H3).
  destruct (speaks_table n3 (PT_INDEX virt) s) as (n4 & H4).
  speak1. eapply speaks_bind; [apply H1|intros ?]. speak1. eapply speaks_bind; [apply H2|intros ?].
  speak1. eapply speaks_bind; [apply H3|intros ?]. speak1. eapply speaks_bind; [apply H4|intros ?]. speak.
Qed.

Lemma speaks_gpf e s : speaks (print_gpf_error e) s tt.
Proof. unfold print_gpf_error, print_if. speak1. destruct (e =? 0); speak. Qed.
Lemma speaks_pf a cr2 e s t : speaks (print_pf_tables a cr2 e) (with_kterm t s) tt.
Proof. unfold print_pf_tables, print_if. speak. apply speaks_debug. Qed.

(** The threads of the list, with the processes they belong to. *)
Record threads_ok s (l : list Z) : Prop := {
  tk_list : Chain.chain t_next (threads (ps_sched (k_proc s))) (thread_list (ps_sched (k_proc s))) l;
  tk_process : ∀ p t, p ∈ l → threads (ps_sched (k_proc s)) !! p = Some t → t_process t ≠ 0 →
    is_Some (processes (ps_sched (k_proc s)) !! t_process t);
}.
(** The process of the first thread in [l] whose address space is at [c]. *)
Definition process_of s (p : Z) : option process :=
  t ← threads (ps_sched (k_proc s)) !! p; if t_process t =? 0 then None else processes (ps_sched (k_proc s)) !! t_process t.
Definition owner_of s (c : Z) (l : list Z) : option process :=
  hd_error (filter (λ x, cr3 (p_address_space x) = c) (omap (process_of s) l)).

Lemma find_owner_ok s c l : ∀ fuel p,
  Chain.chain t_next (threads (ps_sched (k_proc s))) p l →
  (∀ p t, p ∈ l → threads (ps_sched (k_proc s)) !! p = Some t → t_process t ≠ 0 →
    is_Some (processes (ps_sched (k_proc s)) !! t_process t)) →
  (length l ≤ fuel)%nat → find_owner fuel c p s = Done (owner_of s c l, s).
Proof.
  induction l as [|q l IH]; intros fuel p Hc Hp Hf.
  - cbn in Hc. subst p. by destruct fuel.
  - destruct Hc as (-> & Hq & t & Ht & Hc). destruct fuel as [|fuel]; [simpl in Hf; lia|].
    cbn [find_owner]. unfold owner_turn. rewrite (proj2 (Z.eqb_neq q 0) Hq).
    assert (on_p (on_sched (get_thread q)) s = Done (t, s)) as Eg.
    { unfold on_p, on_sched, zoom, get_thread. rewrite Ht. by destruct s as [[] ? ? ? ? ? ?]. }
    rewrite (bind_Done _ _ _ _ _ Eg). unfold owner_of. cbn [omap list_omap]. unfold process_of at 1. rewrite Ht. cbn [mbind option_bind].
    fold (owner_of s c l).
    assert (find_owner fuel c (t_next t) s = Done (owner_of s c l, s)) as Hnext.
    { apply IH; [done| |simpl in Hf; lia]. intros p' t' Hp'. apply Hp. by apply list_elem_of_further. }
    destruct (Z.eqb_spec (t_process t) 0) as [E|E]; [exact Hnext|].
    destruct (Hp q t (list_elem_of_here _ _) Ht E) as [x Hx].
    assert (on_p (proc_at (t_process t)) s = Done (x, s)) as Ex.
    { unfold on_p, zoom. rewrite (proc_at_ok _ _ _ Hx). by destruct s. }
    rewrite (bind_Done _ _ _ _ _ Ex), Hx. destruct (Z.eqb_spec (cr3 (p_address_space x)) c) as [Ec|Ec].
    + by rewrite filter_cons_True.
    + by rewrite filter_cons_False.
Qed.

Lemma speaks_owner fuel c p s l t : threads_ok s l → (length l ≤ fuel)%nat → p = thread_list (ps_sched (k_proc s)) →
  speaks (find_owner fuel c p) (with_kterm t s) (owner_of s c l).
Proof.
  intros [Hc Hp] Hf ->. exists []. exists t. change (k_term (with_kterm t s)) with t. split; [|apply sent_nil].
  exact (find_owner_ok (with_kterm t s) c l fuel _ Hc Hp Hf).
Qed.

(** The part of the screen after the message. *)
Definition panic_details (fuel : nat) (gs_selector : Z) (frame : interrupt_frame) s : M K unit :=
  let h := fd_heap (vs_fd (k_vs s)) in
  let gs_base := default 0 (k_msrs s !! IA32_GSBASE) in
  _ ← print "CR3: ";
  _ ← print_hex (ks_cr3 h);
  _ ← print " - ";
  a ← (if ks_cr3 h =? km_kernel_cr3 h then _ ← print "Kernel CR3"; mret (ks_space h)
       else
         _ ← print "User CR3";
         x ← find_owner fuel (ks_cr3 h) (thread_list (ps_sched (k_proc s)));
         match x with
         | None => _ ← print " (Unknown CR3)"; mret (ks_space h)
         | Some x => _ ← print " (PID: "; _ ← print_u64 (p_pid x); _ ← print ")"; mret (p_address_space x)
         end);
  _ ← print "
";
  _ ← (if interrupt_number frame =? 14 then _ ← print "CR2: "; _ ← print_hex (k_cr2 s); print "
" else mret tt);
  _ ← print "GS selector: ";
  _ ← print_hex gs_selector;
  _ ← print "
";
  _ ← print "GS base: ";
  _ ← print_hex gs_base;
  _ ← print (if gs_base =? percpu_data_addr then " (Kernel)" else if gs_base =? 0 then " (User)" else " (Unknown)");
  _ ← print "
";
  _ ← print "ERR: ";
  _ ← print_hex (error_code frame);
  _ ← print "
";
  _ ← (if interrupt_number frame =? 13 then print_gpf_error (error_code frame) else mret tt);
  _ ← (if interrupt_number frame =? 14 then print_pf_tables a (k_cr2 s) (error_code frame) else mret tt);
  _ ← print "RIP: ";
  _ ← print_hex (f_rip frame);
  _ ← print "
";
  _ ← print "RSP: ";
  _ ← print_hex (f_rsp frame);
  print "
".

Lemma speaks_details fuel gs f s l t : threads_ok s l → (length l ≤ fuel)%nat →
  speaks (panic_details fuel gs f s) (with_kterm t s) tt.
Proof.
  intros Hok Hf. unfold panic_details. cbv zeta. do 3 speak1.
  set (a := if ks_cr3 (fd_heap (vs_fd (k_vs s))) =? km_kernel_cr3 (fd_heap (vs_fd (k_vs s))) then ks_space (fd_heap (vs_fd (k_vs s)))
    else match owner_of s (ks_cr3 (fd_heap (vs_fd (k_vs s)))) l with Some x => p_address_space x | None => ks_space (fd_heap (vs_fd (k_vs s))) end).
  eapply (speaks_bind _ _ _ a).
  { unfold a. destruct (_ =? _); [speak|]. speak1. eapply speaks_bind.
    - rewrite !with_kterm_twice. by eapply speaks_owner.
    - intros ?. destruct (owner_of _ _ _); speak. }
  intros ?. clearbody a. speak1. eapply (speaks_bind _ _ _ tt); [destruct (interrupt_number f =? 14); speak|intros ?].
  do 9 speak1. speak1. eapply (speaks_bind _ _ _ tt); [destruct (interrupt_number f =? 13); [apply speaks_gpf|speak]|intros ?].
  eapply (speaks_bind _ _ _ tt); [destruct (interrupt_number f =? 14); [rewrite !with_kterm_twice; apply speaks_pf|speak]|intros ?]. speak.
Qed.

Definition panic_head (msg : string) : list Z :=
  puts_out (chars "
KERNEL PANIC: ") ++ puts_out (chars msg) ++ puts_out (chars "
").

Lemma panic_screen_ok fuel gs msg f s l : threads_ok s l → (length l ≤ fuel)%nat →
  ∃ rest, prints (panic_screen fuel gs msg f) s tt (panic_head msg ++ rest).
Proof.
  intros Hok Hf. unfold panic_head.
  destruct (terminal_puts_ok (k_term s) (chars "
KERNEL PANIC: ")) as (t1 & E1 & S1). destruct (terminal_puts_ok t1 (chars msg)) as (t2 & E2 & S2).
  destruct (terminal_puts_ok t2 (chars "
")) as (t3 & E3 & S3).
  destruct (speaks_details fuel gs f s l t3 Hok Hf) as (rest & t4 & E4 & S4).
  exists rest, t4. change (k_term (with_kterm t3 s)) with t3 in S4. rewrite <- !app_assoc. split; [|by repeat (eapply sent_trans; [done|])].
  assert (∀ str t t' s0, k_term s0 = t → terminal_write str t = Done (tt, t') → print str s0 = Done (tt, with_kterm t' s0)) as Hprint.
  { intros str t t' s0 <- E. unfold print, on_kterm, on_kio, on_p, on_f, on_v, on_sched, on_ss_heap, on_fd, on_io, on_term, zoom.
    change (io_term (fd_io (vs_fd (ss_heap (ps_sched (k_proc s0)))))) with (k_term s0). by rewrite E. }
  transitivity ((_ ← print "
KERNEL PANIC: "; _ ← print msg; _ ← print "
"; panic_details fuel gs f s) s); [reflexivity|].
  rewrite (bind_Done _ _ _ _ _ (Hprint _ _ _ s eq_refl E1)).
  rewrite (bind_Done _ _ _ _ _ (Hprint _ _ _ (with_kterm t1 s) eq_refl E2)), with_kterm_twice.
  rewrite (bind_Done _ _ _ _ _ (Hprint _ _ _ (with_kterm t2 s) eq_refl E3)), with_kterm_twice.
  rewrite E4. by rewrite with_kterm_twice.
Qed.

(** The panic screen of an exception starts with the message and is always printed to
    its end, for every thread list, page table and frame: the search for the process whose
    address space is loaded ends, and the walk of the page tables stops at missing tables; only
    the terminal changes. Then the kernel halts. *)
Theorem panic_isr_halts fuel gs msg f s l : threads_ok s l → (length l ≤ fuel)%nat →
  panic_isr fuel gs msg f s = Panic msg
  ∧ ∃ rest, prints (panic_screen fuel gs msg f) s tt (panic_head msg ++ rest).
Proof.
  intros Hok Hf. destruct (panic_screen_ok fuel gs msg f s l Hok Hf) as (rest & Hp). split; [|by exists rest].
  destruct Hp as (t & E & _). unfold panic_isr. by rewrite (bind_Done _ _ _ _ _ E).
Qed.

Lemma panic_isr_ok fuel gs msg f s l : threads_ok s l → (length l ≤ fuel)%nat → panic_isr fuel gs msg f s = Panic msg.
Proof.
  intros Hok Hf. destruct (panic_screen_ok fuel gs msg f s l Hok Hf) as (rest & t & E & _).
  unfold panic_isr. by rewrite (bind_Done _ _ _ _ _ E).
Qed.
End panic_spec.

Module PanicWitness.
Import Pmm. Import DemoHhdm TermWitness SyscallWitness.
Lemma sys_threads_ok : threads_ok sys_kernel [0x1000].
Proof.
  split; [split; [done|]; split; [done|]; eexists; split; [apply lookup_singleton_eq|done]|].
  intros p t _ Ht _. cbn [threads ps_sched k_proc sys_kernel sys_proc] in Ht. apply lookup_singleton_Some in Ht as [<- <-].
  eexists. apply lookup_singleton_eq.
Qed.
(** A page fault at 0x1234, with the root table's page empty. *)
Definition fault_frame : interrupt_frame := mk_iframe (sys_frame 0 0) 14 4 0x400000 0x2B 0x202 0xEFFF0000 0x23.
Lemma panic_isr_halts_witness : panic_isr 1 0 "Page Fault (14)" fault_frame sys_kernel = Panic "Page Fault (14)".
Proof. apply (proj1 (panic_isr_halts 1 0 "Page Fault (14)" fault_frame sys_kernel [0x1000] sys_threads_ok ltac:(simpl; lia))). Defined.
End PanicWitness.
