(* ===== verification/Fpu.v ===== *)
(** * The floating-point unit at boot: src/init/fpu.c

    The x87 and SSE registers, and the instructions of fpu_init as the processor's manual
    describes them. [fxsave] and [fxrstor] are the image of the registers in 512 bytes of
    memory; every thread starts with the image fpu_init stored ([fpu_default_state] in Sched.v). *)
From S2P Require Import Prelude CMem.

(** [ftw] has a bit per x87 register in use, as the image has. *)
Record fpu_regs := mk_fpu {
  fcw : Z; fsw : Z; ftw : Z; fop : Z; fip : Z; fdp : Z;
  mxcsr : Z;
  st_regs : list Z;          (* eight of 80 bits *)
  xmm : list Z;              (* sixteen of 128 bits *)
}.

(** The bits of MXCSR the processor has: all below 16, with or without DAZ. *)
Class FpuHw := {
  mxcsr_mask : Z;
  mxcsr_mask_known : mxcsr_mask = 0xFFBF ∨ mxcsr_mask = 0xFFFF;
}.

(** The control registers, and the array fpu_default_state from its index 0. *)
Record fpu_machine := mk_fm { cr0 : Z; cr4 : Z; fpu : fpu_regs; default_state : mem }.

Section fpu.
Context `{FpuHw}.

Definition fninit : M fpu_machine unit := modify (λ s,
  let f := fpu s in
  mk_fm (cr0 s) (cr4 s) (mk_fpu 0x37F 0 0 0 0 0 (mxcsr f) (st_regs f) (xmm f)) (default_state s)).
(** xorps %xmm[i], %xmm[i] *)
Definition xorps_self (i : nat) : M fpu_machine unit := modify (λ s,
  let f := fpu s in
  let xmm' := alter (λ v, Z.lxor v v) i (xmm f) in
  mk_fm (cr0 s) (cr4 s) (mk_fpu (fcw f) (fsw f) (ftw f) (fop f) (fip f) (fdp f) (mxcsr f) (st_regs f) xmm') (default_state s)).
(** Reserved bits are a general protection fault. *)
Definition ldmxcsr (v : Z) : M fpu_machine unit :=
  if negb (Z.land v (Z.lnot mxcsr_mask) =? 0) then mundef "#GP"
  else modify (λ s,
    let f := fpu s in
    mk_fm (cr0 s) (cr4 s) (mk_fpu (fcw f) (fsw f) (ftw f) (fop f) (fip f) (fdp f) v (st_regs f) (xmm f)) (default_state s)).

(** Registers of [n] bytes, one every 16 bytes. *)
Fixpoint store_regs (n : nat) (a : Z) (vs : list Z) (m : mem) : mem :=
  match vs with [] => m | v :: vs' => store_regs n (a + 16) vs' (stn n a v m) end.
Fixpoint load_regs (n k : nat) (m : mem) (a : Z) : list Z :=
  match k with O => [] | S k' => ldn n m a :: load_regs n k' m (a + 16) end.

(** The image at [a]; the bytes after the registers are not written. *)
Definition fxsave_control (f : fpu_regs) (a : Z) (m : mem) : mem :=
  st32 (a + 28) mxcsr_mask (st32 (a + 24) (mxcsr f) (st64 (a + 16) (fdp f) (st64 (a + 8) (fip f)
    (stn 2 (a + 6) (fop f) (stn 2 (a + 4) (ftw f) (stn 2 (a + 2) (fsw f) (stn 2 a (fcw f) m))))))).
Definition fxsave (f : fpu_regs) (a : Z) (m : mem) : mem :=
  store_regs 16 (a + 160) (xmm f) (store_regs 10 (a + 32) (st_regs f) (fxsave_control f a m)).
Definition fxrstor (m : mem) (a : Z) : fpu_regs :=
  mk_fpu (ldn 2 m a) (ldn 2 m (a + 2)) (ldn 2 m (a + 4)) (ldn 2 m (a + 6)) (ld64 m (a + 8)) (ld64 m (a + 16))
    (ld32 m (a + 24)) (load_regs 10 8 m (a + 32)) (load_regs 16 16 m (a + 160)).

(** EM off, MP on; OSFXSR and OSXMMEXCPT on. *)
Definition enable_fpu : M fpu_machine unit := modify (λ s,
  let cr0' := Z.lor (Z.land (cr0 s) (u64 (Z.lnot (Z.shiftl 1 2)))) (Z.shiftl 1 1) in
  let cr4' := Z.lor (Z.lor (cr4 s) (Z.shiftl 1 9)) (Z.shiftl 1 10) in
  mk_fm cr0' cr4' (fpu s) (default_state s)).

Definition fpu_init : M fpu_machine unit :=
  _ ← enable_fpu;
  _ ← fninit;
  _ ← for_each (seq 0 16) xorps_self;
  _ ← ldmxcsr 0x1F80;
  modify (λ s, mk_fm (cr0 s) (cr4 s) (fpu s) (fxsave (fpu s) 0 (default_state s))).

(** ** Images *)

Lemma ldb_store_regs n a vs m b : b < a → ldb (store_regs n a vs m) b = ldb m b.
Proof.
  revert a m. induction vs as [|v vs IH]; intros a m Hb; [done|]. simpl. rewrite IH by lia. apply ldb_stn_ne. lia.
Qed.
Lemma ldn_store_regs n k a vs m b : b + Z.of_nat k ≤ a → ldn k (store_regs n a vs m) b = ldn k m b.
Proof. intros Hb. apply ldn_ext. intros i Hi. apply ldb_store_regs. lia. Qed.
Lemma load_regs_ext n k m m' a : (n ≤ 16)%nat → (∀ b, a ≤ b < a + 16 * Z.of_nat k → ldb m' b = ldb m b) →
  load_regs n k m' a = load_regs n k m a.
Proof.
  intros Hn. revert a. induction k as [|k IH]; intros a Hm; [done|]. simpl. f_equal.
  - apply ldn_ext. intros i Hi. apply Hm. lia.
  - apply IH. intros b Hb. apply Hm. lia.
Qed.
Lemma load_store_regs n a vs m : (n ≤ 16)%nat → Forall (λ v, 0 ≤ v < 2 ^ (8 * Z.of_nat n)) vs →
  load_regs n (length vs) (store_regs n a vs m) a = vs.
Proof.
  intros Hn. revert a m. induction vs as [|v vs IH]; intros a m Hvs; [done|]. apply Forall_cons in Hvs as [Hv Hvs]. simpl.
  rewrite ldn_store_regs by lia. rewrite ldn_stn_eq, Z.mod_small by done. f_equal. by apply IH.
Qed.

(** The registers have their widths. *)
Record fpu_ok (f : fpu_regs) : Prop := {
  fo_words : Forall (λ v, 0 ≤ v < 2 ^ 16) [fcw f; fsw f; ftw f; fop f];
  fo_ptrs : 0 ≤ fip f < 2 ^ 64 ∧ 0 ≤ fdp f < 2 ^ 64;
  fo_mxcsr : 0 ≤ mxcsr f < 2 ^ 32;
  fo_st : length (st_regs f) = 8%nat ∧ Forall (λ v, 0 ≤ v < 2 ^ 80) (st_regs f);
  fo_xmm : length (xmm f) = 16%nat ∧ Forall (λ v, 0 ≤ v < 2 ^ 128) (xmm f);
}.

Lemma fxrstor_fxsave f a m : fpu_ok f → fxrstor (fxsave f a m) a = f.
Proof.
  intros [Hw [Hip Hdp] Hmx [Hls Hst] [Hlx Hx]]. destruct f as [w1 w2 w3 w4 ip dp mx st x]. simpl in *.
  apply Forall_cons in Hw as [Hw1 Hw]. apply Forall_cons in Hw as [Hw2 Hw]. apply Forall_cons in Hw as [Hw3 Hw].
  apply Forall_cons in Hw as [Hw4 _].
  unfold fxrstor, fxsave. cbn [fcw fsw ftw fop fip fdp mxcsr st_regs xmm]. f_equal.
  8:{ set (c := fxsave_control _ a m). pose proof (load_store_regs 10 (a + 32) st c ltac:(lia) Hst) as E. rewrite Hls in E.
      rewrite (load_regs_ext _ _ (store_regs 10 (a + 32) st c)); [exact E|lia|]. intros b Hb. apply ldb_store_regs. lia. }
  8:{ set (c := store_regs 10 _ st _). pose proof (load_store_regs 16 (a + 160) x c ltac:(lia) Hx) as E. by rewrite Hlx in E. }
  all: rewrite !ldn_store_regs by lia; unfold fxsave_control; cbn [fcw fsw ftw fop fip fdp mxcsr st_regs xmm];
    repeat first [rewrite ldn_stn_eq; by apply Z.mod_small | rewrite ldn_stn_ne by lia].
Qed.

(** Nothing outside the image's registers is written. *)
Lemma ldb_store_regs_above n a vs m b : (n ≤ 16)%nat → a + 16 * Z.of_nat (length vs) ≤ b → ldb (store_regs n a vs m) b = ldb m b.
Proof.
  intros Hn. revert a m. induction vs as [|v vs IH]; intros a m Hb; [done|]. simpl in *. rewrite IH by lia.
  apply ldb_stn_ne. lia.
Qed.
Lemma ldb_fxsave f a m b : fpu_ok f → a + 416 ≤ b → ldb (fxsave f a m) b = ldb m b.
Proof.
  intros [_ _ _ [Hls _] [Hlx _]] Hb. unfold fxsave, fxsave_control.
  rewrite !ldb_store_regs_above by lia. rewrite !ldb_stn_ne by lia. done.
Qed.

Definition set_xmm (x : list Z) (s : fpu_machine) : fpu_machine :=
  let f := fpu s in
  mk_fm (cr0 s) (cr4 s) (mk_fpu (fcw f) (fsw f) (ftw f) (fop f) (fip f) (fdp f) (mxcsr f) (st_regs f) x) (default_state s).
Lemma xorps_loop pre post s : for_each (seq (length pre) (length post)) xorps_self (set_xmm (pre ++ post) s)
  = Done (tt, set_xmm (pre ++ replicate (length post) 0) s).
Proof.
  revert pre. induction post as [|v post IH]; intros pre; [reflexivity|]. cbn [length seq for_each].
  rewrite (bind_Done (xorps_self _) _ _ tt (set_xmm ((pre ++ [0]) ++ post) s)).
  - specialize (IH (pre ++ [0])). rewrite length_app, Nat.add_1_r in IH. rewrite IH. by rewrite <- (assoc app).
  - unfold xorps_self, modify, set_xmm. cbn [fpu xmm cr0 cr4 fcw fsw ftw fop fip fdp mxcsr st_regs default_state].
    rewrite alter_app_r_alt, Nat.sub_diag by lia. simpl. by rewrite Z.lxor_nilpotent, <- (assoc app).
Qed.
Lemma xorps_all s : length (xmm (fpu s)) = 16%nat →
  for_each (seq 0 16) xorps_self s = Done (tt, set_xmm (replicate 16 0) s).
Proof.
  intros Hx. pose proof (xorps_loop [] (xmm (fpu s)) s) as E. rewrite Hx in E.
  assert (set_xmm ([] ++ xmm (fpu s)) s = s) as Es by (by destruct s as [? ? [] ?]). rewrite Es in E. exact E.
Qed.

(** Fpu_init turns the FPU and SSE on and stores the image of a reset unit: whatever the
    registers held, restoring the image gives the control word 0x37F and MXCSR 0x1F80 (every
    exception masked), no x87 register in use, and zero in the SSE registers, which is what every
    new thread starts with. *)
Theorem fpu_init_image s : fpu_ok (fpu s) →
  ∃ s', fpu_init s = Done (tt, s')
    ∧ Z.testbit (cr0 s') 2 = false ∧ Z.testbit (cr0 s') 1 = true
    ∧ Z.testbit (cr4 s') 9 = true ∧ Z.testbit (cr4 s') 10 = true
    ∧ fpu s' = mk_fpu 0x37F 0 0 0 0 0 0x1F80 (st_regs (fpu s)) (replicate 16 0)
    ∧ fxrstor (default_state s') 0 = fpu s'
    ∧ (∀ i, 416 ≤ i < 512 → ldb (default_state s') i = ldb (default_state s) i).
Proof.
  intros Hok. set (f' := mk_fpu 0x37F 0 0 0 0 0 0x1F80 (st_regs (fpu s)) (replicate 16 0)).
  assert (fpu_ok f') as Hok'.
  { destruct Hok as [_ _ _ Hst _]. split; [by repeat constructor|done|done|done|]. split; [done|by repeat constructor]. }
  exists (mk_fm (Z.lor (Z.land (cr0 s) (u64 (Z.lnot (Z.shiftl 1 2)))) (Z.shiftl 1 1))
    (Z.lor (Z.lor (cr4 s) (Z.shiftl 1 9)) (Z.shiftl 1 10)) f' (fxsave f' 0 (default_state s))). split.
  - unfold fpu_init, enable_fpu, fninit. rewrite !modify_bind.
    erewrite bind_Done; [|apply xorps_all; exact (proj1 (fo_xmm _ Hok))].
    assert (Z.land 0x1F80 (Z.lnot mxcsr_mask) = 0) as Hmask by (destruct mxcsr_mask_known as [-> | ->]; reflexivity).
    unfold ldmxcsr. rewrite Hmask. reflexivity.
  - cbn [cr0 cr4 fpu default_state]. rewrite !Z.lor_spec, Z.land_spec.
    split; [by rewrite andb_false_r|]. split; [apply orb_true_r|]. split; [by rewrite orb_true_r|]. split; [apply orb_true_r|].
    split; [done|]. split; [by apply fxrstor_fxsave|]. intros i Hi. apply ldb_fxsave; lia || done.
Qed.
End fpu.

Module FpuWitness.
#[export, program] Instance demo_fpu : FpuHw := {| mxcsr_mask := 0xFFFF |}.
Next Obligation. by right. Qed.
Definition used_fpu : fpu_regs := mk_fpu 0x27F 0x3800 1 0 0x1234 0 0x9FC0 (replicate 8 7) (replicate 16 (2 ^ 128 - 1)).
Lemma used_fpu_ok : fpu_ok used_fpu.
Proof. split; try by repeat constructor. Qed.
Lemma fpu_init_image_witness : ∃ s', fpu_init (mk_fm 0x80000015 0x20 used_fpu ∅) = Done (tt, s')
  ∧ fcw (fxrstor (default_state s') 0) = 0x37F ∧ xmm (fxrstor (default_state s') 0) = replicate 16 0.
Proof.
  destruct (fpu_init_image (mk_fm 0x80000015 0x20 used_fpu ∅) used_fpu_ok) as (s' & Hr & _ & _ & _ & _ & Hf & Hx & _).
  exists s'. split; [exact Hr|]. rewrite Hx, Hf. split; reflexivity.
Defined.
End FpuWitness.
