(* ===== verification/Kernel.v ===== *)
(** * The kernel put together: src/main.c, src/acpi/acpi.c, fb_init, and the
    interrupt handlers on the state of the whole kernel

    The instances say what the handler tables of isr.c and irq.c contain; kmain runs the
    parts in the order of main.c. What uACPI does is a parameter. *)
From S2P Require Import Prelude CMem CString Words Chain Phys Pmm Vmm Heap Guard Fb Term Vfs Tarfs Fd.
From S2P Require Import Bstree Vma Sched Clock Elf Stack Proc Desc Entry Pic Apic Dispatch Syscall Panic Fpu.

(** struct limine_framebuffer and the other answers of the boot loader; eax of CPUID leaf
    0x80000008, the address of load_init, and the content of gs. *)
Record limine_framebuffer := mk_lfb { lf_address : Z; lf_width : Z; lf_height : Z; lf_pitch : Z; lf_bpp : Z }.
Class BootInfo := {
  limine_base_revision_supported : bool;
  framebuffer0 : limine_framebuffer;
  module0_address : Z;
  cpuid_phys_eax : Z;
  load_init_addr : Z;
  gs_selector : Z;
}.
(** pmm_init, vmm_init, and the self-test of the build with KMALLOC_CANARY. *)
Class BootMemory (H : Type) := {
  boot_pmm_init : M H unit;
  boot_vmm_init : Z → M H unit;
  boot_selftest : option (M H bool);
}.
#[export] Instance kernel_boot_memory `{Memmap} : BootMemory (heap_state pmm_state) := {|
  boot_pmm_init := on_vm (on_pages pmm_init);
  boot_vmm_init eax := on_vm (vmm_init eax);
  boot_selftest := None;
|}.
#[export] Instance guard_boot_memory `{Memmap} : BootMemory (guard_state pmm_state) := {|
  boot_pmm_init := on_g (on_vm (on_pages pmm_init));
  boot_vmm_init eax := on_g (on_vm (vmm_init eax));
  boot_selftest := Some kmalloc_canary_selftest;
|}.

(** uACPI, and the handlers it registers. *)
Class UacpiInit (H : Type) := {
  uacpi_initialize : Z → M (kernel_state H) Z;
  uacpi_namespace_load : M (kernel_state H) Z;
  uacpi_namespace_initialize : M (kernel_state H) Z;
  uacpi_finalize_gpe_initialization : M (kernel_state H) Z;
  uacpi_unlikely_error : Z → bool;
  run_uacpi_handler : Z → interrupt_frame → M (kernel_state H) unit;
}.

Section kernel.
Context `{OH : ObjectHeap H} `{KM : !KernelMem H} `{UM : !UserMap H} `{AS : !AddrSpaces H} `{MM : !Mmio H} `{KS : !KernelSpace H}
  `{BM : !BootMemory H} `{UI : !UacpiInit H}.
Context `{EF : ElfFrame} `{TI : ThreadImage} `{BT : Bstree} `{TS : TreeStruct} `{UA : Uart} `{AB : Abi} `{HH : Hhdm}
  `{HW : ClockHw} `{SA : SyscallAbi} `{AH : ApicHw} `{ML : MadtLayout} `{FH : FpuHw} `{BI : BootInfo} `{KI : KernelImage}.
Abbreviation K := (kernel_state H).

(** ** Interrupts *)

Definition on_pics {A} : M pics A → M K A := zoom k_pics (λ p s,
  mk_kernel H (k_proc s) (k_apic s) p (k_tables s) (k_cr2 s) (k_msrs s) (percpu s)).
Definition on_tables {A} : M tables A → M K A := zoom k_tables (λ t s,
  mk_kernel H (k_proc s) (k_apic s) (k_pics s) t (k_cr2 s) (k_msrs s) (percpu s)).

(** [fuel] bounds the list of pages of an area and the list of threads. *)
#[export] Instance kernel_handlers (fuel : nat) : Handlers K := {|
  h_tables := k_tables;
  call_isr h f := match h with PageFaultHandler => λ s, on_p (page_fault_handler fuel (k_cr2 s)) s end;
  call_irq h f := match h with TimerHandler => on_p timer_handler | UacpiHandler a => run_uacpi_handler a f end;
|}.
#[export] Instance kernel_controllers : Controllers K := {|
  c_lapic_is_enabled := on_apic lapic_is_enabled;
  c_lapic_eoi := on_apic lapic_eoi;
  c_pic_send_eoi irq := on_pics (pic_send_eoi irq);
|}.
#[export] Instance kernel_console (fuel : nat) : Console K := {|
  con_write str := on_kterm (terminal_write str);
  con_write_u8 v := on_kterm (terminal_write_u8 v);
  con_panic_isr msg f := panic_isr fuel gs_selector msg f;
|}.
Definition kernel_isr (fuel : nat) (f : interrupt_frame) : M K unit :=
  isr_handler (HS := kernel_handlers fuel) (CO := kernel_console fuel) f.
Definition kernel_irq (fuel : nat) (f : interrupt_frame) : M K unit :=
  irq_handler (HS := kernel_handlers fuel) (CO := kernel_console fuel) f.

(** ** The machine at boot: the kernel's state, the descriptor tables, the FPU with CR0 and CR4, and RFLAGS *)

Record boot_state := mk_boot {
  b_kernel : K;
  b_desc : desc_state;
  b_fpu : fpu_machine;
  b_rflags : Z;
}.
Definition on_kernel {A} : M K A → M boot_state A := zoom b_kernel (λ k b, mk_boot k (b_desc b) (b_fpu b) (b_rflags b)).
Definition on_desc {A} : M desc_state A → M boot_state A := zoom b_desc (λ d b, mk_boot (b_kernel b) d (b_fpu b) (b_rflags b)).
Definition sti : M boot_state unit := modify (λ b, mk_boot (b_kernel b) (b_desc b) (b_fpu b) (Z.lor (b_rflags b) 0x200)).

Definition on_fpu {A} : M fpu_machine A → M boot_state A := zoom b_fpu (λ f b, mk_boot (b_kernel b) (b_desc b) f (b_rflags b)).

(** acpi.c *)
Definition acpi_init : M K unit :=
  ret ← uacpi_initialize 0;
  if uacpi_unlikely_error ret then mpanic "Failed to initialize uACPI" else mret tt.
Definition acpi_namespace_init : M K unit :=
  ret ← uacpi_namespace_load;
  if uacpi_unlikely_error ret then mpanic "Failed to load AML namespace"
  else
    ret ← uacpi_namespace_initialize;
    if uacpi_unlikely_error ret then mpanic "Failed to initialize AML namespace"
    else
      ret ← uacpi_finalize_gpe_initialization;
      if uacpi_unlikely_error ret then mpanic "uACPI GPE initialization error" else mret tt.

(** fb.c. The memset of fb0 itself is the record's construction. *)
Definition sizeof_framebuffer : Z := 64.
Definition set_fb0 (fb : reddyos_framebuffer) : M K unit :=
  on_kio (modify (λ io, mk_kio (io_fs io) (io_mem io) (Some fb) (io_term io))).
Definition fb_init : M K unit :=
  let l := framebuffer0 in
  if lf_address l =? 0 then mpanic "No framebuffer address provided by bootloader"
  else
    fb0 ← on_p (on_k (oh_alloc sizeof_framebuffer));
    if fb0 =? 0 then mpanic "Failed to allocate memory for framebuffer"
    else
      let size := u64 (lf_pitch l * lf_height l) in
      back ← on_p (on_k (oh_alloc size));
      _ ← set_fb0 (mk_fb (lf_address l) back (lf_width l) (lf_height l) (lf_pitch l) (lf_bpp l) size);
      on_kio (λ io, m ← CMem.memset back 0 size (io_mem io); Done (tt, mk_kio (io_fs io) m (io_fb io) (io_term io))).
Definition fb_device : M K unit :=
  fb0 ← gets (λ s, io_fb (k_io s));
  _ ← (match fb0 with None => fb_init | Some _ => mret tt end);
  fb0 ← gets (λ s, io_fb (k_io s));
  match fb0 with
  | None => mundef "fb0->size"
  | Some fb => on_kio (on_fs (fb_device_init fb))
  end.

(** ** main.c *)

Definition init_memory : M K unit :=
  _ ← on_p (on_k boot_pmm_init);
  on_p (on_k (boot_vmm_init cpuid_phys_eax)).

Definition init_basic_interrupts : M boot_state unit :=
  _ ← on_desc gdt_install;
  _ ← on_desc idt_init;
  _ ← on_kernel (on_pics irq_init);
  _ ← on_desc irq_install;
  sti.

(** tarfs.c *)
Definition tarsf_limine_init (fuel : nat) : M K unit := on_kio (λ io,
  fs ← tarfs_init fuel module0_address (io_mem io) (io_fs io); Done (tt, mk_kio fs (io_mem io) (io_fb io) (io_term io))).

Definition init_filesystem (fuel : nat) : M K unit :=
  _ ← tarsf_limine_init fuel;
  _ ← on_p (on_f fd_init);
  _ ← on_kio (on_fs devfs_init);
  r ← on_kio (on_fs (mount_fs (Some "/dev"%string) (Some devfs_root)));
  if negb (r =? 0) then on_kterm (terminal_write "Warning: failed to mount /dev
") else mret tt.

Definition register_devices : M K unit :=
  _ ← fb_device;
  on_kio (on_fs terminal_device_init).

Definition canary_selftest : M K unit :=
  match boot_selftest with
  | Some test =>
      ok ← on_p (on_k test);
      if negb ok then mpanic "KMALLOC_CANARY self-test failed" else mret tt
  | None => on_kterm (terminal_write "KMALLOC_CANARY self-test: N/A
")
  end.

(** Up to a call of hcf, which stops the machine. *)
Definition kmain (tries fuel : nat) : M boot_state unit :=
  if negb limine_base_revision_supported then mret tt
  else
    _ ← on_kernel (on_kterm terminal_init);
    _ ← on_kernel (on_kterm (terminal_write "Booted
"));
    _ ← on_kernel init_memory;
    _ ← init_basic_interrupts;
    _ ← on_kernel acpi_init;
    _ ← on_kernel (on_clocks (clocks_init tries fuel));
    _ ← on_kernel (on_apic (init_apic fuel));
    _ ← on_fpu fpu_init;
    _ ← on_kernel (on_tables (irq_register_handler 32 TimerHandler));
    _ ← on_kernel (on_tables (isr_register_handler 14 PageFaultHandler));
    _ ← on_kernel (init_filesystem fuel);
    _ ← on_kernel register_devices;
    _ ← on_kernel syscall_init;
    _ ← on_kernel (on_p (on_sched scheduler_init));
    _ ← on_kernel canary_selftest;
    a ← on_kernel (on_p (on_sched (thread_create load_init_addr)));
    _ ← on_kernel (on_p (on_sched (scheduler_add a)));
    on_kernel (on_apic (lapic_timer_start fuel)).
End kernel.

(** ** Specification *)

Section kernel_spec.
Context `{OH : ObjectHeap H} `{KM : !KernelMem H} `{UM : !UserMap H} `{AS : !AddrSpaces H} `{MM : !Mmio H} `{KS : !KernelSpace H}
  `{BM : !BootMemory H} `{UI : !UacpiInit H}.
Context `{EF : ElfFrame} `{TI : ThreadImage} `{BTL : BstreeLaws} `{TS : TreeStruct} `{UA : Uart} `{AB : Abi} `{HH : Hhdm}
  `{HW : ClockHw} `{SA : SyscallAbi} `{AH : ApicHw} `{ML : MadtLayout} `{FH : FpuHw} `{BI : BootInfo} `{KL : KernelImageLaws}.
Abbreviation K := (kernel_state H).
Implicit Types (s : K).

Lemma early_lapic fuel f s : lapic (k_apic s) = 0 → kernel_irq fuel f s = Undef "NULL lapic".
Proof.
  intros Hl. unfold kernel_irq, irq_handler. cbn [c_lapic_is_enabled kernel_controllers].
  assert (on_apic lapic_is_enabled s = Undef "NULL lapic") as E; [|by unfold mbind, M_bind; rewrite E].
  unfold on_apic, zoom, lapic_is_enabled, mbind, M_bind, lapic_read.
  change (lapic (get_apic s)) with (lapic (k_apic s)). by rewrite Hl.
Qed.

(** The three steps of init_basic_interrupts on the descriptor tables. *)
Lemma install_steps d : ∃ d1 d2 d3, gdt_install d = Done (tt, d1) ∧ idt_init d1 = Done (tt, d2)
  ∧ irq_install d2 = Done (tt, d3) ∧ idtr d3 = (4095, idt_addr).
Proof.
  destruct (gdt_install_ok d) as (m1 & E1 & _).
  assert (0 ≤ seg_cs (gdt_loaded d m1) < 2 ^ 16) as Hcs by (vm_compute; split; congruence).
  generalize dependent (gdt_loaded d m1). intros d1 E1 Hcs.
  destruct (idt_init_ok d1 Hcs) as (m2 & E2 & _).
  assert (0 ≤ kernel_cs_selector (idt_loaded d1 m2) < 2 ^ 16 ∧ idtr (idt_loaded d1 m2) = (4095, idt_addr)) as [Hsel Hidt] by by split.
  generalize dependent (idt_loaded d1 m2). intros d2 E2 Hsel Hidt.
  destruct (irq_install_ok d2 Hsel) as (m3 & E3 & _).
  assert (idtr (set_d_mem m3 d2) = (4095, idt_addr)) as Hidt' by exact Hidt.
  generalize dependent (set_d_mem m3 d2). intros d3 E3 Hd.
  exists d1, d2, d3. exact (conj E1 (conj E2 (conj E3 Hd))).
Qed.
(** The PICs as irq_init leaves them. *)
Definition pics_masked : pics := mk_pics (mk_pic Ready 0x11 32 4 1 0xFF 0) (mk_pic Ready 0x11 40 2 1 0xFF 0).
Lemma masked_all i : 0 ≤ i < 16 → unmasked pics_masked i = false.
Proof.
  intros Hi. assert (∃ n, (n < 16)%nat ∧ i = Z.of_nat n) as (n & Hn & ->) by (exists (Z.to_nat i); lia).
  do 16 (destruct n as [|n]; [reflexivity|]). lia.
Qed.
Lemma on_pics_init s : on_pics irq_init s = Done (tt,
  mk_kernel H (k_proc s) (k_apic s) pics_masked (k_tables s) (k_cr2 s) (k_msrs s) (percpu s)).
Proof. exact (zoom_Done k_pics _ _ s _ _ (irq_init_ok (k_pics s))). Qed.

Lemma on_desc_Done {A} (m : M desc_state A) (k : K) d f fl x d' : m d = Done (x, d') →
  on_desc m (mk_boot k d f fl) = Done (x, mk_boot k d' f fl).
Proof. exact (zoom_Done b_desc _ m (mk_boot k d f fl) x d'). Qed.
Lemma on_kernel_Done {A} (m : M K A) (k : K) d f fl x k' : m k = Done (x, k') →
  on_kernel m (mk_boot k d f fl) = Done (x, mk_boot k' d f fl).
Proof. exact (zoom_Done b_kernel _ m (mk_boot k d f fl) x k'). Qed.

(** C39: init_basic_interrupts turns interrupts on while the pointer to the local APIC is still
    NULL, which it stays until init_apic: every line of the PICs is masked, but any
    interrupt that arrives nevertheless makes irq_handler read through NULL. *)
Theorem irq_before_apic b : lapic (k_apic (b_kernel b)) = 0 →
  ∃ b', init_basic_interrupts b = Done (tt, b') ∧ Z.testbit (b_rflags b') 9 = true
    ∧ idtr (b_desc b') = (256 * 16 - 1, idt_addr)
    ∧ (∀ i, 0 ≤ i < 16 → unmasked (k_pics (b_kernel b')) i = false)
    ∧ ∀ fuel f, kernel_irq fuel f (b_kernel b') = Undef "NULL lapic".
Proof.
  intros Hl. destruct b as [s d fpu0 fl]. cbn [b_kernel] in Hl.
  destruct (install_steps d) as (d1 & d2 & d3 & E1 & E2 & E3 & Hd).
  set (s' := mk_kernel H (k_proc s) (k_apic s) pics_masked (k_tables s) (k_cr2 s) (k_msrs s) (percpu s)).
  exists (mk_boot s' d3 fpu0 (Z.lor fl 0x200)).
  split.
  - unfold init_basic_interrupts.
    rewrite (bind_Done _ _ _ _ _ (on_desc_Done gdt_install s d fpu0 fl _ _ E1)).
    rewrite (bind_Done _ _ _ _ _ (on_desc_Done idt_init s d1 fpu0 fl _ _ E2)).
    rewrite (bind_Done _ _ _ _ _ (on_kernel_Done _ s d2 fpu0 fl _ _ (on_pics_init s))).
    rewrite (bind_Done _ _ _ _ _ (on_desc_Done irq_install s' d2 fpu0 fl _ _ E3)). reflexivity.
  - split; [cbn [b_rflags]; by rewrite Z.lor_spec, orb_true_r|]. split; [exact Hd|]. split; [exact masked_all|].
    intros fuel f. by apply early_lapic.
Qed.

Lemma with_heap_term_same s : with_heap_term (fd_heap (vs_fd (k_vs s))) (io_term (k_io s)) (k_proc s) = k_proc s.
Proof. by destruct s as [[[[[? [? ? ? ?] ? ? ? ? ? ?] ? ? ? ?] ? ? ? ? ? ?] ?] ? ? ? ? ? ?]. Qed.

(** The local APIC is there and software-enabled, and the tables have their sizes. *)
Record irqs_ok s : Prop := {
  io_lapic : lapic_ok (k_apic s);
  io_enabled : Z.land (l_reg (ld (k_apic s)) LAPIC_SVR) 0x100 ≠ 0;
  io_tables : tables_ok (k_tables s);
}.

Lemma lapic_ack s : irqs_ok s → ∃ s1 s2, on_apic lapic_is_enabled s = Done (true, s1) ∧ on_apic lapic_eoi s1 = Done (tt, s2)
  ∧ k_proc s2 = k_proc s ∧ k_pics s2 = k_pics s ∧ k_tables s2 = k_tables s ∧ k_cr2 s2 = k_cr2 s ∧ k_msrs s2 = k_msrs s
  ∧ ld (k_apic s2) = mk_ld (l_regs (ld (k_apic s))) (l_started (ld (k_apic s))) (Datatypes.S (l_eois (ld (k_apic s)))).
Proof.
  intros [Hok Hen _]. assert (lapic_ok (get_apic s)) as Hok' by exact Hok.
  assert (on_apic lapic_is_enabled s = Done (true, put_apic (set_enabled true (get_apic s)) s)) as E1.
  { unfold on_apic, zoom, lapic_is_enabled. rewrite (bind_Done _ _ _ _ _ (lapic_read_ok LAPIC_SVR _ Hok')).
    unfold lapic_load. change (LAPIC_SVR =? LAPIC_TIMER_CURRCNT) with false. cbv beta iota zeta.
    change (ld (get_apic s)) with (ld (k_apic s)). by rewrite (proj2 (Z.eqb_neq _ _) Hen). }
  set (s1 := put_apic (set_enabled true (get_apic s)) s) in *.
  assert (lapic_ok (get_apic s1)) as Hok1 by exact Hok.
  exists s1. eexists. split; [exact E1|]. split.
  { unfold on_apic, zoom, lapic_eoi. rewrite (lapic_write_ok LAPIC_EOI 0 _ Hok1). reflexivity. }
  split; [|by repeat split]. exact (with_heap_term_same s).
Qed.

(** A timer interrupt is ended at the local APIC, once, and then schedule runs on the state of
    threads and processes as the interrupt found it. *)
Theorem timer_interrupt fuel f s : irqs_ok s → irq_handlers (k_tables s) !! 32%nat = Some (Some TimerHandler) →
  interrupt_number f = 32 →
  ∃ s1, kernel_irq fuel f s = on_p (on_sched schedule) s1 ∧ k_proc s1 = k_proc s
    ∧ l_eois (ld (k_apic s1)) = Datatypes.S (l_eois (ld (k_apic s))).
Proof.
  intros Hok Hh Hf. destruct (lapic_ack s Hok) as (s1 & s2 & E1 & E2 & Hp & _ & Ht & _ & _ & Hld).
  exists s2. split; [|split; [exact Hp|by rewrite Hld]].
  unfold kernel_irq, irq_handler. cbn [c_lapic_is_enabled c_lapic_eoi kernel_controllers].
  rewrite (bind_Done _ _ _ _ _ E1), (bind_Done _ _ _ _ _ E2). unfold irq_dispatch. rewrite Hf. cbn [h_tables kernel_handlers].
  rewrite gets_bind, Ht. change (Z.to_nat (u8 32)) with 32%nat. rewrite Hh. reflexivity.
Qed.
(** The access is neither in the part of the address space where the stack may grow nor in an area. *)
Record bad_access s (x : process) (p addr : Z) : Prop := {
  ba_range : 0 ≤ addr < 2 ^ 64 - PAGE_SIZE;
  ba_stack : addr + PAGE_SIZE < p_user_stack_bottom_max x ∨ p_user_stack_bottom x ≤ addr;
  ba_area : ∃ xs L ns, vma_inv (k_vs s) p xs L ns ∧ ¬ covered xs addr;
}.

(** CUR_PROCESS as vma.c last read it. *)
Definition cur_read (p : Z) s : K :=
  let v := k_vs s in
  set_proc_state (set_v (mk_vs H (vs_fd v) (areas v) (ppages v) (pvms v) p) (k_proc s)) s.
Lemma cur_read_inv p q s xs L ns : vma_inv (k_vs s) p xs L ns → vma_inv (k_vs (cur_read q s)) p xs L ns.
Proof. by intros []. Qed.
Lemma cur_read_threads p s l : threads_ok s l → threads_ok (cur_read p s) l.
Proof. by intros []. Qed.

Lemma bad_access_refused fuel s th x addr : running s th x → bad_access s x (t_process th) addr →
  on_p (page_fault_handler fuel addr) s = Done (false, cur_read (t_process th) s).
Proof.
  intros [Hcur Ht [Hp0 Hx] _] [Hrange Hst (xs & L & ns & Hinv & Hcov)].
  unfold on_p, zoom, page_fault_handler.
  assert (on_sched (gets current_thread) (k_proc s) = Done (current_thread (ps_sched (k_proc s)), k_proc s)) as Ec by (by destruct (k_proc s)).
  rewrite (bind_Done _ _ _ _ _ Ec), (proj2 (Z.eqb_neq _ 0) Hcur).
  assert (CUR_PROCESS (k_proc s) = Done (t_process th, k_proc s)) as Ep.
  { unfold CUR_PROCESS, on_sched, zoom, gets, get_thread, mbind, M_bind. rewrite Ht. by destruct (k_proc s). }
  rewrite (bind_Done _ _ _ _ _ Ep), (proj2 (Z.eqb_neq _ 0) Hp0).
  rewrite (bind_Done _ _ _ _ _ (proc_at_ok _ _ x Hx)).
  assert (u64 (addr + PAGE_SIZE) = addr + PAGE_SIZE) as -> by (apply u64_small; unfold PAGE_SIZE in *; lia).
  assert ((p_user_stack_bottom_max x <=? addr + PAGE_SIZE) && (addr <? p_user_stack_bottom x) = false) as ->.
  { destruct Hst; [rewrite (proj2 (Z.leb_gt _ _)) by done|rewrite (proj2 (Z.ltb_ge addr _)) by done; rewrite andb_false_r]; done. }
  rewrite (bind_Done (mret false) _ _ false (k_proc s) eq_refl).
  destruct (vma_find_ok _ _ xs L ns addr (cur_read_inv _ (t_process th) s xs L ns Hinv)) as (r & Hf & _ & Hno).
  rewrite (Hno Hcov) in Hf. set (p1 := k_proc (cur_read (t_process th) s)).
  assert (on_vma (vma_find (t_process th) addr) (k_proc s) = Done (0, p1)) as Ef.
  { unfold on_vma. rewrite (bind_Done _ _ _ _ _ Ep). rewrite (bind_Done _ _ _ tt p1 eq_refl).
    rewrite (on_v_Done (vma_find (t_process th) addr) p1 0 (get_v p1) Hf). reflexivity. }
  by rewrite (bind_Done _ _ _ _ _ Ef).
Qed.

(** C40: a program that touches memory that is neither its stack nor one of its areas stops the
    whole kernel: page_fault_handler refuses the fault and isr_handler panics; no code
    ends only the process. *)
Theorem user_fault_panics fuel f s th x l : running s th x → bad_access s x (t_process th) (k_cr2 s) →
  tables_ok (k_tables s) → isr_handlers (k_tables s) !! 14%nat = Some (Some PageFaultHandler) → interrupt_number f = 14 →
  threads_ok s l → (length l ≤ fuel)%nat →
  kernel_isr fuel f s = Panic "Page Fault (14)".
Proof.
  intros Hr Hbad Htab Hh Hf Hl Hfuel. unfold kernel_isr.
  transitivity (con_panic_isr (Console := kernel_console fuel) (panic_message (Z.of_nat 14)) f (cur_read (t_process th) s)).
  - apply (proj2 (isr_handler_ok (HS := kernel_handlers fuel) (CO := kernel_console fuel) f s 14 Htab Hf ltac:(lia))).
    cbn [h_tables kernel_handlers]. rewrite Hh. cbn [default id from_option call_isr]. by eapply bad_access_refused.
  - exact (panic_isr_ok fuel gs_selector _ f _ l (cur_read_threads _ _ _ Hl) Hfuel).
Qed.
End kernel_spec.

Module KernelWitness.
Import Pmm. Import DemoHhdm DemoBst VfsWitness TermWitness SchedWitness ClockWitness PicWitness ElfWitness ApicWitness
  SyscallWitness PanicWitness DescWitness.
#[export] Instance demo_boot : BootInfo := {|
  limine_base_revision_supported := true; framebuffer0 := mk_lfb 0xFFFF8000FD000000 1024 768 4096 32;
  module0_address := 0x20000; cpuid_phys_eax := 46; load_init_addr := 0x700; gs_selector := 0;
|}.
Definition demo_boot_fpu : fpu_machine := mk_fm 0x80000011 0x20 FpuWitness.used_fpu ∅.
#[export] Instance demo_uacpi : UacpiInit (heap_state pmm_state) := {|
  uacpi_initialize _ := mret 0; uacpi_namespace_load := mret 0; uacpi_namespace_initialize := mret 0;
  uacpi_finalize_gpe_initialization := mret 0; uacpi_unlikely_error r := negb (r =? 0); run_uacpi_handler _ _ := mret tt;
|}.

Lemma irq_before_apic_witness : ∃ b', init_basic_interrupts (mk_boot sys_kernel desc_zero demo_boot_fpu 0) = Done (tt, b')
  ∧ Z.testbit (b_rflags b') 9 = true ∧ kernel_irq 0 fault_frame (b_kernel b') = Undef "NULL lapic".
Proof.
  destruct (irq_before_apic (mk_boot sys_kernel desc_zero demo_boot_fpu 0) eq_refl) as (b' & Hr & Hf & _ & _ & Hi).
  exists b'. split; [exact Hr|]. split; [exact Hf|]. apply Hi.
Defined.

(** The kernel with its handlers registered, the local APIC found and enabled; thread 0x1000 of
    process 0x900, which has no areas, has touched address 0x10. *)
Definition run_tables : tables :=
  mk_tables (<[14%nat := Some PageFaultHandler]> (replicate 32 None)) (<[32%nat := Some TimerHandler]> (replicate 256 None)).
Definition run_process : process := mk_process (mk_as 0 0) 0x400000 0xf0000000 0xEFFE0000 0xEFF60000 0 5.
Definition run_proc : proc_state (heap_state pmm_state) := mk_ps _
  (mk_ss _ (mk_vs _ (mk_fd _ sys_heap (mk_kio demo_fs user_mem None (mk_term true 0 [])) ∅ ∅ 0 [] 0 ∅) ∅ ∅
    {[ 0x900 := mk_pvm (mk_as 0 0) Leaf ]} 0)
    {[ 0x1000 := sys_thread ]} {[ 0x900 := run_process ]} 0x1000 0x1000 2 demo_regs) 6.
Definition run_apic : apic_state (heap_state pmm_state) :=
  mk_apic _ sys_ck 0xFEE00800 0xFEE00000 0 (phys_to_virt 0xFEE00000) true 0 (mk_ld {[ LAPIC_SVR := 0x1FF ]} 0 0) (mk_io 0 ∅).
Definition run_kernel : kernel_state (heap_state pmm_state) :=
  mk_kernel _ run_proc run_apic pics_init run_tables 0x10 ∅ (mk_percpu 0 0 0).

Lemma run_irqs : irqs_ok run_kernel.
Proof. split; [by vm_compute|by vm_compute|by split]. Qed.
Lemma timer_interrupt_witness : ∃ s1, kernel_irq 4 (mk_iframe (sys_frame 0 0) 32 0 0x400000 0x2B 0x202 0xEFFF0000 0x23) run_kernel
    = on_p (on_sched schedule) s1 ∧ l_eois (ld (k_apic s1)) = 1%nat.
Proof.
  destruct (timer_interrupt 4 (mk_iframe (sys_frame 0 0) 32 0 0x400000 0x2B 0x202 0xEFFF0000 0x23) run_kernel run_irqs eq_refl eq_refl)
    as (s1 & Hr & _ & He). exists s1. split; [exact Hr|exact He].
Defined.

Lemma run_heap_live : heap_live sys_heap [] [].
Proof.
  split; [constructor|]. destruct sys_vm_ok as [(root & Hinv & Hroot) Hmask].
  exists root, {[ [] := root_page ]}, all_pages, []. split; [|by split].
  split; [exact Hinv|exact Hroot|exact Hmask|done|done|by split|].
  intros b v Hb. destruct (not_elem_of_nil _ Hb).
Qed.
Lemma run_running : running run_kernel sys_thread run_process.
Proof. split; [done|apply lookup_singleton_eq|split; [done|apply lookup_singleton_eq]|by repeat split]. Qed.
Lemma run_bad : bad_access run_kernel run_process 0x900 0x10.
Proof.
  split; [by vm_compute|left; by vm_compute|]. exists [], [], []. split.
  - split.
    + eexists. split; [apply lookup_singleton_eq|done].
    + constructor.
    + done.
    + constructor.
    + exact run_heap_live.
    + intros p Hp. destruct (not_elem_of_nil _ Hp).
  - intros (x & Hx & _). destruct (not_elem_of_nil _ Hx).
Qed.
Lemma run_threads : threads_ok run_kernel [0x1000].
Proof.
  split; [split; [done|]; split; [done|]; eexists; split; [apply lookup_singleton_eq|done]|].
  intros p t _ Ht _. cbn [threads ps_sched k_proc run_kernel run_proc] in Ht. apply lookup_singleton_Some in Ht as [<- <-].
  eexists. apply lookup_singleton_eq.
Qed.
Lemma user_fault_panics_witness : kernel_isr 4 fault_frame run_kernel = Panic "Page Fault (14)".
Proof.
  apply (user_fault_panics 4 fault_frame run_kernel sys_thread run_process [0x1000] run_running run_bad); [by split|reflexivity..|exact run_threads|simpl; lia].
Defined.
End KernelWitness.
