(* ===== verification/Boot.v ===== *)
(** * What the boot leaves: the file system and the open files of a booted kernel

    init_filesystem and register_devices of main.c on the state of the whole kernel: every
    file of the initial archive and every device is found by its path, and the tables of open
    files are those the file system calls start from. *)
From Stdlib Require Import Ascii.
From S2P Require Import Prelude CMem CString Words Chain Phys Pmm Vmm Heap Guard Fb Term Vfs Tarfs Bootfs Fd Files Streams.
From S2P Require Import Bstree Vma Sched Clock Elf Stack Proc Desc Entry Pic Apic Dispatch Syscall Panic Fpu Kernel.

Section boot.
Context `{OHL : ObjectHeapLaws H} `{KM : !KernelMem H} `{UM : !UserMap H} `{AS : !AddrSpaces H} `{MM : !Mmio H} `{KS : !KernelSpace H}
  `{BM : !BootMemory H} `{UI : !UacpiInit H}.
Context `{EF : ElfFrame} `{TI : ThreadImage} `{BTL : BstreeLaws} `{TS : TreeStruct} `{UA : Uart} `{AB : Abi} `{HH : Hhdm}
  `{HW : ClockHw} `{SA : SyscallAbi} `{AH : ApicHw} `{ML : MadtLayout} `{FH : FpuHw} `{BI : BootInfo} `{KL : KernelImageLaws}.
Abbreviation K := (kernel_state H).
Abbreviation D := (fd_state H).
Implicit Types (s : K) (d : D).

(** The part of the kernel's state these steps work on. *)
Definition k_fd s : D := vs_fd (k_vs s).
Definition with_fd d s : K :=
  let c := ps_sched (k_proc s) in
  let v := ss_heap c in
  set_proc_state (mk_ps H (mk_ss _ (mk_vs H d (areas v) (ppages v) (pvms v) (cur_process v))
    (threads c) (processes c) (current_thread c) (thread_list c) (next_tid c) (regs c)) (next_pid (k_proc s))) s.
Lemma with_fd_self s : with_fd (k_fd s) s = s.
Proof. by destruct s as [[[[]] ?] ? ? ? ? ? ?]. Qed.

(** [m] takes the files' state from [d] to [d'] and gives [x]. *)
Definition does {A} (m : M K A) s d x d' : Prop := m (with_fd d s) = Done (x, with_fd d' s).
Lemma does_bind {A B} (m : M K A) (f : A → M K B) s d x d1 y d2 : does m s d x d1 → does (f x) s d1 y d2 → does (m ≫= f) s d y d2.
Proof. intros Em Ef. unfold does. by rewrite (bind_Done _ _ _ _ _ Em). Qed.
Lemma does_f {A} (m : M D A) s d x d' : m d = Done (x, d') → does (on_p (on_f m)) s d x d'.
Proof.
  intros E. unfold does, on_p, on_f, on_v, on_sched, on_ss_heap, on_fd, zoom.
  change (vs_fd (ss_heap (ps_sched (k_proc (with_fd d s))))) with d. by rewrite E.
Qed.

Definition with_d_io (io : kio) d : D := mk_fd H (fd_heap d) io (files d) (fd_objs d) (gft_ptr d) (global_file_table d) (global_file_capacity d) (procs d).
Definition with_d_heap (h : H) d : D := mk_fd H h (fd_io d) (files d) (fd_objs d) (gft_ptr d) (global_file_table d) (global_file_capacity d) (procs d).
Definition with_fs (fs : fs_state) d : D := let io := fd_io d in with_d_io (mk_kio fs (io_mem io) (io_fb io) (io_term io)) d.
Lemma does_io {A} (m : M kio A) s d x io : m (fd_io d) = Done (x, io) → does (on_kio m) s d x (with_d_io io d).
Proof. intros E. apply does_f. exact (zoom_Done fd_io _ m d x io E). Qed.
Lemma does_io_eq {A} (m : M kio A) s d x io d' : m (fd_io d) = Done (x, io) → d' = with_d_io io d → does (on_kio m) s d x d'.
Proof. intros E ->. by apply does_io. Qed.
Lemma does_heap {A} (m : M H A) s d x h : m (fd_heap d) = Done (x, h) → does (on_p (on_k m)) s d x (with_d_heap h d).
Proof. intros E. apply (does_f (on_heap m)). exact (zoom_Done fd_heap _ m d x h E). Qed.
Lemma does_fs {A} (m : M fs_state A) s d x fs : m (io_fs (fd_io d)) = Done (x, fs) → does (on_kio (on_fs m)) s d x (with_fs fs d).
Proof. intros E. apply does_io. exact (zoom_Done io_fs _ m (fd_io d) x fs E). Qed.
Lemma does_fs_eq {A} (m : M fs_state A) s d x fs d' : m (io_fs (fd_io d)) = Done (x, fs) → d' = with_fs fs d → does (on_kio (on_fs m)) s d x d'.
Proof. intros E ->. by apply does_fs. Qed.

(** The tables of open files do not depend on the rest. *)
Lemma fd_inv_io d io k ns : fd_inv d k ns → fd_inv (with_d_io io d) k ns.
Proof. by intros []. Qed.
Lemma fd_inv_heap d k n ns h p : fd_inv d k (n :: ns) → p ∉ klist k → oh_live h (p :: klist k) ns →
  fd_inv (with_d_heap h d) (<[p := KOther]> k) ns.
Proof. intros Hinv Hp Hl. exact (proj2 (fd_inv_alloc d k n ns h p KOther Hinv Hp Hl)). Qed.

Lemma init_filesystem_does fuel s d d2 fs1 fs2 fs3 :
  tarfs_init fuel module0_address (io_mem (fd_io d)) (io_fs (fd_io d)) = Done fs1 →
  fd_init (with_fs fs1 d) = Done (tt, d2) → fd_io d2 = fd_io (with_fs fs1 d) →
  devfs_init fs1 = Done (tt, fs2) → mount_fs (Some "/dev"%string) (Some devfs_root) fs2 = Done (0, fs3) →
  does (init_filesystem fuel) s d tt (with_fs fs3 d2).
Proof.
  intros E1 E2 Hio E3 E4. unfold init_filesystem.
  eapply does_bind; [apply does_io; rewrite E1; reflexivity|]. eapply does_bind; [apply does_f, E2|].
  eapply does_bind; [apply does_fs; rewrite Hio; exact E3|]. eapply does_bind; [apply does_fs; exact E4|]. reflexivity.
Qed.

(** The kernel's framebuffer as the boot loader describes it, with its back buffer. *)
Definition boot_fb (back : Z) : reddyos_framebuffer :=
  let l := framebuffer0 in
  mk_fb (lf_address l) back (lf_width l) (lf_height l) (lf_pitch l) (lf_bpp l) (u64 (lf_pitch l * lf_height l)).

Lemma register_devices_does s d h1 h2 p back m fs4 fs5 : io_fb (fd_io d) = None → lf_address framebuffer0 ≠ 0 →
  let size := u64 (lf_pitch framebuffer0 * lf_height framebuffer0) in
  oh_alloc sizeof_framebuffer (fd_heap d) = Done (p, h1) → p ≠ 0 → oh_alloc size h1 = Done (back, h2) →
  CMem.memset back 0 size (io_mem (fd_io d)) = Done m →
  fb_device_init (boot_fb back) (io_fs (fd_io d)) = Done (tt, fs4) → terminal_device_init fs4 = Done (tt, fs5) →
  does register_devices s d tt (with_d_io (mk_kio fs5 m (Some (boot_fb back)) (io_term (fd_io d))) (with_d_heap h2 d)).
Proof.
  intros Hfb Hl size E1 Hp E2 E3 E4 E5.
  assert (does fb_init s d tt (with_d_io (mk_kio (io_fs (fd_io d)) m (Some (boot_fb back)) (io_term (fd_io d))) (with_d_heap h2 d))) as Hinit.
  { unfold fb_init. rewrite (proj2 (Z.eqb_neq _ 0)) by done. eapply does_bind; [apply does_heap, E1|].
    rewrite (proj2 (Z.eqb_neq p 0)) by done. eapply does_bind; [apply does_heap; exact E2|].
    eapply does_bind; [apply does_io; reflexivity|].
    eapply does_io_eq; [cbn [fd_io with_d_io with_d_heap io_mem]; unfold size in E3; rewrite E3; reflexivity|reflexivity]. }
  unfold register_devices. eapply does_bind; [|eapply (does_fs_eq terminal_device_init s (with_fs fs4 (with_d_io (mk_kio (io_fs (fd_io d)) m (Some (boot_fb back)) (io_term (fd_io d))) (with_d_heap h2 d)))); [exact E5|reflexivity]].
  unfold fb_device, does. rewrite gets_bind. change (io_fb (k_io (with_fd d s))) with (io_fb (fd_io d)). rewrite Hfb.
  rewrite (bind_Done _ _ _ _ _ Hinit), gets_bind. apply (does_fs (fb_device_init (boot_fb back))). exact E4.
Qed.

(** No file is open. *)
Definition fresh_tables d : Prop :=
  global_file_capacity d = BASE_FILE_LIST_SIZE ∧ global_file_table d = null_table BASE_FILE_LIST_SIZE.

(** fd_init, whatever the file system holds. *)
Lemma fd_init_does d L ns : oh_live (fd_heap d) L (BASE_FILE_LIST_SIZE * 8 :: ns) →
  ∃ d', fd_init d = Done (tt, d') ∧ fd_io d' = fd_io d ∧ (∀ fs, fd_init (with_fs fs d) = Done (tt, with_fs fs d'))
    ∧ fresh_tables d' ∧ procs d' = procs d.
Proof.
  intros Hl. destruct (oh_calloc_ok _ _ _ _ _ Hl) as (p & h & Ha & Hp0 & _); [done|done|done|]. eexists.
  unfold fd_init. rewrite (bind_Done _ _ _ _ _ (on_heap_Done _ d _ _ Ha)), (proj2 (Z.eqb_neq p 0) Hp0).
  split; [reflexivity|]. split; [done|]. split; [|by split].
  intros fs. by rewrite (bind_Done _ _ _ _ _ (on_heap_Done _ (with_fs fs d) _ _ Ha)), (proj2 (Z.eqb_neq p 0) Hp0).
Qed.

(** Two blocks for the framebuffer. *)
Lemma two_blocks d k n1 n2 ns : fd_inv d k (n1 :: n2 :: ns) → 0 ≤ n1 < 2 ^ 63 → 0 ≤ n2 < 2 ^ 63 →
  ∃ p h1 q h2, oh_alloc n1 (fd_heap d) = Done (p, h1) ∧ p ≠ 0 ∧ oh_alloc n2 h1 = Done (q, h2) ∧ q ≠ 0
    ∧ ∃ k', fd_inv (with_d_heap h2 d) k' ns.
Proof.
  intros Hinv H1 H2. destruct (oh_alloc_ok _ _ _ _ (fi_live _ _ _ Hinv) H1) as (p & h1 & E1 & Hp & Hpn & Hl1).
  pose proof (fd_inv_heap d k n1 (n2 :: ns) h1 p Hinv Hpn Hl1) as Hinv1.
  destruct (oh_alloc_ok _ _ _ _ (fi_live _ _ _ Hinv1) H2) as (q & h2 & E2 & Hq & Hqn & Hl2).
  exists p, h1, q, h2. do 4 (split; [done|]). eexists. exact (fd_inv_heap _ _ n2 ns h2 q Hinv1 Hqn Hl2).
Qed.

(** What a kernel that has read the archive [files] from memory [m] and registered its
    devices promises; [back] is the framebuffer's back buffer, and [ns] the requests its heap
    still has room for. *)
Record booted (m : mem) (files : list (string * list Z)) (back : Z) (ns : list Z) s : Prop := {
  bk_file : ∀ i cs data, files !! i = Some (join_path cs, data) → cs ≠ [] → Forall good_name cs →
    (String.length (join_path cs) < 128)%nat →
    vfs_find_vnode (String "/" (join_path cs)) (io_fs (k_io s)) = Done (Some (TarNode i))
    ∧ ∃ a, get_vnode (TarNode i) (io_fs (k_io s))
          = Some (mk_vnode (join_path cs) (Z.of_nat (length data)) (Some tar_ops) (IData a))
        ∧ bytes m a (length data) = data;
  bk_device : ∀ i name ops, devices !! i = Some (name, ops) → String.append "dev/" name ∉ files.*1 →
    vfs_find_vnode (String.append "/dev/" name) (io_fs (k_io s)) = Done (Some (DevNode i))
    ∧ ∃ n, get_vnode (DevNode i) (io_fs (k_io s)) = Some n ∧ vn_ops n = Some ops;
  bk_nothing : ∀ name, name ∉ files.*1 → good_name name → name ≠ "dev"%string →
    vfs_find_vnode (String "/" name) (io_fs (k_io s)) = Done None;
  bk_fb : io_fb (k_io s) = Some (boot_fb back);
  bk_mem : ∀ b, ldb (io_mem (k_io s)) b = if decide (back ≤ b < back + fb_size (boot_fb back)) then 0 else ldb m b;
  bk_root : is_Some (root_mount (io_fs (k_io s)));
  bk_files : ∃ k, fd_inv (k_fd s) k ns;
  bk_tables : fresh_tables (k_fd s);
  bk_procs : procs (k_fd s) = ∅;
}.

Lemma booted_intro m files back ns s d fs mm k : booted_fs m files fs → CMem.memset back 0 (fb_size (boot_fb back)) m = Done mm →
  0 ≤ fb_size (boot_fb back) → fd_io d = mk_kio fs mm (Some (boot_fb back)) (io_term (fd_io d)) → fd_inv d k ns →
  fresh_tables d → procs d = ∅ → booted m files back ns (with_fd d s).
Proof.
  intros Hfs Hset Hsz Hio Hinv Htab Hprocs. assert (k_io (with_fd d s) = mk_kio fs mm (Some (boot_fb back)) (io_term (fd_io d))) as E by exact Hio.
  split; rewrite ?E; cbn [io_fs io_mem io_fb].
  - intros i cs data Hi Hne Hg Hl. split; [by eapply (booted_file m files fs Hfs)|]. exact (proj2 (bf_files _ _ _ Hfs i _ _ Hi)).
  - intros i name ops Hi Hno. split; [by eapply (booted_device m files fs Hfs)|].
    destruct (hd_nodes _ _ (bf_devices _ _ _ Hfs) i name ops Hi) as (n & Hn & _ & Ho). by exists n.
  - exact (booted_nothing m files fs Hfs).
  - done.
  - intros b. rewrite (ldb_memset _ _ _ _ _ b Hsz Hset). done.
  - rewrite (bf_mount _ _ _ Hfs). by eexists.
  - exists k. exact Hinv.
  - exact Htab.
  - exact Hprocs.
Qed.

Lemma boot_steps_ok fuel s files L ns :
  tar_boot (io_fs (k_io s)) → archive (io_mem (k_io s)) module0_address files → (length files ≤ 62)%nat →
  NoDup files.*1 → "dev"%string ∉ files.*1 → (11 ≤ fuel)%nat → (length files ≤ fuel)%nat →
  io_fb (k_io s) = None → lf_address framebuffer0 ≠ 0 → fb_size (boot_fb 0) < 2 ^ 63 → no_files (k_fd s) →
  oh_live (fd_heap (k_fd s)) L (BASE_FILE_LIST_SIZE * 8 :: sizeof_framebuffer :: fb_size (boot_fb 0) :: ns) →
  ∃ back s', (_ ← init_filesystem fuel; register_devices) s = Done (tt, s') ∧ booted (io_mem (k_io s)) files back ns s'.
Proof.
  intros Hboot Har Hlen Hnd Hdev Hf Hf' Hfb Hl Hsz Hno Hlive. set (size := fb_size (boot_fb 0)) in *.
  assert (0 ≤ size) as Hsz0 by (subst size; cbn [boot_fb fb_size]; unfold u64; apply Z.mod_pos_bound; lia).
  set (d := k_fd s) in *. destruct (fd_init_does d L _ Hlive) as (d1 & Ed & Hio & Edfs & Htab & Hprocs).
  destruct (boot_inv d d1 L _ Hno Hlive Ed) as [k Hk].
  destruct (two_blocks d1 k _ _ ns Hk) as (p & h1 & back & h2 & E1 & Hp & E2 & Hback & k' & Hk'); [done|done|].
  pose proof (memset_Done back 0 size (io_mem (fd_io d)) Hback) as E3.
  destruct (boot_fs_ok fuel _ _ _ files (boot_fb back) Hboot Har Hlen Hnd Hdev Hf Hf')
    as (f1 & f2 & f3 & f4 & f5 & F1 & F2 & F3 & F4 & F5 & Hfs).
  set (mm := fill_up _ _ _ _ _) in E3. set (io := mk_kio f5 mm (Some (boot_fb back)) (io_term (fd_io d))).
  exists back, (with_fd (with_d_io io (with_d_heap h2 d1)) s). split.
  - pose proof (init_filesystem_does fuel s d (with_fs f1 d1) f1 f2 f3 F1 (Edfs f1) (f_equal (λ i, mk_kio f1 (io_mem i) (io_fb i) (io_term i)) Hio) F2 F3) as Ri.
    assert (with_fs f3 (with_fs f1 d1) = with_d_io (mk_kio f3 (io_mem (fd_io d)) None (io_term (fd_io d))) d1) as Ed3
      by (change (io_fb (fd_io d) = None) in Hfb; unfold with_fs; cbn; by rewrite Hio, Hfb).
    rewrite Ed3 in Ri. clear Ed3. pose proof (register_devices_does s (with_d_io (mk_kio f3 (io_mem (fd_io d)) None (io_term (fd_io d))) d1) h1 h2 p back mm f4 f5 eq_refl Hl E1 Hp E2 E3 F4 F5) as Rd.
    pose proof (does_bind _ (λ _, register_devices) _ _ _ _ _ _ Ri Rd) as R. unfold does in R. rewrite (with_fd_self s : with_fd d s = s) in R. exact R.
  - eapply (booted_intro _ files back ns s _ f5 mm k' Hfs E3 Hsz0); [reflexivity|by apply fd_inv_io|exact Htab|].
    exact (eq_trans Hprocs (proj2 (proj2 Hno))).
Qed.

(** C5: the boot's two file system steps, init_filesystem and register_devices of main.c,
    composed on the whole kernel: from the tables at their initial values, a ustar archive in
    memory and a heap with room for three blocks, they return, and then every file of the
    archive is found by its path with its size and contents, every device by its name under
    /dev with its operations, every other name at the root is not found, the framebuffer is the
    boot loader's with a cleared back buffer, the only memory changed, and the tables of open
    files satisfy the invariant that every file system call preserves. *)
Theorem boot_file_system fuel s files L ns :
  tar_boot (io_fs (k_io s)) → archive (io_mem (k_io s)) module0_address files → (length files ≤ 62)%nat →
  NoDup files.*1 → "dev"%string ∉ files.*1 → (11 ≤ fuel)%nat → (length files ≤ fuel)%nat →
  io_fb (k_io s) = None → lf_address framebuffer0 ≠ 0 → fb_size (boot_fb 0) < 2 ^ 63 → no_files (k_fd s) →
  oh_live (fd_heap (k_fd s)) L (BASE_FILE_LIST_SIZE * 8 :: sizeof_framebuffer :: fb_size (boot_fb 0) :: ns) →
  ∃ back s', (_ ← init_filesystem fuel; register_devices) s = Done (tt, s') ∧ booted (io_mem (k_io s)) files back ns s'.
Proof. apply boot_steps_ok. Qed.

(** *** The first process *)

Lemma bytes_take mm a n k : (k ≤ n)%nat → bytes mm a k = take k (bytes mm a n).
Proof.
  intros Hk. apply list_eq_same_length with k; rewrite ?length_take, ?length_bytes; try lia.
  intros i x y Hi Hx. rewrite lookup_bytes in Hx by lia. rewrite lookup_take_lt, lookup_bytes by lia. congruence.
Qed.

(** What fd.c and fs.c do for a process that starts, opens a file and reads from it. *)
Definition first_read (pid : Z) (path : string) (buffer size : Z) : M D (Z * Z * Z) :=
  _ ← process_fd_init pid;
  base ← process_fd_base pid;
  fd ← do_sys_open pid path O_RDONLY;
  r ← do_sys_read pid fd buffer size;
  mret (base, fd, r).

Lemma booted_streams m files back ns s : booted m files back ns s → (∀ name, String.append "dev/" name ∉ files.*1) →
  streams_at (fd_io (k_fd s)) (DevNode 1) (DevNode 2) (DevNode 3).
Proof.
  intros Hb Hno. split.
  - exact (bk_root _ _ _ _ _ Hb).
  - exact (proj1 (bk_device _ _ _ _ _ Hb 1%nat "stdin" stdin_ops eq_refl (Hno _))).
  - exact (proj1 (bk_device _ _ _ _ _ Hb 2%nat "stdout" stdout_ops eq_refl (Hno _))).
  - exact (proj1 (bk_device _ _ _ _ _ Hb 3%nat "stderr" stderr_ops eq_refl (Hno _))).
Qed.

(** The contents of a file are still in memory after the boot, if the archive is not in the
    memory the back buffer was given. *)
Lemma booted_bytes m files back ns s a n : booted m files back ns s →
  a + Z.of_nat n ≤ back ∨ back + fb_size (boot_fb back) ≤ a → bytes (io_mem (k_io s)) a n = bytes m a n.
Proof.
  intros Hb Hd. apply bytes_ext. intros i Hi. rewrite (bk_mem _ _ _ _ _ Hb). by rewrite decide_False by lia.
Qed.

Lemma first_open m files back ns s pid path v : booted m files back (BASE_FD_LIST_SIZE * 8 :: needs 4 ns) s →
  (∀ name, String.append "dev/" name ∉ files.*1) → vfs_find_vnode path (io_fs (k_io s)) = Done (Some v) →
  ∃ d k pr, (∀ B (f : Z → Z → M D B),
      (_ ← process_fd_init pid; base ← process_fd_base pid; fd ← do_sys_open pid path O_RDONLY; f base fd) (k_fd s) = f 0 3 d)
    ∧ fd_inv d k ns ∧ procs d !! pid = Some pr ∧ fd_io d = k_io s
    ∧ (∀ j, (j < 3)%nat → open_file d pid j = Some (mk_file (DevNode (S j)) 0 1 (if decide (j = 0%nat) then O_RDONLY else O_WRONLY)))
    ∧ open_file d pid 3 = Some (mk_file v 0 1 O_RDONLY).
Proof.
  intros Hb Hno Hv. destruct (bk_files _ _ _ _ _ Hb) as [k Hinv]. destruct (bk_tables _ _ _ _ _ Hb) as [Hc Ht].
  pose proof (booted_streams _ _ _ _ _ Hb Hno) as Hst.
  destruct (process_fd_init_ok pid _ k _ Hinv) as (p & h & k1 & Ei & Hinv1); [by rewrite (bk_procs _ _ _ _ _ Hb)|].
  destruct (process_fd_base_ok (with_new_proc pid p h (k_fd s)) k1 (needs 1 ns) pid 0 (DevNode 1) (DevNode 2) (DevNode 3) Hinv1) as (b & k2 & Eb & Hinv2 & Hio2 & Hfew2 & Hop2);
    [apply few_new; [done|]; intros j _; rewrite Ht; apply tget_nulls|lia|exact Hst|].
  destruct (open_next b k2 ns pid 3 3 path O_RDONLY v Hinv2 Hfew2) as (d & k3 & Eo & Hinv3 & Hio3 & Hfew3 & Hop3);
    [lia|lia|rewrite Hio2; apply vfs_open_found; [exact (bk_root _ _ _ _ _ Hb)|exact Hv|done]|].
  destruct (few_proc _ _ _ _ Hfew3) as (pr & Hpr & _).
  exists d, k3, pr. split; [|split; [done|split; [done|split; [by rewrite Hio3, Hio2|split]]]].
  - intros B f. rewrite (bind_Done _ _ _ _ _ Ei), (bind_Done _ _ _ _ _ Eb).
    unfold do_sys_open. by rewrite (bind_Done _ _ _ 3 d) by (by rewrite (bind_Done _ _ _ _ _ Eo)).
  - intros j Hj. rewrite Hop3. unfold fset at 1. rewrite decide_False by lia. rewrite Hop2. unfold fset.
    destruct j as [|[|[|j]]]; [| | |lia]; repeat case_decide; (done || naive_solver).
  - rewrite Hop3. unfold fset. by rewrite decide_True.
Qed.

(** C4: the parts together, from the archive to a program's buffer: in a kernel that has
    booted, a new process gets stdin, stdout and stderr as its descriptors 0, 1 and 2, the
    first file it opens is descriptor 3, whatever file of the archive it names, and reading
    from it returns the number of bytes asked for or left in the file, puts the first bytes
    of the file as the boot loader left them in memory in the buffer, changes no other memory,
    and moves the offset past them. The archive's memory is not the back buffer's, nor the
    buffer's. *)
Theorem boot_first_process m files back ns s pid i cs data a n buffer size :
  booted m files back (BASE_FD_LIST_SIZE * 8 :: needs 4 ns) s → (∀ name, String.append "dev/" name ∉ files.*1) →
  files !! i = Some (join_path cs, data) → cs ≠ [] → Forall good_name cs → (String.length (join_path cs) < 128)%nat →
  get_vnode (TarNode i) (io_fs (k_io s)) = Some n → vn_internal n = IData a →
  let len := Z.of_nat (length data) in let k := Z.min size len in
  len < 2 ^ 31 → 0 < a → a + len < 2 ^ 64 → a + len ≤ back ∨ back + fb_size (boot_fb back) ≤ a →
  buffer ≠ 0 → 0 < size < 2 ^ 64 → buffer + k ≤ a ∨ a + len ≤ buffer →
  ∃ s', on_p (on_f (first_read pid (String "/" (join_path cs)) buffer size)) s = Done ((0, 3, k), s')
    ∧ bytes (io_mem (k_io s')) buffer (Z.to_nat k) = take (Z.to_nat k) data
    ∧ (∀ b, b < buffer ∨ buffer + k ≤ b → ldb (io_mem (k_io s')) b = ldb (io_mem (k_io s)) b)
    ∧ (∀ j, (j < 3)%nat → open_file (k_fd s') pid j = Some (mk_file (DevNode (S j)) 0 1 (if decide (j = 0%nat) then O_RDONLY else O_WRONLY)))
    ∧ open_file (k_fd s') pid 3 = Some (mk_file (TarNode i) k 1 O_RDONLY)
    ∧ ∃ kinds, fd_inv (k_fd s') kinds ns.
Proof.
  intros Hb Hno Hi Hne Hg Hl Hn Ha len k Hlen Ha0 Ha64 Hback Hbuf Hsz Hdis.
  destruct (bk_file _ _ _ _ _ Hb i cs data Hi Hne Hg Hl) as (Hv & a' & Hn' & Hbytes).
  rewrite Hn in Hn'. injection Hn' as ->. cbn [vn_internal] in Ha. injection Ha as ->.
  destruct (first_open _ _ _ _ _ pid _ _ Hb Hno Hv) as (d & kd & pr & Hrun & Hinv & Hpr & Hio & Hstd & H3).
  destruct (vfs_read_tar (k_io s) (mk_file (TarNode i) 0 1 O_RDONLY) _ a buffer size Hn eq_refl eq_refl) as (m' & Hread & Hgot & Hrest);
    [cbn; lia|done|cbn; lia|cbn; lia|cbn; lia|lia|done|cbn [vn_size f_offset]; fold len; lia|].
  cbn [vn_size f_offset f_vnode f_refcount f_flags] in Hread, Hgot, Hrest. fold len in Hread, Hgot, Hrest.
  assert (Z.max 0 (Z.min size (len - 0)) = k) as Ek by (unfold k; lia). rewrite Ek in Hread, Hgot, Hrest.
  pose proof (do_sys_read_spec d kd ns pid pr 3 buffer size Hinv Hpr) as Hsys.
  rewrite (proj2 (Z.eqb_neq buffer 0)), (proj2 (Z.eqb_neq size 0)) in Hsys by lia. cbn [orb] in Hsys.
  change (fd_file d pid (i32 3)) with (open_file d pid 3) in Hsys. rewrite H3 in Hsys.
  rewrite <- Hio in Hread. destruct (Hsys _ _ _ Hread eq_refl) as (d' & Er & Hinv' & Hio' & Hop').
  assert (u64 k = k) as Eu by (apply u64_small; unfold k; lia). rewrite Eu in Er.
  assert (first_read pid (String "/" (join_path cs)) buffer size (k_fd s) = Done ((0, 3, k), d')) as R
    by (unfold first_read; by rewrite Hrun, (bind_Done _ _ _ _ _ Er)).
  apply (does_f _ s) in R. unfold does in R. rewrite with_fd_self in R.
  exists (with_fd d' s). split; [exact R|]. change (k_io (with_fd d' s)) with (fd_io d'). change (k_fd (with_fd d' s)) with d'.
  rewrite Hio'. cbn [io_mem]. split; [|split; [exact Hrest|split; [|split; [|by exists kd]]]].
  - rewrite Hgot, Z.add_0_r, (bytes_take _ a (length data)) by (unfold k; lia).
    by rewrite (booted_bytes _ _ _ _ _ a (length data) Hb Hback), Hbytes.
  - intros j Hj. rewrite Hop'. rewrite decide_False; [by apply Hstd|]. change (Z.to_nat (i32 3)) with 3%nat. lia.
  - by rewrite Hop', decide_True.
Qed.
End boot.

Module BootWitness.
Import DemoObjects VfsWitness TarfsWitness TermWitness PicWitness FdWitness VmaWitness ClockWitness SchedWitness.

(** A kernel before its file system starts: the archive of one file at 0x10000, a framebuffer
    of 16 by 4 pixels, and a heap that never reuses. *)
#[local] Instance small_boot : BootInfo := {|
  limine_base_revision_supported := true; framebuffer0 := mk_lfb 0xFFFF8000FD000000 16 4 64 32;
  module0_address := 0x10000; cpuid_phys_eax := 46; load_init_addr := 0x700; gs_selector := 0;
|}.
Definition cold_fd : fd_state bump :=
  mk_fd _ (mk_bump 0x100000) (mk_kio TarfsWitness.demo_boot demo_tar None (mk_term true 0 [])) ∅ ∅ 0 [] 0 ∅.
Definition cold_kernel : kernel_state bump :=
  mk_kernel _ (mk_ps _ (mk_ss _ (mk_vs _ cold_fd ∅ ∅ ∅ 0) ∅ ∅ 0 0 1 demo_regs) 1)
    (mk_apic _ (mk_ck _ (mk_bump 4096) 0 (mk_term true 0 []) ∅ 0 0 0 0 0 None 0 0 None []) 0 0 0 0 false 0 (mk_ld ∅ 0 0) (mk_io 0 ∅))
    pics_init no_handlers 0 ∅ (mk_percpu 0 0 0).

Lemma cold_heap ns : Forall (λ n, 0 ≤ n) ns →
  oh_live (fd_heap (k_fd cold_kernel)) [] (BASE_FILE_LIST_SIZE * 8 :: sizeof_framebuffer :: fb_size (boot_fb 0) :: ns).
Proof. intros Hns. split; [by vm_compute|]. split; [constructor|]. split; [constructor|]. repeat constructor; (done || by vm_compute). Qed.
Lemma no_dev_files name : String.append "dev/" name ∉ demo_files.*1.
Proof. intros H. vm_compute in H. repeat (apply elem_of_cons in H as [[=]|H]). by apply elem_of_nil in H. Qed.
Lemma no_file name : bool_decide (name ∈ demo_files.*1) = false → name ∉ demo_files.*1.
Proof. by intros H%bool_decide_eq_false. Qed.

Lemma demo_good_names : Forall good_name ["bin"; "init"]%string ∧ good_name "b" ∧ ["bin"; "init"]%string ≠ [].
Proof. repeat split; repeat (apply Forall_cons; split); try apply Forall_nil; try done; repeat split; try done; simpl; lia. Qed.

Lemma boot_file_system_witness : ∃ back s', (_ ← init_filesystem 16; register_devices) cold_kernel = Done (tt, s')
  ∧ vfs_find_vnode "/bin/init" (io_fs (k_io s')) = Done (Some (TarNode 2))
  ∧ vfs_find_vnode "/dev/stdout" (io_fs (k_io s')) = Done (Some (DevNode 2))
  ∧ vfs_find_vnode "/b" (io_fs (k_io s')) = Done None
  ∧ io_fb (k_io s') = Some (mk_fb 0xFFFF8000FD000000 back 16 4 64 32 256).
Proof.
  destruct (boot_file_system (BI := small_boot) 16 cold_kernel demo_files [] [] (conj eq_refl eq_refl) demo_archive ltac:(simpl; lia)
    demo_names (no_file "dev" eq_refl) ltac:(lia) ltac:(simpl; lia) eq_refl ltac:(discriminate) eq_refl ltac:(by repeat split) (cold_heap [] (Forall_nil_2 _)))
    as (back & s' & Hr & Hb).
  destruct demo_good_names as (Hbin & Hgb & Hne).
  pose proof (bk_file _ _ _ _ _ Hb 2%nat ["bin"; "init"]%string [7; 8] eq_refl Hne Hbin ltac:(simpl; lia)) as [Ha _].
  pose proof (bk_device _ _ _ _ _ Hb 2%nat "stdout" stdout_ops eq_refl (no_dev_files "stdout")) as [Ho _].
  pose proof (bk_nothing _ _ _ _ _ Hb "b" (no_file "b" eq_refl) Hgb ltac:(discriminate)) as Hn.
  exists back, s'. split; [exact Hr|]. split; [exact Ha|]. split; [exact Ho|]. split; [exact Hn|exact (bk_fb _ _ _ _ _ Hb)].
Defined.

(** The addresses of the back buffer and of the file's contents, on this heap. *)
Definition addresses (s : kernel_state bump) : option Z * option vinternal :=
  (back <$> io_fb (k_io s), vn_internal <$> get_vnode (TarNode 2) (io_fs (k_io s))).
Lemma cold_addresses : (s ← (_ ← init_filesystem 16; _ ← register_devices; gets addresses) cold_kernel; Done s.1)
  = Done (Some 0x100160, Some (IData 0x10600)).
Proof. vm_compute. reflexivity. Qed.
Lemma cold_booted : ∃ s', (_ ← init_filesystem 16; register_devices) cold_kernel = Done (tt, s')
  ∧ booted demo_tar demo_files 0x100160 (BASE_FD_LIST_SIZE * 8 :: needs 4 []) s'
  ∧ vn_internal <$> get_vnode (TarNode 2) (io_fs (k_io s')) = Some (IData 0x10600).
Proof.
  destruct (boot_steps_ok (BI := small_boot) 16 cold_kernel demo_files [] (BASE_FD_LIST_SIZE * 8 :: needs 4 []) (conj eq_refl eq_refl) demo_archive
    ltac:(simpl; lia) demo_names (no_file "dev" eq_refl) ltac:(lia) ltac:(simpl; lia) eq_refl
    ltac:(discriminate) eq_refl ltac:(by repeat split)) as (back & s' & Hr & Hb); [apply cold_heap; repeat constructor; done|].
  pose proof cold_addresses as Haddr. revert Hr Haddr. unfold mbind, M_bind, outcome_bind.
  destruct (init_filesystem 16 cold_kernel) as [[x s]| | |]; [|done..]. intros -> [= Hback Hdata].
  rewrite (bk_fb _ _ _ _ _ Hb) in Hback. injection Hback as ->. by exists s'.
Qed.

Lemma boot_first_process_witness : ∃ s s', (_ ← init_filesystem 16; register_devices) cold_kernel = Done (tt, s)
  ∧ on_p (on_f (first_read 1 "/bin/init" 0x5000 5)) s = Done ((0, 3, 2), s') ∧ bytes (io_mem (k_io s')) 0x5000 2 = [7; 8].
Proof.
  destruct cold_booted as (s & Hr & Hb & Hd). apply fmap_Some in Hd as (n & Hn & Hd).
  destruct demo_good_names as (Hbin & _ & Hne).
  destruct (boot_first_process (BI := small_boot) demo_tar demo_files 0x100160 [] s 1 2 ["bin"; "init"]%string [7; 8] 0x10600 n 0x5000 5 Hb no_dev_files
    eq_refl Hne Hbin ltac:(simpl; lia) Hn (eq_sym Hd))
    as (s' & Hrun & Hbytes & _); [simpl; lia..|left; simpl; lia|lia|lia|left; simpl; lia|].
  exists s, s'. split; [exact Hr|]. split; [exact Hrun|exact Hbytes].
Defined.
End BootWitness.
