(* ===== verification/Init.v ===== *)
(** * The init program: system/init/src/main.c

    The one program of the repository that runs in user mode: it draws a square that bounces
    between the borders of the screen, at most 120 frames a second. What it calls (the C library
    and the framebuffer library) is not in the repository: it is the interface [InitLib]. *)
From S2P Require Import Prelude Clock.

Definition FPS : Z := 120.
Definition FRAME_NS : Z := 1000000000 / FPS.
Definition MOVE : Z := 5.
Definition SQUARE_WIDTH : Z := 100.
Definition SQUARE_HEIGHT : Z := 100.

(** The library, on the state [W] of the world; fb->info has 64-bit unsigned sizes, as
    FB_IOCTL_GET_INFO fills them. *)
Class InitLib (W : Type) := {
  fb_get : string → M W Z;
  perror : string → M W unit;
  info_width : W → Z;
  info_height : W → Z;
  clock_gettime : M W timespec;
  fb_draw_rect : Z → Z → Z → Z → Z → Z → M W unit;   (* x, y, width, height, color, border *)
  fb_flip : M W unit;
  nanosleep : timespec → M W unit;
}.

(** The locals of main. *)
Record square := mk_square { go_x : bool; go_y : bool; sx : Z; sy : Z }.

(** A result of signed arithmetic in [w] bits. *)
Definition signed (w z : Z) : outcome Z :=
  if (z <? -2 ^ (w - 1)) || (2 ^ (w - 1) <=? z) then Undef "signed overflow" else Done z.

Section init.
Context {W : Type} `{IL : !InitLib W}.

(** The comparison of x + SIZE, an int, with a 64-bit unsigned extent is unsigned. *)
Definition hits (extent size x : Z) : outcome bool :=
  e ← signed 32 (x + size);
  Done ((extent <=? u64 e) || (x <=? 0)).
Definition move (go : bool) (x : Z) : outcome Z := signed 32 (x + (if go then MOVE else -MOVE)).

Definition move_square (s : square) : M W square :=
  x ← lift_o (move (go_x s) (sx s));
  y ← lift_o (move (go_y s) (sy s));
  width ← gets info_width;
  hx ← lift_o (hits width SQUARE_WIDTH x);
  height ← gets info_height;
  hy ← lift_o (hits height SQUARE_HEIGHT y);
  mret (mk_square (xorb hx (go_x s)) (xorb hy (go_y s)) x y).

Definition elapsed (start end_ : timespec) : outcome Z :=
  sec ← signed 64 (tv_sec end_ - tv_sec start);
  sec_ns ← signed 64 (sec * 1000000000);
  nsec ← signed 64 (tv_nsec end_ - tv_nsec start);
  signed 64 (sec_ns + nsec).
Definition pace (start end_ : timespec) : M W unit :=
  elapsed_ns ← lift_o (elapsed start end_);
  if elapsed_ns <? FRAME_NS then nanosleep (mk_ts 0 (FRAME_NS - elapsed_ns)) else mret tt.

Definition frame (s : square) : M W square :=
  start ← clock_gettime;
  width ← gets info_width;
  height ← gets info_height;
  _ ← fb_draw_rect 0 0 width height 0x00FF0000 3;
  _ ← fb_draw_rect (sx s) (sy s) SQUARE_WIDTH SQUARE_HEIGHT 0x00FF0000 5;
  _ ← fb_draw_rect (sx s) (sy s) SQUARE_WIDTH SQUARE_HEIGHT 0x000000FF 0;
  _ ← fb_flip;
  s' ← move_square s;
  end_ ← clock_gettime;
  _ ← pace start end_;
  mret s'.

(** The first [n] turns of while (1). *)
Fixpoint frames (n : nat) (s : square) : M W square :=
  match n with O => mret s | S k => s' ← frame s; frames k s' end.

Definition main (n : nat) : M W square :=
  fb ← fb_get "/dev/fb0";
  _ ← (if fb =? 0 then perror "fb_get" else mret tt);
  if fb =? 0 then mundef "NULL fb"
  else frames n (mk_square true true 5 5).
End init.

(** ** What the program needs of the library *)

(** Its calls complete and leave the sizes of the screen; times are from boot, for the next
    136 years. *)
Class InitLibLaws (W : Type) `{IL : InitLib W} := {
  same_screen : W → W → Prop := λ w w', info_width w' = info_width w ∧ info_height w' = info_height w;
  il_get : ∀ p w, ∃ fb w', fb_get p w = Done (fb, w') ∧ fb ≠ 0 ∧ same_screen w w';
  il_clock : ∀ w, ∃ t w', clock_gettime w = Done (t, w') ∧ same_screen w w'
    ∧ 0 ≤ tv_sec t < 2 ^ 32 ∧ 0 ≤ tv_nsec t < 1000000000;
  il_draw : ∀ x y a b c d w, ∃ w', fb_draw_rect x y a b c d w = Done (tt, w') ∧ same_screen w w';
  il_flip : ∀ w, ∃ w', fb_flip w = Done (tt, w') ∧ same_screen w w';
  il_sleep : ∀ t w, ∃ w', nanosleep t w = Done (tt, w') ∧ same_screen w w';
}.

Section init_laws.
Context {W : Type} `{IL : !InitLib W} `{IW : !InitLibLaws W}.

Lemma signed_ok w z : -2 ^ (w - 1) ≤ z < 2 ^ (w - 1) → signed w z = Done z.
Proof. intros H. unfold signed. destruct (Z.ltb_spec z (-2 ^ (w - 1))), (Z.leb_spec (2 ^ (w - 1)) z); lia || done. Qed.

(** One coordinate, on an extent: within it, moving towards where there is room. *)
Record in_extent (extent : Z) (go : bool) (x : Z) : Prop := {
  ie_low : 0 ≤ x;
  ie_steps : x mod MOVE = 0;
  ie_high : x + 100 < extent + MOVE;
  ie_go : if go then x + 100 < extent else 0 < x;
}.
Definition on_screen (w : W) (s : square) : Prop :=
  in_extent (info_width w) (go_x s) (sx s) ∧ in_extent (info_height w) (go_y s) (sy s).

Lemma bounce extent go x : 105 < extent < 2 ^ 31 - 200 → in_extent extent go x →
  ∃ x' h, move go x = Done x' ∧ hits extent 100 x' = Done h ∧ in_extent extent (xorb h go) x'.
Proof.
  intros He [Hl Hs Hh Hg]. unfold move, hits. set (x' := x + (if go then MOVE else -MOVE)).
  assert (x' = x + 5 ∧ go = true ∨ x' = x - 5 ∧ go = false) as Hx by (unfold x', MOVE; destruct go; [left|right]; split; lia || done).
  assert (0 ≤ x' < 2 ^ 31 - 150) as Hx' by (unfold MOVE in *; destruct Hx as [[? ->]|[? ->]]; zdiv).
  assert (x' mod MOVE = 0) as Hs' by (unfold MOVE in *; zdiv).
  exists x', ((extent <=? x' + 100) || (x' <=? 0)). rewrite (signed_ok 32 x') by lia. split; [done|]. split.
  - rewrite signed_ok by lia. simpl. by rewrite u64_small by lia.
  - unfold MOVE in *. destruct (Z.leb_spec extent (x' + 100)), (Z.leb_spec x' 0), Hx as [[? ->]|[? ->]];
      cbn [orb xorb negb]; (split; unfold MOVE; [lia|exact Hs'|lia|lia]).
Qed.

Lemma move_square_ok s w : 105 < info_width w < 2 ^ 31 - 200 → 105 < info_height w < 2 ^ 31 - 200 → on_screen w s →
  ∃ s', move_square s w = Done (s', w) ∧ on_screen w s'.
Proof.
  intros Hw Hh [Hx Hy]. destruct (bounce _ _ _ Hw Hx) as (x & hx & Emx & Ehx & Hx'), (bounce _ _ _ Hh Hy) as (y & hy & Emy & Ehy & Hy').
  exists (mk_square (xorb hx (go_x s)) (xorb hy (go_y s)) x y). split; [|by split].
  unfold move_square, lift_o, gets, mbind, M_bind. rewrite Emx, Emy. change SQUARE_WIDTH with 100. change SQUARE_HEIGHT with 100.
  by rewrite Ehx, Ehy.
Qed.

Definition time_ok (t : timespec) : Prop := 0 ≤ tv_sec t < 2 ^ 32 ∧ 0 ≤ tv_nsec t < 1000000000.
Definition ns_of (t : timespec) : Z := tv_sec t * 1000000000 + tv_nsec t.
Lemma elapsed_ok t1 t2 : time_ok t1 → time_ok t2 → elapsed t1 t2 = Done (ns_of t2 - ns_of t1).
Proof.
  intros [? ?] [? ?]. unfold elapsed. rewrite signed_ok by lia. cbn [mbind outcome_bind]. rewrite signed_ok by lia.
  cbn [mbind outcome_bind]. rewrite signed_ok by lia. cbn [mbind outcome_bind]. rewrite signed_ok by lia.
  f_equal. unfold ns_of. lia.
Qed.
Lemma pace_ok t1 t2 w : time_ok t1 → time_ok t2 →
  pace t1 t2 w = (if ns_of t2 - ns_of t1 <? FRAME_NS then nanosleep (mk_ts 0 (FRAME_NS - (ns_of t2 - ns_of t1))) w else Done (tt, w)).
Proof.
  intros H1 H2. unfold pace, lift_o, mbind, M_bind. rewrite (elapsed_ok t1 t2 H1 H2). by destruct (_ <? _).
Qed.

Lemma screen_trans w1 w2 w3 : same_screen w1 w2 → same_screen w2 w3 → same_screen w1 w3.
Proof. intros [E1 E2] [E3 E4]. split; congruence. Qed.
Lemma on_same_screen w w' s : same_screen w w' → on_screen w s → on_screen w' s.
Proof. intros [E1 E2]. unfold on_screen. by rewrite E1, E2. Qed.

Lemma frame_ok s w : 105 < info_width w < 2 ^ 31 - 200 → 105 < info_height w < 2 ^ 31 - 200 → on_screen w s →
  ∃ s' w', frame s w = Done (s', w') ∧ same_screen w w' ∧ on_screen w s'.
Proof.
  intros Hw Hh Hs. destruct (il_clock w) as (t1 & w1 & E1 & S1 & Ht1).
  destruct (il_draw 0 0 (info_width w1) (info_height w1) 0x00FF0000 3 w1) as (w2 & E2 & S2).
  destruct (il_draw (sx s) (sy s) SQUARE_WIDTH SQUARE_HEIGHT 0x00FF0000 5 w2) as (w3 & E3 & S3).
  destruct (il_draw (sx s) (sy s) SQUARE_WIDTH SQUARE_HEIGHT 0x000000FF 0 w3) as (w4 & E4 & S4).
  destruct (il_flip w4) as (w5 & E5 & S5).
  assert (same_screen w w5) as S by eauto using screen_trans.
  destruct (move_square_ok s w5) as (s' & E6 & Hs'); [by rewrite (proj1 S)|by rewrite (proj2 S)|by eapply on_same_screen|].
  destruct (il_clock w5) as (t2 & w7 & E7 & S7 & Ht2).
  assert (∃ w', pace t1 t2 w7 = Done (tt, w') ∧ same_screen w7 w') as (w' & E8 & S8).
  { rewrite pace_ok by done. destruct (_ <? _); [apply il_sleep|exists w7; by repeat split]. }
  exists s', w'. split; [|split; [eauto using screen_trans|]].
  - unfold frame. rewrite (bind_Done _ _ _ _ _ E1), !gets_bind, (bind_Done _ _ _ _ _ E2), (bind_Done _ _ _ _ _ E3), (bind_Done _ _ _ _ _ E4),
      (bind_Done _ _ _ _ _ E5), (bind_Done _ _ _ _ _ E6), (bind_Done _ _ _ _ _ E7), (bind_Done _ _ _ _ _ E8). done.
  - destruct S as [Sw Sh]. unfold on_screen in *. by rewrite <- Sw, <- Sh.
Qed.

Lemma frames_ok n s w : 105 < info_width w < 2 ^ 31 - 200 → 105 < info_height w < 2 ^ 31 - 200 → on_screen w s →
  ∃ s' w', frames n s w = Done (s', w') ∧ same_screen w w' ∧ on_screen w s'.
Proof.
  revert s w. induction n as [|n IH]; intros s w Hw Hh Hs; [exists s, w; split; [done|split; [by split|done]]|].
  destruct (frame_ok s w Hw Hh Hs) as (s1 & w1 & E1 & S1 & Hs1).
  destruct (IH s1 w1) as (s' & w' & E' & S' & Hs'); [by rewrite (proj1 S1)|by rewrite (proj2 S1)|by eapply on_same_screen|].
  exists s', w'. split; [simpl; by rewrite (bind_Done _ _ _ _ _ E1)|]. split; [by eapply screen_trans|].
  destruct S1 as [Sw Sh]. unfold on_screen in *. by rewrite <- Sw, <- Sh.
Qed.

(** C21: on a screen of more than 105 pixels each way the program runs for ever without overflow, and
    the square it draws in every frame starts inside the screen and ends at most four pixels
    outside it; not at all when the sizes are multiples of 5. *)
Theorem init_stays_on_screen n w : 105 < info_width w < 2 ^ 31 - 200 → 105 < info_height w < 2 ^ 31 - 200 →
  ∃ s w', main n w = Done (s, w') ∧ 0 ≤ sx s ∧ 0 ≤ sy s
    ∧ sx s + SQUARE_WIDTH < info_width w + MOVE ∧ sy s + SQUARE_HEIGHT < info_height w + MOVE
    ∧ (info_width w mod MOVE = 0 → sx s + SQUARE_WIDTH ≤ info_width w)
    ∧ (info_height w mod MOVE = 0 → sy s + SQUARE_HEIGHT ≤ info_height w).
Proof.
  intros Hw Hh. destruct (il_get "/dev/fb0" w) as (fb & w1 & E1 & Hfb & S1).
  destruct (frames_ok n (mk_square true true 5 5) w1) as (s & w' & E & S & Hs); [by rewrite (proj1 S1)|by rewrite (proj2 S1)| |].
  { destruct S1 as [S1w S1h]. split; rewrite ?S1w, ?S1h; (split; cbn [go_x go_y sx sy]; [lia|reflexivity|unfold MOVE; lia|lia]). }
  exists s, w'. split.
  - unfold main. rewrite (bind_Done _ _ _ _ _ E1), (proj2 (Z.eqb_neq fb 0)) by done. exact E.
  - destruct S1 as [S1w S1h]. destruct Hs as [[? ? ? _] [? ? ? _]]. rewrite S1w, S1h in *.
    change SQUARE_WIDTH with 100. change SQUARE_HEIGHT with 100. unfold MOVE in *.
    do 4 (split; [lia|]). split; intros; zdiv.
Qed.

(** A frame that took less than its share of the second is followed by a sleep of exactly the
    rest, and a longer one by none. *)
Theorem pace_fills_frame t1 t2 w : time_ok t1 → time_ok t2 → ns_of t1 ≤ ns_of t2 →
  let e := ns_of t2 - ns_of t1 in
  (e < FRAME_NS → pace t1 t2 w = nanosleep (mk_ts 0 (FRAME_NS - e)) w ∧ 0 < FRAME_NS - e < 1000000000)
  ∧ (FRAME_NS ≤ e → pace t1 t2 w = Done (tt, w)).
Proof.
  intros H1 H2 Hle e. rewrite (pace_ok t1 t2 w H1 H2). fold e. assert (0 ≤ e) by (unfold e; lia).
  assert (FRAME_NS = 8333333) as HF by reflexivity. split; intros He.
  - rewrite (proj2 (Z.ltb_lt _ _)) by done. split; [done|lia].
  - by rewrite (proj2 (Z.ltb_ge _ _)) by done.
Qed.
End init_laws.

(** Without the framebuffer device the program goes on after the message, with a NULL pointer. *)
Theorem init_no_framebuffer `{IL : InitLib W} n (w w1 w2 : W) :
  fb_get "/dev/fb0" w = Done (0, w1) → perror "fb_get" w1 = Done (tt, w2) → main n w = Undef "NULL fb".
Proof. intros E1 E2. unfold main. rewrite (bind_Done _ _ _ _ _ E1). simpl. by rewrite (bind_Done _ _ _ _ _ E2). Qed.

(** ** A library that records what is drawn, on a screen of 1280 by 800 *)

Module InitWitness.
Record screen := mk_screen { now : Z; drawn : list (Z * Z) }.
#[export] Instance demo_lib : InitLib screen := {|
  fb_get _ := mret 0x1000; perror _ := mret tt; info_width _ := 1280; info_height _ := 800;
  clock_gettime s := Done (mk_ts (now s / 1000000000 mod 2 ^ 32) (now s mod 1000000000), mk_screen (now s + 1000000) (drawn s));
  fb_draw_rect x y _ _ _ _ := modify (λ s, mk_screen (now s) ((x, y) :: drawn s));
  fb_flip := mret tt;
  nanosleep t := modify (λ s, mk_screen (now s + tv_nsec t) (drawn s));
|}.
#[export] Instance demo_lib_laws : InitLibLaws screen.
Proof.
  split; try by intros; do 2 eexists. intros w. do 2 eexists. split; [reflexivity|]. split; [done|].
  split; apply Z.mod_pos_bound; lia.
Qed.

Lemma init_stays_on_screen_witness : ∃ s w', main 500 (mk_screen 0 []) = Done (s, w') ∧ 0 ≤ sx s ∧ sx s + 100 ≤ 1280 ∧ sy s + 100 ≤ 800.
Proof.
  assert (105 < info_width (mk_screen 0 []) < 2 ^ 31 - 200) as Hw by (change (105 < 1280 < 2 ^ 31 - 200); lia).
  assert (105 < info_height (mk_screen 0 []) < 2 ^ 31 - 200) as Hh by (change (105 < 800 < 2 ^ 31 - 200); lia).
  destruct (init_stays_on_screen 500 (mk_screen 0 []) Hw Hh) as (s & w' & Hr & Hx & _ & _ & _ & Hx' & Hy').
  exists s, w'. split; [exact Hr|]. split; [exact Hx|]. split; [exact (Hx' eq_refl)|exact (Hy' eq_refl)].
Defined.
End InitWitness.
